(** * P7_TOPHITS: the ranked list of top-scoring hits (src/p7_tophits.c)

    A shallow embedding of the hit list of HMMER: the record array
    [unsrt], the array [hit] of pointers into it (the ranking), growth by
    reallocation, sorting, merging of two lists and thresholding.

    The C program works on heap arrays through pointers, so the model has
    a block memory: an address is a block and an offset, an array lives in
    one block, [realloc] may keep the block or move the array to a fresh
    one, and a wrong access (a dangling or null pointer, an index outside
    the block, an uninitialised cell) is undefined behaviour, [None]. *)

From Stdlib Require Import ZArith Lia Floats.SpecFloat.
From stdpp Require Import base option list gmap sorting strings.

Open Scope Z_scope.

(** ** C scalars *)

(** [int] is 32 bits wide; arithmetic on it wraps around. *)
Definition INT_MAX : Z := 2147483647.
Definition wrap_int (x : Z) : Z := (x + 2 ^ 31) mod 2 ^ 32 - 2 ^ 31.

(** [float] and [double] values with the comparisons of IEEE 754: both are
    [spec_float] here, since the list only compares and forwards them. *)
Module Double.
Definition lt (a b : spec_float) : bool := SFltb a b.   (* a < b  *)
Definition gt (a b : spec_float) : bool := SFltb b a.   (* a > b  *)
Definition ge (a b : spec_float) : bool := SFleb b a.   (* a >= b *)
Definition eq (a b : spec_float) : bool := SFeqb a b.   (* a == b *)
Definition is_nan (a : spec_float) : bool :=
  match a with S754_nan => true | _ => false end.
(** [(double) n] for an [int] n, which is exact. *)
Definition of_int (n : Z) : spec_float := binary_normalize 53 1024 n 0 false.
Definition zero : spec_float := S754_zero false.
End Double.

(** Status codes of Easel. *)
Inductive status := eslOK | eslEMEM.

(** ** Pointers *)

Abbreviation block := positive.

Inductive ptr :=
| NULL
| Ptr (b : block) (ofs : Z).

#[global] Instance ptr_eq_dec : EqDecision ptr.
Proof. solve_decision. Defined.

Definition is_null (p : ptr) : bool :=
  match p with NULL => true | Ptr _ _ => false end.

(** [p + i] *)
Definition ptr_add (p : ptr) (i : Z) : option ptr :=
  match p with
  | NULL => None
  | Ptr b o => Some (Ptr b (o + i))
  end.

(** [p - q], defined inside one array only *)
Definition ptr_diff (p q : ptr) : option Z :=
  match p, q with
  | Ptr b o, Ptr b' o' => if decide (b = b') then Some (o - o') else None
  | _, _ => None
  end.

(** ** The structures *)

Module P7_DOMAIN.
Record t := mk {
  bitscore    : spec_float;
  pvalue      : spec_float;
  is_reported : bool;
  ad          : ptr          (* P7_ALIDISPLAY *, owned *)
}.
Definition set_is_reported (v : bool) (d : t) : t :=
  mk (bitscore d) (pvalue d) v (ad d).
End P7_DOMAIN.

Module P7_HIT.
Record t := mk {
  name        : ptr;         (* char *, owned *)
  acc         : ptr;
  desc        : ptr;
  sortkey     : spec_float;
  score       : spec_float;
  pre_score   : spec_float;
  sum_score   : spec_float;
  pvalue      : spec_float;
  pre_pvalue  : spec_float;
  sum_pvalue  : spec_float;
  ndom        : Z;
  nexpected   : spec_float;
  nregions    : Z;
  nclustered  : Z;
  noverlaps   : Z;
  nenvelopes  : Z;
  is_reported : bool;
  nreported   : Z;
  best_domain : Z;
  dcl         : ptr          (* P7_DOMAIN *, owned *)
}.
Definition set_name (v : ptr) (h : t) : t :=
  mk v (acc h) (desc h) (sortkey h) (score h) (pre_score h) (sum_score h)
     (pvalue h) (pre_pvalue h) (sum_pvalue h) (ndom h) (nexpected h)
     (nregions h) (nclustered h) (noverlaps h) (nenvelopes h)
     (is_reported h) (nreported h) (best_domain h) (dcl h).
Definition set_acc (v : ptr) (h : t) : t :=
  mk (name h) v (desc h) (sortkey h) (score h) (pre_score h) (sum_score h)
     (pvalue h) (pre_pvalue h) (sum_pvalue h) (ndom h) (nexpected h)
     (nregions h) (nclustered h) (noverlaps h) (nenvelopes h)
     (is_reported h) (nreported h) (best_domain h) (dcl h).
Definition set_desc (v : ptr) (h : t) : t :=
  mk (name h) (acc h) v (sortkey h) (score h) (pre_score h) (sum_score h)
     (pvalue h) (pre_pvalue h) (sum_pvalue h) (ndom h) (nexpected h)
     (nregions h) (nclustered h) (noverlaps h) (nenvelopes h)
     (is_reported h) (nreported h) (best_domain h) (dcl h).
Definition set_is_reported (v : bool) (h : t) : t :=
  mk (name h) (acc h) (desc h) (sortkey h) (score h) (pre_score h)
     (sum_score h) (pvalue h) (pre_pvalue h) (sum_pvalue h) (ndom h)
     (nexpected h) (nregions h) (nclustered h) (noverlaps h) (nenvelopes h)
     v (nreported h) (best_domain h) (dcl h).
Definition set_nreported (v : Z) (h : t) : t :=
  mk (name h) (acc h) (desc h) (sortkey h) (score h) (pre_score h)
     (sum_score h) (pvalue h) (pre_pvalue h) (sum_pvalue h) (ndom h)
     (nexpected h) (nregions h) (nclustered h) (noverlaps h) (nenvelopes h)
     (is_reported h) v (best_domain h) (dcl h).
(** The record [p7_tophits_CreateNextHit] leaves in a new slot. *)
Definition empty : t :=
  mk NULL NULL NULL Double.zero Double.zero Double.zero Double.zero
     Double.zero Double.zero Double.zero 0 Double.zero 0 0 0 0
     false 0 (-1) NULL.
End P7_HIT.

Module P7_TOPHITS.
Record t := mk {
  hit       : ptr;           (* P7_HIT **: the ranking *)
  unsrt     : ptr;           (* P7_HIT *: the records *)
  Nalloc    : Z;
  N         : Z;
  nreported : Z;
  is_sorted : bool
}.
Definition set_hit (v : ptr) (h : t) : t :=
  mk v (unsrt h) (Nalloc h) (N h) (nreported h) (is_sorted h).
Definition set_unsrt (v : ptr) (h : t) : t :=
  mk (hit h) v (Nalloc h) (N h) (nreported h) (is_sorted h).
Definition set_Nalloc (v : Z) (h : t) : t :=
  mk (hit h) (unsrt h) v (N h) (nreported h) (is_sorted h).
Definition set_N (v : Z) (h : t) : t :=
  mk (hit h) (unsrt h) (Nalloc h) v (nreported h) (is_sorted h).
Definition set_nreported (v : Z) (h : t) : t :=
  mk (hit h) (unsrt h) (Nalloc h) (N h) v (is_sorted h).
Definition set_is_sorted (v : bool) (h : t) : t :=
  mk (hit h) (unsrt h) (Nalloc h) (N h) (nreported h) v.
End P7_TOPHITS.

(** The two fields of the pipeline that thresholding reads and writes; the
    thresholds themselves stay inside the two predicates. *)
Module P7_PIPELINE.
Record t := mk {
  domZ_setby : Z;
  domZ       : spec_float
}.
Definition set_domZ (v : spec_float) (p : t) : t := mk (domZ_setby p) v.
End P7_PIPELINE.

Definition p7_ZSETBY_NTARGETS : Z := 0.

(** ** Memory *)

(** One store per element type: a block holds an array, and a cell of an
    array that was never written is [None]. *)
Record mem := Mem {
  m_hits : gmap block (list (option P7_HIT.t));   (* P7_HIT arrays *)
  m_view : gmap block (list (option ptr));        (* P7_HIT * arrays *)
  m_dom  : gmap block (list P7_DOMAIN.t);         (* P7_DOMAIN arrays *)
  m_str  : gmap block string;                     (* strings *)
  m_ali  : gset block                             (* alignment displays *)
}.

Definition set_hits (s : gmap block (list (option P7_HIT.t))) (m : mem) : mem :=
  Mem s (m_view m) (m_dom m) (m_str m) (m_ali m).
Definition set_view (s : gmap block (list (option ptr))) (m : mem) : mem :=
  Mem (m_hits m) s (m_dom m) (m_str m) (m_ali m).
Definition set_dom (s : gmap block (list P7_DOMAIN.t)) (m : mem) : mem :=
  Mem (m_hits m) (m_view m) s (m_str m) (m_ali m).
Definition set_str (s : gmap block string) (m : mem) : mem :=
  Mem (m_hits m) (m_view m) (m_dom m) s (m_ali m).
Definition set_ali (s : gset block) (m : mem) : mem :=
  Mem (m_hits m) (m_view m) (m_dom m) (m_str m) s.

(** ** The monad of C code: state and undefined behaviour *)

Definition M (A : Type) : Type := mem → option (A * mem).

#[global] Instance M_ret : MRet M := λ A x m, Some (x, m).
#[global] Instance M_bind : MBind M := λ A B k c m,
  match c m with
  | Some (x, m') => k x m'
  | None => None
  end.
Definition ret {A} (x : A) : M A := mret x.
Definition undef {A} : M A := λ _, None.
Definition lift {A} (o : option A) : M A :=
  λ m, match o with Some x => Some (x, m) | None => None end.
Definition get_mem : M mem := λ m, Some (m, m).
Definition put_mem (m : mem) : M unit := λ _, Some (tt, m).

(** [for (i = lo; i < hi; i++) body(i)] *)
Fixpoint for_each (l : list Z) (body : Z → M unit) : M unit :=
  match l with
  | [] => ret tt
  | i :: l' => body i ;; for_each l' body
  end.
Definition for_loop (lo hi : Z) (body : Z → M unit) : M unit :=
  for_each (seqZ lo (hi - lo)) body.

(** A loop that carries a value from one iteration to the next. *)
Fixpoint for_fold {S : Type} (l : list Z) (body : Z → S → M S) (s : S) : M S :=
  match l with
  | [] => ret s
  | i :: l' => s' ← body i s; for_fold l' body s'
  end.

(** ** Arrays in a store *)

(** What the allocator answers to a request: it fails, it serves the
    request in the block the pointer already has, or it moves the array to
    a new block (for [malloc] the last two are the same). *)
Inductive alloc_outcome := AllocFail | AllocInPlace | AllocMoved.

Definition alloc_ok (o : alloc_outcome) : bool :=
  match o with AllocFail => false | _ => true end.

Section Store.
Context {A : Type}.

(** The cell [p[i]] *)
Definition cell_at (s : gmap block (list (option A))) (p : ptr) (i : Z)
  : option (option A) :=
  match p with
  | NULL => None
  | Ptr b o =>
      if 0 <=? o + i then a ← s !! b; a !! Z.to_nat (o + i) else None
  end.

(** Reading [p[i]]: the cell must be inside a live block and written. *)
Definition read_at (s : gmap block (list (option A))) (p : ptr) (i : Z)
  : option A :=
  c ← cell_at s p i; c.

(** Overwriting the cell [p[i]], which must be inside a live block. *)
Definition write_cell (s : gmap block (list (option A))) (p : ptr) (i : Z)
    (c : option A) : option (gmap block (list (option A))) :=
  match p with
  | NULL => None
  | Ptr b o =>
      if 0 <=? o + i then
        a ← s !! b;
        if decide (Z.to_nat (o + i) < length a)%nat
        then Some (<[b := <[Z.to_nat (o + i) := c]> a]> s)
        else None
      else None
  end.

Definition write_at (s : gmap block (list (option A))) (p : ptr) (i : Z) (v : A)
  : option (gmap block (list (option A))) :=
  write_cell s p i (Some v).

(** [malloc] of [n] elements. A negative [n] stands for a size that
    overflowed, which no allocator serves. *)
Definition malloc_in (o : alloc_outcome) (n : Z)
    (s : gmap block (list (option A))) : ptr * gmap block (list (option A)) :=
  if alloc_ok o && (0 <=? n)
  then let b := fresh (dom s) in
       (Ptr b 0, <[b := replicate (Z.to_nat n) None]> s)
  else (NULL, s).

(** [realloc(p, n elements)] for a non-null [p], which must be the start
    of a live block. On failure the old block is left as it was. *)
Definition realloc_in (oc : alloc_outcome) (p : ptr) (n : Z)
    (s : gmap block (list (option A)))
  : option (ptr * gmap block (list (option A))) :=
  match p with
  | NULL => None
  | Ptr b o =>
      if decide (o = 0) then
        a ← s !! b;
        if 0 <=? n then
          match oc with
          | AllocFail => Some (NULL, s)
          | AllocInPlace =>
              Some (Ptr b 0, <[b := resize (Z.to_nat n) None a]> s)
          | AllocMoved =>
              let s' := delete b s in
              let b' := fresh (dom s) in
              Some (Ptr b' 0, <[b' := resize (Z.to_nat n) None a]> s')
          end
        else Some (NULL, s)
      else None
  end.

(** [free(p)]: nothing for a null pointer, else [p] must be the start of
    a live block. *)
Definition free_in (p : ptr) (s : gmap block (list (option A)))
  : option (gmap block (list (option A))) :=
  match p with
  | NULL => Some s
  | Ptr b o =>
      if decide (o = 0) then _ ← s !! b; Some (delete b s) else None
  end.

(** [memcpy(dst, src, n elements)] between two arrays *)
Fixpoint copy_cells (s : gmap block (list (option A))) (dst : ptr)
    (cells : list (option A)) (i : Z)
  : option (gmap block (list (option A))) :=
  match cells with
  | [] => Some s
  | c :: cells' => s' ← write_cell s dst i c; copy_cells s' dst cells' (i + 1)
  end.
Definition memcpy_in (dst src : ptr) (n : Z) (s : gmap block (list (option A)))
  : option (gmap block (list (option A))) :=
  cells ← mapM (cell_at s src) (seqZ 0 n);
  copy_cells s dst cells 0.
End Store.

(** ** Memory accesses of the program *)

Definition load_hit (p : ptr) (i : Z) : M P7_HIT.t :=
  λ m, r ← read_at (m_hits m) p i; Some (r, m).
Definition store_hit (p : ptr) (i : Z) (r : P7_HIT.t) : M unit :=
  λ m, s ← write_at (m_hits m) p i r; Some (tt, set_hits s m).
(** [p[i].field = ...] *)
Definition modify_hit (p : ptr) (i : Z) (f : P7_HIT.t → P7_HIT.t) : M unit :=
  r ← load_hit p i; store_hit p i (f r).

Definition load_view (p : ptr) (i : Z) : M ptr :=
  λ m, v ← read_at (m_view m) p i; Some (v, m).
Definition store_view (p : ptr) (i : Z) (v : ptr) : M unit :=
  λ m, s ← write_at (m_view m) p i v; Some (tt, set_view s m).

Definition read_dom (s : gmap block (list P7_DOMAIN.t)) (p : ptr) (i : Z)
  : option P7_DOMAIN.t :=
  match p with
  | NULL => None
  | Ptr b o => if 0 <=? o + i then a ← s !! b; a !! Z.to_nat (o + i) else None
  end.
Definition write_dom (s : gmap block (list P7_DOMAIN.t)) (p : ptr) (i : Z)
    (d : P7_DOMAIN.t) : option (gmap block (list P7_DOMAIN.t)) :=
  match p with
  | NULL => None
  | Ptr b o =>
      if 0 <=? o + i then
        a ← s !! b;
        if decide (Z.to_nat (o + i) < length a)%nat
        then Some (<[b := <[Z.to_nat (o + i) := d]> a]> s)
        else None
      else None
  end.
Definition load_dom (p : ptr) (i : Z) : M P7_DOMAIN.t :=
  λ m, d ← read_dom (m_dom m) p i; Some (d, m).
Definition store_dom (p : ptr) (i : Z) (d : P7_DOMAIN.t) : M unit :=
  λ m, s ← write_dom (m_dom m) p i d; Some (tt, set_dom s m).
Definition modify_dom (p : ptr) (i : Z) (f : P7_DOMAIN.t → P7_DOMAIN.t) : M unit :=
  d ← load_dom p i; store_dom p i (f d).

(** [ESL_ALLOC(p, n elements)] and [ESL_RALLOC(p, tmp, n elements)] of
    easel.h: the second one allocates when [p] is null and reallocates
    otherwise; [p] is assigned only when the answer is not null, and a null
    answer makes the caller jump to its [ERROR] label with [eslEMEM]. Both
    return the allocator's answer here. *)
Definition ESL_ALLOC_view (o : alloc_outcome) (n : Z) : M ptr :=
  λ m, let '(p, s) := malloc_in o n (m_view m) in Some (p, set_view s m).
Definition ESL_ALLOC_hits (o : alloc_outcome) (n : Z) : M ptr :=
  λ m, let '(p, s) := malloc_in o n (m_hits m) in Some (p, set_hits s m).
Definition ESL_RALLOC_view (o : alloc_outcome) (p : ptr) (n : Z) : M ptr :=
  λ m, if is_null p then ESL_ALLOC_view o n m
       else '(q, s) ← realloc_in o p n (m_view m); Some (q, set_view s m).
Definition ESL_RALLOC_hits (o : alloc_outcome) (p : ptr) (n : Z) : M ptr :=
  λ m, if is_null p then ESL_ALLOC_hits o n m
       else '(q, s) ← realloc_in o p n (m_hits m); Some (q, set_hits s m).

Definition free_view (p : ptr) : M unit :=
  λ m, s ← free_in p (m_view m); Some (tt, set_view s m).
Definition free_hits (p : ptr) : M unit :=
  λ m, s ← free_in p (m_hits m); Some (tt, set_hits s m).
Definition free_dom (p : ptr) : M unit :=
  λ m, match p with
       | NULL => Some (tt, m)
       | Ptr b o =>
           if decide (o = 0)
           then _ ← m_dom m !! b; Some (tt, set_dom (delete b (m_dom m)) m)
           else None
       end.
Definition free_str (p : ptr) : M unit :=
  λ m, match p with
       | NULL => Some (tt, m)
       | Ptr b o =>
           if decide (o = 0)
           then _ ← m_str m !! b; Some (tt, set_str (delete b (m_str m)) m)
           else None
       end.
(** [p7_alidisplay_Destroy(ad)] releases the display. *)
Definition p7_alidisplay_Destroy (p : ptr) : M unit :=
  λ m, match p with
       | NULL => Some (tt, m)
       | Ptr b o =>
           if decide (o = 0 ∧ b ∈ m_ali m)
           then Some (tt, set_ali (m_ali m ∖ {[b]}) m)
           else None
       end.

Definition memcpy_hits (dst src : ptr) (n : Z) : M unit :=
  λ m, s ← memcpy_in dst src n (m_hits m); Some (tt, set_hits s m).

(** ** The P7_TOPHITS object *)

(** The structure itself is passed by value and handed back by every
    function that assigns to a field of it (in C it is reached through a
    pointer, and two lists given to one call are two different objects).
    Its two arrays live in memory. A null [P7_TOPHITS *] is [None]. *)

Definition default_nalloc : Z := 256.

(** [p7_tophits_Destroy()] *)
Definition p7_tophits_Destroy (h : option P7_TOPHITS.t) : M unit :=
  match h with
  | None => ret tt
  | Some h =>
      (if is_null (P7_TOPHITS.hit h) then ret tt
       else free_view (P7_TOPHITS.hit h));;
      (if is_null (P7_TOPHITS.unsrt h) then ret tt
       else
         for_loop 0 (P7_TOPHITS.N h) (λ i,
           r ← load_hit (P7_TOPHITS.unsrt h) i;
           (if is_null (P7_HIT.name r) then ret tt else free_str (P7_HIT.name r));;
           (if is_null (P7_HIT.acc r) then ret tt else free_str (P7_HIT.acc r));;
           (if is_null (P7_HIT.desc r) then ret tt else free_str (P7_HIT.desc r));;
           (if is_null (P7_HIT.dcl r) then ret tt
            else
              for_loop 0 (P7_HIT.ndom r) (λ j,
                d ← load_dom (P7_HIT.dcl r) j;
                if is_null (P7_DOMAIN.ad d) then ret tt
                else p7_alidisplay_Destroy (P7_DOMAIN.ad d));;
              free_dom (P7_HIT.dcl r)));;
         free_hits (P7_TOPHITS.unsrt h))
      (* free(h) *)
  end.

(** [p7_tophits_Create()]. [o0], [o1] and [o2] are the allocator's answers
    for the structure and its two arrays. The integer fields of a
    structure that was not filled yet are written 0; the [ERROR] path
    does not read them, because [unsrt] is null whenever it is taken. *)
Definition p7_tophits_Create (o0 o1 o2 : alloc_outcome) : M (option P7_TOPHITS.t) :=
  if alloc_ok o0 then
    let h := P7_TOPHITS.mk NULL NULL 0 0 0 false in
    p ← ESL_ALLOC_view o1 default_nalloc;
    if is_null p then p7_tophits_Destroy (Some h);; ret None
    else
      let h := P7_TOPHITS.set_hit p h in
      p ← ESL_ALLOC_hits o2 default_nalloc;
      if is_null p then p7_tophits_Destroy (Some h);; ret None
      else
        let h := P7_TOPHITS.set_unsrt p h in
        let h := P7_TOPHITS.set_Nalloc default_nalloc h in
        let h := P7_TOPHITS.set_N 0 h in
        let h := P7_TOPHITS.set_nreported 0 h in
        let h := P7_TOPHITS.set_is_sorted true h in
        store_view (P7_TOPHITS.hit h) 0 (P7_TOPHITS.unsrt h);;
        ret (Some h)
  else p7_tophits_Destroy None;; ret None.

(** The translation of the pointers of a ranking after its record array
    moved: [hit[i] = unsrt + (hit[i] - ori)] for [i < n]. *)
Definition rebase_view (hit unsrt ori : ptr) (n : Z) : M unit :=
  for_loop 0 n (λ i,
    v ← load_view hit i;
    d ← lift (ptr_diff v ori);
    q ← lift (ptr_add unsrt d);
    store_view hit i q).

(** [p7_tophits_Grow()]. [o1] and [o2] answer its two reallocations. *)
Definition p7_tophits_Grow (o1 o2 : alloc_outcome) (h : P7_TOPHITS.t)
  : M (status * P7_TOPHITS.t) :=
  let ori := P7_TOPHITS.unsrt h in
  let Nalloc := wrap_int (P7_TOPHITS.Nalloc h * 2) in
  if P7_TOPHITS.N h <? P7_TOPHITS.Nalloc h then ret (eslOK, h)
  else
    p ← ESL_RALLOC_view o1 (P7_TOPHITS.hit h) Nalloc;
    if is_null p then ret (eslEMEM, h)
    else
      let h := P7_TOPHITS.set_hit p h in
      p ← ESL_RALLOC_hits o2 (P7_TOPHITS.unsrt h) Nalloc;
      if is_null p then ret (eslEMEM, h)
      else
        let h := P7_TOPHITS.set_unsrt p h in
        (if P7_TOPHITS.is_sorted h
         then rebase_view (P7_TOPHITS.hit h) (P7_TOPHITS.unsrt h) ori (P7_TOPHITS.N h)
         else ret tt);;
        ret (eslOK, P7_TOPHITS.set_Nalloc Nalloc h).

(** [p7_tophits_CreateNextHit()]: the status, [*ret_hit] and the list.
    The twenty assignments to the fields of the new record are one write
    of [P7_HIT.empty]. *)
Definition p7_tophits_CreateNextHit (o1 o2 : alloc_outcome) (h : P7_TOPHITS.t)
  : M (status * ptr * P7_TOPHITS.t) :=
  '(st, h) ← p7_tophits_Grow o1 o2 h;
  match st with
  | eslOK =>
      hit ← lift (ptr_add (P7_TOPHITS.unsrt h) (P7_TOPHITS.N h));
      let h := P7_TOPHITS.set_N (wrap_int (P7_TOPHITS.N h + 1)) h in
      let h := if 2 <=? P7_TOPHITS.N h then P7_TOPHITS.set_is_sorted false h else h in
      store_hit hit 0 P7_HIT.empty;;
      ret (eslOK, hit, h)
  | _ => ret (st, NULL, h)
  end.

(** [hit_sorter()], on the two pointers the array elements hold. A pointer
    that cannot be read gives 0 here; [qsort_view] below never hands one
    to it. *)
Definition hit_sorter (m : mem) (h1 h2 : ptr) : Z :=
  match read_at (m_hits m) h1 0, read_at (m_hits m) h2 0 with
  | Some r1, Some r2 =>
      if Double.lt (P7_HIT.sortkey r1) (P7_HIT.sortkey r2) then 1
      else if Double.gt (P7_HIT.sortkey r1) (P7_HIT.sortkey r2) then -1
      else 0
  | _, _ => 0
  end.

Definition readable_hit (m : mem) (p : ptr) : bool :=
  bool_decide (is_Some (read_at (m_hits m) p 0)).

(** The first [n] elements of an array of pointers *)
Definition read_view (p : ptr) (n : Z) : M (list ptr) :=
  λ m, l ← mapM (read_at (m_view m) p) (seqZ 0 n); Some (l, m).
Fixpoint write_view (p : ptr) (i : Z) (l : list ptr) : M unit :=
  match l with
  | [] => ret tt
  | v :: l' => store_view p i v;; write_view p (i + 1) l'
  end.

Section WithQsort.
(** [qsort] of the C library, as a function from the comparison and the
    elements of the array to the elements in their new order. What the C
    standard promises of it is [qsort_contract], further down. *)
Variable qsort : (ptr → ptr → Z) → list ptr → list ptr.

(** [qsort(base, n, sizeof(P7_HIT * ), hit_sorter)] *)
Definition qsort_view (base : ptr) (n : Z) : M unit :=
  l ← read_view base n;
  m ← get_mem;
  if forallb (readable_hit m) l
  then write_view base 0 (qsort (hit_sorter m) l)
  else undef.

(** [p7_tophits_Sort()] *)
Definition p7_tophits_Sort (h : P7_TOPHITS.t) : M (status * P7_TOPHITS.t) :=
  if P7_TOPHITS.is_sorted h then ret (eslOK, h)
  else
    for_loop 0 (P7_TOPHITS.N h) (λ i,
      p ← lift (ptr_add (P7_TOPHITS.unsrt h) i);
      store_view (P7_TOPHITS.hit h) i p);;
    (if 1 <? P7_TOPHITS.N h
     then qsort_view (P7_TOPHITS.hit h) (P7_TOPHITS.N h)
     else ret tt);;
    ret (eslOK, P7_TOPHITS.set_is_sorted true h).

(** The three loops that merge the two rankings into [new_hit]. Each
    turn of a loop uses one unit of [fuel]; [p7_tophits_Merge] gives
    them more than they can use. *)
Fixpoint merge_both (fuel : nat) (h1 h2 : P7_TOPHITS.t) (new_hit new2 : ptr)
    (i j k : Z) : M (Z * Z * Z) :=
  if (i <? P7_TOPHITS.N h1) && (j <? P7_TOPHITS.N h2) then
    match fuel with
    | O => undef
    | S fuel' =>
        p2 ← load_view (P7_TOPHITS.hit h2) j;
        r2 ← load_hit p2 0;
        p1 ← load_view (P7_TOPHITS.hit h1) i;
        r1 ← load_hit p1 0;
        if Double.gt (P7_HIT.sortkey r2) (P7_HIT.sortkey r1) then
          d ← lift (ptr_diff p2 (P7_TOPHITS.unsrt h2));
          q ← lift (ptr_add new2 d);
          store_view new_hit k q;;
          merge_both fuel' h1 h2 new_hit new2 i (j + 1) (wrap_int (k + 1))
        else
          store_view new_hit k p1;;
          merge_both fuel' h1 h2 new_hit new2 (i + 1) j (wrap_int (k + 1))
    end
  else ret (i, j, k).

Fixpoint merge_rest1 (fuel : nat) (h1 : P7_TOPHITS.t) (new_hit : ptr)
    (i k : Z) : M (Z * Z) :=
  if i <? P7_TOPHITS.N h1 then
    match fuel with
    | O => undef
    | S fuel' =>
        p1 ← load_view (P7_TOPHITS.hit h1) i;
        store_view new_hit k p1;;
        merge_rest1 fuel' h1 new_hit (i + 1) (wrap_int (k + 1))
    end
  else ret (i, k).

Fixpoint merge_rest2 (fuel : nat) (h2 : P7_TOPHITS.t) (new_hit new2 : ptr)
    (j k : Z) : M (Z * Z) :=
  if j <? P7_TOPHITS.N h2 then
    match fuel with
    | O => undef
    | S fuel' =>
        p2 ← load_view (P7_TOPHITS.hit h2) j;
        d ← lift (ptr_diff p2 (P7_TOPHITS.unsrt h2));
        q ← lift (ptr_add new2 d);
        store_view new_hit k q;;
        merge_rest2 fuel' h2 new_hit new2 (j + 1) (wrap_int (k + 1))
    end
  else ret (j, k).

(** [p7_tophits_Merge()]: the status and the two lists. [o1] answers the
    reallocation of [h1->unsrt], [o2] the allocation of [new_hit]. *)
Definition p7_tophits_Merge (o1 o2 : alloc_outcome) (h1 h2 : P7_TOPHITS.t)
  : M (status * P7_TOPHITS.t * P7_TOPHITS.t) :=
  let ori1 := P7_TOPHITS.unsrt h1 in
  let Nalloc := wrap_int (P7_TOPHITS.Nalloc h1 + P7_TOPHITS.Nalloc h2) in
  '(st, h1) ← p7_tophits_Sort h1;
  match st with
  | eslOK =>
    '(st, h2) ← p7_tophits_Sort h2;
    match st with
    | eslOK =>
      p ← ESL_RALLOC_hits o1 (P7_TOPHITS.unsrt h1) Nalloc;
      if is_null p then ret (eslEMEM, h1, h2)
      else
        let h1 := P7_TOPHITS.set_unsrt p h1 in
        new_hit ← ESL_ALLOC_view o2 Nalloc;
        if is_null new_hit then ret (eslEMEM, h1, h2)
        else
          rebase_view (P7_TOPHITS.hit h1) (P7_TOPHITS.unsrt h1) ori1 (P7_TOPHITS.N h1);;
          new2 ← lift (ptr_add (P7_TOPHITS.unsrt h1) (P7_TOPHITS.N h1));
          memcpy_hits new2 (P7_TOPHITS.unsrt h2) (P7_TOPHITS.N h2);;
          let fuel := Z.to_nat (P7_TOPHITS.N h1 + P7_TOPHITS.N h2) in
          '(i, j, k) ← merge_both fuel h1 h2 new_hit new2 0 0 0;
          '(i, k) ← merge_rest1 fuel h1 new_hit i k;
          '(j, k) ← merge_rest2 fuel h2 new_hit new2 j k;
          for_loop 0 (P7_TOPHITS.N h2) (λ i,
            modify_hit (P7_TOPHITS.unsrt h2) i (P7_HIT.set_name NULL);;
            modify_hit (P7_TOPHITS.unsrt h2) i (P7_HIT.set_acc NULL);;
            modify_hit (P7_TOPHITS.unsrt h2) i (P7_HIT.set_desc NULL));;
          free_view (P7_TOPHITS.hit h1);;
          let h1 := P7_TOPHITS.set_hit new_hit h1 in
          let h1 := P7_TOPHITS.set_Nalloc Nalloc h1 in
          let h1 := P7_TOPHITS.set_N (wrap_int (P7_TOPHITS.N h1 + P7_TOPHITS.N h2)) h1 in
          ret (eslOK, h1, h2)
    | _ => ret (st, h1, h2)
    end
  | _ => ret (st, h1, h2)
  end.
End WithQsort.

Section WithPipeline.
(** [p7_pli_TargetReportable()] and [p7_pli_DomainReportable()] of the
    pipeline, the two predicates on a score and its P-value. *)
Variable p7_pli_TargetReportable : P7_PIPELINE.t → spec_float → spec_float → bool.
Variable p7_pli_DomainReportable : P7_PIPELINE.t → spec_float → spec_float → bool.

(** [p7_tophits_Threshold()]: the status, the list and the pipeline *)
Definition p7_tophits_Threshold (th : P7_TOPHITS.t) (pli : P7_PIPELINE.t)
  : M (status * P7_TOPHITS.t * P7_PIPELINE.t) :=
  let th := P7_TOPHITS.set_nreported 0 th in
  th ← for_fold (seqZ 0 (P7_TOPHITS.N th)) (λ h th,
         p ← load_view (P7_TOPHITS.hit th) h;
         r ← load_hit p 0;
         if p7_pli_TargetReportable pli (P7_HIT.score r) (P7_HIT.pvalue r) then
           modify_hit p 0 (P7_HIT.set_is_reported true);;
           ret (P7_TOPHITS.set_nreported (wrap_int (P7_TOPHITS.nreported th + 1)) th)
         else ret th) th;
  let pli :=
    if decide (P7_PIPELINE.domZ_setby pli = p7_ZSETBY_NTARGETS)
    then P7_PIPELINE.set_domZ (Double.of_int (P7_TOPHITS.nreported th)) pli
    else pli in
  for_loop 0 (P7_TOPHITS.N th) (λ h,
    p ← load_view (P7_TOPHITS.hit th) h;
    r ← load_hit p 0;
    if P7_HIT.is_reported r then
      for_loop 0 (P7_HIT.ndom r) (λ d,
        r ← load_hit p 0;
        b ← (if decide (P7_HIT.best_domain r = d) then ret true
             else
               dm ← load_dom (P7_HIT.dcl r) d;
               ret (p7_pli_DomainReportable pli (P7_DOMAIN.bitscore dm)
                                            (P7_DOMAIN.pvalue dm)));
        if b : bool then
          modify_hit p 0 (λ r, P7_HIT.set_nreported (wrap_int (P7_HIT.nreported r + 1)) r);;
          modify_dom (P7_HIT.dcl r) d (P7_DOMAIN.set_is_reported true)
        else ret tt)
    else ret tt);;
  ret (eslOK, th, pli).
End WithPipeline.

(** ** What the statements speak of *)

Definition block_of (p : ptr) : option block :=
  match p with NULL => None | Ptr b _ => Some b end.

(** The addresses [unsrt + 0 .. unsrt + N-1] of the records of a list *)
Definition record_ptrs (h : P7_TOPHITS.t) : list ptr :=
  match P7_TOPHITS.unsrt h with
  | NULL => []
  | Ptr b o => (λ i, Ptr b (o + i)) <$> seqZ 0 (P7_TOPHITS.N h)
  end.

(** The records of a list, in the order of the array *)
Definition records (m : mem) (h : P7_TOPHITS.t) : option (list P7_HIT.t) :=
  mapM (read_at (m_hits m) (P7_TOPHITS.unsrt h)) (seqZ 0 (P7_TOPHITS.N h)).

(** The ranking: [hit[0] .. hit[N-1]], and the records they point to *)
Definition view_ptrs (m : mem) (h : P7_TOPHITS.t) : option (list ptr) :=
  mapM (read_at (m_view m) (P7_TOPHITS.hit h)) (seqZ 0 (P7_TOPHITS.N h)).
Definition view_records (m : mem) (h : P7_TOPHITS.t) : option (list P7_HIT.t) :=
  l ← view_ptrs m h; mapM (λ p, read_at (m_hits m) p 0) l.
Definition view_keys (m : mem) (h : P7_TOPHITS.t) : option (list spec_float) :=
  (λ rs : list P7_HIT.t, P7_HIT.sortkey <$> rs) <$> view_records m h.

(** [k0 >= k1 >= ...] on neighbours, with the [>=] of C *)
Fixpoint descending (ks : list spec_float) : bool :=
  match ks with
  | a :: (b :: _) as t => Double.ge a b && descending t
  | _ => true
  end.

Definition nan_free (ks : list spec_float) : bool :=
  forallb (λ k, negb (Double.is_nan k)) ks.

(** The ranking is in order when it holds each record's address once and
    no entry has a smaller key than its successor: what [qsort] with
    [hit_sorter], and the merge of two such rankings, leave behind. *)
Definition ranked (m : mem) (h : P7_TOPHITS.t) : Prop :=
  ∃ l, view_ptrs m h = Some l ∧ l ≡ₚ record_ptrs h ∧
       Sorted (λ p q, hit_sorter m p q ≤ 0) l.

(** The representation invariant of a list: the sizes are those of an
    [int], both arrays are live blocks with room for [Nalloc] elements,
    the first [N] records are filled in, and the sorted flag tells the
    truth. *)
Record valid_tophits (m : mem) (h : P7_TOPHITS.t) : Prop := {
  vt_N : 0 ≤ P7_TOPHITS.N h ≤ P7_TOPHITS.Nalloc h;
  vt_Nalloc : 0 < P7_TOPHITS.Nalloc h ≤ INT_MAX;
  vt_unsrt : ∃ b a, P7_TOPHITS.unsrt h = Ptr b 0 ∧ m_hits m !! b = Some a ∧
               (Z.to_nat (P7_TOPHITS.Nalloc h) ≤ length a)%nat ∧
               ∀ i, (i < Z.to_nat (P7_TOPHITS.N h))%nat → ∃ r, a !! i = Some (Some r);
  vt_hit : ∃ b w, P7_TOPHITS.hit h = Ptr b 0 ∧ m_view m !! b = Some w ∧
             (Z.to_nat (P7_TOPHITS.Nalloc h) ≤ length w)%nat;
  vt_sorted : P7_TOPHITS.is_sorted h = true → ranked m h
}.

(** Two lists that share no array *)
Definition separate (h1 h2 : P7_TOPHITS.t) : Prop :=
  block_of (P7_TOPHITS.unsrt h1) ≠ block_of (P7_TOPHITS.unsrt h2) ∧
  block_of (P7_TOPHITS.hit h1) ≠ block_of (P7_TOPHITS.hit h2).

(** What the C standard asks of the comparison given to [qsort], on the
    elements of the array: it orders any two of them, consistently. *)
Definition consistent (cmp : ptr → ptr → Z) (l : list ptr) : Prop :=
  (∀ a b, a ∈ l → b ∈ l → cmp a b ≤ 0 ∨ cmp b a ≤ 0) ∧
  (∀ a b c, a ∈ l → b ∈ l → c ∈ l → cmp a b ≤ 0 → cmp b c ≤ 0 → cmp a c ≤ 0).

(** What the C standard promises of [qsort] in return: the same elements,
    in ascending order of the comparison. *)
Definition qsort_contract (qsort : (ptr → ptr → Z) → list ptr → list ptr) : Prop :=
  ∀ cmp l, consistent cmp l →
    qsort cmp l ≡ₚ l ∧ Sorted (λ a b, cmp a b ≤ 0) (qsort cmp l).

(** One sorting function that keeps this promise, to run the model with *)
Fixpoint insert_by (cmp : ptr → ptr → Z) (x : ptr) (l : list ptr) : list ptr :=
  match l with
  | [] => [x]
  | y :: l' => if cmp x y <=? 0 then x :: l else y :: insert_by cmp x l'
  end.
Definition insertion_sort (cmp : ptr → ptr → Z) (l : list ptr) : list ptr :=
  foldr (insert_by cmp) [] l.

(** The caller's part of the two-phase append: filling in the new record *)
Definition fill_hit (p : ptr) (r : P7_HIT.t) : M unit := store_hit p 0 r.

(** A record that has only a sort key, and one that also has domains *)
Definition keyed (k : spec_float) : P7_HIT.t :=
  P7_HIT.mk NULL NULL NULL k Double.zero Double.zero Double.zero
     Double.zero Double.zero Double.zero 0 Double.zero 0 0 0 0
     false 0 (-1) NULL.
Definition with_domains (k : spec_float) (ndom best : Z) (dcl : ptr) : P7_HIT.t :=
  P7_HIT.mk NULL NULL NULL k Double.zero Double.zero Double.zero
     Double.zero Double.zero Double.zero ndom Double.zero 0 0 0 0
     false 0 best dcl.

Definition empty_mem : mem := Mem ∅ ∅ ∅ ∅ ∅.

(** Lists that are built by appending records with the given keys to a
    new list; allocation never fails here. *)
Definition append_key (k : spec_float) (h : P7_TOPHITS.t) : M P7_TOPHITS.t :=
  '(st, p, h) ← p7_tophits_CreateNextHit AllocMoved AllocMoved h;
  match st with
  | eslOK => fill_hit p (keyed k);; ret h
  | _ => undef
  end.
Fixpoint append_keys (ks : list spec_float) (h : P7_TOPHITS.t) : M P7_TOPHITS.t :=
  match ks with
  | [] => ret h
  | k :: ks' => h ← append_key k h; append_keys ks' h
  end.
Definition build (ks : list spec_float) : M P7_TOPHITS.t :=
  h ← p7_tophits_Create AllocMoved AllocMoved AllocMoved;
  match h with
  | Some h => append_keys ks h
  | None => undef
  end.

(** The lists a caller gets by creating one, appending to it and sorting
    it. The memory a step starts from is any memory (the caller fills in
    records between the calls). [history qsort n s h]: [h] holds [n]
    records by its history of calls, and [s] tells whether the last of
    them was a sort. *)
Inductive history (qsort : (ptr → ptr → Z) → list ptr → list ptr)
  : nat → bool → P7_TOPHITS.t → Prop :=
| history_create o0 o1 o2 m h m' :
    p7_tophits_Create o0 o1 o2 m = Some (Some h, m') →
    history qsort 0 false h
| history_append n s h o1 o2 m p h' m' :
    history qsort n s h →
    p7_tophits_CreateNextHit o1 o2 h m = Some (eslOK, p, h', m') →
    history qsort (S n) false h'
| history_sort n s h m h' m' :
    history qsort n s h →
    p7_tophits_Sort qsort h m = Some (eslOK, h', m') →
    history qsort n true h'.

(** A test for [valid_tophits] that computes *)
Definition rankedb (m : mem) (h : P7_TOPHITS.t) : bool :=
  match view_ptrs m h with
  | Some l => bool_decide (l ≡ₚ record_ptrs h) &&
              bool_decide (Sorted (λ p q, hit_sorter m p q ≤ 0) l)
  | None => false
  end.
Definition valid_tophitsb (m : mem) (h : P7_TOPHITS.t) : bool :=
  bool_decide (0 ≤ P7_TOPHITS.N h ≤ P7_TOPHITS.Nalloc h) &&
  bool_decide (0 < P7_TOPHITS.Nalloc h ≤ INT_MAX) &&
  match P7_TOPHITS.unsrt h, P7_TOPHITS.hit h with
  | Ptr b 0, Ptr bv 0 =>
      match m_hits m !! b, m_view m !! bv with
      | Some a, Some w =>
          bool_decide (Z.to_nat (P7_TOPHITS.Nalloc h) ≤ length a)%nat &&
          bool_decide (Z.to_nat (P7_TOPHITS.N h) ≤ length a)%nat &&
          forallb (λ c : option P7_HIT.t, bool_decide (is_Some c))
                  (take (Z.to_nat (P7_TOPHITS.N h)) a) &&
          bool_decide (Z.to_nat (P7_TOPHITS.Nalloc h) ≤ length w)%nat &&
          (if P7_TOPHITS.is_sorted h then rankedb m h else true)
      | _, _ => false
      end
  | _, _ => false
  end.

(** No sort key of the list is a NaN, so any two of them compare. *)
Definition comparable_keys (m : mem) (h : P7_TOPHITS.t) : bool :=
  match records m h with
  | Some rs => nan_free (P7_HIT.sortkey <$> rs)
  | None => false
  end.

(** A pointer to a record that can be read and has a key that compares *)
Definition good_ptr (m : mem) (p : ptr) : Prop :=
  ∃ r, read_at (m_hits m) p 0 = Some r ∧ Double.is_nan (P7_HIT.sortkey r) = false.

(** The sort key behind a pointer (a NaN if there is no record there) *)
Definition key_in (s : gmap block (list (option P7_HIT.t))) (p : ptr) : spec_float :=
  match read_at s p 0 with
  | Some r => P7_HIT.sortkey r
  | None => S754_nan
  end.
Definition key_of (m : mem) (p : ptr) : spec_float := key_in (m_hits m) p.

(** The translation of a pointer into the array at [unsrt] to the same
    record of the array at [new2]: [new2 + (p - unsrt)] *)
Definition translate (new2 unsrt p : ptr) : ptr :=
  match ptr_diff p unsrt with
  | Some d => default NULL (ptr_add new2 d)
  | None => NULL
  end.

(** What the three loops of [p7_tophits_Merge] compute, as a function on
    the two rankings: the next entry is the donor's when its key is
    greater, else the recipient's. *)
Fixpoint merge_by (key : ptr → spec_float) (l1 : list ptr) : list ptr → list ptr :=
  fix go (l2 : list ptr) : list ptr :=
    match l1, l2 with
    | [], _ => l2
    | _, [] => l1
    | a :: l1', b :: l2' =>
        if Double.gt (key b) (key a) then b :: go l2' else a :: merge_by key l1' l2
    end.

(** A record after the donor gave up its strings *)
Definition null_strings (r : P7_HIT.t) : P7_HIT.t :=
  P7_HIT.set_desc NULL (P7_HIT.set_acc NULL (P7_HIT.set_name NULL r)).

Section Counting.
Variable p7_pli_DomainReportable : P7_PIPELINE.t → spec_float → spec_float → bool.

(** The test of the second pass of [p7_tophits_Threshold] on domain [d]
    of the record [r], in a memory: [None] if it reads outside the
    domain array. *)
Definition domain_counts (pli : P7_PIPELINE.t) (m : mem) (r : P7_HIT.t) (d : Z)
  : option bool :=
  if decide (P7_HIT.best_domain r = d) then Some true
  else dm ← read_dom (m_dom m) (P7_HIT.dcl r) d;
       Some (p7_pli_DomainReportable pli (P7_DOMAIN.bitscore dm) (P7_DOMAIN.pvalue dm)).
End Counting.

(** A counter of type [int] after one [++] for each [true] *)
Definition bump (bs : list bool) (n : Z) : Z :=
  foldl (λ n (b : bool), if b then wrap_int (n + 1) else n) n bs.

(** How many are [true] *)
Definition count_true (bs : list bool) : Z :=
  Z.of_nat (length (filter (λ b : bool, b = true) bs)).

(** Two records that differ at most in the marks that thresholding sets,
    and two domains that differ at most in their flag *)
Definition same_payload (r r' : P7_HIT.t) : Prop :=
  P7_HIT.set_is_reported true (P7_HIT.set_nreported 0 r)
  = P7_HIT.set_is_reported true (P7_HIT.set_nreported 0 r').
Definition flag_raised (d d' : P7_DOMAIN.t) : Prop :=
  P7_DOMAIN.set_is_reported true d = P7_DOMAIN.set_is_reported true d' ∧
  (P7_DOMAIN.is_reported d = true → P7_DOMAIN.is_reported d' = true).

(** The domain arrays of [m'] are those of [m] with some flags raised. *)
Definition dom_ext (m m' : mem) : Prop :=
  ∀ p i, option_Forall2 flag_raised (read_dom (m_dom m) p i) (read_dom (m_dom m') p i).

(** What the two passes of [p7_tophits_Threshold] do to one record *)
Section Passes.
Variable p7_pli_TargetReportable : P7_PIPELINE.t → spec_float → spec_float → bool.
Variable p7_pli_DomainReportable : P7_PIPELINE.t → spec_float → spec_float → bool.

(** The record [r] after the first pass *)
Definition first_pass_on (pli : P7_PIPELINE.t) (r : P7_HIT.t) : P7_HIT.t :=
  if p7_pli_TargetReportable pli (P7_HIT.score r) (P7_HIT.pvalue r)
  then P7_HIT.set_is_reported true r else r.

(** What the second pass has done to the record at [q], which was [r] *)
Definition second_pass_at (pli : P7_PIPELINE.t) (m m' : mem) (q : ptr)
    (r : P7_HIT.t) : Prop :=
  if P7_HIT.is_reported r then
    ∃ bs, Forall2 (λ d b, domain_counts p7_pli_DomainReportable pli m r d = Some b)
                  (seqZ 0 (P7_HIT.ndom r)) bs ∧
      read_at (m_hits m') q 0
        = Some (P7_HIT.set_nreported (bump bs (P7_HIT.nreported r)) r) ∧
      (∀ i d, seqZ 0 (P7_HIT.ndom r) !! i = Some d → bs !! i = Some true →
         ∃ dm, read_dom (m_dom m') (P7_HIT.dcl r) d = Some dm ∧
               P7_DOMAIN.is_reported dm = true)
  else read_at (m_hits m') q 0 = Some r.
End Passes.

(** What [p7_tophits_Threshold] needs of the records it visits: each of
    them can be read, and its domain array has the [ndom] domains it
    speaks of. The second definition is a test that computes. *)
Definition domains_readable (m : mem) (ps : list ptr) : Prop :=
  ∀ p, p ∈ ps → ∃ r, read_at (m_hits m) p 0 = Some r ∧
    ∀ d, 0 ≤ d < P7_HIT.ndom r → is_Some (read_dom (m_dom m) (P7_HIT.dcl r) d).
Definition domains_readableb (m : mem) (ps : list ptr) : bool :=
  forallb (λ p,
    match read_at (m_hits m) p 0 with
    | Some r => forallb (λ d, bool_decide (is_Some (read_dom (m_dom m) (P7_HIT.dcl r) d)))
                        (seqZ 0 (P7_HIT.ndom r))
    | None => false
    end) ps.

(** ** Small lists to run the model on *)

Definition one : spec_float := Double.of_int 1.
Definition two : spec_float := Double.of_int 2.

(** A record with a sort key and a number in [nregions] to tell it from
    the others *)
Definition tagged (k : spec_float) (tag : Z) : P7_HIT.t :=
  P7_HIT.mk NULL NULL NULL k Double.zero Double.zero Double.zero
     Double.zero Double.zero Double.zero 0 Double.zero tag 0 0 0
     false 0 (-1) NULL.

(** A list of one record, ranked, with no room left: the record array is
    block [b] of the records and the ranking is block [b] of the pointers. *)
Definition single (b : block) : P7_TOPHITS.t :=
  P7_TOPHITS.mk (Ptr b 0) (Ptr b 0) 1 1 0 true.
(** A list of two records that was not sorted yet *)
Definition pair_unsorted (b : block) : P7_TOPHITS.t :=
  P7_TOPHITS.mk (Ptr b 0) (Ptr b 0) 2 2 0 false.

(** Two lists of one record each, with the same key *)
Definition tie_mem : mem :=
  Mem {[1%positive := [Some (tagged one 1)]; 2%positive := [Some (tagged one 2)]]}
      {[1%positive := [Some (Ptr 1 0)]; 2%positive := [Some (Ptr 2 0)]]} ∅ ∅ ∅.

(** A list of two records with the keys 1 and 2, never sorted (its ranking
    was not written yet), and a list of one record *)
Definition unsorted_mem : mem :=
  Mem {[1%positive := [Some (tagged one 1); Some (tagged two 2)];
        2%positive := [Some (tagged one 3)]]}
      {[1%positive := [None; None]; 2%positive := [Some (Ptr 2 0)]]} ∅ ∅ ∅.

(** Two lists of one record each, the key of the first one a NaN *)
Definition nan_mem : mem :=
  Mem {[1%positive := [Some (tagged S754_nan 1)]; 2%positive := [Some (tagged one 2)]]}
      {[1%positive := [Some (Ptr 1 0)]; 2%positive := [Some (Ptr 2 0)]]} ∅ ∅ ∅.

(** A list of two records, one of them with a NaN for its key, never sorted *)
Definition nan_unsorted_mem : mem :=
  Mem {[1%positive := [Some (tagged S754_nan 1); Some (tagged one 2)]]}
      {[1%positive := [None; None]]} ∅ ∅ ∅.

(** A list whose one record has two domains, the first of them its best *)
Definition domain_mem : mem :=
  Mem {[1%positive := [Some (with_domains one 2 0 (Ptr 1 0))]]}
      {[1%positive := [Some (Ptr 1 0)]]}
      {[1%positive := [P7_DOMAIN.mk one Double.zero false NULL;
                       P7_DOMAIN.mk two Double.zero false NULL]]} ∅ ∅.

(** A recipient of one record, and a donor whose one record owns a name
    and an array of one domain *)
Definition donor_hit : P7_HIT.t :=
  P7_HIT.set_name (Ptr 1 0) (with_domains one 1 0 (Ptr 1 0)).
Definition owner_mem : mem :=
  Mem {[1%positive := [Some (tagged two 1)]; 2%positive := [Some donor_hit]]}
      {[1%positive := [Some (Ptr 1 0)]; 2%positive := [Some (Ptr 2 0)]]}
      {[1%positive := [P7_DOMAIN.mk one Double.zero false NULL]]}
      {[1%positive := "seq1"%string]} ∅.

(** A pipeline that sets [domZ] from the number of targets, and simple
    predicates: every target is reportable; a domain is reportable if its
    bit score is at least 2, or never. *)
Definition pli0 : P7_PIPELINE.t := P7_PIPELINE.mk p7_ZSETBY_NTARGETS Double.zero.
Definition any_target (pli : P7_PIPELINE.t) (score pvalue : spec_float) : bool := true.
Definition domain_above_two (pli : P7_PIPELINE.t) (bitscore pvalue : spec_float) : bool :=
  Double.ge bitscore two.
Definition no_domain (pli : P7_PIPELINE.t) (bitscore pvalue : spec_float) : bool := false.

(** ** The rest of the object: reuse and the longest name *)

(** [strlen(p)], for a pointer into a live string *)
Definition strlen (p : ptr) : M Z :=
  λ m, match p with
       | NULL => None
       | Ptr b o =>
           s ← m_str m !! b;
           if decide (0 ≤ o ≤ Z.of_nat (String.length s))
           then Some (Z.of_nat (String.length s) - o, m)
           else None
       end.

(** [ESL_MAX(a,b)] of easel.h: [(((a)>(b))?(a):(b))] *)
Definition ESL_MAX (a b : Z) : Z := if b <? a then a else b.

(** [p7_tophits_GetMaxNameLength()]. The [size_t] of [strlen] is assigned
    to the [int n]. *)
Definition p7_tophits_GetMaxNameLength (h : P7_TOPHITS.t) : M Z :=
  for_fold (seqZ 0 (P7_TOPHITS.N h)) (λ i max,
    r ← load_hit (P7_TOPHITS.unsrt h) i;
    if is_null (P7_HIT.name r) then ret max
    else
      n ← strlen (P7_HIT.name r);
      let n := wrap_int n in
      ret (ESL_MAX n max)) 0.

(** [p7_tophits_Reuse()]: the status and the list *)
Definition p7_tophits_Reuse (h : option P7_TOPHITS.t)
  : M (status * option P7_TOPHITS.t) :=
  match h with
  | None => ret (eslOK, None)
  | Some h =>
      (if is_null (P7_TOPHITS.unsrt h) then ret tt
       else
         for_loop 0 (P7_TOPHITS.N h) (λ i,
           r ← load_hit (P7_TOPHITS.unsrt h) i;
           (if is_null (P7_HIT.name r) then ret tt else free_str (P7_HIT.name r));;
           (if is_null (P7_HIT.acc r) then ret tt else free_str (P7_HIT.acc r));;
           (if is_null (P7_HIT.desc r) then ret tt else free_str (P7_HIT.desc r));;
           (if is_null (P7_HIT.dcl r) then ret tt
            else
              for_loop 0 (P7_HIT.ndom r) (λ j,
                d ← load_dom (P7_HIT.dcl r) j;
                if is_null (P7_DOMAIN.ad d) then ret tt
                else p7_alidisplay_Destroy (P7_DOMAIN.ad d));;
              free_dom (P7_HIT.dcl r))));;
      let h := P7_TOPHITS.set_N 0 h in
      let h := P7_TOPHITS.set_is_sorted true h in
      store_view (P7_TOPHITS.hit h) 0 (P7_TOPHITS.unsrt h);;
      ret (eslOK, Some h)
  end.

(** ** What the further statements speak of *)

(** An empty list has the address of its record array in [hit[0]]:
    [p7_tophits_Create] and [p7_tophits_Reuse] write it there, so that the
    list is in order as soon as it holds one record. *)
Definition first_slot (m : mem) (h : P7_TOPHITS.t) : Prop :=
  P7_TOPHITS.N h = 0 →
  read_at (m_view m) (P7_TOPHITS.hit h) 0 = Some (P7_TOPHITS.unsrt h).

(** A record that owns no string and no domain array, as
    [p7_tophits_CreateNextHit] leaves it *)
Definition payload_free (r : P7_HIT.t) : Prop :=
  P7_HIT.name r = NULL ∧ P7_HIT.acc r = NULL ∧ P7_HIT.desc r = NULL ∧
  P7_HIT.dcl r = NULL.

(** The length of the name of a record, if it has one *)
Definition name_length (m : mem) (r : P7_HIT.t) : option Z :=
  match P7_HIT.name r with
  | NULL => None
  | Ptr b o =>
      s ← m_str m !! b;
      if decide (0 ≤ o ≤ Z.of_nat (String.length s))
      then Some (Z.of_nat (String.length s) - o) else None
  end.

(** The merge of two rankings, on the records themselves: the next record
    is the donor's when its key is greater, else the recipient's. *)
Fixpoint merge_records (l1 : list P7_HIT.t) : list P7_HIT.t → list P7_HIT.t :=
  fix go (l2 : list P7_HIT.t) : list P7_HIT.t :=
    match l1, l2 with
    | [], _ => l2
    | _, [] => l1
    | a :: l1', b :: l2' =>
        if Double.gt (P7_HIT.sortkey b) (P7_HIT.sortkey a)
        then b :: go l2' else a :: merge_records l1' l2
    end.

(** Two memories whose record arrays are the same blocks with the same
    sizes, and a computation that leaves them so *)
Definition same_shape (m m' : mem) : Prop :=
  ∀ b, length <$> (m_hits m !! b) = length <$> (m_hits m' !! b).
Definition keeps_shape {A} (c : M A) : Prop :=
  ∀ m a m', c m = Some (a, m') → same_shape m m'.

(** ** What a list owns *)

(** The block of a pointer that [free] accepts: the start of an
    allocation *)
Definition block_start (p : ptr) : option block :=
  match p with
  | NULL => None
  | Ptr b o => if decide (o = 0) then Some b else None
  end.

Definition non_null (ps : list ptr) : list ptr := filter (λ p, p ≠ NULL) ps.

(** The strings of a record, the domains of its array, and their
    displays *)
Definition hit_strings (r : P7_HIT.t) : list ptr :=
  non_null [P7_HIT.name r; P7_HIT.acc r; P7_HIT.desc r].
Definition hit_domains (m : mem) (r : P7_HIT.t) : option (list P7_DOMAIN.t) :=
  if is_null (P7_HIT.dcl r) then Some []
  else mapM (read_dom (m_dom m) (P7_HIT.dcl r)) (seqZ 0 (P7_HIT.ndom r)).
Definition hit_displays (m : mem) (r : P7_HIT.t) : option (list ptr) :=
  ds ← hit_domains m r; Some (non_null (P7_DOMAIN.ad <$> ds)).

(** The records [rs] own the strings [sb], the domain arrays [db] and the
    displays [ab]: these are the blocks that their pointers start, in the
    order of the records; no block is named twice, and all are live. *)
Record owns (m : mem) (rs : list P7_HIT.t) (sb db ab : list block) : Prop := {
  own_strings : mapM block_start (rs ≫= hit_strings) = Some sb;
  own_arrays : mapM block_start (non_null (P7_HIT.dcl <$> rs)) = Some db;
  own_displays : ∃ ads, mapM (hit_displays m) rs = Some ads ∧
                        mapM block_start (concat ads) = Some ab;
  own_strings_live : NoDup sb ∧ ∀ b, b ∈ sb → is_Some (m_str m !! b);
  own_arrays_live : NoDup db ∧ ∀ b, b ∈ db → is_Some (m_dom m !! b);
  own_displays_live : NoDup ab ∧ ∀ b, b ∈ ab → b ∈ m_ali m
}.

(** The memory without these blocks *)
Definition release (sb db ab : list block) (m : mem) : mem :=
  Mem (m_hits m) (m_view m)
      (foldl (λ s b, delete b s) (m_dom m) db)
      (foldl (λ s b, delete b s) (m_str m) sb)
      (m_ali m ∖ list_to_set ab).

(** A list of one record that owns a name, an accession and an array of
    two domains, the first of them with a display *)
Definition owner_hit : P7_HIT.t :=
  P7_HIT.set_acc (Ptr 2 0) (P7_HIT.set_name (Ptr 1 0) (with_domains one 2 0 (Ptr 1 0))).
Definition display_mem : mem :=
  Mem {[1%positive := [Some owner_hit]]}
      {[1%positive := [Some (Ptr 1 0)]]}
      {[1%positive := [P7_DOMAIN.mk one Double.zero false (Ptr 5 0);
                       P7_DOMAIN.mk two Double.zero false NULL]]}
      {[1%positive := "seq1"%string; 2%positive := "PF00001"%string]}
      {[5%positive]}.

(** A list as [p7_tophits_Create] returns it in an empty memory *)
Definition new_list : P7_TOPHITS.t :=
  P7_TOPHITS.mk (Ptr 1 0) (Ptr 1 0) 256 0 0 true.
Definition new_mem : mem :=
  Mem {[1%positive := replicate 256 None]}
      {[1%positive := Some (Ptr 1 0) :: replicate 255 None]} ∅ ∅ ∅.

(** Two lists of one record each, the records with a name and nothing
    else of their own *)
Definition named (k : spec_float) (tag : Z) (name : ptr) : P7_HIT.t :=
  P7_HIT.set_name name (tagged k tag).
Definition names_mem : mem :=
  Mem {[1%positive := [Some (named two 1 (Ptr 1 0))];
        2%positive := [Some (named one 2 (Ptr 2 0))]]}
      {[1%positive := [Some (Ptr 1 0)]; 2%positive := [Some (Ptr 2 0)]]} ∅
      {[1%positive := "seq1"%string; 2%positive := "seq2"%string]} ∅.

(** * Proofs *)

(** ** The monad *)

Lemma bind_Some {A B} (c : M A) (k : A → M B) m r :
  (c ≫= k) m = Some r ↔ ∃ x m', c m = Some (x, m') ∧ k x m' = Some r.
Proof.
  unfold mbind, M_bind. split.
  - destruct (c m) as [[x m']|]; [eauto|done].
  - intros (x & m' & -> & ?). done.
Qed.

Lemma bind_eq {A B} (c : M A) (k : A → M B) m x m' :
  c m = Some (x, m') → (c ≫= k) m = k x m'.
Proof. unfold mbind, M_bind. by intros ->. Qed.

Lemma ret_Some {A} (x : A) m r : ret x m = Some r ↔ r = (x, m).
Proof. unfold ret, mret, M_ret. split; [by inversion 1|by intros ->]. Qed.

Lemma lift_Some {A} (o : option A) m x m' :
  lift o m = Some (x, m') ↔ o = Some x ∧ m' = m.
Proof. unfold lift. destruct o; split; [by inversion 1|by intros [[= ->] ->]|done|by intros [? _]]. Qed.

(** Splitting an equation [(x ← c; k) m = Some r] on its first step *)
Ltac bind_split H :=
  let x := fresh "x" in let m := fresh "m" in let E := fresh "E" in
  apply bind_Some in H as (x & m & E & H).

Lemma wrap_int_id x : - 2 ^ 31 ≤ x ≤ INT_MAX → wrap_int x = x.
Proof.
  unfold wrap_int, INT_MAX. intros ?.
  rewrite Z.mod_small; lia.
Qed.

Lemma wrap_int_range x : - 2 ^ 31 ≤ wrap_int x ≤ INT_MAX.
Proof.
  unfold wrap_int, INT_MAX.
  pose proof (Z.mod_pos_bound (x + 2 ^ 31) (2 ^ 32)). lia.
Qed.

(** A sum or a double of values of an [int] that is not negative after
    wrapping did not wrap. *)
Lemma wrap_int_add_nonneg a b :
  0 ≤ a ≤ INT_MAX → 0 ≤ b ≤ INT_MAX → 0 ≤ wrap_int (a + b) → wrap_int (a + b) = a + b.
Proof.
  unfold INT_MAX. intros Ha Hb Hw.
  destruct (decide (a + b ≤ 2147483647)) as [?|Hgt].
  - apply wrap_int_id. unfold INT_MAX. lia.
  - exfalso. revert Hw. unfold wrap_int.
    replace (a + b + 2 ^ 31) with ((a + b - 2 ^ 31) + 1 * 2 ^ 32) by lia.
    rewrite Z.mod_add by lia. rewrite Z.mod_small; lia.
Qed.

(** ** Memory *)

Lemma set_view_same m : set_view (m_view m) m = m.
Proof. by destruct m. Qed.
Lemma set_hits_same m : set_hits (m_hits m) m = m.
Proof. by destruct m. Qed.

(** A null answer of the allocator leaves the memory as it was. *)
Lemma malloc_in_null {A} o n (s s' : gmap block (list (option A))) q :
  malloc_in o n s = (q, s') → is_null q = true → s' = s.
Proof.
  unfold malloc_in. destruct (alloc_ok o && (0 <=? n)); intros [= <- <-]; done.
Qed.

Lemma realloc_in_null {A} o p n (s s' : gmap block (list (option A))) q :
  realloc_in o p n s = Some (q, s') → is_null q = true → s' = s.
Proof.
  unfold realloc_in. destruct p as [|b ofs]; [done|].
  destruct (decide (ofs = 0)); [|done].
  destruct (s !! b) as [a|]; simpl; [|done].
  destruct (0 <=? n); [destruct o|]; intros [= <- <-]; done.
Qed.

Lemma ESL_RALLOC_view_null o p n m q m' :
  ESL_RALLOC_view o p n m = Some (q, m') → is_null q = true → m' = m.
Proof.
  unfold ESL_RALLOC_view, ESL_ALLOC_view. destruct (is_null p).
  - destruct (malloc_in _ _ _) as [q' s] eqn:E. intros [= <- <-] Hq.
    rewrite (malloc_in_null _ _ _ _ _ E Hq). apply set_view_same.
  - destruct (realloc_in _ _ _ _) as [[q' s]|] eqn:E; simpl; [|done].
    intros [= <- <-] Hq.
    rewrite (realloc_in_null _ _ _ _ _ _ E Hq). apply set_view_same.
Qed.

Lemma ESL_RALLOC_hits_null o p n m q m' :
  ESL_RALLOC_hits o p n m = Some (q, m') → is_null q = true → m' = m.
Proof.
  unfold ESL_RALLOC_hits, ESL_ALLOC_hits. destruct (is_null p).
  - destruct (malloc_in _ _ _) as [q' s] eqn:E. intros [= <- <-] Hq.
    rewrite (malloc_in_null _ _ _ _ _ E Hq). apply set_hits_same.
  - destruct (realloc_in _ _ _ _) as [[q' s]|] eqn:E; simpl; [|done].
    intros [= <- <-] Hq.
    rewrite (realloc_in_null _ _ _ _ _ _ E Hq). apply set_hits_same.
Qed.

Lemma ESL_ALLOC_view_null o n m q m' :
  ESL_ALLOC_view o n m = Some (q, m') → is_null q = true → m' = m.
Proof.
  unfold ESL_ALLOC_view.
  destruct (malloc_in _ _ _) as [q' s] eqn:E. intros [= <- <-] Hq.
  rewrite (malloc_in_null _ _ _ _ _ E Hq). apply set_view_same.
Qed.

(** A reallocation of the start of a live block is defined, and it fails
    when the allocator says so. *)
Lemma realloc_in_live {A} o b n (s : gmap block (list (option A))) a :
  s !! b = Some a →
  ∃ q s', realloc_in o (Ptr b 0) n s = Some (q, s') ∧
          (o = AllocFail → q = NULL) ∧
          (q = NULL → s' = s) ∧
          (q ≠ NULL → 0 ≤ n ∧ ∃ b', q = Ptr b' 0 ∧
             s' !! b' = Some (resize (Z.to_nat n) None a) ∧
             (b' = b ∨ s !! b' = None ∧ s' !! b = None) ∧
             ∀ c, c ≠ b → c ≠ b' → s' !! c = s !! c).
Proof.
  intros Hb. unfold realloc_in. rewrite decide_True by done. rewrite Hb. simpl.
  destruct (0 <=? n) eqn:Hn; [|by eexists _, _; split_and!; eauto].
  apply Z.leb_le in Hn.
  destruct o.
  - eexists _, _; split_and!; eauto; done.
  - eexists _, _; split_and!; eauto; try done. intros _. split; [done|].
    exists b. split_and!; eauto.
    + by rewrite lookup_insert_eq.
    + intros c ? ?. by rewrite lookup_insert_ne.
  - eexists _, _; split_and!; eauto; try done. intros _. split; [done|].
    pose proof (is_fresh (dom s)) as Hf.
    assert (fresh (dom s) ≠ b) as Hne.
    { intros E. apply Hf. rewrite E. apply elem_of_dom. eauto. }
    exists (fresh (dom s)). split_and!; eauto.
    + by rewrite lookup_insert_eq.
    + right. split; [by apply not_elem_of_dom|].
      rewrite lookup_insert_ne by done. by rewrite lookup_delete_eq.
    + intros c ? ?. rewrite lookup_insert_ne by done.
      by rewrite lookup_delete_ne.
Qed.

(** ** Growing the list *)

Lemma mapM_ext_in {A B} (f g : A → option B) (l : list A) :
  (∀ x, x ∈ l → f x = g x) → mapM f l = mapM g l.
Proof.
  induction l as [|x l IH]; intros H; [done|]. simpl.
  rewrite (H x) by left. rewrite IH; [done|]. intros y ?. apply H. by right.
Qed.

Lemma elem_of_seqZ_0 i n : i ∈ seqZ 0 n ↔ 0 ≤ i < n.
Proof. rewrite elem_of_seqZ. lia. Qed.

Lemma read_at_cell {A} (s : gmap block (list (option A))) p i :
  read_at s p i = cell_at s p i ≫= id.
Proof. unfold read_at. by destruct (cell_at s p i). Qed.

Lemma cell_at_base {A} (s : gmap block (list (option A))) b a i :
  s !! b = Some a → 0 ≤ i → cell_at s (Ptr b 0) i = a !! Z.to_nat i.
Proof.
  intros Hb Hi. unfold cell_at. rewrite Z.add_0_l.
  destruct (0 <=? i) eqn:E; [|lia]. by rewrite Hb.
Qed.

Lemma hit_sorter_hits m m' : m_hits m' = m_hits m → hit_sorter m' = hit_sorter m.
Proof. intros E. unfold hit_sorter. by rewrite E. Qed.

(** The ranking stays in order when the cells it reads stay the same. *)
Lemma ranked_transfer m h m' h' :
  m_hits m' = m_hits m →
  P7_TOPHITS.N h' = P7_TOPHITS.N h →
  P7_TOPHITS.unsrt h' = P7_TOPHITS.unsrt h →
  (∀ i, 0 ≤ i < P7_TOPHITS.N h →
     cell_at (m_view m') (P7_TOPHITS.hit h') i = cell_at (m_view m) (P7_TOPHITS.hit h) i) →
  ranked m h → ranked m' h'.
Proof.
  intros Hh HN Hu Hc (l & Hl & Hp & Hs). exists l. split_and!.
  - unfold view_ptrs in *. rewrite HN, <- Hl. apply mapM_ext_in.
    intros i Hi%elem_of_seqZ_0. rewrite !read_at_cell. by rewrite Hc.
  - unfold record_ptrs in *. by rewrite Hu, HN.
  - by rewrite (hit_sorter_hits _ _ Hh).
Qed.

(** [p7_tophits_Grow] when a reallocation fails *)
Lemma Grow_fails_spec o1 o2 h m :
  valid_tophits m h →
  P7_TOPHITS.Nalloc h ≤ P7_TOPHITS.N h →
  o1 = AllocFail ∨ o2 = AllocFail →
  ∃ h' m', p7_tophits_Grow o1 o2 h m = Some (eslEMEM, h', m') ∧
    (o1 = AllocFail → h' = h ∧ m' = m) ∧
    P7_TOPHITS.set_hit (P7_TOPHITS.hit h) h' = h ∧
    m_hits m' = m_hits m ∧ m_dom m' = m_dom m ∧
    m_str m' = m_str m ∧ m_ali m' = m_ali m ∧
    (∀ i, 0 ≤ i < P7_TOPHITS.Nalloc h →
       cell_at (m_view m') (P7_TOPHITS.hit h') i
       = cell_at (m_view m) (P7_TOPHITS.hit h) i) ∧
    valid_tophits m' h'.
Proof.
  intros Hv Hfull Hfail.
  destruct Hv as [HN HNa (b & a & Hu & Hb & Hla & Hfill) (bv & w & Hh & Hbv & Hlw) Hs].
  assert (set_hit_id : P7_TOPHITS.set_hit (P7_TOPHITS.hit h) h = h) by by destruct h.
  assert (Hv : valid_tophits m h) by (constructor; eauto 10).
  unfold p7_tophits_Grow.
  destruct (P7_TOPHITS.N h <? P7_TOPHITS.Nalloc h) eqn:E; [lia|clear E].
  set (n := wrap_int (P7_TOPHITS.Nalloc h * 2)).
  destruct (realloc_in_live o1 bv n (m_view m) w Hbv)
    as (q & s' & Hr & Hof & Hnull & Hok).
  assert (ESL_RALLOC_view o1 (P7_TOPHITS.hit h) n m = Some (q, set_view s' m)) as E1.
  { unfold ESL_RALLOC_view. rewrite Hh. cbn [is_null]. by rewrite Hr. }
  rewrite (bind_eq _ _ _ _ _ E1).
  destruct (decide (q = NULL)) as [->|Hq].
  { simpl. rewrite (Hnull eq_refl), set_view_same.
    eexists _, _. split; [reflexivity|]. split_and!; eauto. }
  destruct (Hok Hq) as (Hn & b' & -> & Hb' & Hfresh & Hother). simpl.
  assert (o2 = AllocFail) as -> by (destruct Hfail as [->|]; [by specialize (Hof eq_refl)|done]).
  destruct (realloc_in_live AllocFail b n (m_hits m) a Hb)
    as (q2 & s2 & Hr2 & Hof2 & Hnull2 & _).
  rewrite (Hof2 eq_refl) in *. specialize (Hnull2 eq_refl) as ->.
  assert (ESL_RALLOC_hits AllocFail (P7_TOPHITS.unsrt (P7_TOPHITS.set_hit (Ptr b' 0) h))
            n (set_view s' m) = Some (NULL, set_view s' m)) as E2.
  { unfold ESL_RALLOC_hits. cbn [P7_TOPHITS.unsrt P7_TOPHITS.set_hit]. rewrite Hu. cbn [is_null m_hits set_view]. by rewrite Hr2. }
  rewrite (bind_eq _ _ _ _ _ E2). simpl.
  assert (n = P7_TOPHITS.Nalloc h * 2) as Hn2.
  { unfold n in *. replace (P7_TOPHITS.Nalloc h * 2)
      with (P7_TOPHITS.Nalloc h + P7_TOPHITS.Nalloc h) in * by lia.
    apply wrap_int_add_nonneg; lia. }
  assert (Hcells : ∀ i, 0 ≤ i < P7_TOPHITS.Nalloc h →
     cell_at s' (Ptr b' 0) i = cell_at (m_view m) (P7_TOPHITS.hit h) i).
  { intros i Hi. rewrite Hh.
    rewrite (cell_at_base _ _ _ _ Hb'), (cell_at_base _ _ _ _ Hbv) by lia.
    apply lookup_resize; lia. }
  eexists _, _. split; [reflexivity|]. split_and!; eauto.
  - intros ->. by specialize (Hof eq_refl).
  - constructor; simpl; eauto 10.
    + exists b', (resize (Z.to_nat n) None w). split_and!; eauto.
      rewrite length_resize. lia.
    + intros Hsorted. eapply (ranked_transfer m h); eauto.
      intros i Hi. simpl. apply Hcells. lia.
Qed.

(** C6, as the code has it. When [p7_tophits_Grow] has to grow the list and
    one of its two reallocations fails, it returns [eslEMEM] and the list
    keeps its contents: the sizes, the flag, the record array and every
    record are as before, the list is still valid, and the ranking has the
    same entries. If the first reallocation is the one that fails, nothing
    at all has changed; if it is the second, [hit] may by then be the
    larger array that the first one returned. *)
Theorem Grow_failure_keeps_contents o1 o2 h m :
  valid_tophits m h →
  P7_TOPHITS.Nalloc h ≤ P7_TOPHITS.N h →
  o1 = AllocFail ∨ o2 = AllocFail →
  ∃ h' m', p7_tophits_Grow o1 o2 h m = Some (eslEMEM, h', m') ∧
    (o1 = AllocFail → h' = h ∧ m' = m) ∧
    P7_TOPHITS.set_hit (P7_TOPHITS.hit h) h' = h ∧
    m_hits m' = m_hits m ∧ m_dom m' = m_dom m ∧
    m_str m' = m_str m ∧ m_ali m' = m_ali m ∧
    (∀ i, 0 ≤ i < P7_TOPHITS.Nalloc h →
       cell_at (m_view m') (P7_TOPHITS.hit h') i
       = cell_at (m_view m) (P7_TOPHITS.hit h) i) ∧
    valid_tophits m' h'.
Proof. apply Grow_fails_spec. Qed.

(** ** The test for validity is sound *)

Lemma rankedb_sound m h : rankedb m h = true → ranked m h.
Proof.
  unfold rankedb, ranked. destruct (view_ptrs m h) as [l|]; [|done].
  intros [H1%bool_decide_eq_true_1 H2%bool_decide_eq_true_1]%andb_prop. eauto.
Qed.

Lemma valid_tophitsb_sound m h : valid_tophitsb m h = true → valid_tophits m h.
Proof.
  unfold valid_tophitsb. intros H.
  apply andb_prop in H as [[HN%bool_decide_eq_true_1 HNa%bool_decide_eq_true_1]%andb_prop H].
  destruct (P7_TOPHITS.unsrt h) as [|b [| |]] eqn:Hu; try done.
  destruct (P7_TOPHITS.hit h) as [|bv [| |]] eqn:Hh; try done.
  destruct (m_hits m !! b) as [a|] eqn:Hb; [|done].
  destruct (m_view m !! bv) as [w|] eqn:Hbv; [|done].
  apply andb_prop in H as [H Hs]. apply andb_prop in H as [H Hlw%bool_decide_eq_true_1].
  apply andb_prop in H as [H Hfill]. apply andb_prop in H as [Hla%bool_decide_eq_true_1 HlN%bool_decide_eq_true_1].
  constructor; try done.
  - exists b, a. split_and!; try done.
    intros i Hi. rewrite forallb_forall in Hfill.
    destruct (lookup_lt_is_Some_2 a i) as [c Hc]; [lia|].
    assert (In c (take (Z.to_nat (P7_TOPHITS.N h)) a)) as Hin.
    { apply list_elem_of_In, list_elem_of_lookup. exists i.
      by rewrite lookup_take_lt. }
    apply Hfill, bool_decide_eq_true_1 in Hin as [r ->]. eauto.
  - exists bv, w. done.
  - intros Hsorted. rewrite Hsorted in Hs. by apply rankedb_sound.
Qed.

(** ** Growth and appending: the fields *)

Lemma malloc_in_nonnull {A} o n (s s' : gmap block (list (option A))) q :
  malloc_in o n s = (q, s') → is_null q = false → 0 ≤ n.
Proof.
  unfold malloc_in. destruct (alloc_ok o); simpl; [|by intros [= <- <-]].
  destruct (0 <=? n) eqn:E; [lia|by intros [= <- <-]].
Qed.

Lemma realloc_in_nonnull {A} o p n (s s' : gmap block (list (option A))) q :
  realloc_in o p n s = Some (q, s') → is_null q = false → 0 ≤ n.
Proof.
  unfold realloc_in. destruct p as [|b ofs]; [done|].
  destruct (decide (ofs = 0)); [|done].
  destruct (s !! b) as [a|]; simpl; [|done].
  destruct (0 <=? n) eqn:E; [lia|by intros [= <- <-]].
Qed.

Lemma ESL_RALLOC_hits_nonnull o p n m q m' :
  ESL_RALLOC_hits o p n m = Some (q, m') → is_null q = false → 0 ≤ n.
Proof.
  unfold ESL_RALLOC_hits, ESL_ALLOC_hits. destruct (is_null p).
  - destruct (malloc_in _ _ _) as [q' s] eqn:E. intros [= <- <-] Hq.
    by eapply malloc_in_nonnull.
  - destruct (realloc_in _ _ _ _) as [[q' s]|] eqn:E; simpl; [|done].
    intros [= <- <-] Hq. by eapply realloc_in_nonnull.
Qed.

(** What a successful [p7_tophits_Grow] does to the fields *)
Lemma Grow_ok_fields o1 o2 h m h' m' :
  p7_tophits_Grow o1 o2 h m = Some (eslOK, h', m') →
  P7_TOPHITS.N h' = P7_TOPHITS.N h ∧
  P7_TOPHITS.is_sorted h' = P7_TOPHITS.is_sorted h ∧
  (P7_TOPHITS.N h < P7_TOPHITS.Nalloc h ∧ h' = h ∧ m' = m ∨
   P7_TOPHITS.Nalloc h ≤ P7_TOPHITS.N h ∧
   P7_TOPHITS.Nalloc h' = wrap_int (P7_TOPHITS.Nalloc h * 2) ∧
   0 ≤ wrap_int (P7_TOPHITS.Nalloc h * 2)).
Proof.
  unfold p7_tophits_Grow. intros H.
  destruct (P7_TOPHITS.N h <? P7_TOPHITS.Nalloc h) eqn:E.
  { apply ret_Some in H; simplify_eq. apply Z.ltb_lt in E.
    split_and!; try done. by left. }
  apply Z.ltb_ge in E.
  bind_split H. destruct (is_null x); [by apply ret_Some in H|].
  bind_split H. destruct (is_null x0) eqn:Hx0; [by apply ret_Some in H|].
  bind_split H. apply ret_Some in H; simplify_eq.
  split_and!; try done. right. split_and!; [lia|done|].
  by eapply ESL_RALLOC_hits_nonnull.
Qed.

(** What a successful [p7_tophits_CreateNextHit] does to the fields *)
Lemma CreateNextHit_ok_fields o1 o2 h m p h' m' :
  p7_tophits_CreateNextHit o1 o2 h m = Some (eslOK, p, h', m') →
  ∃ g mg, p7_tophits_Grow o1 o2 h m = Some (eslOK, g, mg) ∧
    P7_TOPHITS.N h' = wrap_int (P7_TOPHITS.N h + 1) ∧
    P7_TOPHITS.Nalloc h' = P7_TOPHITS.Nalloc g ∧
    P7_TOPHITS.is_sorted h' =
      (if 2 <=? P7_TOPHITS.N h' then false else P7_TOPHITS.is_sorted h).
Proof.
  unfold p7_tophits_CreateNextHit. intros H.
  bind_split H. destruct x as [st g]. destruct st; [|by apply ret_Some in H].
  pose proof (Grow_ok_fields _ _ _ _ _ _ E) as (HN & Hs & _).
  bind_split H. bind_split H. apply ret_Some in H; simplify_eq.
  exists g, m0. split; [done|]. rewrite <- HN, <- Hs.
  cbn [P7_TOPHITS.N P7_TOPHITS.set_N].
  destruct (2 <=? wrap_int (P7_TOPHITS.N g + 1)) eqn:E2; simpl; rewrite ?E2; done.
Qed.

Lemma Create_ok_fields o0 o1 o2 m h m' :
  p7_tophits_Create o0 o1 o2 m = Some (Some h, m') →
  P7_TOPHITS.N h = 0 ∧ P7_TOPHITS.Nalloc h = default_nalloc ∧
  P7_TOPHITS.nreported h = 0 ∧ P7_TOPHITS.is_sorted h = true.
Proof.
  unfold p7_tophits_Create. intros H. destruct (alloc_ok o0).
  - bind_split H. destruct (is_null x).
    { bind_split H. by apply ret_Some in H. }
    bind_split H. destruct (is_null x0).
    { bind_split H. by apply ret_Some in H. }
    bind_split H. apply ret_Some in H; simplify_eq. done.
  - bind_split H. by apply ret_Some in H.
Qed.

Lemma Sort_ok_fields qsort h m st h' m' :
  p7_tophits_Sort qsort h m = Some (st, h', m') →
  st = eslOK ∧ h' = P7_TOPHITS.set_is_sorted true h.
Proof.
  unfold p7_tophits_Sort. intros H.
  destruct (P7_TOPHITS.is_sorted h) eqn:Hs.
  - apply ret_Some in H; simplify_eq. split; [done|]. destruct h; simpl in *; by subst.
  - bind_split H. bind_split H. by apply ret_Some in H; simplify_eq.
Qed.

(** C8. [p7_tophits_Sort] twice is [p7_tophits_Sort] once: after a first
    call the flag is set, so a second call returns [eslOK] at once and
    leaves the list, the ranking and the whole memory as the first call
    left them. *)
Theorem Sort_idempotent qsort h m st h' m' :
  p7_tophits_Sort qsort h m = Some (st, h', m') →
  p7_tophits_Sort qsort h' m' = Some (eslOK, h', m').
Proof.
  intros H. apply Sort_ok_fields in H as [-> ->].
  unfold p7_tophits_Sort. simpl. by destruct h.
Qed.

(** ** The sorted flag along the life of a list *)

Lemma history_invariant qsort n s h :
  history qsort n s h →
  P7_TOPHITS.N h = Z.of_nat n ∧
  P7_TOPHITS.is_sorted h = s || bool_decide (n < 2)%nat ∧
  P7_TOPHITS.N h ≤ P7_TOPHITS.Nalloc h ∧
  0 < P7_TOPHITS.Nalloc h ≤ INT_MAX.
Proof.
  induction 1 as [o0 o1 o2 m h m' Hc
                 |n s h o1 o2 m p h' m' Hh (HN & Hs & Hle & Hna) Ha
                 |n s h m h' m' Hh (HN & Hs & Hle & Hna) Hsort].
  - apply Create_ok_fields in Hc as (-> & -> & _ & ->).
    unfold default_nalloc, INT_MAX. split_and!; done || lia.
  - apply CreateNextHit_ok_fields in Ha as (g & mg & Hg & HN' & HNa' & Hs').
    apply Grow_ok_fields in Hg as (_ & _ & Hg).
    assert (P7_TOPHITS.N h + 1 ≤ P7_TOPHITS.Nalloc h' ≤ INT_MAX) as Hb.
    { rewrite HNa'. destruct Hg as [(? & -> & _)|(? & -> & Hw)]; [lia|].
      replace (P7_TOPHITS.Nalloc h * 2)
        with (P7_TOPHITS.Nalloc h + P7_TOPHITS.Nalloc h) in * by lia.
      pose proof (wrap_int_range (P7_TOPHITS.Nalloc h + P7_TOPHITS.Nalloc h)).
      rewrite wrap_int_add_nonneg in * by lia. lia. }
    rewrite wrap_int_id in HN' by (unfold INT_MAX in *; lia).
    split_and!; try lia.
    rewrite Hs', HN'. simpl.
    destruct (2 <=? P7_TOPHITS.N h + 1) eqn:E.
    + apply Z.leb_le in E. rewrite bool_decide_eq_false_2; [done|lia].
    + apply Z.leb_gt in E. rewrite Hs.
      rewrite !bool_decide_eq_true_2 by lia. by rewrite orb_true_r.
  - apply Sort_ok_fields in Hsort as [_ ->]. simpl. split_and!; done || lia.
Qed.

(** C9. A list that was created, appended to and sorted holds as many
    records as it had appends, and its sorted flag is set exactly when it
    holds fewer than two records or its last operation was a sort: a new
    list and a list of one record are marked sorted, and every append that
    leaves two or more records clears the flag until the next sort sets it. *)
Theorem sorted_flag_tracks_appends qsort n s h :
  history qsort n s h →
  P7_TOPHITS.N h = Z.of_nat n ∧
  P7_TOPHITS.is_sorted h = s || bool_decide (n < 2)%nat.
Proof.
  intros H. apply history_invariant in H as (? & ? & _). done.
Qed.

(** ** The order of doubles *)

Ltac cmp_cases :=
  repeat match goal with
  | |- context [Z.compare ?x ?y] => destruct (Z.compare_spec x y)
  | |- context [Pos.compare_cont Eq ?x ?y] =>
      change (Pos.compare_cont Eq x y) with (Pos.compare x y);
      destruct (Pos.compare_spec x y)
  end.

Ltac float_cases a b c :=
  unfold Double.ge, Double.gt, Double.lt, Double.eq, Double.is_nan,
         SFleb, SFltb, SFeqb, SFcompare;
  destruct a as [[]|[]| |[] ? ?], b as [[]|[]| |[] ? ?], c as [[]|[]| |[] ? ?];
  simpl; try done; cmp_cases; simpl; try done; try lia.

Ltac float_cases2 a b :=
  unfold Double.ge, Double.gt, Double.lt, Double.eq, Double.is_nan,
         SFleb, SFltb, SFeqb, SFcompare;
  destruct a as [[]|[]| |[] ? ?], b as [[]|[]| |[] ? ?];
  simpl; try done; cmp_cases; simpl; try done; try lia.

Lemma Double_ge_trans a b c :
  Double.ge a b = true → Double.ge b c = true → Double.ge a c = true.
Proof. float_cases a b c. Qed.

Lemma Double_not_lt_ge a b :
  Double.is_nan a = false → Double.is_nan b = false →
  Double.lt a b = false → Double.ge a b = true.
Proof. float_cases2 a b. Qed.

Lemma Double_ge_not_lt a b : Double.ge a b = true → Double.lt a b = false.
Proof. float_cases2 a b. Qed.

Lemma Double_lt_asym a b : Double.lt a b = true → Double.lt b a = false.
Proof. float_cases2 a b. Qed.

Lemma Double_gt_lt a b : Double.gt a b = Double.lt b a.
Proof. done. Qed.

Lemma Double_eq_ge a b : Double.eq a b = true → Double.ge a b = true ∧ Double.ge b a = true.
Proof. float_cases2 a b. Qed.

Lemma Double_ge_nan a b : Double.ge a b = true →
  Double.is_nan a = false ∧ Double.is_nan b = false.
Proof. float_cases2 a b. Qed.

(** ** A sorting function that keeps the promise of [qsort] *)

Lemma insert_by_perm cmp x l : insert_by cmp x l ≡ₚ x :: l.
Proof.
  induction l as [|y l IH]; simpl; [done|].
  destruct (cmp x y <=? 0); [done|]. rewrite IH. apply Permutation_swap.
Qed.

Lemma insertion_sort_perm cmp l : insertion_sort cmp l ≡ₚ l.
Proof.
  induction l as [|x l IH]; simpl; [done|].
  rewrite insert_by_perm. by rewrite IH.
Qed.

Lemma insert_by_sorted cmp x l :
  (∀ y, y ∈ l → cmp x y ≤ 0 ∨ cmp y x ≤ 0) →
  Sorted (λ a b, cmp a b ≤ 0) l →
  Sorted (λ a b, cmp a b ≤ 0) (insert_by cmp x l).
Proof.
  induction l as [|y l IH]; intros Htot Hs; simpl.
  - by repeat constructor.
  - destruct (cmp x y <=? 0) eqn:E.
    + apply Z.leb_le in E. constructor; [done|by constructor].
    + apply Z.leb_gt in E. inversion Hs as [|?? Hs' Hhd]; subst.
      constructor.
      * apply IH; [|done]. intros z ?. apply Htot. by right.
      * destruct l as [|z l]; simpl.
        -- constructor. destruct (Htot y) as [?|?]; [by left|lia|done].
        -- destruct (cmp x z <=? 0).
           ++ constructor. destruct (Htot y) as [?|?]; [by left|lia|done].
           ++ constructor. by inversion Hhd.
Qed.

Lemma insertion_sort_contract : qsort_contract insertion_sort.
Proof.
  intros cmp l [Htot _]. split; [apply insertion_sort_perm|].
  induction l as [|x l IH]; simpl; [constructor|].
  apply insert_by_sorted.
  - intros y Hy. apply Htot; [by left|]. right.
    by rewrite <- (insertion_sort_perm cmp l).
  - apply IH. intros a b ??. apply Htot; by right.
Qed.

(** ** Loops *)

Lemma for_each_app l1 l2 body m :
  for_each (l1 ++ l2) body m = (for_each l1 body ≫= λ _, for_each l2 body) m.
Proof.
  revert m. induction l1 as [|i l1 IH]; intros m; simpl.
  - done.
  - unfold mbind, M_bind. destruct (body i m) as [[[] m']|]; [|done].
    by rewrite IH.
Qed.

Lemma for_loop_S (k : nat) body m :
  for_loop 0 (Z.of_nat (S k)) body m
  = (for_loop 0 (Z.of_nat k) body ≫= λ _, body (Z.of_nat k)) m.
Proof.
  unfold for_loop. rewrite !Z.sub_0_r, seqZ_S, for_each_app.
  unfold mbind, M_bind. destruct (for_each _ _ m) as [[[] m']|]; [|done].
  simpl. unfold mbind, M_bind. destruct (body _ m') as [[[] m'']|]; done.
Qed.

Lemma for_loop_0 body m : for_loop 0 0 body m = Some (tt, m).
Proof. done. Qed.

(** ** Writing and reading the array of pointers *)

Lemma set_view_set_view s1 s2 m : set_view s2 (set_view s1 m) = set_view s2 m.
Proof. done. Qed.
Lemma m_view_set_view s m : m_view (set_view s m) = s.
Proof. done. Qed.
Lemma m_hits_set_view s m : m_hits (set_view s m) = m_hits m.
Proof. done. Qed.
Lemma m_hits_set_hits s m : m_hits (set_hits s m) = s.
Proof. done. Qed.
Lemma m_view_set_hits s m : m_view (set_hits s m) = m_view m.
Proof. done. Qed.
Lemma set_hits_set_hits s1 s2 m : set_hits s2 (set_hits s1 m) = set_hits s2 m.
Proof. done. Qed.

Lemma store_view_block bv w i v m :
  m_view m !! bv = Some w → 0 ≤ i → (Z.to_nat i < length w)%nat →
  store_view (Ptr bv 0) i v m
  = Some (tt, set_view (<[bv := <[Z.to_nat i := Some v]> w]> (m_view m)) m).
Proof.
  intros Hbv Hi Hlt. unfold store_view, write_at, write_cell.
  rewrite Z.add_0_l. destruct (0 <=? i) eqn:E; [|lia].
  rewrite Hbv. simpl. by rewrite decide_True.
Qed.

Lemma read_at_block {A} (s : gmap block (list (option A))) b a i x :
  s !! b = Some a → 0 ≤ i → a !! Z.to_nat i = Some (Some x) →
  read_at s (Ptr b 0) i = Some x.
Proof.
  intros Hb Hi Hx. rewrite read_at_cell, (cell_at_base _ _ _ _ Hb Hi), Hx. done.
Qed.

(** Reading back a prefix that is written *)
Lemma read_prefix {A} (s : gmap block (list (option A))) b (l : list A) rest :
  s !! b = Some ((Some <$> l) ++ rest) →
  mapM (read_at s (Ptr b 0)) (seqZ 0 (Z.of_nat (length l))) = Some l.
Proof.
  intros Hb. apply mapM_Some, Forall2_same_length_lookup. split.
  - rewrite length_seqZ. lia.
  - intros i z x Hz Hx. apply lookup_seqZ in Hz as [-> Hz].
    eapply read_at_block; [done|lia|]. rewrite Z.add_0_l, Nat2Z.id.
    rewrite lookup_app_l by (rewrite length_fmap; lia).
    by rewrite list_lookup_fmap, Hx.
Qed.

(** The loop of [p7_tophits_Sort] that points entry [i] at record [i] *)
Lemma fill_view_spec b bv w m (k : nat) :
  m_view m !! bv = Some w → (k ≤ length w)%nat →
  for_loop 0 (Z.of_nat k) (λ i,
    p ← lift (ptr_add (Ptr b 0) i); store_view (Ptr bv 0) i p) m
  = Some (tt, set_view
      (<[bv := (Some <$> ((λ i, Ptr b (0 + i)) <$> seqZ 0 (Z.of_nat k))) ++ drop k w]>
         (m_view m)) m).
Proof.
  intros Hbv. induction k as [|k IH]; intros Hk.
  - rewrite for_loop_0. simpl. rewrite drop_0, insert_id by done.
    by rewrite set_view_same.
  - rewrite for_loop_S. erewrite bind_eq by (apply IH; lia).
    unfold mbind at 1, M_bind at 1. simpl. unfold mbind, M_bind.
    erewrite store_view_block;
      [|rewrite m_view_set_view; apply lookup_insert_eq|lia|].
    2:{ rewrite length_app, !length_fmap, length_seqZ, length_drop. lia. }
    rewrite m_view_set_view, set_view_set_view, insert_insert_eq. do 3 f_equal.
    rewrite Nat2Z.id, seqZ_S, !fmap_app. simpl.
    rewrite insert_app_r_alt by (rewrite !length_fmap, length_seqZ; lia).
    rewrite !length_fmap, length_seqZ, Nat2Z.id, Nat.sub_diag.
    destruct (lookup_lt_is_Some_2 w k) as [c Hc]; [lia|].
    rewrite (drop_S _ _ _ Hc). simpl. by rewrite <- app_assoc.
Qed.

(** Writing a list of pointers over a part of the array *)
Lemma write_view_spec bv (l : list ptr) :
  ∀ pre old rest m,
  m_view m !! bv = Some (pre ++ old ++ rest) → length old = length l →
  write_view (Ptr bv 0) (Z.of_nat (length pre)) l m
  = Some (tt, set_view (<[bv := pre ++ (Some <$> l) ++ rest]> (m_view m)) m).
Proof.
  induction l as [|v l IH]; intros pre old rest m Hbv Hlen.
  - destruct old; [|done]. simpl in *. rewrite insert_id by done.
    by rewrite set_view_same.
  - destruct old as [|c old]; [done|]. simpl in *.
    unfold mbind, M_bind.
    erewrite store_view_block; [|done|lia|].
    2:{ rewrite Nat2Z.id, length_app. simpl. lia. }
    rewrite Nat2Z.id.
    replace (Z.of_nat (length pre) + 1) with (Z.of_nat (length (pre ++ [Some v])))
      by (rewrite length_app; simpl; lia).
    rewrite insert_app_r_alt, Nat.sub_diag by lia. simpl.
    erewrite (IH (pre ++ [Some v]) old rest); cycle 1.
    + rewrite m_view_set_view, lookup_insert_eq. by rewrite <- app_assoc.
    + lia.
    + rewrite set_view_set_view, m_view_set_view, insert_insert_eq.
      by rewrite <- app_assoc.
Qed.

(** ** The comparison of two records *)


Lemma hit_sorter_le m p q rp rq :
  read_at (m_hits m) p 0 = Some rp → read_at (m_hits m) q 0 = Some rq →
  hit_sorter m p q ≤ 0 ↔ Double.lt (P7_HIT.sortkey rp) (P7_HIT.sortkey rq) = false.
Proof.
  intros Hp Hq. unfold hit_sorter. rewrite Hp, Hq.
  destruct (Double.lt _ _); [split; [lia|done]|].
  split; [done|]. intros _. destruct (Double.gt _ _); lia.
Qed.

Lemma hit_sorter_ge m p q rp rq :
  read_at (m_hits m) p 0 = Some rp → read_at (m_hits m) q 0 = Some rq →
  Double.is_nan (P7_HIT.sortkey rp) = false →
  Double.is_nan (P7_HIT.sortkey rq) = false →
  hit_sorter m p q ≤ 0 ↔ Double.ge (P7_HIT.sortkey rp) (P7_HIT.sortkey rq) = true.
Proof.
  intros Hp Hq Np Nq. rewrite (hit_sorter_le _ _ _ _ _ Hp Hq). split.
  - by apply Double_not_lt_ge.
  - apply Double_ge_not_lt.
Qed.

Lemma hit_sorter_consistent m l :
  (∀ p, p ∈ l → good_ptr m p) → consistent (hit_sorter m) l.
Proof.
  intros Hg. split.
  - intros p q (rp & Hp & Np)%Hg (rq & Hq & Nq)%Hg.
    rewrite (hit_sorter_le _ _ _ _ _ Hp Hq), (hit_sorter_le _ _ _ _ _ Hq Hp).
    destruct (Double.lt (P7_HIT.sortkey rp) (P7_HIT.sortkey rq)) eqn:E; [|by left].
    right. by apply Double_lt_asym.
  - intros p q r (rp & Hp & Np)%Hg (rq & Hq & Nq)%Hg (rr & Hr & Nr)%Hg.
    rewrite (hit_sorter_ge _ _ _ _ _ Hp Hq), (hit_sorter_ge _ _ _ _ _ Hq Hr),
      (hit_sorter_ge _ _ _ _ _ Hp Hr) by done.
    apply Double_ge_trans.
Qed.

Lemma good_ptr_hits m m' p : m_hits m' = m_hits m → good_ptr m p → good_ptr m' p.
Proof. unfold good_ptr. by intros ->. Qed.

Lemma read_at_shift {A} (s : gmap block (list (option A))) b o i :
  read_at s (Ptr b (o + i)) 0 = read_at s (Ptr b o) i.
Proof. unfold read_at, cell_at. by rewrite Z.add_0_r. Qed.

(** The records of a list with comparable keys are all good. *)
Lemma record_ptrs_good m h :
  comparable_keys m h = true → ∀ p, p ∈ record_ptrs h → good_ptr m p.
Proof.
  unfold comparable_keys, records, record_ptrs.
  destruct (mapM _ _) as [rs|] eqn:E; [|done]. intros Hnan p Hp.
  destruct (P7_TOPHITS.unsrt h) as [|b o]; [by apply elem_of_nil in Hp|].
  apply list_elem_of_fmap in Hp as (i & -> & Hi).
  apply mapM_Some in E.
  apply list_elem_of_lookup in Hi as [j Hj].
  destruct (Forall2_lookup_l _ _ _ _ _ E Hj) as (r & Hr & Hread).
  exists r. split; [by rewrite read_at_shift|].
  unfold nan_free in Hnan. rewrite forallb_forall in Hnan.
  apply negb_true_iff, Hnan, list_elem_of_In, list_elem_of_fmap.
  exists r. split; [done|]. by eapply list_elem_of_lookup_2.
Qed.

(** The keys along a ranking in order go down. *)
Lemma sorted_descending m l :
  (∀ p, p ∈ l → good_ptr m p) →
  Sorted (λ p q, hit_sorter m p q ≤ 0) l →
  ∃ rs, mapM (λ p, read_at (m_hits m) p 0) l = Some rs ∧
        descending (P7_HIT.sortkey <$> rs) = true.
Proof.
  induction l as [|p l IH]; intros Hg Hs.
  - by exists [].
  - inversion Hs as [|?? Hs' Hhd]; subst.
    destruct IH as (rs & Hrs & Hd); [intros q ?; apply Hg; by right|done|].
    destruct (Hg p) as (rp & Hp & Np); [by left|].
    exists (rp :: rs). split; [simpl; by rewrite Hp, Hrs|].
    destruct l as [|q l]; [by destruct rs|].
    destruct (Hg q) as (rq & Hq & Nq); [right; by left|].
    inversion Hhd as [|?? Hle]; subst.
    apply (hit_sorter_ge _ _ _ _ _ Hp Hq Np Nq) in Hle.
    apply mapM_Some in Hrs. destruct rs as [|rq' rs']; [by inversion Hrs|].
    assert (rq' = rq) as -> by (inversion Hrs; congruence).
    change (Double.ge (P7_HIT.sortkey rp) (P7_HIT.sortkey rq)
            && descending (P7_HIT.sortkey <$> rq :: rs') = true).
    by rewrite Hle, Hd.
Qed.

(** A ranking in order, of comparable keys, shows keys that go down. *)
Lemma ranked_descending m h :
  ranked m h → comparable_keys m h = true →
  ∃ ks, view_keys m h = Some ks ∧ descending ks = true.
Proof.
  intros (l & Hl & Hp & Hs) Hc.
  destruct (sorted_descending m l) as (rs & Hrs & Hd); [|done|].
  { intros p Hin. apply (record_ptrs_good m h Hc). by rewrite <- Hp. }
  exists (P7_HIT.sortkey <$> rs). split; [|done].
  unfold view_keys, view_records. rewrite Hl. simpl. by rewrite Hrs.
Qed.

(** ** Sorting *)

Lemma record_ptrs_base h b :
  P7_TOPHITS.unsrt h = Ptr b 0 →
  record_ptrs h = (λ i, Ptr b (0 + i)) <$> seqZ 0 (P7_TOPHITS.N h).
Proof. unfold record_ptrs. by intros ->. Qed.

Lemma length_record_ptrs h b :
  P7_TOPHITS.unsrt h = Ptr b 0 →
  length (record_ptrs h) = Z.to_nat (P7_TOPHITS.N h).
Proof. intros Hu. by rewrite (record_ptrs_base _ _ Hu), length_fmap, length_seqZ. Qed.

Lemma forallb_readable m l :
  (∀ p, p ∈ l → good_ptr m p) → forallb (readable_hit m) l = true.
Proof.
  intros Hg. apply forallb_forall. intros p Hp%list_elem_of_In.
  destruct (Hg p Hp) as (r & Hr & _). unfold readable_hit.
  apply bool_decide_eq_true_2. eauto.
Qed.

Lemma Sorted_short {A} (R : A → A → Prop) l : (length l ≤ 1)%nat → Sorted R l.
Proof.
  destruct l as [|x [|y l]]; simpl; intros ?; [constructor|by repeat constructor|lia].
Qed.

(** [p7_tophits_Sort] on a valid list with comparable keys: it returns
    [eslOK], it touches nothing but the ranking of this list, and the
    list is valid and in order afterwards. *)
Lemma Sort_spec qsort m h :
  qsort_contract qsort →
  valid_tophits m h → comparable_keys m h = true →
  ∃ m', p7_tophits_Sort qsort h m = Some (eslOK, P7_TOPHITS.set_is_sorted true h, m') ∧
    m_hits m' = m_hits m ∧ m_dom m' = m_dom m ∧
    m_str m' = m_str m ∧ m_ali m' = m_ali m ∧
    (∀ c, Some c ≠ block_of (P7_TOPHITS.hit h) → m_view m' !! c = m_view m !! c) ∧
    (P7_TOPHITS.is_sorted h = true → m' = m) ∧
    valid_tophits m' (P7_TOPHITS.set_is_sorted true h).
Proof.
  intros Hq Hv Hc.
  destruct (P7_TOPHITS.is_sorted h) eqn:Hs.
  { exists m. unfold p7_tophits_Sort. rewrite Hs.
    assert (P7_TOPHITS.set_is_sorted true h = h) as -> by (destruct h; simpl in *; by subst).
    split_and!; done. }
  pose proof Hv as [HN HNa (b & a & Hu & Hb & Hla & Hfill) (bv & w & Hh & Hbv & Hlw) _].
  pose proof (record_ptrs_good m h Hc) as Hgood.
  set (k := Z.to_nat (P7_TOPHITS.N h)).
  assert (P7_TOPHITS.N h = Z.of_nat k) as HNk by lia.
  set (m1 := set_view (<[bv := (Some <$> record_ptrs h) ++ drop k w]> (m_view m)) m).
  assert (Hfillv : for_loop 0 (P7_TOPHITS.N h) (λ i,
            p ← lift (ptr_add (P7_TOPHITS.unsrt h) i);
            store_view (P7_TOPHITS.hit h) i p) m = Some (tt, m1)).
  { rewrite Hu, Hh, HNk. rewrite fill_view_spec with (w := w) by (done || lia).
    unfold m1. by rewrite (record_ptrs_base _ _ Hu), HNk. }
  (* the ranking after the call to qsort, if there is one *)
  assert (∃ l, l ≡ₚ record_ptrs h ∧ Sorted (λ p q, hit_sorter m p q ≤ 0) l ∧
            (if 1 <? P7_TOPHITS.N h
             then qsort_view qsort (P7_TOPHITS.hit h) (P7_TOPHITS.N h)
             else ret tt) m1
            = Some (tt, set_view (<[bv := (Some <$> l) ++ drop k w]> (m_view m)) m))
    as (l & Hperm & Hsorted & Hqs).
  { destruct (1 <? P7_TOPHITS.N h) eqn:E1.
    - destruct (Hq (hit_sorter m) (record_ptrs h)) as [Hp Hso].
      { by apply hit_sorter_consistent. }
      exists (qsort (hit_sorter m) (record_ptrs h)). split_and!; [done..|].
      unfold qsort_view.
      assert (read_view (P7_TOPHITS.hit h) (P7_TOPHITS.N h) m1
              = Some (record_ptrs h, m1)) as Hrv.
      { unfold read_view. rewrite Hh, HNk.
        replace k with (length (record_ptrs h)) at 1
          by (rewrite (length_record_ptrs _ _ Hu); lia).
        erewrite read_prefix; [done|]. unfold m1.
        rewrite m_view_set_view. apply lookup_insert_eq. }
      rewrite (bind_eq _ _ _ _ _ Hrv).
      unfold get_mem. unfold mbind at 1, M_bind at 1.
      rewrite forallb_readable by (intros p' Hp'; by apply (good_ptr_hits m), Hgood).
      rewrite Hh. change (hit_sorter m1) with (hit_sorter m).
      rewrite (write_view_spec bv _ [] (Some <$> record_ptrs h) (drop k w)).
      + unfold m1. by rewrite set_view_set_view, m_view_set_view, insert_insert_eq.
      + unfold m1. rewrite m_view_set_view. apply lookup_insert_eq.
      + rewrite length_fmap. by rewrite Hp.
    - exists (record_ptrs h). split_and!; [done| |done].
      apply Sorted_short. rewrite (length_record_ptrs _ _ Hu).
      apply Z.ltb_ge in E1. lia. }
  eexists. split.
  { unfold p7_tophits_Sort. rewrite Hs.
    rewrite (bind_eq _ _ _ _ _ Hfillv), (bind_eq _ _ _ _ _ Hqs). reflexivity. }
  assert (length l = k) as Hlen.
  { rewrite Hperm, (length_record_ptrs _ _ Hu). done. }
  split_and!; try done.
  - intros c Hne. rewrite m_view_set_view, lookup_insert_ne; [done|].
    intros ->. apply Hne. by rewrite Hh.
  - constructor; simpl; try done.
    + exists b, a. done.
    + exists bv, ((Some <$> l) ++ drop k w). split_and!; [done|apply lookup_insert_eq|].
      rewrite length_app, length_fmap, length_drop. lia.
    + intros _. exists l. split_and!; [|done|done].
      unfold view_ptrs. simpl. rewrite Hh, HNk, <- Hlen.
      eapply read_prefix. apply lookup_insert_eq.
Qed.

(** C7, as the code has it. On a valid list whose sort keys are all
    comparable (none is a NaN), [p7_tophits_Sort] returns [eslOK] and
    leaves a ranking that holds each of the N records once and whose keys
    go down: the key at a position is [>=] the key at the next one. *)
Theorem Sort_orders_comparable_keys qsort m h :
  qsort_contract qsort →
  valid_tophits m h → comparable_keys m h = true →
  ∃ h' m' l ks, p7_tophits_Sort qsort h m = Some (eslOK, h', m') ∧
    view_ptrs m' h' = Some l ∧ l ≡ₚ record_ptrs h ∧
    view_keys m' h' = Some ks ∧ descending ks = true.
Proof.
  intros Hq Hv Hc.
  destruct (Sort_spec qsort m h Hq Hv Hc) as (m' & HS & Hh & _ & _ & _ & _ & _ & Hv').
  assert (comparable_keys m' (P7_TOPHITS.set_is_sorted true h) = true) as Hc'.
  { unfold comparable_keys, records in *. simpl. by rewrite Hh. }
  destruct (vt_sorted _ _ Hv' eq_refl) as (l & Hl & Hp & Hs).
  destruct (ranked_descending m' (P7_TOPHITS.set_is_sorted true h)) as (ks & Hks & Hd);
    [by exists l|done|].
  exists (P7_TOPHITS.set_is_sorted true h), m', l, ks. done.
Qed.

(** ** The merge of two rankings, as a function *)

Lemma Double_lt_ge a b : Double.lt a b = true → Double.ge b a = true.
Proof. float_cases2 a b. Qed.

Lemma Double_lt_ge_lt a0 a b :
  Double.lt a0 b = true → Double.ge a0 a = true → Double.lt a b = true.
Proof. float_cases a0 a b. Qed.

Section MergeBy.
Variable key : ptr → spec_float.
Let R (a b : ptr) : Prop := Double.ge (key a) (key b) = true.

Lemma merge_by_nil_r l1 : merge_by key l1 [] = l1.
Proof. by destruct l1. Qed.

Lemma merge_by_cons a l1 b l2 :
  merge_by key (a :: l1) (b :: l2)
  = if Double.gt (key b) (key a) then b :: merge_by key (a :: l1) l2
    else a :: merge_by key l1 (b :: l2).
Proof. done. Qed.

Lemma merge_by_perm l1 l2 : merge_by key l1 l2 ≡ₚ l1 ++ l2.
Proof.
  revert l2. induction l1 as [|a l1 IH1]; intros l2.
  - by destruct l2.
  - induction l2 as [|b l2 IH2].
    + by rewrite app_nil_r.
    + rewrite merge_by_cons. destruct (Double.gt (key b) (key a)).
      * rewrite IH2. by rewrite <- Permutation_middle.
      * by rewrite IH1.
Qed.

Lemma merge_by_length l1 l2 :
  length (merge_by key l1 l2) = (length l1 + length l2)%nat.
Proof. by rewrite merge_by_perm, length_app. Qed.

(** Two rankings in descending order of comparable keys merge into
    one. *)
Lemma merge_by_sorted l1 l2 :
  (∀ p, p ∈ l1 ++ l2 → Double.is_nan (key p) = false) →
  Sorted R l1 → Sorted R l2 → Sorted R (merge_by key l1 l2).
Proof.
  revert l2. induction l1 as [|a l1 IH1]; intros l2 Hn H1 H2.
  - by destruct l2.
  - induction l2 as [|b l2 IH2]; [done|].
    rewrite merge_by_cons. destruct (Double.gt (key b) (key a)) eqn:E.
    + assert (R b a) as Hba by by apply Double_lt_ge.
      inversion H2 as [|?? H2' Hhd]; subst. constructor.
      * apply IH2; [|done]. intros p Hp. apply Hn.
        rewrite elem_of_app in *. destruct Hp as [?|?]; [by left|right; by right].
      * destruct l2 as [|b' l2]; [by constructor|].
        rewrite merge_by_cons.
        destruct (Double.gt (key b') (key a)); constructor; [|done].
        by inversion Hhd.
    + assert (R a b) as Hab.
      { apply Double_not_lt_ge; [| |done]; apply Hn; set_solver. }
      inversion H1 as [|?? H1' Hhd]; subst. constructor.
      * apply IH1; [|done..]. intros p Hp. apply Hn.
        rewrite elem_of_app in *. destruct Hp as [?|?]; [left; by right|by right].
      * destruct l1 as [|a' l1]; [by constructor|].
        rewrite merge_by_cons.
        destruct (Double.gt (key b) (key a')); constructor; [done|].
        by inversion Hhd.
Qed.

(** The recipient's entry comes before any donor's entry that has no
    greater key. *)
Lemma merge_by_recipient_first l1 l2 a b :
  StronglySorted R l1 → a ∈ l1 → b ∈ l2 →
  Double.gt (key b) (key a) = false →
  ∃ pre mid post, merge_by key l1 l2 = pre ++ a :: mid ++ b :: post.
Proof.
  revert l2. induction l1 as [|a0 l1 IH1]; intros l2 H1 Ha Hb Hle.
  - by apply elem_of_nil in Ha.
  - induction l2 as [|b0 l2 IH2]; [by apply elem_of_nil in Hb|].
    rewrite merge_by_cons. destruct (Double.gt (key b0) (key a0)) eqn:E.
    + assert (b ∈ l2) as Hb'.
      { apply elem_of_cons in Hb as [->|?]; [|done]. exfalso.
        apply elem_of_cons in Ha as [->|Ha]; [congruence|].
        inversion H1 as [|?? _ Hall]; subst.
        rewrite Forall_forall in Hall. specialize (Hall a Ha).
        pose proof (Double_lt_ge_lt _ _ _ E Hall) as Hlt.
        unfold Double.gt, Double.lt in *. congruence. }
      destruct (IH2 Hb') as (pre & mid & post & Heq).
      exists (b0 :: pre), mid, post. by rewrite Heq.
    + apply elem_of_cons in Ha as [->|Ha].
      * assert (b ∈ merge_by key l1 (b0 :: l2)) as Hin.
        { rewrite merge_by_perm. apply elem_of_app. by right. }
        apply list_elem_of_split in Hin as (mid & post & Heq).
        exists [], mid, post. simpl. by rewrite Heq.
      * inversion H1; subst.
        destruct (IH1 (b0 :: l2)) as (pre & mid & post & Heq); [done..|].
        exists (a0 :: pre), mid, post. by rewrite Heq.
Qed.
End MergeBy.

(** ** The loops of the merge *)

Lemma load_view_block bv w i p m :
  m_view m !! bv = Some w → 0 ≤ i → w !! Z.to_nat i = Some (Some p) →
  load_view (Ptr bv 0) i m = Some (p, m).
Proof.
  intros Hbv Hi Hp. unfold load_view.
  by rewrite (read_at_block _ _ _ _ _ Hbv Hi Hp).
Qed.

Lemma load_hit_read p r m :
  read_at (m_hits m) p 0 = Some r → load_hit p 0 m = Some (r, m).
Proof. unfold load_hit. by intros ->. Qed.

Lemma lookup_written {A} (pre : list (option A)) (l : list A) rest (i : nat) x :
  l !! i = Some x → (pre ++ (Some <$> l) ++ rest) !! (length pre + i)%nat = Some (Some x).
Proof.
  intros Hx. rewrite lookup_app_r by lia.
  replace (length pre + i - length pre)%nat with i by lia.
  rewrite lookup_app_l by (rewrite length_fmap; by eapply lookup_lt_Some).
  by rewrite list_lookup_fmap, Hx.
Qed.

Lemma lookup_written_0 {A} (l : list A) (rest : list (option A)) (i : nat) x :
  l !! i = Some x → ((Some <$> l) ++ rest) !! i = Some (Some x).
Proof. intros Hx. by apply (lookup_written [] l rest i x). Qed.

Section MergeLoops.
Variables (h1 h2 : P7_TOPHITS.t) (bv1 bv2 bn b2 : block) (new2 : ptr).
Variables (l1 l2 : list ptr) (rest1 rest2 : list (option ptr)).
Hypothesis Hhit1 : P7_TOPHITS.hit h1 = Ptr bv1 0.
Hypothesis Hhit2 : P7_TOPHITS.hit h2 = Ptr bv2 0.
Hypothesis Hunsrt2 : P7_TOPHITS.unsrt h2 = Ptr b2 0.
Hypothesis HN1 : P7_TOPHITS.N h1 = Z.of_nat (length l1).
Hypothesis HN2 : P7_TOPHITS.N h2 = Z.of_nat (length l2).
Hypothesis Hnew2 : new2 ≠ NULL.
Hypothesis Hbn1 : bn ≠ bv1.
Hypothesis Hbn2 : bn ≠ bv2.
Hypothesis Hin2 : Forall (λ p, block_of p = Some b2) l2.

Let tr := translate new2 (Ptr b2 0).

Lemma translate_in p :
  p ∈ l2 → ∃ d, ptr_diff p (Ptr b2 0) = Some d ∧ ptr_add new2 d = Some (tr p).
Proof using Hin2 Hnew2.
  intros Hp. rewrite Forall_forall in Hin2. specialize (Hin2 p Hp).
  destruct p as [|b o]; [done|]. simpl in Hin2. simplify_eq.
  unfold tr, translate. simpl. rewrite decide_True by done.
  destruct new2; [done|]. eauto.
Qed.

(** The memory in which the new ranking holds [c] *)
Let upd (c : list (option ptr)) (m : mem) : mem :=
  set_view (<[bn := c]> (m_view m)) m.

Lemma merge_rest1_spec fuel : ∀ (i : nat) m pre old rest,
  m_view m !! bv1 = Some ((Some <$> l1) ++ rest1) →
  m_view m !! bn = Some (pre ++ old ++ rest) →
  (i ≤ length l1)%nat → (length l1 - i ≤ fuel)%nat →
  length old = (length l1 - i)%nat →
  Z.of_nat (length pre + (length l1 - i)) ≤ INT_MAX →
  merge_rest1 fuel h1 (Ptr bn 0) (Z.of_nat i) (Z.of_nat (length pre)) m
  = Some ((Z.of_nat (length l1), Z.of_nat (length pre + (length l1 - i))),
          upd (pre ++ (Some <$> drop i l1) ++ rest) m).
Proof using Hhit1 HN1 Hbn1.
  clear Hbn2 Hin2 HN2 Hhit2 Hunsrt2 Hnew2.
  induction fuel as [|fuel IH]; intros i m pre old rest Hv1 Hvn Hi Hfuel Hold Hmax.
  - assert (i = length l1) as -> by lia. simpl. rewrite HN1, Z.ltb_irrefl.
    rewrite drop_all, Nat.sub_diag, Nat.add_0_r. simpl.
    destruct old; [|simpl in *; lia]. simpl in Hvn.
    unfold upd. rewrite insert_id by done. by rewrite set_view_same.
  - simpl. rewrite HN1. destruct (Z.of_nat i <? Z.of_nat (length l1)) eqn:E.
    + apply Z.ltb_lt in E.
      destruct (lookup_lt_is_Some_2 l1 i) as [p Hp]; [lia|].
      rewrite Hhit1.
      erewrite bind_eq; cycle 1.
      { eapply load_view_block; [done|lia|]. rewrite Nat2Z.id.
        by apply lookup_written_0. }
      destruct old as [|c old]; [simpl in *; lia|].
      erewrite bind_eq; cycle 1.
      { eapply store_view_block; [done|lia|].
        rewrite Nat2Z.id, length_app. simpl. lia. }
      rewrite wrap_int_id by (unfold INT_MAX in *; lia).
      replace (Z.of_nat i + 1) with (Z.of_nat (S i)) by lia.
      replace (Z.of_nat (length pre) + 1) with (Z.of_nat (length (pre ++ [Some p])))
        by (rewrite length_app; simpl; lia).
      rewrite Nat2Z.id. rewrite insert_app_r_alt by lia. rewrite Nat.sub_diag. simpl.
      rewrite (IH (S i) _ (pre ++ [Some p]) old rest).
      * unfold upd. rewrite set_view_set_view, m_view_set_view, insert_insert_eq.
        rewrite length_app. simpl.
        replace (length pre + 1 + (length l1 - S i))%nat
          with (length pre + (length l1 - i))%nat by lia.
        rewrite (drop_S _ _ _ Hp), <- app_assoc. done.
      * rewrite m_view_set_view, lookup_insert_ne by done. done.
      * rewrite m_view_set_view, lookup_insert_eq, <- app_assoc. done.
      * lia.
      * lia.
      * simpl in Hold. lia.
      * rewrite length_app. simpl. lia.
    + apply Z.ltb_ge in E. assert (i = length l1) as -> by lia.
      rewrite drop_all, Nat.sub_diag, Nat.add_0_r. simpl.
      destruct old; [|simpl in *; lia]. simpl in Hvn.
      unfold upd. rewrite insert_id by done. by rewrite set_view_same.
Qed.

Lemma merge_rest2_spec fuel : ∀ (j : nat) m pre old rest,
  m_view m !! bv2 = Some ((Some <$> l2) ++ rest2) →
  m_view m !! bn = Some (pre ++ old ++ rest) →
  (j ≤ length l2)%nat → (length l2 - j ≤ fuel)%nat →
  length old = (length l2 - j)%nat →
  Z.of_nat (length pre + (length l2 - j)) ≤ INT_MAX →
  merge_rest2 fuel h2 (Ptr bn 0) new2 (Z.of_nat j) (Z.of_nat (length pre)) m
  = Some ((Z.of_nat (length l2), Z.of_nat (length pre + (length l2 - j))),
          upd (pre ++ (Some <$> (tr <$> drop j l2)) ++ rest) m).
Proof using Hhit2 Hunsrt2 HN2 Hnew2 Hbn2 Hin2.
  clear Hbn1 HN1 Hhit1.
  induction fuel as [|fuel IH]; intros j m pre old rest Hv2 Hvn Hj Hfuel Hold Hmax.
  - assert (j = length l2) as -> by lia. simpl. rewrite HN2, Z.ltb_irrefl.
    rewrite drop_all, Nat.sub_diag, Nat.add_0_r. simpl.
    destruct old; [|simpl in *; lia]. simpl in Hvn.
    unfold upd. rewrite insert_id by done. by rewrite set_view_same.
  - simpl. rewrite HN2. destruct (Z.of_nat j <? Z.of_nat (length l2)) eqn:E.
    + apply Z.ltb_lt in E.
      destruct (lookup_lt_is_Some_2 l2 j) as [p Hp]; [lia|].
      rewrite Hhit2, Hunsrt2.
      erewrite bind_eq; cycle 1.
      { eapply load_view_block; [done|lia|]. rewrite Nat2Z.id.
        by apply lookup_written_0. }
      destruct (translate_in p) as (d & Hd & Hq); [by eapply list_elem_of_lookup_2|].
      erewrite bind_eq; [|by apply lift_Some].
      erewrite bind_eq; [|by apply lift_Some].
      destruct old as [|c old]; [simpl in *; lia|].
      erewrite bind_eq; cycle 1.
      { eapply store_view_block; [done|lia|].
        rewrite Nat2Z.id, length_app. simpl. lia. }
      rewrite wrap_int_id by (unfold INT_MAX in *; lia).
      replace (Z.of_nat j + 1) with (Z.of_nat (S j)) by lia.
      replace (Z.of_nat (length pre) + 1) with (Z.of_nat (length (pre ++ [Some (tr p)])))
        by (rewrite length_app; simpl; lia).
      rewrite Nat2Z.id. rewrite insert_app_r_alt by lia. rewrite Nat.sub_diag. simpl.
      rewrite (IH (S j) _ (pre ++ [Some (tr p)]) old rest).
      * unfold upd. rewrite set_view_set_view, m_view_set_view, insert_insert_eq.
        rewrite length_app. simpl.
        replace (length pre + 1 + (length l2 - S j))%nat
          with (length pre + (length l2 - j))%nat by lia.
        rewrite (drop_S _ _ _ Hp), <- app_assoc. done.
      * rewrite m_view_set_view, lookup_insert_ne by done. done.
      * rewrite m_view_set_view, lookup_insert_eq, <- app_assoc. done.
      * lia.
      * lia.
      * simpl in Hold. lia.
      * rewrite length_app. simpl. lia.
    + apply Z.ltb_ge in E. assert (j = length l2) as -> by lia.
      rewrite drop_all, Nat.sub_diag, Nat.add_0_r. simpl.
      destruct old; [|simpl in *; lia]. simpl in Hvn.
      unfold upd. rewrite insert_id by done. by rewrite set_view_same.
Qed.

(** The records behind the two rankings, which the loops only read *)
Variable H : gmap block (list (option P7_HIT.t)).
Let key : ptr → spec_float := key_in H.
Hypothesis Hread1 : ∀ p, p ∈ l1 → is_Some (read_at H p 0).
Hypothesis Hread2 : ∀ p, p ∈ l2 →
  ∃ r, read_at H p 0 = Some r ∧ key (tr p) = P7_HIT.sortkey r.

Lemma merge_both_spec fuel : ∀ (i j : nat) m pre old rest,
  m_hits m = H →
  m_view m !! bv1 = Some ((Some <$> l1) ++ rest1) →
  m_view m !! bv2 = Some ((Some <$> l2) ++ rest2) →
  m_view m !! bn = Some (pre ++ old ++ rest) →
  (i ≤ length l1)%nat → (j ≤ length l2)%nat →
  ((length l1 - i) + (length l2 - j) ≤ fuel)%nat →
  length old = ((length l1 - i) + (length l2 - j))%nat →
  Z.of_nat (length pre + length old) ≤ INT_MAX →
  ∃ (i' j' : nat) out old',
    merge_both fuel h1 h2 (Ptr bn 0) new2 (Z.of_nat i) (Z.of_nat j)
               (Z.of_nat (length pre)) m
    = Some ((Z.of_nat i', Z.of_nat j', Z.of_nat (length (pre ++ (Some <$> out)))),
            upd ((pre ++ (Some <$> out)) ++ old' ++ rest) m) ∧
    (i ≤ i' ≤ length l1)%nat ∧ (j ≤ j' ≤ length l2)%nat ∧
    (i' = length l1 ∨ j' = length l2) ∧
    length old' = ((length l1 - i') + (length l2 - j'))%nat ∧
    (length out + length old' = length old)%nat ∧
    out ++ merge_by key (drop i' l1) (tr <$> drop j' l2)
    = merge_by key (drop i l1) (tr <$> drop j l2).
Proof using All.
  induction fuel as [|fuel IH];
    intros i j m pre old rest Hm Hv1 Hv2 Hvn Hi Hj Hfuel Hold Hmax.
  - exists i, j, [], old. simpl. rewrite HN1, HN2.
    assert ((Z.of_nat i <? Z.of_nat (length l1)) && (Z.of_nat j <? Z.of_nat (length l2))
            = false) as ->.
    { apply andb_false_iff. rewrite !Z.ltb_ge. lia. }
    rewrite app_nil_r. unfold upd. rewrite insert_id by done.
    rewrite set_view_same. split_and!; try done; lia.
  - simpl. rewrite HN1, HN2.
    destruct ((Z.of_nat i <? Z.of_nat (length l1)) && (Z.of_nat j <? Z.of_nat (length l2)))
      eqn:E.
    + apply andb_prop in E as [E1%Z.ltb_lt E2%Z.ltb_lt].
      destruct (lookup_lt_is_Some_2 l1 i) as [p1 Hp1]; [lia|].
      destruct (lookup_lt_is_Some_2 l2 j) as [p2 Hp2]; [lia|].
      destruct (Hread1 p1) as [r1 Hr1]; [by eapply list_elem_of_lookup_2|].
      destruct (Hread2 p2) as (r2 & Hr2 & Hk2); [by eapply list_elem_of_lookup_2|].
      rewrite Hhit1, Hhit2, Hunsrt2.
      erewrite bind_eq; cycle 1.
      { eapply load_view_block; [done|lia|]. rewrite Nat2Z.id.
        by apply lookup_written_0. }
      erewrite bind_eq; [|apply load_hit_read; by rewrite Hm].
      erewrite bind_eq; cycle 1.
      { eapply load_view_block; [done|lia|]. rewrite Nat2Z.id.
        by apply lookup_written_0. }
      erewrite bind_eq; [|apply load_hit_read; by rewrite Hm].
      destruct old as [|c old]; [simpl in *; lia|].
      assert (key p1 = P7_HIT.sortkey r1) as Hk1
        by (unfold key, key_in; by rewrite Hr1).
      rewrite (drop_S _ _ _ Hp1), (drop_S _ _ _ Hp2), fmap_cons, merge_by_cons.
      rewrite Hk1, Hk2.
      destruct (Double.gt (P7_HIT.sortkey r2) (P7_HIT.sortkey r1)) eqn:Hgt.
      * destruct (translate_in p2) as (d & Hd & Hq); [by eapply list_elem_of_lookup_2|].
        erewrite bind_eq; [|by apply lift_Some].
        erewrite bind_eq; [|by apply lift_Some].
        erewrite bind_eq; cycle 1.
        { eapply store_view_block; [done|lia|].
          rewrite Nat2Z.id, length_app. simpl. lia. }
        rewrite wrap_int_id by (unfold INT_MAX in *; simpl in *; lia).
        replace (Z.of_nat j + 1) with (Z.of_nat (S j)) by lia.
        replace (Z.of_nat (length pre) + 1)
          with (Z.of_nat (length (pre ++ [Some (tr p2)])))
          by (rewrite length_app; simpl; lia).
        rewrite Nat2Z.id. rewrite insert_app_r_alt by lia. rewrite Nat.sub_diag. simpl.
        destruct (IH i (S j) (set_view (<[bn := pre ++ Some (tr p2) :: old ++ rest]>
                                          (m_view m)) m)
                     (pre ++ [Some (tr p2)]) old rest)
          as (i' & j' & out & old' & Hrun & Hi' & Hj' & Hend & Hold' & Hlen & Hout).
        { done. }
        { rewrite m_view_set_view, lookup_insert_ne by done. done. }
        { rewrite m_view_set_view, lookup_insert_ne by done. done. }
        { rewrite m_view_set_view, lookup_insert_eq, <- app_assoc. done. }
        { lia. } { lia. } { lia. } { simpl in Hold. lia. }
        { rewrite length_app. simpl in *. lia. }
        exists i', j', (tr p2 :: out), old'. split_and!; try done; try lia.
        -- rewrite Hrun. unfold upd.
           rewrite set_view_set_view, m_view_set_view, insert_insert_eq.
           rewrite fmap_cons. rewrite <- !app_assoc. simpl. done.
        -- simpl in *. lia.
        -- simpl. rewrite Hout. rewrite (drop_S _ _ _ Hp1). done.
      * erewrite bind_eq; cycle 1.
        { eapply store_view_block; [done|lia|].
          rewrite Nat2Z.id, length_app. simpl. lia. }
        rewrite wrap_int_id by (unfold INT_MAX in *; simpl in *; lia).
        replace (Z.of_nat i + 1) with (Z.of_nat (S i)) by lia.
        replace (Z.of_nat (length pre) + 1)
          with (Z.of_nat (length (pre ++ [Some p1])))
          by (rewrite length_app; simpl; lia).
        rewrite Nat2Z.id. rewrite insert_app_r_alt by lia. rewrite Nat.sub_diag. simpl.
        destruct (IH (S i) j (set_view (<[bn := pre ++ Some p1 :: old ++ rest]>
                                          (m_view m)) m)
                     (pre ++ [Some p1]) old rest)
          as (i' & j' & out & old' & Hrun & Hi' & Hj' & Hend & Hold' & Hlen & Hout).
        { done. }
        { rewrite m_view_set_view, lookup_insert_ne by done. done. }
        { rewrite m_view_set_view, lookup_insert_ne by done. done. }
        { rewrite m_view_set_view, lookup_insert_eq, <- app_assoc. done. }
        { lia. } { lia. } { lia. } { simpl in Hold. lia. }
        { rewrite length_app. simpl in *. lia. }
        exists i', j', (p1 :: out), old'. split_and!; try done; try lia.
        -- rewrite Hrun. unfold upd.
           rewrite set_view_set_view, m_view_set_view, insert_insert_eq.
           rewrite fmap_cons. rewrite <- !app_assoc. simpl. done.
        -- simpl in *. lia.
        -- simpl. rewrite Hout. rewrite (drop_S _ _ _ Hp2). done.
    + exists i, j, [], old. apply andb_false_iff in E. rewrite !Z.ltb_ge in E.
      rewrite app_nil_r. unfold upd. rewrite insert_id by done.
      rewrite set_view_same. split_and!; try done; lia.
Qed.
End MergeLoops.

(** ** Loops that rewrite the cells of an array one by one *)

Section MapLoop.
Context {A : Type}.
Variable content : mem → option (list (option A)).
Variable upd : list (option A) → mem → mem.
Hypothesis content_upd : ∀ c m, content (upd c m) = Some c.
Hypothesis upd_upd : ∀ c c' m, upd c (upd c' m) = upd c m.
Hypothesis upd_same : ∀ c m, content m = Some c → upd c m = m.
Variable body : Z → M unit.
Variable f : A → A.
Variable P : A → Prop.
Hypothesis Hbody : ∀ m c (i : nat) x,
  content m = Some c → c !! i = Some (Some x) → P x →
  body (Z.of_nat i) m = Some (tt, upd (<[i := Some (f x)]> c) m).

Lemma map_loop_prefix (l : list A) rest m (k : nat) :
  content m = Some ((Some <$> l) ++ rest) → Forall P l → (k ≤ length l)%nat →
  for_loop 0 (Z.of_nat k) body m
  = Some (tt, upd ((Some <$> (f <$> take k l)) ++ (Some <$> drop k l) ++ rest) m).
Proof.
  intros Hc HP. induction k as [|k IH]; intros Hk.
  - rewrite for_loop_0, take_0, drop_0. simpl. by rewrite upd_same.
  - rewrite for_loop_S. erewrite bind_eq by (apply IH; lia).
    destruct (lookup_lt_is_Some_2 l k) as [x Hx]; [lia|].
    erewrite Hbody; [|apply content_upd| |by eapply Forall_lookup_1].
    2:{ rewrite lookup_app_r; rewrite !length_fmap, length_take; [|lia].
        replace (k - k `min` length l)%nat with 0%nat by lia.
        rewrite (drop_S _ _ _ Hx). done. }
    rewrite upd_upd. do 3 f_equal.
    rewrite insert_app_r_alt; rewrite !length_fmap, length_take; [|lia].
    replace (k - k `min` length l)%nat with 0%nat by lia.
    rewrite (drop_S _ _ _ Hx), (take_S_r _ _ _ Hx), !fmap_app. simpl.
    by rewrite <- app_assoc.
Qed.

Lemma map_loop (l : list A) rest m :
  content m = Some ((Some <$> l) ++ rest) → Forall P l →
  for_loop 0 (Z.of_nat (length l)) body m
  = Some (tt, upd ((Some <$> (f <$> l)) ++ rest) m).
Proof.
  intros Hc HP. rewrite (map_loop_prefix l rest) by done.
  by rewrite firstn_all, drop_all.
Qed.
End MapLoop.

(** The translation of a ranking after its records moved *)
Lemma rebase_view_spec bv b b' l rest m :
  m_view m !! bv = Some ((Some <$> l) ++ rest) →
  Forall (λ p, block_of p = Some b) l →
  rebase_view (Ptr bv 0) (Ptr b' 0) (Ptr b 0) (Z.of_nat (length l)) m
  = Some (tt, set_view
      (<[bv := (Some <$> (translate (Ptr b' 0) (Ptr b 0) <$> l)) ++ rest]> (m_view m)) m).
Proof.
  intros Hbv Hin. unfold rebase_view.
  apply (map_loop (λ m, m_view m !! bv)
           (λ c m, set_view (<[bv := c]> (m_view m)) m)) with (P := λ p, block_of p = Some b);
    try done.
  - intros c m'. by rewrite m_view_set_view, lookup_insert_eq.
  - intros c c' m'. by rewrite set_view_set_view, m_view_set_view, insert_insert_eq.
  - intros c m' Hc. by rewrite insert_id, set_view_same.
  - intros m' c i [|bp o] Hc Hi Hp; [done|]. simpl in Hp. simplify_eq.
    erewrite bind_eq; [|eapply load_view_block; [done|lia|by rewrite Nat2Z.id]].
    unfold translate. simpl. rewrite decide_True by done. simpl.
    erewrite bind_eq; [|by apply lift_Some].
    erewrite bind_eq; [|by apply lift_Some].
    rewrite (store_view_block _ c) by (done || lia || (rewrite Nat2Z.id; by eapply lookup_lt_Some)).
    by rewrite Nat2Z.id.
Qed.

(** The loop in which the donor gives up its strings *)
Lemma null_strings_spec b rs rest m :
  m_hits m !! b = Some ((Some <$> rs) ++ rest) →
  for_loop 0 (Z.of_nat (length rs)) (λ i,
    modify_hit (Ptr b 0) i (P7_HIT.set_name NULL);;
    modify_hit (Ptr b 0) i (P7_HIT.set_acc NULL);;
    modify_hit (Ptr b 0) i (P7_HIT.set_desc NULL)) m
  = Some (tt, set_hits (<[b := (Some <$> (null_strings <$> rs)) ++ rest]> (m_hits m)) m).
Proof.
  intros Hb.
  assert (Hmod : ∀ m' c (i : nat) x g,
    m_hits m' !! b = Some c → c !! i = Some (Some x) →
    modify_hit (Ptr b 0) (Z.of_nat i) g m'
    = Some (tt, set_hits (<[b := <[i := Some (g x)]> c]> (m_hits m')) m')).
  { intros m' c i x g Hc Hi. unfold modify_hit.
    erewrite bind_eq; cycle 1.
    { unfold load_hit.
      assert (read_at (m_hits m') (Ptr b 0) (Z.of_nat i) = Some x) as ->; [|done].
      eapply read_at_block; [done|lia|by rewrite Nat2Z.id]. }
    unfold store_hit, write_at, write_cell. rewrite Z.add_0_l.
    rewrite (proj2 (Z.leb_le 0 (Z.of_nat i))) by lia. rewrite Hc. simpl.
    rewrite Nat2Z.id, decide_True by by eapply lookup_lt_Some. done. }
  apply (map_loop (λ m, m_hits m !! b)
           (λ c m, set_hits (<[b := c]> (m_hits m)) m)) with (P := λ _, True);
    try done.
  - intros c m'. by rewrite m_hits_set_hits, lookup_insert_eq.
  - intros c c' m'. by rewrite set_hits_set_hits, m_hits_set_hits, insert_insert_eq.
  - intros c m' Hc. by rewrite insert_id, set_hits_same.
  - intros m' c i x Hc Hi _.
    erewrite bind_eq; [|by eapply Hmod].
    erewrite bind_eq; cycle 1.
    { eapply Hmod; [by rewrite m_hits_set_hits, lookup_insert_eq|].
      apply list_lookup_insert_eq. by eapply lookup_lt_Some. }
    erewrite Hmod; cycle 1.
    { by rewrite m_hits_set_hits, lookup_insert_eq. }
    { apply list_lookup_insert_eq. rewrite length_insert. by eapply lookup_lt_Some. }
    rewrite !set_hits_set_hits, !m_hits_set_hits, !insert_insert_eq.
    by rewrite !list_insert_insert_eq.
  - by apply Forall_true.
Qed.

(** ** Copying records *)

Lemma copy_cells_spec {A} bd (cells : list (option A)) :
  ∀ (s : gmap block (list (option A))) ofs i pre old rest,
  s !! bd = Some (pre ++ old ++ rest) → length old = length cells →
  0 ≤ ofs → 0 ≤ i → ofs + i = Z.of_nat (length pre) →
  copy_cells s (Ptr bd ofs) cells i = Some (<[bd := pre ++ cells ++ rest]> s).
Proof.
  induction cells as [|c cells IH]; intros s ofs i pre old rest Hbd Hlen Hofs Hi Hpos.
  - destruct old; [|done]. simpl in *. by rewrite insert_id.
  - destruct old as [|c' old]; [done|]. simpl.
    unfold write_cell. destruct (0 <=? ofs + i) eqn:E; [|lia].
    rewrite Hbd. simpl. rewrite Hpos, Nat2Z.id.
    rewrite decide_True by (rewrite length_app; simpl; lia).
    rewrite insert_app_r_alt, Nat.sub_diag by lia. simpl.
    rewrite (IH _ ofs (i + 1) (pre ++ [c]) old rest).
    + rewrite insert_insert_eq, <- app_assoc. done.
    + rewrite lookup_insert_eq, <- app_assoc. done.
    + simpl in Hlen. lia.
    + lia.
    + lia.
    + rewrite length_app. simpl. lia.
Qed.

Lemma memcpy_in_spec {A} (s : gmap block (list (option A))) bd bs ad asrc (n1 n : nat) :
  s !! bd = Some ad → s !! bs = Some asrc →
  (n1 + n ≤ length ad)%nat → (n ≤ length asrc)%nat →
  memcpy_in (Ptr bd (0 + Z.of_nat n1)) (Ptr bs 0) (Z.of_nat n) s
  = Some (<[bd := take n1 ad ++ take n asrc ++ drop (n1 + n) ad]> s).
Proof.
  intros Hbd Hbs Hn1 Hn. unfold memcpy_in.
  assert (mapM (cell_at s (Ptr bs 0)) (seqZ 0 (Z.of_nat n)) = Some (take n asrc)) as ->.
  { apply mapM_Some, Forall2_same_length_lookup. split.
    - rewrite length_seqZ, length_take. lia.
    - intros i z x Hz Hx. apply lookup_seqZ in Hz as [-> Hz].
      rewrite (cell_at_base _ _ _ _ Hbs) by lia.
      rewrite Z.add_0_l, Nat2Z.id. rewrite lookup_take_lt in Hx by lia. done. }
  simpl.
  apply (copy_cells_spec bd _ s _ 0 (take n1 ad) (take n (drop n1 ad)) (drop (n1 + n) ad)).
  - rewrite Hbd. f_equal. rewrite <- drop_drop, take_drop. by rewrite take_drop.
  - rewrite !length_take, length_drop. lia.
  - lia.
  - lia.
  - rewrite length_take. lia.
Qed.

(** ** Frames and contents *)

(** A list stays valid when its records and its ranking are untouched. *)
Lemma valid_frame m m' h bv :
  P7_TOPHITS.hit h = Ptr bv 0 →
  m_hits m' = m_hits m → m_view m' !! bv = m_view m !! bv →
  valid_tophits m h → valid_tophits m' h.
Proof.
  intros Hh Hhits Hview [HN HNa Hu (bv' & w & Hh' & Hbv & Hlw) Hs].
  rewrite Hh in Hh'. simplify_eq.
  constructor; try done.
  - by rewrite Hhits.
  - exists bv', w. by rewrite Hview.
  - intros Hso. apply (ranked_transfer m h); try done; [|by apply Hs].
    intros i Hi. rewrite Hh. unfold cell_at. by rewrite Hview.
Qed.

Lemma comparable_frame m m' h :
  m_hits m' = m_hits m → comparable_keys m' h = comparable_keys m h.
Proof. intros E. unfold comparable_keys, records. by rewrite E. Qed.

(** What is read from the start of a block is the start of the block. *)
Lemma read_content {A} (s : gmap block (list (option A))) b a (n : Z) (l : list A) :
  s !! b = Some a →
  mapM (read_at s (Ptr b 0)) (seqZ 0 n) = Some l →
  a = (Some <$> l) ++ drop (length l) a ∧ length l = Z.to_nat n.
Proof.
  intros Hb Hl. apply mapM_Some in Hl.
  pose proof (Forall2_length _ _ _ Hl) as Hlen. rewrite length_seqZ in Hlen.
  split; [|done].
  rewrite <- (take_drop (length l) a) at 1. f_equal.
  apply list_eq. intros i.
  destruct (decide (i < length l)%nat) as [Hi|Hi].
  - destruct (lookup_lt_is_Some_2 l i) as [x Hx]; [done|].
    assert (seqZ 0 n !! i = Some (Z.of_nat i)) as Hz.
    { rewrite lookup_seqZ. lia. }
    pose proof (Forall2_lookup_lr _ _ _ _ _ _ Hl Hz Hx) as Hr. cbv beta in Hr.
    rewrite read_at_cell, (cell_at_base _ _ _ _ Hb) in Hr by lia.
    rewrite Nat2Z.id in Hr.
    rewrite lookup_take_lt, list_lookup_fmap, Hx by done. simpl.
    destruct (a !! i) as [[y|]|]; simpl in Hr; by simplify_eq.
  - rewrite lookup_take_ge by lia.
    rewrite lookup_ge_None_2; [done|]. rewrite length_fmap. lia.
Qed.

(** An allocation that does not fail *)
Lemma realloc_in_ok {A} o b n (s : gmap block (list (option A))) a :
  o ≠ AllocFail → 0 ≤ n → s !! b = Some a →
  ∃ b' s', realloc_in o (Ptr b 0) n s = Some (Ptr b' 0, s') ∧
    s' !! b' = Some (resize (Z.to_nat n) None a) ∧
    (b' = b ∨ s !! b' = None) ∧
    ∀ c, c ≠ b → c ≠ b' → s' !! c = s !! c.
Proof.
  intros Ho Hn Hb. destruct (realloc_in_live o b n s a Hb) as (q & s' & Hr & _ & _ & Hok).
  assert (q ≠ NULL) as Hq.
  { intros ->. revert Hr. unfold realloc_in. rewrite decide_True, Hb by done. simpl.
    rewrite (proj2 (Z.leb_le 0 n)) by done. by destruct o. }
  destruct (Hok Hq) as (_ & b' & -> & Hb' & Hfresh & Hother).
  exists b', s'. split_and!; try done. destruct Hfresh as [?|[? _]]; eauto.
Qed.

Lemma malloc_in_ok {A} o n (s : gmap block (list (option A))) :
  o ≠ AllocFail → 0 ≤ n →
  ∃ b, malloc_in o n s = (Ptr b 0, <[b := replicate (Z.to_nat n) None]> s) ∧
       s !! b = None.
Proof.
  intros Ho Hn. exists (fresh (dom s)). unfold malloc_in.
  rewrite (proj2 (Z.leb_le 0 n)) by done.
  split; [by destruct o|]. apply not_elem_of_dom, is_fresh.
Qed.

Lemma merge_by_ext key key' l1 l2 :
  (∀ p, p ∈ l1 ++ l2 → key p = key' p) →
  merge_by key l1 l2 = merge_by key' l1 l2.
Proof.
  revert l2. induction l1 as [|a l1 IH1]; intros l2 He; [by destruct l2|].
  induction l2 as [|b l2 IH2]; [done|].
  rewrite !merge_by_cons.
  rewrite (He a), (He b) by (rewrite elem_of_app, !elem_of_cons; eauto).
  destruct (Double.gt (key' b) (key' a)).
  - f_equal. apply IH2. intros p Hp. apply He.
    rewrite elem_of_app, !elem_of_cons. rewrite elem_of_app, elem_of_cons in Hp.
    tauto.
  - f_equal. apply IH1. intros p Hp. apply He.
    rewrite elem_of_app, !elem_of_cons. rewrite elem_of_app, elem_of_cons in Hp.
    tauto.
Qed.

Lemma Sorted_fmap_in {A B} (R : relation A) (R' : relation B) (f : A → B) l :
  (∀ x y, x ∈ l → y ∈ l → R x y → R' (f x) (f y)) →
  Sorted R l → Sorted R' (f <$> l).
Proof.
  induction l as [|x l IH]; intros Hf Hs; [constructor|].
  inversion Hs as [|?? Hs' Hhd]; subst. simpl. constructor.
  - apply IH; [|done]. intros y z ??. apply Hf; by right.
  - destruct l as [|y l]; simpl; constructor.
    inversion Hhd; subst. apply Hf; [by left|right; by left|done].
Qed.

Lemma Sorted_impl_in {A} (R R' : relation A) l :
  (∀ x y, x ∈ l → y ∈ l → R x y → R' x y) → Sorted R l → Sorted R' l.
Proof.
  intros Hf Hs. rewrite <- (list_fmap_id l). by apply (Sorted_fmap_in R R' id).
Qed.

Lemma key_of_read m p r :
  read_at (m_hits m) p 0 = Some r → key_of m p = P7_HIT.sortkey r.
Proof. unfold key_of, key_in. by intros ->. Qed.

Lemma record_ptrs_block h b :
  P7_TOPHITS.unsrt h = Ptr b 0 →
  Forall (λ p, block_of p = Some b) (record_ptrs h).
Proof.
  intros Hu. rewrite (record_ptrs_base _ _ Hu). apply Forall_fmap, Forall_true. done.
Qed.

Lemma translate_record b b' (n i : Z) :
  translate (Ptr b' n) (Ptr b 0) (Ptr b (0 + i)) = Ptr b' (n + i).
Proof.
  unfold translate. simpl. rewrite decide_True by done. simpl. f_equal. lia.
Qed.

(** ** The merge *)

(** [lia] on the arithmetic of the context only *)
Ltac arith_context :=
  repeat match goal with
  | H : ?T |- _ =>
      lazymatch T with
      | @eq Z _ _ => fail
      | @eq nat _ _ => fail
      | Z.le _ _ => fail
      | Z.lt _ _ => fail
      | le _ _ => fail
      | lt _ _ => fail
      | _ ∧ _ => fail
      | _ => clear H
      end
  end.
Ltac arith := first [solve [arith_context; lia] | lia].

(** The two sorts at the start of [p7_tophits_Merge] *)
Lemma Merge_sorts qsort m h1 h2 :
  qsort_contract qsort →
  valid_tophits m h1 → valid_tophits m h2 → separate h1 h2 →
  comparable_keys m h1 = true → comparable_keys m h2 = true →
  ∃ m1 m2,
    p7_tophits_Sort qsort h1 m = Some (eslOK, P7_TOPHITS.set_is_sorted true h1, m1) ∧
    p7_tophits_Sort qsort h2 m1 = Some (eslOK, P7_TOPHITS.set_is_sorted true h2, m2) ∧
    m_hits m2 = m_hits m ∧ m_dom m2 = m_dom m ∧ m_str m2 = m_str m ∧ m_ali m2 = m_ali m ∧
    valid_tophits m2 (P7_TOPHITS.set_is_sorted true h1) ∧
    valid_tophits m2 (P7_TOPHITS.set_is_sorted true h2) ∧
    (P7_TOPHITS.is_sorted h1 = true → P7_TOPHITS.is_sorted h2 = true → m2 = m).
Proof.
  intros Hq Hv1 Hv2 [_ Hsep] Hc1 Hc2.
  destruct (vt_hit _ _ Hv1) as (bv1 & w1 & Hh1 & _).
  destruct (vt_hit _ _ Hv2) as (bv2 & w2 & Hh2 & _).
  rewrite Hh1, Hh2 in Hsep. simpl in Hsep.
  destruct (Sort_spec qsort m h1 Hq Hv1 Hc1)
    as (m1 & HS1 & Hhits1 & Hd1 & Hs1 & Ha1 & Hfr1 & Hid1 & Hv1').
  assert (valid_tophits m1 h2) as Hv2m1.
  { apply (valid_frame m m1 h2 bv2); try done.
    apply Hfr1. rewrite Hh1. simpl. congruence. }
  assert (comparable_keys m1 h2 = true) as Hc2m1
    by by rewrite (comparable_frame m m1).
  destruct (Sort_spec qsort m1 h2 Hq Hv2m1 Hc2m1)
    as (m2 & HS2 & Hhits2 & Hd2 & Hs2 & Ha2 & Hfr2 & Hid2 & Hv2').
  exists m1, m2. split_and!; try done; try congruence.
  - apply (valid_frame m1 m2 _ bv1); try done.
    apply Hfr2. rewrite Hh2. simpl. congruence.
  - intros E1 E2. rewrite (Hid2 E2). by apply Hid1.
Qed.

Lemma set_is_sorted_fields v h :
  P7_TOPHITS.hit (P7_TOPHITS.set_is_sorted v h) = P7_TOPHITS.hit h ∧
  P7_TOPHITS.unsrt (P7_TOPHITS.set_is_sorted v h) = P7_TOPHITS.unsrt h ∧
  P7_TOPHITS.N (P7_TOPHITS.set_is_sorted v h) = P7_TOPHITS.N h ∧
  P7_TOPHITS.Nalloc (P7_TOPHITS.set_is_sorted v h) = P7_TOPHITS.Nalloc h.
Proof. done. Qed.

(** What a list in order looks like in memory *)
Lemma sorted_list_layout m h :
  valid_tophits m h → P7_TOPHITS.is_sorted h = true → comparable_keys m h = true →
  ∃ b a bv w rs l,
    P7_TOPHITS.unsrt h = Ptr b 0 ∧ m_hits m !! b = Some a ∧
    (Z.to_nat (P7_TOPHITS.Nalloc h) ≤ length a)%nat ∧
    P7_TOPHITS.hit h = Ptr bv 0 ∧ m_view m !! bv = Some w ∧
    records m h = Some rs ∧ a = (Some <$> rs) ++ drop (length rs) a ∧
    length rs = Z.to_nat (P7_TOPHITS.N h) ∧
    Forall (λ r, Double.is_nan (P7_HIT.sortkey r) = false) rs ∧
    view_ptrs m h = Some l ∧ w = (Some <$> l) ++ drop (length l) w ∧
    length l = Z.to_nat (P7_TOPHITS.N h) ∧
    l ≡ₚ record_ptrs h ∧ Sorted (λ p q, hit_sorter m p q ≤ 0) l.
Proof.
  intros [HN HNa (b & a & Hu & Hb & Hla & _) (bv & w & Hh & Hbv & _) Hso] Hs Hc.
  destruct (Hso Hs) as (l & Hl & Hp & Hsorted).
  unfold comparable_keys in Hc. destruct (records m h) as [rs|] eqn:Hrs; [|done].
  pose proof Hrs as Hrs'. unfold records in Hrs'. rewrite Hu in Hrs'.
  destruct (read_content _ _ _ _ _ Hb Hrs') as [Ha Hlrs].
  pose proof Hl as Hl'. unfold view_ptrs in Hl'. rewrite Hh in Hl'.
  destruct (read_content _ _ _ _ _ Hbv Hl') as [Hw Hll].
  exists b, a, bv, w, rs, l. split_and!; try done.
  apply Forall_forall. intros r Hr. unfold nan_free in Hc.
  rewrite forallb_forall in Hc. apply negb_true_iff, Hc, list_elem_of_In.
  apply list_elem_of_fmap. eauto.
Qed.

Lemma read_at_written {A} (s : gmap block (list (option A))) b (l : list A) rest
    (i : Z) x :
  s !! b = Some ((Some <$> l) ++ rest) → 0 ≤ i → l !! Z.to_nat i = Some x →
  read_at s (Ptr b (0 + i)) 0 = Some x.
Proof.
  intros Hb Hi Hx. rewrite read_at_shift.
  eapply read_at_block; [done..|]. by apply lookup_written_0.
Qed.

(** A successful merge, step by step *)
(** [p7_tophits_Merge] when it succeeds: what it returns and what the
    memory holds afterwards *)
Lemma Merge_ok_full qsort o1 o2 m h1 h2 :
  qsort_contract qsort →
  valid_tophits m h1 → valid_tophits m h2 → separate h1 h2 →
  comparable_keys m h1 = true → comparable_keys m h2 = true →
  o1 ≠ AllocFail → o2 ≠ AllocFail →
  P7_TOPHITS.Nalloc h1 + P7_TOPHITS.Nalloc h2 ≤ INT_MAX →
  ∃ m' bn b' rs1 rs2 l1 l2,
    let h1' := P7_TOPHITS.mk (Ptr bn 0) (Ptr b' 0)
                 (P7_TOPHITS.Nalloc h1 + P7_TOPHITS.Nalloc h2)
                 (P7_TOPHITS.N h1 + P7_TOPHITS.N h2)
                 (P7_TOPHITS.nreported h1) true in
    p7_tophits_Merge qsort o1 o2 h1 h2 m
      = Some (eslOK, h1', P7_TOPHITS.set_is_sorted true h2, m') ∧
    records m h1 = Some rs1 ∧ records m h2 = Some rs2 ∧
    records m' h1' = Some (rs1 ++ rs2) ∧
    records m' (P7_TOPHITS.set_is_sorted true h2) = Some (null_strings <$> rs2) ∧
    view_ptrs m' h1' = Some (merge_by (key_of m') l1 l2) ∧
    l1 ≡ₚ (λ i, Ptr b' (0 + i)) <$> seqZ 0 (P7_TOPHITS.N h1) ∧
    l2 ≡ₚ (λ i, Ptr b' (0 + P7_TOPHITS.N h1 + i)) <$> seqZ 0 (P7_TOPHITS.N h2) ∧
    Sorted (λ p q, Double.ge (key_of m' p) (key_of m' q) = true) l1 ∧
    Sorted (λ p q, Double.ge (key_of m' p) (key_of m' q) = true) l2 ∧
    (∀ p, p ∈ l1 ++ l2 → good_ptr m' p) ∧
    m_dom m' = m_dom m ∧ m_str m' = m_str m ∧ m_ali m' = m_ali m ∧
    ∃ m2 l1o l2o a' w' bv1 bv2 b2 a2',
      (P7_TOPHITS.is_sorted h1 = true → P7_TOPHITS.is_sorted h2 = true → m2 = m) ∧
      m_hits m2 = m_hits m ∧
      view_ptrs m2 h1 = Some l1o ∧ view_ptrs m2 h2 = Some l2o ∧
      l1 = translate (Ptr b' 0) (P7_TOPHITS.unsrt h1) <$> l1o ∧
      l2 = translate (Ptr b' (0 + P7_TOPHITS.N h1)) (P7_TOPHITS.unsrt h2) <$> l2o ∧
      (∀ p, p ∈ l1o →
         read_at (m_hits m') (translate (Ptr b' 0) (P7_TOPHITS.unsrt h1) p) 0
         = read_at (m_hits m) p 0 ∧ is_Some (read_at (m_hits m) p 0)) ∧
      (∀ p, p ∈ l2o →
         read_at (m_hits m')
           (translate (Ptr b' (0 + P7_TOPHITS.N h1)) (P7_TOPHITS.unsrt h2) p) 0
         = read_at (m_hits m) p 0 ∧ is_Some (read_at (m_hits m) p 0)) ∧
      m_hits m' !! b' = Some a' ∧
      length a' = Z.to_nat (P7_TOPHITS.Nalloc h1 + P7_TOPHITS.Nalloc h2) ∧
      m_view m' !! bn = Some w' ∧
      length w' = Z.to_nat (P7_TOPHITS.Nalloc h1 + P7_TOPHITS.Nalloc h2) ∧
      P7_TOPHITS.hit h1 = Ptr bv1 0 ∧ m_view m' !! bv1 = None ∧
      P7_TOPHITS.hit h2 = Ptr bv2 0 ∧ m_view m' !! bv2 = m_view m2 !! bv2 ∧
      P7_TOPHITS.unsrt h2 = Ptr b2 0 ∧ m_hits m' !! b2 = Some a2' ∧
      (Z.to_nat (P7_TOPHITS.Nalloc h2) ≤ length a2')%nat ∧
      b' ≠ b2 ∧ bn ≠ bv2 ∧
      valid_tophits m' (P7_TOPHITS.set_is_sorted true h2).
Proof.
  intros Hq Hv1 Hv2 Hsep Hc1 Hc2 Ho1 Ho2 Hsum.
  destruct (Merge_sorts qsort m h1 h2 Hq Hv1 Hv2 Hsep Hc1 Hc2)
    as (m1 & m2 & HS1 & HS2 & Hhits & Hdom & Hstr & Hali & Hv1s & Hv2s & Hsame).
  pose proof (vt_N _ _ Hv1) as HN1. pose proof (vt_Nalloc _ _ Hv1) as HNa1.
  pose proof (vt_N _ _ Hv2) as HN2. pose proof (vt_Nalloc _ _ Hv2) as HNa2.
  assert (comparable_keys m2 (P7_TOPHITS.set_is_sorted true h1) = true) as Hc1s.
  { rewrite (comparable_frame m m2) by done. exact Hc1. }
  assert (comparable_keys m2 (P7_TOPHITS.set_is_sorted true h2) = true) as Hc2s.
  { rewrite (comparable_frame m m2) by done. exact Hc2. }
  destruct (sorted_list_layout _ _ Hv1s eq_refl Hc1s)
    as (b1 & a1 & bv1 & w1 & rs1 & l1o & Hu1 & Hb1 & Hla1 & Hh1 & Hbv1 & Hrs1 & Ha1
        & Hlrs1 & Hnan1 & Hl1 & Hw1 & Hll1 & Hp1 & Hso1).
  destruct (sorted_list_layout _ _ Hv2s eq_refl Hc2s)
    as (b2 & a2 & bv2 & w2 & rs2 & l2o & Hu2 & Hb2 & Hla2 & Hh2 & Hbv2 & Hrs2 & Ha2
        & Hlrs2 & Hnan2 & Hl2 & Hw2 & Hll2 & Hp2 & Hso2).
  simpl in Hu1, Hh1, Hu2, Hh2, Hla1, Hla2, Hlrs1, Hlrs2, Hll1, Hll2.
  change (record_ptrs (P7_TOPHITS.set_is_sorted true h1)) with (record_ptrs h1) in Hp1.
  change (record_ptrs (P7_TOPHITS.set_is_sorted true h2)) with (record_ptrs h2) in Hp2.
  change (records m2 (P7_TOPHITS.set_is_sorted true h1)) with (records m2 h1) in Hrs1.
  change (records m2 (P7_TOPHITS.set_is_sorted true h2)) with (records m2 h2) in Hrs2.
  change (view_ptrs m2 (P7_TOPHITS.set_is_sorted true h1)) with (view_ptrs m2 h1) in Hl1.
  change (view_ptrs m2 (P7_TOPHITS.set_is_sorted true h2)) with (view_ptrs m2 h2) in Hl2.
  destruct Hsep as [Hsepu Hseph]. rewrite Hu1, Hu2 in Hsepu. rewrite Hh1, Hh2 in Hseph.
  simpl in Hsepu, Hseph.
  assert (b1 ≠ b2) as Hb12 by congruence. assert (bv1 ≠ bv2) as Hbv12 by congruence.
  set (n1 := Z.to_nat (P7_TOPHITS.N h1)). set (n2 := Z.to_nat (P7_TOPHITS.N h2)).
  set (Na := P7_TOPHITS.Nalloc h1 + P7_TOPHITS.Nalloc h2).
  assert (wrap_int Na = Na) as HwNa by (apply wrap_int_id; unfold Na, INT_MAX in *; arith).
  (* the reallocation of the records *)
  destruct (realloc_in_ok o1 b1 Na (m_hits m2) a1 Ho1 ltac:(unfold Na; arith) Hb1)
    as (b' & s3 & Hre & Hb' & Hfresh & Hother).
  assert (b' ≠ b2) as Hb'2.
  { destruct Hfresh as [->|Hf]; [done|]. intros ->. by rewrite Hb2 in Hf. }
  assert (s3 !! b2 = Some a2) as Hs3b2 by (rewrite Hother; done).
  set (a1' := resize (Z.to_nat Na) None a1) in *.
  (* the allocation of the new ranking *)
  destruct (malloc_in_ok o2 Na (m_view m2) Ho2 ltac:(unfold Na; arith)) as (bn & Hma & Hbn).
  assert (bn ≠ bv1) as Hbn1 by (intros ->; by rewrite Hbv1 in Hbn).
  assert (bn ≠ bv2) as Hbn2 by (intros ->; by rewrite Hbv2 in Hbn).
  (* the pointers of the two rankings *)
  set (l1 := translate (Ptr b' 0) (Ptr b1 0) <$> l1o).
  set (new2 := Ptr b' (0 + P7_TOPHITS.N h1)).
  set (l2 := translate new2 (Ptr b2 0) <$> l2o).
  assert (Forall (λ p, block_of p = Some b1) l1o) as Hin1.
  { rewrite Hp1. by apply record_ptrs_block. }
  assert (Forall (λ p, block_of p = Some b2) l2o) as Hin2.
  { rewrite Hp2. by apply record_ptrs_block. }
  (* the records after the copy *)
  set (a1'' := take n1 a1' ++ take n2 a2 ++ drop (n1 + n2) a1').
  set (s6 := <[b' := a1'']> s3).
  assert (take n1 a1' = Some <$> rs1) as Htake1.
  { unfold a1'. rewrite take_resize_le, resize_le by (unfold Na, n1; arith).
    rewrite Ha1. rewrite take_app_length'; [done|]. rewrite length_fmap. by unfold n1. }
  assert (take n2 a2 = Some <$> rs2) as Htake2.
  { rewrite Ha2. rewrite take_app_length'; [done|]. rewrite length_fmap. by unfold n2. }
  assert (a1'' = (Some <$> (rs1 ++ rs2)) ++ drop (n1 + n2) a1') as Ha1''.
  { unfold a1''. by rewrite Htake1, Htake2, fmap_app, <- app_assoc. }
  assert (s6 !! b' = Some ((Some <$> (rs1 ++ rs2)) ++ drop (n1 + n2) a1')) as Hs6b'.
  { unfold s6. by rewrite lookup_insert_eq, Ha1''. }
  assert (s6 !! b2 = Some ((Some <$> rs2) ++ drop (length rs2) a2)) as Hs6b2.
  { unfold s6. rewrite lookup_insert_ne by done. by rewrite Hs3b2, <- Ha2. }
  (* every pointer of the two rankings names one record *)
  assert (Hl1o : ∀ p, p ∈ l1o → ∃ i r, p = Ptr b1 (0 + i) ∧ 0 ≤ i ∧
            rs1 !! Z.to_nat i = Some r ∧ read_at (m_hits m2) p 0 = Some r).
  { intros p Hp. rewrite Hp1, (record_ptrs_base _ _ Hu1) in Hp.
    apply list_elem_of_fmap in Hp as (i & -> & Hi%elem_of_seqZ_0). simpl in Hi.
    destruct (lookup_lt_is_Some_2 rs1 (Z.to_nat i)) as [r Hr]; [arith|].
    exists i, r. split_and!; try done; [arith|].
    eapply read_at_written; [by rewrite Hb1, Ha1 at 1|arith|done]. }
  assert (Hl2o : ∀ p, p ∈ l2o → ∃ i r, p = Ptr b2 (0 + i) ∧ 0 ≤ i ∧
            rs2 !! Z.to_nat i = Some r ∧ read_at (m_hits m2) p 0 = Some r).
  { intros p Hp. rewrite Hp2, (record_ptrs_base _ _ Hu2) in Hp.
    apply list_elem_of_fmap in Hp as (i & -> & Hi%elem_of_seqZ_0). simpl in Hi.
    destruct (lookup_lt_is_Some_2 rs2 (Z.to_nat i)) as [r Hr]; [arith|].
    exists i, r. split_and!; try done; [arith|].
    eapply read_at_written; [by rewrite Hb2, Ha2 at 1|arith|done]. }
  assert (Hrd1 : ∀ p, p ∈ l1o → ∃ r o, read_at (m_hits m2) p 0 = Some r ∧
            translate (Ptr b' 0) (Ptr b1 0) p = Ptr b' o ∧
            read_at s6 (Ptr b' o) 0 = Some r ∧
            Double.is_nan (P7_HIT.sortkey r) = false).
  { intros p (i & r & -> & Hi & Hr & Hread)%Hl1o. exists r, (0 + i).
    split_and!; [done|apply translate_record| |].
    - eapply read_at_written; [done|done|]. by apply lookup_app_l_Some.
    - rewrite Forall_forall in Hnan1. apply Hnan1. by eapply list_elem_of_lookup_2. }
  assert (Hrd2 : ∀ p, p ∈ l2o → ∃ r o, read_at (m_hits m2) p 0 = Some r ∧
            read_at s6 p 0 = Some r ∧
            translate new2 (Ptr b2 0) p = Ptr b' o ∧
            read_at s6 (Ptr b' o) 0 = Some r ∧
            Double.is_nan (P7_HIT.sortkey r) = false).
  { intros p (i & r & -> & Hi & Hr & Hread)%Hl2o.
    exists r, (0 + (P7_TOPHITS.N h1 + i)). split_and!; [done| | | |].
    - eapply read_at_written; done.
    - unfold new2. rewrite translate_record. by f_equal.
    - eapply read_at_written; [done|arith|].
      rewrite lookup_app_r by arith.
      replace (Z.to_nat (P7_TOPHITS.N h1 + i) - length rs1)%nat with (Z.to_nat i) by arith.
      done.
    - rewrite Forall_forall in Hnan2. apply Hnan2. by eapply list_elem_of_lookup_2. }
  (* running the function *)
  set (m3 := set_hits s3 m2).
  assert (E3 : ESL_RALLOC_hits o1 (Ptr b1 0) Na m2 = Some (Ptr b' 0, m3)).
  { unfold ESL_RALLOC_hits. cbn [is_null]. by rewrite Hre. }
  set (m4 := set_view (<[bn := replicate (Z.to_nat Na) None]> (m_view m2)) m3).
  assert (E4 : ESL_ALLOC_view o2 Na m3 = Some (Ptr bn 0, m4)).
  { unfold ESL_ALLOC_view. change (m_view m3) with (m_view m2). by rewrite Hma. }
  set (rest1 := drop (length l1o) w1).
  set (rest2 := drop (length l2o) w2).
  set (m5 := set_view (<[bv1 := (Some <$> l1) ++ rest1]> (m_view m4)) m4).
  assert (E5 : rebase_view (Ptr bv1 0) (Ptr b' 0) (Ptr b1 0) (P7_TOPHITS.N h1) m4
               = Some (tt, m5)).
  { replace (P7_TOPHITS.N h1) with (Z.of_nat (length l1o)) by arith.
    apply rebase_view_spec; [|done].
    unfold m4. rewrite m_view_set_view, lookup_insert_ne by done.
    by rewrite Hbv1, Hw1 at 1. }
  set (m6 := set_hits s6 m5).
  assert (E6 : memcpy_hits new2 (Ptr b2 0) (P7_TOPHITS.N h2) m5 = Some (tt, m6)).
  { unfold memcpy_hits, new2. change (m_hits m5) with s3.
    replace (P7_TOPHITS.N h1) with (Z.of_nat n1) by (unfold n1; arith).
    replace (P7_TOPHITS.N h2) with (Z.of_nat n2) by (unfold n2; arith).
    rewrite (memcpy_in_spec s3 b' b2 a1' a2 n1 n2); try done.
    - unfold a1'. rewrite length_resize. unfold n1, n2, Na. arith.
    - unfold n2. arith. }
  unfold p7_tophits_Merge.
  rewrite (bind_eq _ _ _ _ _ HS1). cbv beta iota.
  rewrite (bind_eq _ _ _ _ _ HS2). cbv beta iota.
  cbn [P7_TOPHITS.hit P7_TOPHITS.unsrt P7_TOPHITS.N P7_TOPHITS.Nalloc
       P7_TOPHITS.nreported P7_TOPHITS.is_sorted P7_TOPHITS.set_hit
       P7_TOPHITS.set_unsrt P7_TOPHITS.set_N P7_TOPHITS.set_Nalloc
       P7_TOPHITS.set_is_sorted].
  fold Na. rewrite HwNa, Hu1, Hu2, Hh1.
  rewrite (bind_eq _ _ _ _ _ E3). cbn [is_null].
  rewrite (bind_eq _ _ _ _ _ E4). cbn [is_null].
  rewrite (bind_eq _ _ _ _ _ E5).
  erewrite bind_eq; [|by apply lift_Some]. fold new2.
  rewrite (bind_eq _ _ _ _ _ E6).
  (* the three loops *)
  set (h1r := P7_TOPHITS.set_unsrt (Ptr b' 0) (P7_TOPHITS.set_is_sorted true h1)).
  set (h2s := P7_TOPHITS.set_is_sorted true h2).
  set (fuel := Z.to_nat (P7_TOPHITS.N h1 + P7_TOPHITS.N h2)).
  set (spare := replicate (Z.to_nat Na - (n1 + n2)) (@None ptr)).
  assert (Hv6_1 : m_view m6 !! bv1 = Some ((Some <$> l1) ++ rest1)).
  { unfold m6, m5. by rewrite m_view_set_hits, m_view_set_view, lookup_insert_eq. }
  assert (Hv6_2 : m_view m6 !! bv2 = Some ((Some <$> l2o) ++ rest2)).
  { unfold m6, m5, m4. rewrite m_view_set_hits, !m_view_set_view.
    rewrite !lookup_insert_ne by done. by rewrite Hbv2, Hw2 at 1. }
  assert (Hv6_n : m_view m6 !! bn = Some ([] ++ replicate (n1 + n2) None ++ spare)).
  { unfold m6, m5, m4. rewrite m_view_set_hits, !m_view_set_view.
    rewrite lookup_insert_ne, lookup_insert_eq by done. simpl. f_equal.
    unfold spare. rewrite <- replicate_add. f_equal. unfold n1, n2, Na. arith. }
  assert (length l1 = n1) as Hlen1 by (unfold l1; by rewrite length_fmap).
  assert (length l2o = n2) as Hlen2 by done.
  destruct (merge_both_spec h1r h2s bv1 bv2 bn b2 new2 l1 l2o rest1 rest2)
    with (H := s6) (fuel := fuel) (i := 0%nat) (j := 0%nat) (m := m6)
         (pre := @nil (option ptr)) (old := replicate (n1 + n2) (@None ptr)) (rest := spare)
    as (i' & j' & out & old' & Hrun & Hi' & Hj' & Hend & Hold' & Hlen & Hout);
    try done.
  { unfold h1r. simpl. arith. } { unfold h2s. simpl. arith. }
  { intros p' (p & -> & Hp)%list_elem_of_fmap.
    destruct (Hrd1 p Hp) as (r & o & _ & -> & Hr & _). eauto. }
  { intros p Hp. destruct (Hrd2 p Hp) as (r & o & _ & Hr & -> & Hr' & _).
    exists r. split; [done|]. unfold key_in. by rewrite Hr'. }
  { arith. } { arith. } { unfold fuel. arith. }
  { rewrite length_replicate. arith. }
  { rewrite length_replicate. simpl. unfold n1, n2, Na in *. arith. }
  rewrite length_replicate in Hlen.
  cbn [app length Z.of_nat] in Hrun.
  rewrite (bind_eq _ _ _ _ _ Hrun). cbv beta iota.
  set (ma := set_view (<[bn := (Some <$> out) ++ old' ++ spare]> (m_view m6)) m6) in *.
  set (k1 := (length l1 - i')%nat).
  erewrite bind_eq; cycle 1.
  { apply (merge_rest1_spec h1r bv1 bn l1 rest1) with (old := take k1 old')
            (rest := drop k1 old' ++ spare); try done.
    - unfold h1r. simpl. arith.
    - unfold ma. by rewrite m_view_set_view, lookup_insert_ne.
    - unfold ma. rewrite m_view_set_view, lookup_insert_eq.
      by rewrite (app_assoc (take _ _)), take_drop.
    - arith.
    - unfold fuel. arith.
    - rewrite length_take. arith.
    - rewrite length_fmap. unfold n1, n2, Na in *. arith. }
  cbv beta iota.
  set (mb := set_view (<[bn := (Some <$> out) ++ (Some <$> drop i' l1)
                                 ++ drop k1 old' ++ spare]> (m_view ma)) ma).
  erewrite bind_eq; cycle 1.
  { replace (Z.of_nat (length (Some <$> out) + (length l1 - i')))
      with (Z.of_nat (length ((Some <$> out) ++ (Some <$> drop i' l1)))).
    2:{ rewrite !length_app, !length_fmap, length_drop. done. }
    apply (merge_rest2_spec h2s bv2 bn b2 new2 l2o rest2) with (old := drop k1 old')
            (rest := spare); try done.
    - unfold h2s. simpl. arith.
    - unfold mb, ma. rewrite !m_view_set_view, !lookup_insert_ne by done. done.
    - unfold mb. rewrite m_view_set_view, lookup_insert_eq. by rewrite <- app_assoc.
    - arith.
    - unfold fuel. arith.
    - rewrite length_drop. arith.
    - rewrite length_app, !length_fmap, length_drop. unfold n1, n2, Na in *. arith. }
  cbv beta iota.
  (* the ranking that the loops have written *)
  set (tr := translate new2 (Ptr b2 0)) in *.
  assert (out ++ drop i' l1 ++ (tr <$> drop j' l2o) = merge_by (key_in s6) l1 l2) as Hmerged.
  { rewrite !drop_0 in Hout. change l2 with (tr <$> l2o). rewrite <- Hout. f_equal.
    destruct Hend as [->| ->].
    - rewrite drop_all. by destruct (tr <$> drop j' l2o).
    - rewrite drop_all. simpl. by rewrite merge_by_nil_r, app_nil_r. }
  set (mc := set_view (<[bn := (Some <$> merge_by (key_in s6) l1 l2) ++ spare]>
                         (m_view m6)) m6).
  match goal with |- context [ (for_loop _ _ _ ≫= _) ?mm ] =>
    assert (mm = mc) as -> end.
  { unfold mc, mb, ma. rewrite !set_view_set_view, !m_view_set_view, !insert_insert_eq.
    rewrite <- Hmerged, !fmap_app, <- !app_assoc. done. }
  (* the donor gives up its strings *)
  set (s7 := <[b2 := (Some <$> (null_strings <$> rs2)) ++ drop (length rs2) a2]> s6).
  erewrite bind_eq; cycle 1.
  { replace (P7_TOPHITS.N h2) with (Z.of_nat (length rs2)) by arith.
    apply null_strings_spec. unfold mc. rewrite m_hits_set_view. unfold m6.
    by rewrite m_hits_set_hits. }
  change (m_hits mc) with s6. fold s7.
  set (md := set_hits s7 mc).
  assert (free_view (Ptr bv1 0) md
          = Some (tt, set_view (delete bv1 (m_view mc)) md)) as Efree.
  { assert (m_view md !! bv1 = Some ((Some <$> l1) ++ rest1)) as Hlive.
    { unfold md, mc. rewrite m_view_set_hits, m_view_set_view.
      by rewrite lookup_insert_ne. }
    unfold free_view, free_in. rewrite decide_True by done.
    by rewrite Hlive. }
  rewrite (bind_eq _ _ _ _ _ Efree).
  rewrite wrap_int_id by (unfold INT_MAX, Na in *; arith).
  set (m' := set_view (delete bv1 (m_view mc)) md).
  (* what the memory holds at the end *)
  assert (Hread' : ∀ o, read_at (m_hits m') (Ptr b' o) 0 = read_at s6 (Ptr b' o) 0).
  { intros o. change (m_hits m') with s7. unfold s7, read_at, cell_at.
    by rewrite lookup_insert_ne. }
  assert (Hkey1 : ∀ p, p ∈ l1o → ∃ r, read_at (m_hits m2) p 0 = Some r ∧
            Double.is_nan (P7_HIT.sortkey r) = false ∧
            read_at (m_hits m') (translate (Ptr b' 0) (Ptr b1 0) p) 0 = Some r ∧
            key_in s6 (translate (Ptr b' 0) (Ptr b1 0) p) = P7_HIT.sortkey r).
  { intros p Hp. destruct (Hrd1 p Hp) as (r & o & Hr & -> & Hr' & Hn).
    exists r. rewrite Hread'. unfold key_in. by rewrite Hr'. }
  assert (Hkey2 : ∀ p, p ∈ l2o → ∃ r, read_at (m_hits m2) p 0 = Some r ∧
            Double.is_nan (P7_HIT.sortkey r) = false ∧
            read_at (m_hits m') (tr p) 0 = Some r ∧
            key_in s6 (tr p) = P7_HIT.sortkey r).
  { intros p Hp. destruct (Hrd2 p Hp) as (r & o & Hr & _ & Htr & Hr' & Hn).
    exists r. rewrite Htr, Hread'. unfold key_in. by rewrite Hr'. }
  assert (Hkeys : ∀ p, p ∈ l1 ++ l2 → key_in s6 p = key_of m' p ∧ good_ptr m' p).
  { intros p [(q & -> & Hin)%list_elem_of_fmap|(q & -> & Hin)%list_elem_of_fmap]%elem_of_app.
    - destruct (Hkey1 q Hin) as (r & _ & Hn & Hr & Hk).
      rewrite (key_of_read _ _ _ Hr). split; [done|]. by exists r.
    - destruct (Hkey2 q Hin) as (r & _ & Hn & Hr & Hk).
      rewrite (key_of_read _ _ _ Hr). split; [done|]. by exists r. }
  exists m', bn, b', rs1, rs2, l1, l2. cbv zeta. split_and!.
  - reflexivity.
  - unfold records. rewrite <- Hhits. exact Hrs1.
  - unfold records. rewrite <- Hhits. exact Hrs2.
  - unfold records. cbn [P7_TOPHITS.unsrt P7_TOPHITS.N].
    replace (P7_TOPHITS.N h1 + P7_TOPHITS.N h2) with (Z.of_nat (length (rs1 ++ rs2)))
      by (rewrite length_app; arith).
    eapply read_prefix. change (m_hits m') with s7. unfold s7.
    rewrite lookup_insert_ne by done. exact Hs6b'.
  - unfold records, h2s. cbn [P7_TOPHITS.unsrt P7_TOPHITS.N P7_TOPHITS.set_is_sorted].
    rewrite Hu2.
    replace (P7_TOPHITS.N h2) with (Z.of_nat (length (null_strings <$> rs2)))
      by (rewrite length_fmap; arith).
    eapply read_prefix. change (m_hits m') with s7. unfold s7.
    by rewrite lookup_insert_eq.
  - unfold view_ptrs. cbn [P7_TOPHITS.hit P7_TOPHITS.N].
    rewrite <- (merge_by_ext (key_in s6)) by (intros p Hp; by apply Hkeys).
    replace (P7_TOPHITS.N h1 + P7_TOPHITS.N h2)
      with (Z.of_nat (length (merge_by (key_in s6) l1 l2))).
    2:{ rewrite merge_by_length. unfold l2. rewrite length_fmap. arith. }
    eapply read_prefix. unfold m'. rewrite m_view_set_view.
    rewrite lookup_delete_ne by done. unfold mc.
    rewrite m_view_set_view. apply lookup_insert_eq.
  - unfold l1. rewrite Hp1, (record_ptrs_base _ _ Hu1), <- list_fmap_compose.
    erewrite list_fmap_ext; [done|]. intros i x _. simpl. apply translate_record.
  - unfold l2. rewrite Hp2, (record_ptrs_base _ _ Hu2), <- list_fmap_compose.
    erewrite list_fmap_ext; [done|]. intros i x _. simpl. unfold new2.
    apply translate_record.
  - unfold l1. eapply Sorted_fmap_in; [|exact Hso1].
    intros p q Hp Hpq Hle.
    destruct (Hkey1 p Hp) as (rp & Hrp & Hnp & Hrp' & _).
    destruct (Hkey1 q Hpq) as (rq & Hrq & Hnq & Hrq' & _).
    rewrite (key_of_read _ _ _ Hrp'), (key_of_read _ _ _ Hrq').
    by apply (hit_sorter_ge m2 p q).
  - unfold l2. eapply Sorted_fmap_in; [|exact Hso2].
    intros p q Hp Hpq Hle.
    destruct (Hkey2 p Hp) as (rp & Hrp & Hnp & Hrp' & _).
    destruct (Hkey2 q Hpq) as (rq & Hrq & Hnq & Hrq' & _).
    rewrite (key_of_read _ _ _ Hrp'), (key_of_read _ _ _ Hrq').
    by apply (hit_sorter_ge m2 p q).
  - intros p Hp. by apply Hkeys.
  - exact Hdom.
  - exact Hstr.
  - exact Hali.
  - exists m2, l1o, l2o, ((Some <$> (rs1 ++ rs2)) ++ drop (n1 + n2) a1'),
      ((Some <$> merge_by (key_in s6) l1 l2) ++ spare), bv1, bv2, b2,
      ((Some <$> (null_strings <$> rs2)) ++ drop (length rs2) a2).
    split_and!; try done.
    + intros p Hp. destruct (Hkey1 p Hp) as (r & Hr & _ & Hr' & _).
      rewrite Hr', <- Hhits, Hr. by split; [|eexists].
    + intros p Hp. destruct (Hkey2 p Hp) as (r & Hr & _ & Hr' & _).
      fold new2. fold tr. rewrite Hr', <- Hhits, Hr. by split; [|eexists].
    + change (m_hits m') with s7. unfold s7. by rewrite lookup_insert_ne.
    + rewrite length_app, length_fmap, length_app, length_drop.
      unfold a1'. rewrite length_resize. clear -Hlrs1 Hlrs2 HN1 HN2 HNa1 HNa2. unfold n1, n2, Na. arith.
    + unfold m'. rewrite m_view_set_view, lookup_delete_ne by done.
      unfold mc. rewrite m_view_set_view. apply lookup_insert_eq.
    + rewrite length_app, length_fmap, merge_by_length. unfold spare.
      rewrite length_replicate. unfold l2. rewrite length_fmap. clear -Hlen1 Hlen2 HN1 HN2 HNa1 HNa2. unfold n1, n2, Na in *. arith.
    + unfold m'. rewrite m_view_set_view. apply lookup_delete_eq.
    + unfold m'. rewrite m_view_set_view, lookup_delete_ne by done.
      unfold mc. rewrite m_view_set_view, lookup_insert_ne by done.
      unfold m6, m5, m4. rewrite m_view_set_hits, !m_view_set_view.
      by rewrite !lookup_insert_ne by done.
    + change (m_hits m') with s7. unfold s7. apply lookup_insert_eq.
    + rewrite length_app, !length_fmap, length_drop. arith.
    + (* the donor is still a valid list *)
      assert (Hread2 : ∀ p, p ∈ l2o → ∃ r, read_at (m_hits m2) p 0 = Some r ∧
                read_at (m_hits m') p 0 = Some (null_strings r)).
      { intros p (i & r & -> & Hi & Hr & Hread)%Hl2o. exists r. split; [done|].
        eapply read_at_written; [|done|].
        - change (m_hits m') with s7. unfold s7. apply lookup_insert_eq.
        - by rewrite list_lookup_fmap, Hr. }
      destruct Hv2s as [HN2s HNa2s _ (bvx & wx & Hhx & Hbvx & Hlwx) _].
      simpl in Hhx. rewrite Hh2 in Hhx. injection Hhx as <-.
      rewrite Hbv2 in Hbvx. injection Hbvx as <-.
      constructor; try done.
      * exists b2, ((Some <$> (null_strings <$> rs2)) ++ drop (length rs2) a2).
        split_and!; [done| | |].
        -- change (m_hits m') with s7. unfold s7. apply lookup_insert_eq.
        -- rewrite length_app, !length_fmap, length_drop. simpl. arith.
        -- intros i Hi. simpl in Hi.
           destruct (lookup_lt_is_Some_2 rs2 i) as [r Hr]; [arith|].
           exists (null_strings r).
           rewrite lookup_app_l by (rewrite !length_fmap; arith).
           by rewrite !list_lookup_fmap, Hr.
      * exists bv2, w2. split_and!; [done| |done].
        unfold m'. rewrite m_view_set_view, lookup_delete_ne by done.
        unfold mc. rewrite m_view_set_view, lookup_insert_ne by done.
        unfold m6, m5, m4. rewrite m_view_set_hits, !m_view_set_view.
        by rewrite !lookup_insert_ne by done.
      * intros _. exists l2o. split_and!.
        -- change (mapM (read_at (m_view m') (P7_TOPHITS.hit h2))
                     (seqZ 0 (P7_TOPHITS.N h2)) = Some l2o). rewrite Hh2.
           replace (P7_TOPHITS.N h2) with (Z.of_nat (length l2o)) by arith.
           eapply read_prefix.
           unfold m'. rewrite m_view_set_view, lookup_delete_ne by done.
           unfold mc. rewrite m_view_set_view, lookup_insert_ne by done.
           unfold m6, m5, m4. rewrite m_view_set_hits, !m_view_set_view.
           rewrite !lookup_insert_ne by done. by rewrite Hbv2, Hw2 at 1.
        -- exact Hp2.
        -- eapply Sorted_impl_in; [|exact Hso2]. intros p q Hp Hpq Hle.
           destruct (Hread2 p Hp) as (rp & Hrp & Hrp').
           destruct (Hread2 q Hpq) as (rq & Hrq & Hrq').
           unfold hit_sorter in *. rewrite Hrp, Hrq in Hle. by rewrite Hrp', Hrq'.
Qed.

Lemma Merge_ok_spec qsort o1 o2 m h1 h2 :
  qsort_contract qsort →
  valid_tophits m h1 → valid_tophits m h2 → separate h1 h2 →
  comparable_keys m h1 = true → comparable_keys m h2 = true →
  o1 ≠ AllocFail → o2 ≠ AllocFail →
  P7_TOPHITS.Nalloc h1 + P7_TOPHITS.Nalloc h2 ≤ INT_MAX →
  ∃ m' bn b' rs1 rs2 l1 l2,
    let h1' := P7_TOPHITS.mk (Ptr bn 0) (Ptr b' 0)
                 (P7_TOPHITS.Nalloc h1 + P7_TOPHITS.Nalloc h2)
                 (P7_TOPHITS.N h1 + P7_TOPHITS.N h2)
                 (P7_TOPHITS.nreported h1) true in
    p7_tophits_Merge qsort o1 o2 h1 h2 m
      = Some (eslOK, h1', P7_TOPHITS.set_is_sorted true h2, m') ∧
    records m h1 = Some rs1 ∧ records m h2 = Some rs2 ∧
    records m' h1' = Some (rs1 ++ rs2) ∧
    records m' (P7_TOPHITS.set_is_sorted true h2) = Some (null_strings <$> rs2) ∧
    view_ptrs m' h1' = Some (merge_by (key_of m') l1 l2) ∧
    l1 ≡ₚ (λ i, Ptr b' (0 + i)) <$> seqZ 0 (P7_TOPHITS.N h1) ∧
    l2 ≡ₚ (λ i, Ptr b' (0 + P7_TOPHITS.N h1 + i)) <$> seqZ 0 (P7_TOPHITS.N h2) ∧
    Sorted (λ p q, Double.ge (key_of m' p) (key_of m' q) = true) l1 ∧
    Sorted (λ p q, Double.ge (key_of m' p) (key_of m' q) = true) l2 ∧
    (∀ p, p ∈ l1 ++ l2 → good_ptr m' p) ∧
    m_dom m' = m_dom m ∧ m_str m' = m_str m ∧ m_ali m' = m_ali m.
Proof.
  intros Hq Hv1 Hv2 Hsep Hc1 Hc2 Ho1 Ho2 Hsum.
  destruct (Merge_ok_full qsort o1 o2 m h1 h2 Hq Hv1 Hv2 Hsep Hc1 Hc2 Ho1 Ho2 Hsum)
    as (m' & bn & b' & rs1 & rs2 & l1 & l2 & HM & H1 & H2 & H3 & H4 & H5 & H6 & H7
        & H8 & H9 & H10 & H11 & H12 & H13 & _).
  exists m', bn, b', rs1, rs2, l1, l2. cbv zeta in *. done.
Qed.

(** ** The merged list *)

Lemma mapM_perm {A B} (f : A → option B) l l' k :
  l ≡ₚ l' → mapM f l = Some k → ∃ k', mapM f l' = Some k' ∧ k ≡ₚ k'.
Proof.
  intros Hp. revert k. induction Hp as [|x l l' Hp IH|x y l|l l' l'' _ IH1 _ IH2]; intros k Hk.
  - injection Hk as <-. by exists [].
  - simpl in *. destruct (f x) as [z|]; [|done]. simpl in *.
    destruct (mapM f l) as [k0|] eqn:E; [|done]. injection Hk as <-.
    destruct (IH k0 eq_refl) as (k' & -> & Hk'). exists (z :: k'). split; [done|].
    by apply perm_skip.
  - simpl in *. destruct (f y) as [zy|]; [|done]. destruct (f x) as [zx|]; [|done].
    simpl in *. destruct (mapM f l) as [k0|]; [|done]. injection Hk as <-.
    exists (zx :: zy :: k0). split; [done|]. apply perm_swap.
  - destruct (IH1 k Hk) as (k1 & Hk1 & Hp1). destruct (IH2 k1 Hk1) as (k2 & Hk2 & Hp2).
    exists k2. split; [done|]. by etrans.
Qed.

Lemma record_ptrs_read m h :
  records m h = mapM (λ p, read_at (m_hits m) p 0) (record_ptrs h) ∨
  P7_TOPHITS.unsrt h = NULL.
Proof.
  unfold records, record_ptrs. destruct (P7_TOPHITS.unsrt h) as [|b o]; [by right|left].
  generalize (seqZ 0 (P7_TOPHITS.N h)). intros l.
  induction l as [|i l IH]; [done|]. simpl. rewrite read_at_shift.
  destruct (read_at _ _ i); [|done]. simpl. by rewrite IH.
Qed.

Lemma record_ptrs_app b o n1 n2 :
  0 ≤ n1 → 0 ≤ n2 →
  (λ i, Ptr b (o + i)) <$> seqZ 0 (n1 + n2)
  = ((λ i, Ptr b (o + i)) <$> seqZ 0 n1) ++ ((λ i, Ptr b (o + n1 + i)) <$> seqZ 0 n2).
Proof.
  intros H1 H2. rewrite seqZ_app, fmap_app by done. f_equal.
  rewrite Z.add_0_l. rewrite <- (Z.add_0_r n1) at 1.
  rewrite <- fmap_add_seqZ, <- list_fmap_compose.
  apply list_fmap_ext. intros i x _. simpl. f_equal. lia.
Qed.

Lemma ge_key_trans key :
  Transitive (λ p q : ptr, Double.ge (key p) (key q) = true).
Proof. intros p q r. apply Double_ge_trans. Qed.

Lemma good_ptr_key m p : good_ptr m p → Double.is_nan (key_of m p) = false.
Proof. intros (r & Hr & Hn). by rewrite (key_of_read _ _ _ Hr). Qed.

(** The keys along a ranking whose keys go down *)
Lemma ge_sorted_descending m l :
  (∀ p, p ∈ l → good_ptr m p) →
  Sorted (λ p q, Double.ge (key_of m p) (key_of m q) = true) l →
  ∃ rs, mapM (λ p, read_at (m_hits m) p 0) l = Some rs ∧
        descending (P7_HIT.sortkey <$> rs) = true.
Proof.
  intros Hg Hs. apply sorted_descending; [done|].
  eapply Sorted_impl_in; [|exact Hs]. intros p q Hp Hq Hge. cbv beta in Hge.
  destruct (Hg p Hp) as (rp & Hrp & Hnp). destruct (Hg q Hq) as (rq & Hrq & Hnq).
  rewrite (key_of_read _ _ _ Hrp), (key_of_read _ _ _ Hrq) in Hge.
  by apply (hit_sorter_ge m p q rp rq).
Qed.

(** C5, as the code has it. Two valid lists that share no array and whose
    sort keys are all comparable (none is a NaN), of N and M records: when
    the two allocations succeed, [p7_tophits_Merge] returns [eslOK], the
    recipient holds N+M records, which are its own records followed by the
    donor's, its ranking names each of them once, and the keys along the
    ranking go down. *)
Theorem Merge_is_sorted_union qsort o1 o2 m h1 h2 :
  qsort_contract qsort →
  valid_tophits m h1 → valid_tophits m h2 → separate h1 h2 →
  comparable_keys m h1 = true → comparable_keys m h2 = true →
  o1 ≠ AllocFail → o2 ≠ AllocFail →
  P7_TOPHITS.Nalloc h1 + P7_TOPHITS.Nalloc h2 ≤ INT_MAX →
  ∃ h1' h2' m' rs1 rs2 l rsv,
    p7_tophits_Merge qsort o1 o2 h1 h2 m = Some (eslOK, h1', h2', m') ∧
    records m h1 = Some rs1 ∧ records m h2 = Some rs2 ∧
    P7_TOPHITS.N h1' = P7_TOPHITS.N h1 + P7_TOPHITS.N h2 ∧
    P7_TOPHITS.is_sorted h1' = true ∧
    records m' h1' = Some (rs1 ++ rs2) ∧
    view_ptrs m' h1' = Some l ∧ l ≡ₚ record_ptrs h1' ∧
    view_records m' h1' = Some rsv ∧ rsv ≡ₚ rs1 ++ rs2 ∧
    descending (P7_HIT.sortkey <$> rsv) = true.
Proof.
  intros Hq Hv1 Hv2 Hsep Hc1 Hc2 Ho1 Ho2 Hsum.
  destruct (Merge_ok_spec qsort o1 o2 m h1 h2 Hq Hv1 Hv2 Hsep Hc1 Hc2 Ho1 Ho2 Hsum)
    as (m' & bn & b' & rs1 & rs2 & l1 & l2 & HM & Hrs1 & Hrs2 & Hrec & _ & Hview
        & Hp1 & Hp2 & Hs1 & Hs2 & Hgood & _).
  cbv zeta in *.
  set (h1' := P7_TOPHITS.mk (Ptr bn 0) (Ptr b' 0) _ _ _ true) in *.
  pose proof (vt_N _ _ Hv1) as HN1. pose proof (vt_N _ _ Hv2) as HN2.
  assert (merge_by (key_of m') l1 l2 ≡ₚ record_ptrs h1') as Hperm.
  { rewrite merge_by_perm, Hp1, Hp2. unfold record_ptrs, h1'. simpl.
    by rewrite record_ptrs_app by lia. }
  assert (∀ p, p ∈ merge_by (key_of m') l1 l2 → good_ptr m' p) as Hgood'.
  { intros p Hp. apply Hgood. by rewrite <- merge_by_perm. }
  destruct (ge_sorted_descending m' (merge_by (key_of m') l1 l2)) as (rsv & Hrsv & Hd);
    [done| |].
  { apply merge_by_sorted; [|done..]. intros p Hp. by apply good_ptr_key, Hgood. }
  destruct (mapM_perm _ _ _ _ Hperm Hrsv) as (rs' & Hrs' & Hprs).
  destruct (record_ptrs_read m' h1') as [E|E]; [|done].
  rewrite <- E, Hrec in Hrs'. simplify_eq.
  exists h1', (P7_TOPHITS.set_is_sorted true h2), m', rs1, rs2,
    (merge_by (key_of m') l1 l2), rsv.
  split_and!; try done.
  unfold view_records. rewrite Hview. simpl. exact Hrsv.
Qed.

(** C1, as the code has it. In the ranking that a successful merge of two
    valid lists with comparable keys leaves, a record of the recipient
    stands before every record of the donor that has an equal sort key:
    on a tie the recipient's record comes first. The recipient's records
    are the first N of the merged array, the donor's the ones behind. *)
Theorem Merge_ties_recipient_first qsort o1 o2 m h1 h2 :
  qsort_contract qsort →
  valid_tophits m h1 → valid_tophits m h2 → separate h1 h2 →
  comparable_keys m h1 = true → comparable_keys m h2 = true →
  o1 ≠ AllocFail → o2 ≠ AllocFail →
  P7_TOPHITS.Nalloc h1 + P7_TOPHITS.Nalloc h2 ≤ INT_MAX →
  ∃ h1' h2' m' l b,
    p7_tophits_Merge qsort o1 o2 h1 h2 m = Some (eslOK, h1', h2', m') ∧
    view_ptrs m' h1' = Some l ∧ P7_TOPHITS.unsrt h1' = Ptr b 0 ∧
    ∀ (i j : nat) (r d : Z),
      l !! i = Some (Ptr b r) → 0 ≤ r < P7_TOPHITS.N h1 →
      l !! j = Some (Ptr b d) → P7_TOPHITS.N h1 ≤ d →
      Double.eq (key_of m' (Ptr b r)) (key_of m' (Ptr b d)) = true →
      (i < j)%nat.
Proof.
  intros Hq Hv1 Hv2 Hsep Hc1 Hc2 Ho1 Ho2 Hsum.
  destruct (Merge_ok_spec qsort o1 o2 m h1 h2 Hq Hv1 Hv2 Hsep Hc1 Hc2 Ho1 Ho2 Hsum)
    as (m' & bn & b' & rs1 & rs2 & l1 & l2 & HM & Hrs1 & Hrs2 & Hrec & _ & Hview
        & Hp1 & Hp2 & Hs1 & Hs2 & Hgood & _).
  cbv zeta in *.
  set (h1' := P7_TOPHITS.mk (Ptr bn 0) (Ptr b' 0) _ _ _ true) in *.
  pose proof (vt_N _ _ Hv1) as HN1. pose proof (vt_N _ _ Hv2) as HN2.
  set (l := merge_by (key_of m') l1 l2) in *.
  exists h1', (P7_TOPHITS.set_is_sorted true h2), m', l, b'. split_and!; try done.
  assert (l ≡ₚ record_ptrs h1') as Hperm.
  { unfold l. rewrite merge_by_perm, Hp1, Hp2. unfold record_ptrs, h1'. simpl.
    by rewrite record_ptrs_app by lia. }
  assert (NoDup l) as Hnd.
  { rewrite Hperm. unfold record_ptrs, h1'. simpl.
    apply NoDup_fmap_2; [|apply NoDup_seqZ]. intros x y. intros [= ?]. lia. }
  intros i j r d Hi Hr Hj Hd Heq.
  assert (Ptr b' r ∈ l1) as Hin1.
  { rewrite Hp1. apply list_elem_of_fmap. exists r. split; [by f_equal|].
    apply elem_of_seqZ_0. lia. }
  assert (Ptr b' d ∈ l2) as Hin2.
  { assert (Ptr b' d ∈ l) as Hin by by eapply list_elem_of_lookup_2.
    unfold l in Hin. rewrite merge_by_perm, elem_of_app in Hin.
    destruct Hin as [Hin|Hin]; [|done].
    rewrite Hp1 in Hin. apply list_elem_of_fmap in Hin as (x & [= ->] & Hx%elem_of_seqZ_0).
    lia. }
  destruct (merge_by_recipient_first (key_of m') l1 l2 (Ptr b' r) (Ptr b' d))
    as (pre & mid & post & Hl); [|done|done| |].
  { apply (@Sorted_StronglySorted _ _ (ge_key_trans (key_of m'))). exact Hs1. }
  { apply Double_eq_ge in Heq as [Hge _]. by apply Double_ge_not_lt. }
  fold l in Hl.
  assert (i = length pre) as ->.
  { eapply NoDup_lookup; [done..|]. rewrite Hl. by apply list_lookup_middle. }
  assert (j = (length pre + S (length mid))%nat) as ->; [|lia].
  eapply NoDup_lookup; [done..|]. rewrite Hl.
  rewrite lookup_app_r by lia.
  replace (length pre + S (length mid) - length pre)%nat with (S (length mid)) by lia.
  simpl. by apply list_lookup_middle.
Qed.

(** ** A merge that runs out of memory *)

Lemma ESL_ALLOC_view_fail n m : ESL_ALLOC_view AllocFail n m = Some (NULL, m).
Proof. unfold ESL_ALLOC_view, malloc_in. simpl. by rewrite set_view_same. Qed.

(** What a merge that runs out of memory keeps. When an allocation fails
    in [p7_tophits_Merge] of two valid lists with comparable keys,
    [eslEMEM] is returned. By then both lists have been sorted: the donor
    is exactly as [p7_tophits_Sort] leaves it, and the cells of the
    recipient's ranking and its flag are as the sort wrote them. No record
    of either list has changed, nor any size or count. When it is the
    first allocation that fails, the recipient and the whole memory are
    exactly as the two sorts left them. *)
Lemma Merge_failure_keeps_records qsort o1 o2 m h1 h2 :
  qsort_contract qsort →
  valid_tophits m h1 → valid_tophits m h2 → separate h1 h2 →
  comparable_keys m h1 = true → comparable_keys m h2 = true →
  o1 = AllocFail ∨ o2 = AllocFail →
  ∃ h1' m1 m2 m',
    p7_tophits_Sort qsort h1 m = Some (eslOK, P7_TOPHITS.set_is_sorted true h1, m1) ∧
    p7_tophits_Sort qsort h2 m1 = Some (eslOK, P7_TOPHITS.set_is_sorted true h2, m2) ∧
    p7_tophits_Merge qsort o1 o2 h1 h2 m
      = Some (eslEMEM, h1', P7_TOPHITS.set_is_sorted true h2, m') ∧
    (o1 = AllocFail → h1' = P7_TOPHITS.set_is_sorted true h1 ∧ m' = m2) ∧
    P7_TOPHITS.set_unsrt (P7_TOPHITS.unsrt h1) h1' = P7_TOPHITS.set_is_sorted true h1 ∧
    records m' h1' = records m h1 ∧
    records m' (P7_TOPHITS.set_is_sorted true h2) = records m h2 ∧
    m_view m' = m_view m2 ∧ m_dom m' = m_dom m ∧
    m_str m' = m_str m ∧ m_ali m' = m_ali m.
Proof.
  intros Hq Hv1 Hv2 Hsep Hc1 Hc2 Hfail.
  destruct (Merge_sorts qsort m h1 h2 Hq Hv1 Hv2 Hsep Hc1 Hc2)
    as (m1 & m2 & HS1 & HS2 & Hhits & Hdom & Hstr & Hali & Hv1s & Hv2s & _).
  pose proof (vt_N _ _ Hv1) as HN1. pose proof (vt_Nalloc _ _ Hv1) as HNa1.
  pose proof (vt_N _ _ Hv2) as HN2. pose proof (vt_Nalloc _ _ Hv2) as HNa2.
  destruct (vt_unsrt _ _ Hv1s) as (b1 & a1 & Hu1 & Hb1 & Hla1 & _).
  destruct (vt_unsrt _ _ Hv2s) as (b2 & a2 & Hu2 & Hb2 & _).
  simpl in Hu1, Hu2, Hla1.
  destruct Hsep as [Hsepu _]. rewrite Hu1, Hu2 in Hsepu. simpl in Hsepu.
  assert (b1 ≠ b2) as Hb12 by congruence.
  set (n := wrap_int (P7_TOPHITS.Nalloc h1 + P7_TOPHITS.Nalloc h2)).
  destruct (realloc_in_live o1 b1 n (m_hits m2) a1 Hb1)
    as (q & s3 & Hre & Hof & Hnull & Hok).
  assert (E3 : ESL_RALLOC_hits o1 (Ptr b1 0) n m2 = Some (q, set_hits s3 m2)).
  { unfold ESL_RALLOC_hits. cbn [is_null]. by rewrite Hre. }
  assert (Hrec2 : ∀ m', m_hits m' = m_hits m →
            records m' (P7_TOPHITS.set_is_sorted true h2) = records m h2).
  { intros m' E. unfold records. by rewrite E. }
  exists (if is_null q then P7_TOPHITS.set_is_sorted true h1
          else P7_TOPHITS.set_unsrt q (P7_TOPHITS.set_is_sorted true h1)),
    m1, m2, (set_hits s3 m2).
  split; [done|]. split; [done|]. split.
  { unfold p7_tophits_Merge.
    rewrite (bind_eq _ _ _ _ _ HS1). cbv beta iota.
    rewrite (bind_eq _ _ _ _ _ HS2). cbv beta iota.
    cbn [P7_TOPHITS.unsrt P7_TOPHITS.set_is_sorted]. fold n. rewrite Hu1.
    rewrite (bind_eq _ _ _ _ _ E3).
    destruct (is_null q) eqn:Eq; [done|].
    assert (o2 = AllocFail) as ->.
    { destruct Hfail as [->|]; [|done]. rewrite (Hof eq_refl) in Eq. done. }
    rewrite (bind_eq _ _ _ _ _ (ESL_ALLOC_view_fail _ _)). done. }
  destruct (decide (q = NULL)) as [->|Hq'].
  { rewrite (Hnull eq_refl), set_hits_same. cbn [is_null].
    split_and!; try done.
    - unfold records. by rewrite Hhits.
    - by apply Hrec2. }
  destruct (Hok Hq') as (Hn & b' & -> & Hb' & Hfresh & Hother). cbn [is_null].
  assert (n = P7_TOPHITS.Nalloc h1 + P7_TOPHITS.Nalloc h2) as Hn'.
  { unfold n in *. apply wrap_int_add_nonneg; lia. }
  assert (b' ≠ b2) as Hb'2.
  { destruct Hfresh as [->|[Hf _]]; [done|]. intros ->. by rewrite Hb2 in Hf. }
  split_and!; try done.
  - intros ->. by specialize (Hof eq_refl).
  - unfold records. cbn [P7_TOPHITS.unsrt P7_TOPHITS.N P7_TOPHITS.set_unsrt
                         P7_TOPHITS.set_is_sorted m_hits set_hits].
    rewrite Hu1, <- Hhits. apply mapM_ext_in. intros i Hi%elem_of_seqZ_0.
    rewrite !read_at_cell.
    rewrite (cell_at_base _ _ _ _ Hb'), (cell_at_base _ _ _ _ Hb1) by lia.
    f_equal. apply lookup_resize; lia.
  - unfold records. cbn [P7_TOPHITS.unsrt P7_TOPHITS.N P7_TOPHITS.set_is_sorted
                         m_hits set_hits].
    rewrite Hu2, <- Hhits. apply mapM_ext_in. intros i Hi.
    unfold read_at, cell_at. by rewrite Hother.
Qed.

(** C3, as the code has it. When the reallocation of the recipient's
    record array moves the array and the allocation of the new ranking
    then fails, [p7_tophits_Merge] returns [eslEMEM] through its [ERROR]
    label, past the loop that re-points the ranking: the recipient has the
    new record array and is flagged sorted, but its ranking still holds
    the addresses of the records in the old array, which was released. No
    entry of the ranking can be read, and the recipient is not a valid
    list. *)
Theorem Merge_failure_leaves_ranking_dangling qsort m h1 h2 :
  qsort_contract qsort →
  valid_tophits m h1 → valid_tophits m h2 → separate h1 h2 →
  comparable_keys m h1 = true → comparable_keys m h2 = true →
  0 < P7_TOPHITS.N h1 →
  P7_TOPHITS.Nalloc h1 + P7_TOPHITS.Nalloc h2 ≤ INT_MAX →
  ∃ h1' m' b1 b' l,
    p7_tophits_Merge qsort AllocMoved AllocFail h1 h2 m
      = Some (eslEMEM, h1', P7_TOPHITS.set_is_sorted true h2, m') ∧
    P7_TOPHITS.unsrt h1 = Ptr b1 0 ∧
    h1' = P7_TOPHITS.set_unsrt (Ptr b' 0) (P7_TOPHITS.set_is_sorted true h1) ∧
    b' ≠ b1 ∧ m_hits m' !! b1 = None ∧
    view_ptrs m' h1' = Some l ∧ l ≡ₚ record_ptrs h1 ∧
    (∀ p, p ∈ l → read_at (m_hits m') p 0 = None) ∧
    view_records m' h1' = None ∧
    ¬ valid_tophits m' h1'.
Proof.
  intros Hq Hv1 Hv2 Hsep Hc1 Hc2 Hpos Hsum.
  destruct (Merge_sorts qsort m h1 h2 Hq Hv1 Hv2 Hsep Hc1 Hc2)
    as (m1 & m2 & HS1 & HS2 & Hhits & Hdom & Hstr & Hali & Hv1s & Hv2s & _).
  pose proof (vt_N _ _ Hv1) as HN1. pose proof (vt_Nalloc _ _ Hv1) as HNa1.
  pose proof (vt_N _ _ Hv2) as HN2. pose proof (vt_Nalloc _ _ Hv2) as HNa2.
  assert (comparable_keys m2 (P7_TOPHITS.set_is_sorted true h1) = true) as Hc1s.
  { rewrite (comparable_frame m m2) by done. exact Hc1. }
  destruct (sorted_list_layout _ _ Hv1s eq_refl Hc1s)
    as (b1 & a1 & bv1 & w1 & rs1 & l & Hu1 & Hb1 & _ & Hh1 & _ & _ & _ & _ & _
        & Hl & _ & Hll & Hperm & _).
  cbn [P7_TOPHITS.unsrt P7_TOPHITS.hit P7_TOPHITS.N P7_TOPHITS.set_is_sorted]
    in Hu1, Hh1, Hll.
  set (n := wrap_int (P7_TOPHITS.Nalloc h1 + P7_TOPHITS.Nalloc h2)).
  assert (n = P7_TOPHITS.Nalloc h1 + P7_TOPHITS.Nalloc h2) as Hn.
  { unfold n. apply wrap_int_id. unfold INT_MAX in *. lia. }
  set (b' := fresh (dom (m_hits m2))).
  set (s3 := <[b' := resize (Z.to_nat n) None a1]> (delete b1 (m_hits m2))).
  assert (b' ≠ b1) as Hne.
  { intros E. apply (is_fresh (dom (m_hits m2))). fold b'. rewrite E.
    apply elem_of_dom. eauto. }
  assert (E3 : ESL_RALLOC_hits AllocMoved (Ptr b1 0) n m2
               = Some (Ptr b' 0, set_hits s3 m2)).
  { unfold ESL_RALLOC_hits, realloc_in. cbn [is_null].
    rewrite decide_True by done. rewrite Hb1. simpl.
    rewrite (proj2 (Z.leb_le 0 n)) by lia. done. }
  set (h1' := P7_TOPHITS.set_unsrt (Ptr b' 0) (P7_TOPHITS.set_is_sorted true h1)).
  set (m' := set_hits s3 m2).
  assert (m_hits m' !! b1 = None) as Hgone.
  { unfold m', s3. rewrite m_hits_set_hits, lookup_insert_ne by done.
    apply lookup_delete_eq. }
  assert (record_ptrs (P7_TOPHITS.set_is_sorted true h1) = record_ptrs h1) as Erp
    by done.
  rewrite Erp in Hperm.
  assert (view_ptrs m' h1' = Some l) as Hl'.
  { unfold view_ptrs in *. exact Hl. }
  assert (∀ p, p ∈ l → block_of p = Some b1) as Hblock.
  { intros p Hp. rewrite Hperm in Hp.
    pose proof (record_ptrs_block h1 b1 Hu1) as Hf.
    rewrite Forall_forall in Hf. by apply Hf. }
  assert (∀ p, p ∈ l → read_at (m_hits m') p 0 = None) as Hnone.
  { intros p Hp. specialize (Hblock p Hp). destruct p as [|b o]; [done|].
    simpl in Hblock. injection Hblock as ->.
    unfold read_at, cell_at. rewrite Hgone. by destruct (0 <=? o + 0). }
  destruct l as [|p0 l0]; [simpl in Hll; lia|].
  exists h1', m', b1, b', (p0 :: l0). split_and!; try done.
  - unfold p7_tophits_Merge.
    rewrite (bind_eq _ _ _ _ _ HS1). cbv beta iota.
    rewrite (bind_eq _ _ _ _ _ HS2). cbv beta iota.
    cbn [P7_TOPHITS.unsrt P7_TOPHITS.set_is_sorted]. fold n. rewrite Hu1.
    rewrite (bind_eq _ _ _ _ _ E3). cbn [is_null].
    rewrite (bind_eq _ _ _ _ _ (ESL_ALLOC_view_fail _ _)). done.
  - unfold view_records. rewrite Hl'.
    change (mapM (λ p, read_at (m_hits m') p 0) (p0 :: l0) = None).
    destruct (mapM _ (p0 :: l0)) as [k|] eqn:E; [|done].
    apply mapM_Some in E. inversion E as [|? r ? ? Hr]; subst.
    rewrite (Hnone p0) in Hr by (by left). done.
  - intros Hv. destruct (vt_sorted _ _ Hv eq_refl) as (l2 & Hl2 & Hperm2 & _).
    rewrite Hl' in Hl2. injection Hl2 as <-.
    assert (p0 ∈ record_ptrs h1') as Hin by (rewrite <- Hperm2; by left).
    pose proof (record_ptrs_block h1' b' eq_refl) as Hf.
    rewrite Forall_forall in Hf. specialize (Hf p0 Hin).
    rewrite (Hblock p0) in Hf by (by left). congruence.
Qed.

(** ** The donor after a merge *)

(** C2, as the code has it. After a successful merge each record of the
    donor is what it was with [name], [acc] and [desc] null; its domain
    array [dcl] is what it was, so a donor record that came with a domain
    array still points to it, and so does the copy of the record that the
    recipient now holds. *)
Theorem Merge_donor_keeps_dcl qsort o1 o2 m h1 h2 :
  qsort_contract qsort →
  valid_tophits m h1 → valid_tophits m h2 → separate h1 h2 →
  comparable_keys m h1 = true → comparable_keys m h2 = true →
  o1 ≠ AllocFail → o2 ≠ AllocFail →
  P7_TOPHITS.Nalloc h1 + P7_TOPHITS.Nalloc h2 ≤ INT_MAX →
  ∃ h1' h2' m' rs1 rs2,
    p7_tophits_Merge qsort o1 o2 h1 h2 m = Some (eslOK, h1', h2', m') ∧
    records m h1 = Some rs1 ∧ records m h2 = Some rs2 ∧
    records m' h1' = Some (rs1 ++ rs2) ∧
    records m' h2' = Some (null_strings <$> rs2) ∧
    Forall2 (λ r r', P7_HIT.name r' = NULL ∧ P7_HIT.acc r' = NULL ∧
                     P7_HIT.desc r' = NULL ∧ P7_HIT.dcl r' = P7_HIT.dcl r)
            rs2 (null_strings <$> rs2).
Proof.
  intros Hq Hv1 Hv2 Hsep Hc1 Hc2 Ho1 Ho2 Hsum.
  destruct (Merge_ok_spec qsort o1 o2 m h1 h2 Hq Hv1 Hv2 Hsep Hc1 Hc2 Ho1 Ho2 Hsum)
    as (m' & bn & b' & rs1 & rs2 & l1 & l2 & HM & Hrs1 & Hrs2 & Hrec & Hrec2 & _).
  eexists _, _, m', rs1, rs2. split_and!; [exact HM|done..|].
  apply Forall2_fmap_r, Forall_Forall2_diag, Forall_true. done.
Qed.

(** ** Thresholding: reading after writing *)

Lemma write_at_read (s s' : gmap block (list (option P7_HIT.t))) p v :
  write_at s p 0 v = Some s' →
  ∀ q, read_at s' q 0 = if decide (q = p) then Some v else read_at s q 0.
Proof.
  unfold write_at, write_cell. destruct p as [|b o]; [done|].
  rewrite Z.add_0_r. destruct (0 <=? o) eqn:Ho; [|done]. apply Z.leb_le in Ho.
  destruct (s !! b) as [a|] eqn:Hb; [|done]. simpl.
  destruct (decide _) as [Hlt|]; [|done]. intros [= <-] q.
  unfold read_at, cell_at. destruct q as [|b' o']; [by rewrite decide_False|].
  rewrite Z.add_0_r. destruct (0 <=? o') eqn:Ho'.
  - apply Z.leb_le in Ho'. destruct (decide (b' = b)) as [->|Hb'].
    + rewrite lookup_insert_eq. simpl.
      destruct (decide (o' = o)) as [->|Hne].
      * rewrite decide_True by done. by rewrite list_lookup_insert_eq.
      * rewrite decide_False by congruence.
        rewrite list_lookup_insert_ne by lia. by rewrite Hb.
    + rewrite lookup_insert_ne by done. rewrite decide_False by congruence. done.
  - rewrite decide_False; [done|]. intros [= -> ->]. lia.
Qed.

Lemma modify_hit_spec p f m m' :
  modify_hit p 0 f m = Some (tt, m') →
  ∃ r, read_at (m_hits m) p 0 = Some r ∧
    (∀ q, read_at (m_hits m') q 0
          = if decide (q = p) then Some (f r) else read_at (m_hits m) q 0) ∧
    m_view m' = m_view m ∧ m_dom m' = m_dom m ∧
    m_str m' = m_str m ∧ m_ali m' = m_ali m.
Proof.
  unfold modify_hit. intros H. bind_split H.
  unfold load_hit in E. destruct (read_at (m_hits m) p 0) as [r|] eqn:Hr; [|done].
  simpl in E. injection E as <- <-. exists r. split; [done|].
  unfold store_hit in H. destruct (write_at _ _ _ _) as [s'|] eqn:Hw; [|done].
  simpl in H. injection H as <-. split_and!; try done.
  by apply write_at_read.
Qed.

Lemma flag_raised_refl d : flag_raised d d.
Proof. done. Qed.

Lemma flag_raised_trans d1 d2 d3 :
  flag_raised d1 d2 → flag_raised d2 d3 → flag_raised d1 d3.
Proof. intros [E1 M1] [E2 M2]. split; [congruence|auto]. Qed.

Lemma dom_ext_refl m : dom_ext m m.
Proof. intros p i. destruct (read_dom _ _ _); by constructor. Qed.

Lemma dom_ext_trans m1 m2 m3 : dom_ext m1 m2 → dom_ext m2 m3 → dom_ext m1 m3.
Proof.
  intros H12 H23 p i. specialize (H12 p i). specialize (H23 p i).
  destruct H12; inversion H23; subst; constructor.
  by eapply flag_raised_trans.
Qed.

Lemma dom_ext_same m m' : m_dom m' = m_dom m → dom_ext m m'.
Proof. intros E p i. rewrite E. apply dom_ext_refl. Qed.

Lemma modify_dom_spec p i m m' :
  modify_dom p i (P7_DOMAIN.set_is_reported true) m = Some (tt, m') →
  (∃ d, read_dom (m_dom m') p i = Some d ∧ P7_DOMAIN.is_reported d = true) ∧
  dom_ext m m' ∧ m_hits m' = m_hits m ∧ m_view m' = m_view m ∧
  m_str m' = m_str m ∧ m_ali m' = m_ali m.
Proof.
  unfold modify_dom. intros H. bind_split H.
  unfold load_dom in E. destruct (read_dom (m_dom m) p i) as [d|] eqn:Hd; [|done].
  simpl in E. injection E as <- <-.
  unfold store_dom in H. destruct (write_dom _ _ _ _) as [s'|] eqn:Hw; [|done].
  simpl in H. injection H as <-. simpl.
  revert Hw Hd. unfold write_dom, read_dom. destruct p as [|b o]; [done|].
  destruct (0 <=? o + i) eqn:Ho; [|done].
  destruct (m_dom m !! b) as [a|] eqn:Hb; [|done]. simpl.
  destruct (decide _) as [Hlt|]; [|done]. intros [= <-] Hd.
  split_and!; try done.
  - exists (P7_DOMAIN.set_is_reported true d). rewrite lookup_insert_eq. simpl.
    by rewrite list_lookup_insert_eq.
  - intros q j. unfold read_dom. simpl. destruct q as [|b' o']; [constructor|].
    destruct (0 <=? o' + j); [|constructor].
    destruct (decide (b' = b)) as [->|Hb'].
    + rewrite lookup_insert_eq, Hb. simpl.
      destruct (decide (Z.to_nat (o' + j) = Z.to_nat (o + i))) as [->|Hne].
      * rewrite list_lookup_insert_eq, Hd by done. constructor. by destruct d.
      * rewrite list_lookup_insert_ne by done.
        destruct (a !! Z.to_nat (o' + j)); by constructor.
    + rewrite lookup_insert_ne by done. destruct (m_dom m !! b') as [a'|]; simpl;
        [|constructor]. destruct (a' !! Z.to_nat (o' + j)); by constructor.
Qed.

Lemma modify_hit_defined p f m r :
  read_at (m_hits m) p 0 = Some r → ∃ m', modify_hit p 0 f m = Some (tt, m').
Proof.
  intros Hr. unfold modify_hit. rewrite (bind_eq _ _ _ _ _ (load_hit_read _ _ _ Hr)).
  unfold store_hit, write_at, write_cell. revert Hr. unfold read_at, cell_at.
  destruct p as [|b o]; [done|]. destruct (0 <=? o + 0); [|done].
  destruct (m_hits m !! b) as [a|]; [|done]. simpl. intros Hr.
  destruct (a !! Z.to_nat (o + 0)) as [c|] eqn:Hc; [|done].
  apply lookup_lt_Some in Hc. rewrite decide_True by done. simpl. eauto.
Qed.

Lemma modify_dom_defined p i f m d :
  read_dom (m_dom m) p i = Some d → ∃ m', modify_dom p i f m = Some (tt, m').
Proof.
  intros Hd. unfold modify_dom.
  assert (load_dom p i m = Some (d, m)) as E by (unfold load_dom; by rewrite Hd).
  rewrite (bind_eq _ _ _ _ _ E).
  unfold store_dom, write_dom. revert Hd. unfold read_dom.
  destruct p as [|b o]; [done|]. destruct (0 <=? o + i); [|done].
  destruct (m_dom m !! b) as [a|]; [|done]. simpl. intros Hd.
  apply lookup_lt_Some in Hd. rewrite decide_True by done. simpl. eauto.
Qed.

Lemma dom_ext_is_Some m m' p i :
  dom_ext m m' → is_Some (read_dom (m_dom m) p i) → is_Some (read_dom (m_dom m') p i).
Proof. intros He [d Hd]. specialize (He p i). rewrite Hd in He. inversion He. eauto. Qed.

(** ** Thresholding: the two passes *)

Section Threshold.
Variable TargetReportable : P7_PIPELINE.t → spec_float → spec_float → bool.
Variable DomainReportable : P7_PIPELINE.t → spec_float → spec_float → bool.

Lemma domain_counts_ext pli m m' r r' d :
  dom_ext m m' →
  P7_HIT.best_domain r' = P7_HIT.best_domain r → P7_HIT.dcl r' = P7_HIT.dcl r →
  domain_counts DomainReportable pli m' r' d = domain_counts DomainReportable pli m r d.
Proof.
  intros He Hb Hd. unfold domain_counts. rewrite Hb, Hd.
  destruct (decide _); [done|]. specialize (He (P7_HIT.dcl r) d).
  destruct He as [d1 d2 [Heq _]|]; [|done]. simpl.
  destruct d1, d2. simpl in *. by simplify_eq.
Qed.

(** The body of the loop over the domains of the record at [p] *)
Let domain_body (pli : P7_PIPELINE.t) (p : ptr) : Z → M unit := λ d,
  r ← load_hit p 0;
  b ← (if decide (P7_HIT.best_domain r = d) then ret true
       else
         dm ← load_dom (P7_HIT.dcl r) d;
         ret (DomainReportable pli (P7_DOMAIN.bitscore dm) (P7_DOMAIN.pvalue dm)));
  if b : bool then
    modify_hit p 0 (λ r, P7_HIT.set_nreported (wrap_int (P7_HIT.nreported r + 1)) r);;
    modify_dom (P7_HIT.dcl r) d (P7_DOMAIN.set_is_reported true)
  else ret tt.

Lemma domain_body_spec pli p d m m' r :
  read_at (m_hits m) p 0 = Some r →
  domain_body pli p d m = Some (tt, m') →
  ∃ b, domain_counts DomainReportable pli m r d = Some b ∧
    read_at (m_hits m') p 0
      = Some (P7_HIT.set_nreported (bump [b] (P7_HIT.nreported r)) r) ∧
    (∀ q, q ≠ p → read_at (m_hits m') q 0 = read_at (m_hits m) q 0) ∧
    m_view m' = m_view m ∧ m_str m' = m_str m ∧ m_ali m' = m_ali m ∧
    dom_ext m m' ∧
    (b = true → ∃ dm, read_dom (m_dom m') (P7_HIT.dcl r) d = Some dm ∧
                      P7_DOMAIN.is_reported dm = true).
Proof.
  intros Hr H. unfold domain_body in H.
  rewrite (bind_eq _ _ _ _ _ (load_hit_read _ _ _ Hr)) in H.
  bind_split H. rename x into b. exists b.
  assert (domain_counts DomainReportable pli m r d = Some b ∧ m0 = m) as [Hb ->].
  { unfold domain_counts. destruct (decide _).
    - apply ret_Some in E. by simplify_eq.
    - bind_split E. unfold load_dom in E0.
      destruct (read_dom _ _ _) as [dm|]; [|done]. simpl in *.
      apply ret_Some in E. by simplify_eq. }
  split; [done|]. destruct b.
  - bind_split H. destruct x.
    apply modify_hit_spec in E0 as (r0 & Hr0 & Hread & Hv & Hd & Hs & Ha).
    apply modify_dom_spec in H as ((dm & Hdm & Hflag) & Hext & Hh & Hv' & Hs' & Ha').
    assert (r0 = r) as -> by congruence.
    split_and!; try congruence.
    + rewrite Hh, Hread, decide_True by done. done.
    + intros q Hq. rewrite Hh, Hread, decide_False by done. done.
    + eapply dom_ext_trans; [|exact Hext]. by apply dom_ext_same.
    + eauto.
  - apply ret_Some in H. simplify_eq. split_and!; try done.
    + simpl. by destruct r.
    + apply dom_ext_refl.
Qed.

Lemma set_nreported_twice n n' r :
  P7_HIT.set_nreported n (P7_HIT.set_nreported n' r) = P7_HIT.set_nreported n r.
Proof. done. Qed.

Lemma bump_cons b bs n : bump (b :: bs) n = bump bs (bump [b] n).
Proof. done. Qed.

(** The loop over the domains of one record *)
Lemma domain_loop_spec pli p ds : ∀ m m' r,
  read_at (m_hits m) p 0 = Some r →
  for_each ds (domain_body pli p) m = Some (tt, m') →
  ∃ bs, Forall2 (λ d b, domain_counts DomainReportable pli m r d = Some b) ds bs ∧
    read_at (m_hits m') p 0
      = Some (P7_HIT.set_nreported (bump bs (P7_HIT.nreported r)) r) ∧
    (∀ q, q ≠ p → read_at (m_hits m') q 0 = read_at (m_hits m) q 0) ∧
    m_view m' = m_view m ∧ m_str m' = m_str m ∧ m_ali m' = m_ali m ∧
    dom_ext m m' ∧
    (∀ i d, ds !! i = Some d → bs !! i = Some true →
       ∃ dm, read_dom (m_dom m') (P7_HIT.dcl r) d = Some dm ∧
             P7_DOMAIN.is_reported dm = true).
Proof.
  induction ds as [|d ds IH]; intros m m' r Hr H.
  - apply ret_Some in H. simplify_eq. exists []. split_and!; try done.
    + simpl. by destruct r.
    + apply dom_ext_refl.
  - simpl in H. bind_split H. destruct x.
    destruct (domain_body_spec _ _ _ _ _ _ Hr E)
      as (b & Hb & Hr1 & Hq1 & Hv1 & Hs1 & Ha1 & He1 & Hf1).
    destruct (IH _ _ _ Hr1 H) as (bs & Hbs & Hr2 & Hq2 & Hv2 & Hs2 & Ha2 & He2 & Hf2).
    exists (b :: bs). split_and!; try congruence.
    + constructor; [done|]. eapply Forall2_impl; [exact Hbs|].
      intros d' b' Hd'. cbv beta in Hd'. rewrite <- Hd'. symmetry.
      by apply domain_counts_ext.
    + rewrite Hr2. by rewrite set_nreported_twice.
    + intros q Hq. rewrite Hq2, Hq1 by done. done.
    + by eapply dom_ext_trans.
    + intros [|i] d' Hd' Hb'; simpl in *; simplify_eq.
      * destruct (Hf1 eq_refl) as (dm & Hdm & Hflag).
        specialize (He2 (P7_HIT.dcl r) d'). rewrite Hdm in He2.
        inversion He2 as [?? [_ Hmono]|]; subst. eauto.
      * destruct (Hf2 i d' Hd' Hb') as (dm & Hdm & Hflag). eauto.
Qed.
(** The same loop runs without undefined behaviour when the record can
    be read and has the domains the loop visits. *)
Lemma domain_body_defined pli p d m r :
  read_at (m_hits m) p 0 = Some r →
  is_Some (read_dom (m_dom m) (P7_HIT.dcl r) d) →
  ∃ m', domain_body pli p d m = Some (tt, m').
Proof.
  intros Hr [dm Hdm]. unfold domain_body.
  rewrite (bind_eq _ _ _ _ _ (load_hit_read _ _ _ Hr)).
  assert (∃ b, (if decide (P7_HIT.best_domain r = d) then ret true
                else dm ← load_dom (P7_HIT.dcl r) d;
                     ret (DomainReportable pli (P7_DOMAIN.bitscore dm)
                                               (P7_DOMAIN.pvalue dm))) m
               = Some (b, m)) as [b Hb].
  { destruct (decide _); [by eexists|].
    assert (load_dom (P7_HIT.dcl r) d m = Some (dm, m)) as E
      by (unfold load_dom; by rewrite Hdm).
    rewrite (bind_eq _ _ _ _ _ E). by eexists. }
  rewrite (bind_eq _ _ _ _ _ Hb). destruct b; [|by eexists].
  destruct (modify_hit_defined p
              (λ r, P7_HIT.set_nreported (wrap_int (P7_HIT.nreported r + 1)) r) m r Hr)
    as [m1 Hm1].
  rewrite (bind_eq _ _ _ _ _ Hm1).
  apply modify_hit_spec in Hm1 as (_ & _ & _ & _ & Hd1 & _).
  apply (modify_dom_defined _ _ _ _ dm). by rewrite Hd1.
Qed.

Lemma domain_loop_defined pli p ds : ∀ m r,
  read_at (m_hits m) p 0 = Some r →
  (∀ d, d ∈ ds → is_Some (read_dom (m_dom m) (P7_HIT.dcl r) d)) →
  ∃ m', for_each ds (domain_body pli p) m = Some (tt, m').
Proof.
  induction ds as [|d ds IH]; intros m r Hr Hds; [by eexists|].
  destruct (domain_body_defined pli p d m r Hr) as [m1 Hm1]; [apply Hds; by left|].
  cbn [for_each]. rewrite (bind_eq _ _ _ _ _ Hm1).
  destruct (domain_body_spec _ _ _ _ _ _ Hr Hm1)
    as (b & _ & Hr1 & _ & _ & _ & _ & He1 & _).
  apply (IH m1 _ Hr1). intros d' Hd'. simpl.
  apply (dom_ext_is_Some m); [done|]. apply Hds. by right.
Qed.
End Threshold.

(** ** Thresholding: the two passes *)

Lemma Forall2_impl_in {A B} (R R' : A → B → Prop) l k :
  Forall2 R l k → (∀ x y, x ∈ l → R x y → R' x y) → Forall2 R' l k.
Proof.
  induction 1 as [|x y l k Hxy _ IH]; intros Himp; constructor.
  - apply Himp; [by left|done].
  - apply IH. intros x' y' ??. apply Himp; [by right|done].
Qed.

Section Passes.
Variable TargetReportable : P7_PIPELINE.t → spec_float → spec_float → bool.
Variable DomainReportable : P7_PIPELINE.t → spec_float → spec_float → bool.

(** The body of the second pass *)
Let second_body (pli : P7_PIPELINE.t) (hit : ptr) : Z → M unit := λ h,
  p ← load_view hit h;
  r ← load_hit p 0;
  if P7_HIT.is_reported r then
    for_loop 0 (P7_HIT.ndom r) (λ d,
      r ← load_hit p 0;
      b ← (if decide (P7_HIT.best_domain r = d) then ret true
           else
             dm ← load_dom (P7_HIT.dcl r) d;
             ret (DomainReportable pli (P7_DOMAIN.bitscore dm)
                                       (P7_DOMAIN.pvalue dm)));
      if b : bool then
        modify_hit p 0 (λ r, P7_HIT.set_nreported (wrap_int (P7_HIT.nreported r + 1)) r);;
        modify_dom (P7_HIT.dcl r) d (P7_DOMAIN.set_is_reported true)
      else ret tt)
  else ret tt.

Lemma second_pass_spec pli hit hs : ∀ ps m m',
  Forall2 (λ h p, read_at (m_view m) hit h = Some p) hs ps → NoDup ps →
  for_each hs (second_body pli hit) m = Some (tt, m') →
  m_view m' = m_view m ∧ m_str m' = m_str m ∧ m_ali m' = m_ali m ∧
  dom_ext m m' ∧
  (∀ q, q ∉ ps → read_at (m_hits m') q 0 = read_at (m_hits m) q 0) ∧
  (∀ q, q ∈ ps → ∃ r, read_at (m_hits m) q 0 = Some r ∧ second_pass_at DomainReportable pli m m' q r).
Proof.
  induction hs as [|h hs IH]; intros ps m m' Hps Hnd H.
  - inversion Hps; subst. apply ret_Some in H. simplify_eq.
    split_and!; try done; [apply dom_ext_refl|]. intros q Hq. by apply elem_of_nil in Hq.
  - inversion Hps as [|? p ? ps' Hp Hps']; subst.
    apply NoDup_cons in Hnd as [Hnp Hnd].
    cbn [for_each] in H. bind_split H. destruct x.
    (* the turn of the loop for [h] *)
    assert (∃ r, read_at (m_hits m) p 0 = Some r ∧ second_pass_at DomainReportable pli m m0 p r ∧
              (∀ q, q ≠ p → read_at (m_hits m0) q 0 = read_at (m_hits m) q 0) ∧
              m_view m0 = m_view m ∧ m_str m0 = m_str m ∧ m_ali m0 = m_ali m ∧
              dom_ext m m0) as (r & Hr & Hat & Hq0 & Hv0 & Hs0 & Ha0 & He0).
    { unfold second_body in E. bind_split E.
      unfold load_view in E0. rewrite Hp in E0. simpl in E0. injection E0 as <- <-.
      bind_split E. unfold load_hit in E0.
      destruct (read_at (m_hits m) p 0) as [r|] eqn:Hr; [|done].
      simpl in E0. injection E0 as <- <-. exists r. split; [done|].
      unfold second_pass_at. destruct (P7_HIT.is_reported r).
      - unfold for_loop in E.
        destruct (domain_loop_spec DomainReportable pli p _ _ _ _ Hr E)
          as (bs & Hbs & Hr1 & Hq1 & Hv1 & Hs1 & Ha1 & He1 & Hf1).
        rewrite Z.sub_0_r in *. split_and!; try done. by exists bs.
      - apply ret_Some in E. simplify_eq. split_and!; try done. apply dom_ext_refl. }
    assert (Forall2 (λ h p, read_at (m_view m0) hit h = Some p) hs ps') as Hps0.
    { by rewrite Hv0. }
    destruct (IH _ _ _ Hps0 Hnd H) as (Hv & Hs & Ha & He & Hout & Hin).
    split_and!; try congruence.
    + by eapply dom_ext_trans.
    + intros q Hq. apply not_elem_of_cons in Hq as [Hqp Hq].
      rewrite Hout, Hq0 by done. done.
    + intros q [->|Hq]%elem_of_cons.
      * exists r. split; [done|]. unfold second_pass_at in *.
        destruct (P7_HIT.is_reported r).
        -- destruct Hat as (bs & Hbs & Hr1 & Hf1). exists bs. split_and!; try done.
           ++ by rewrite Hout.
           ++ intros i d Hd Hb. destruct (Hf1 i d Hd Hb) as (dm & Hdm & Hflag).
              specialize (He (P7_HIT.dcl r) d). rewrite Hdm in He.
              inversion He as [?? [_ Hmono]|]; subst. eauto.
        -- by rewrite Hout.
      * destruct (Hin q Hq) as (rq & Hrq & Hatq).
        assert (q ≠ p) as Hqp by (intros ->; done).
        rewrite Hq0 in Hrq by done. exists rq. split; [done|].
        unfold second_pass_at in *. destruct (P7_HIT.is_reported rq); [|done].
        destruct Hatq as (bs & Hbs & Hr1 & Hf1). exists bs. split_and!; try done.
        eapply Forall2_impl; [exact Hbs|]. intros d b Hd. cbv beta in Hd.
        rewrite <- Hd. symmetry. by apply domain_counts_ext.
Qed.

(** The second pass runs without undefined behaviour on records that
    can be read and have their domains. *)
Lemma second_pass_defined pli hit hs : ∀ ps m,
  Forall2 (λ h p, read_at (m_view m) hit h = Some p) hs ps →
  domains_readable m ps →
  ∃ m', for_each hs (second_body pli hit) m = Some (tt, m').
Proof.
  induction hs as [|h hs IH]; intros ps m Hps Hdr; [by eexists|].
  inversion Hps as [|? p ? ps' Hp Hps']; subst.
  destruct (Hdr p) as (r & Hr & Hdoms); [by left|].
  (* the turn of the loop for [h] *)
  assert (∃ m0, second_body pli hit h m = Some (tt, m0) ∧
            m_view m0 = m_view m ∧ dom_ext m m0 ∧
            (∀ q, q ≠ p → read_at (m_hits m0) q 0 = read_at (m_hits m) q 0) ∧
            ∃ n, read_at (m_hits m0) p 0 = Some (P7_HIT.set_nreported n r))
    as (m0 & Hm0 & Hv0 & He0 & Hq0 & n & Hr0).
  { unfold second_body.
    assert (load_view hit h m = Some (p, m)) as E by (unfold load_view; by rewrite Hp).
    rewrite (bind_eq _ _ _ _ _ E), (bind_eq _ _ _ _ _ (load_hit_read _ _ _ Hr)).
    destruct (P7_HIT.is_reported r).
    - unfold for_loop. rewrite Z.sub_0_r.
      destruct (domain_loop_defined DomainReportable pli p
                  (seqZ 0 (P7_HIT.ndom r)) m r Hr) as [m0 Hm0].
      { intros d Hd%elem_of_seqZ_0. by apply Hdoms. }
      exists m0. split; [exact Hm0|].
      destruct (domain_loop_spec DomainReportable pli p _ _ _ _ Hr Hm0)
        as (bs & _ & Hr1 & Hq1 & Hv1 & _ & _ & He1 & _).
      split_and!; try done. by eexists.
    - exists m. split_and!; try done; [apply dom_ext_refl|].
      exists (P7_HIT.nreported r). rewrite Hr. by destruct r. }
  cbn [for_each]. rewrite (bind_eq _ _ _ _ _ Hm0).
  apply (IH ps'); [by rewrite Hv0|].
  intros q Hq. destruct (decide (q = p)) as [->|Hqp].
  - exists (P7_HIT.set_nreported n r). split; [done|]. simpl.
    intros d Hd. apply (dom_ext_is_Some m); [done|]. by apply Hdoms.
  - destruct (Hdr q) as (rq & Hrq & Hdq); [by right|].
    exists rq. rewrite Hq0 by done. split; [done|].
    intros d Hd. apply (dom_ext_is_Some m); [done|]. by apply Hdq.
Qed.

(** The body of the first pass *)
Let first_body (pli : P7_PIPELINE.t) : Z → P7_TOPHITS.t → M P7_TOPHITS.t := λ h th,
  p ← load_view (P7_TOPHITS.hit th) h;
  r ← load_hit p 0;
  if TargetReportable pli (P7_HIT.score r) (P7_HIT.pvalue r) then
    modify_hit p 0 (P7_HIT.set_is_reported true);;
    ret (P7_TOPHITS.set_nreported (wrap_int (P7_TOPHITS.nreported th + 1)) th)
  else ret th.

Lemma first_pass_spec pli hs : ∀ ps th m th' m',
  Forall2 (λ h p, read_at (m_view m) (P7_TOPHITS.hit th) h = Some p) hs ps →
  NoDup ps →
  for_fold hs (first_body pli) th m = Some (th', m') →
  ∃ rs, Forall2 (λ p r, read_at (m_hits m) p 0 = Some r) ps rs ∧
    th' = P7_TOPHITS.set_nreported
            (bump ((λ r, TargetReportable pli (P7_HIT.score r) (P7_HIT.pvalue r)) <$> rs)
                  (P7_TOPHITS.nreported th)) th ∧
    m_view m' = m_view m ∧ m_dom m' = m_dom m ∧
    m_str m' = m_str m ∧ m_ali m' = m_ali m ∧
    (∀ q, q ∉ ps → read_at (m_hits m') q 0 = read_at (m_hits m) q 0) ∧
    (∀ q, q ∈ ps →
       read_at (m_hits m') q 0 = first_pass_on TargetReportable pli <$> read_at (m_hits m) q 0).
Proof.
  induction hs as [|h hs IH]; intros ps th m th' m' Hps Hnd H.
  - inversion Hps; subst. apply ret_Some in H. simplify_eq. exists [].
    split_and!; try done; [by destruct th|]. intros q Hq. by apply elem_of_nil in Hq.
  - inversion Hps as [|? p ? ps' Hp Hps']; subst.
    apply NoDup_cons in Hnd as [Hnp Hnd].
    cbn [for_fold] in H. bind_split H. rename x into th1.
    assert (∃ r, read_at (m_hits m) p 0 = Some r ∧
              th1 = P7_TOPHITS.set_nreported
                 (bump [TargetReportable pli (P7_HIT.score r) (P7_HIT.pvalue r)]
                       (P7_TOPHITS.nreported th)) th ∧
              (∀ q, read_at (m_hits m0) q 0
                    = if decide (q = p) then Some (first_pass_on TargetReportable pli r)
                      else read_at (m_hits m) q 0) ∧
              m_view m0 = m_view m ∧ m_dom m0 = m_dom m ∧
              m_str m0 = m_str m ∧ m_ali m0 = m_ali m)
      as (r & Hr & -> & Hq0 & Hv0 & Hd0 & Hs0 & Ha0).
    { unfold first_body in E. bind_split E.
      unfold load_view in E0. rewrite Hp in E0. simpl in E0. injection E0 as <- <-.
      bind_split E. unfold load_hit in E0.
      destruct (read_at (m_hits m) p 0) as [r|] eqn:Hr; [|done].
      simpl in E0. injection E0 as <- <-. exists r. split; [done|].
      unfold first_pass_on. simpl.
      destruct (TargetReportable pli _ _).
      - bind_split E. destruct x. apply ret_Some in E. simplify_eq.
        apply modify_hit_spec in E0 as (r0 & Hr0 & Hread & Hv & Hd & Hs & Ha).
        assert (r0 = r) as -> by congruence. split_and!; done.
      - apply ret_Some in E. simplify_eq. split_and!; try done; [by destruct th|].
        intros q. destruct (decide (q = p)) as [->|]; done. }
    assert (Forall2 (λ h p, read_at (m_view m0)
              (P7_TOPHITS.hit (P7_TOPHITS.set_nreported
                 (bump [TargetReportable pli (P7_HIT.score r) (P7_HIT.pvalue r)]
                       (P7_TOPHITS.nreported th)) th)) h = Some p) hs ps') as Hps0.
    { simpl. by rewrite Hv0. }
    destruct (IH _ _ _ _ _ Hps0 Hnd H)
      as (rs & Hrs & -> & Hv & Hd & Hs & Ha & Hout & Hin).
    exists (r :: rs). split_and!; try congruence.
    + constructor; [done|]. eapply Forall2_impl_in; [exact Hrs|].
      intros q rq Hin' Hq. cbv beta in Hq. rewrite Hq0 in Hq.
      destruct (decide (q = p)) as [->|]; [|done]. done.
    + done.
    + intros q Hq. apply not_elem_of_cons in Hq as [Hqp Hq].
      rewrite Hout, Hq0, decide_False by done. done.
    + intros q [->|Hq]%elem_of_cons.
      * rewrite Hout, Hq0, decide_True, Hr by done. done.
      * assert (q ≠ p) as Hqp by (intros ->; done).
        rewrite Hin, Hq0, decide_False by done. done.
Qed.
(** The first pass runs without undefined behaviour on records that can
    be read. *)
Lemma first_pass_defined pli hs : ∀ ps th m,
  Forall2 (λ h p, read_at (m_view m) (P7_TOPHITS.hit th) h = Some p) hs ps →
  (∀ p, p ∈ ps → is_Some (read_at (m_hits m) p 0)) →
  ∃ th' m', for_fold hs (first_body pli) th m = Some (th', m').
Proof.
  induction hs as [|h hs IH]; intros ps th m Hps Hread; [by eexists _, _|].
  inversion Hps as [|? p ? ps' Hp Hps']; subst.
  destruct (Hread p) as [r Hr]; [by left|].
  assert (∃ th1 m1, first_body pli h th m = Some (th1, m1) ∧
            P7_TOPHITS.hit th1 = P7_TOPHITS.hit th ∧ m_view m1 = m_view m ∧
            ∀ q, is_Some (read_at (m_hits m) q 0) → is_Some (read_at (m_hits m1) q 0))
    as (th1 & m1 & Hb & Hh1 & Hv1 & Hq1).
  { unfold first_body.
    assert (load_view (P7_TOPHITS.hit th) h m = Some (p, m)) as E
      by (unfold load_view; by rewrite Hp).
    rewrite (bind_eq _ _ _ _ _ E), (bind_eq _ _ _ _ _ (load_hit_read _ _ _ Hr)).
    destruct (TargetReportable pli _ _); [|by eexists _, _].
    destruct (modify_hit_defined p (P7_HIT.set_is_reported true) m r Hr) as [m1 Hm1].
    rewrite (bind_eq _ _ _ _ _ Hm1).
    apply modify_hit_spec in Hm1 as (r0 & _ & Hw & Hv1 & _).
    eexists _, m1. split_and!; try done.
    intros q Hq. rewrite Hw. by destruct (decide _). }
  cbn [for_fold]. rewrite (bind_eq _ _ _ _ _ Hb).
  apply (IH ps'); [by rewrite Hh1, Hv1|].
  intros q Hq. apply Hq1, Hread. by right.
Qed.
End Passes.

(** ** Thresholding: the whole call *)

Lemma ranked_NoDup m h : ranked m h → ∃ ps, view_ptrs m h = Some ps ∧ NoDup ps ∧
  ps ≡ₚ record_ptrs h.
Proof.
  intros (l & Hl & Hp & _). exists l. split_and!; try done.
  rewrite Hp. unfold record_ptrs. destruct (P7_TOPHITS.unsrt h); [constructor|].
  apply NoDup_fmap_2; [|apply NoDup_seqZ]. intros x y [= ?]. lia.
Qed.

Section ThresholdSpec.
Variable TargetReportable : P7_PIPELINE.t → spec_float → spec_float → bool.
Variable DomainReportable : P7_PIPELINE.t → spec_float → spec_float → bool.

Let target (pli : P7_PIPELINE.t) (r : P7_HIT.t) : bool :=
  TargetReportable pli (P7_HIT.score r) (P7_HIT.pvalue r).

(** [p7_tophits_Threshold], pass by pass *)
Lemma Threshold_spec th pli m st th' pli' m' ps :
  view_ptrs m th = Some ps → NoDup ps →
  p7_tophits_Threshold TargetReportable DomainReportable th pli m
    = Some (st, th', pli', m') →
  ∃ rs m1,
    Forall2 (λ p r, read_at (m_hits m) p 0 = Some r) ps rs ∧
    st = eslOK ∧
    th' = P7_TOPHITS.set_nreported (bump (target pli <$> rs) 0) th ∧
    pli' = (if decide (P7_PIPELINE.domZ_setby pli = p7_ZSETBY_NTARGETS)
            then P7_PIPELINE.set_domZ (Double.of_int (P7_TOPHITS.nreported th')) pli
            else pli) ∧
    m_view m' = m_view m ∧ m_str m' = m_str m ∧ m_ali m' = m_ali m ∧
    m_dom m1 = m_dom m ∧ dom_ext m1 m' ∧
    (∀ q, q ∉ ps → read_at (m_hits m') q 0 = read_at (m_hits m) q 0) ∧
    (∀ q, q ∈ ps → ∃ r, read_at (m_hits m) q 0 = Some r ∧
       read_at (m_hits m1) q 0
         = Some (first_pass_on TargetReportable pli r) ∧
       second_pass_at DomainReportable pli' m1 m' q
         (first_pass_on TargetReportable pli r)).
Proof.
  intros Hps Hnd H. unfold p7_tophits_Threshold in H.
  apply mapM_Some in Hps.
  bind_split H. rename x into th1. rename m0 into m1.
  destruct (first_pass_spec TargetReportable pli _ ps (P7_TOPHITS.set_nreported 0 th)
              _ _ _ Hps Hnd E)
    as (rs & Hrs & -> & Hv1 & Hd1 & Hs1 & Ha1 & Hout1 & Hin1).
  bind_split H. destruct x. apply ret_Some in H. simplify_eq.
  unfold for_loop in E0. rewrite Z.sub_0_r in E0.
  assert (Forall2 (λ h p, read_at (m_view m1) (P7_TOPHITS.hit th) h = Some p)
            (seqZ 0 (P7_TOPHITS.N th)) ps) as Hps1 by by rewrite Hv1.
  destruct (second_pass_spec DomainReportable _ _ _ ps _ _ Hps1 Hnd E0)
    as (Hv2 & Hs2 & Ha2 & He2 & Hout2 & Hin2).
  exists rs, m1. split_and!; try congruence; try done.
  - intros q Hq. rewrite Hout2, Hout1 by done. done.
  - intros q Hq. destruct (Hin2 q Hq) as (r1 & Hr1 & Hat).
    rewrite (Hin1 q Hq) in Hr1.
    destruct (read_at (m_hits m) q 0) as [r|] eqn:Hr; [|done].
    simpl in Hr1. injection Hr1 as <-. exists r. split_and!; try done.
    by rewrite (Hin1 q Hq), Hr.
Qed.
(** [p7_tophits_Threshold] runs without undefined behaviour on a list
    whose ranking can be read and whose records have their domains. *)
Lemma Threshold_defined th pli m ps :
  view_ptrs m th = Some ps → NoDup ps → domains_readable m ps →
  ∃ th' pli' m',
    p7_tophits_Threshold TargetReportable DomainReportable th pli m
      = Some (eslOK, th', pli', m').
Proof.
  intros Hps Hnd Hdr. apply mapM_Some in Hps.
  destruct (first_pass_defined TargetReportable pli _ ps
              (P7_TOPHITS.set_nreported 0 th) m Hps) as (th1 & m1 & E1).
  { intros p Hp. destruct (Hdr p Hp) as (r & -> & _). by eexists. }
  destruct (first_pass_spec TargetReportable pli _ ps (P7_TOPHITS.set_nreported 0 th)
              _ _ _ Hps Hnd E1)
    as (rs & Hrs & Hth1 & Hv1 & Hd1 & Hs1 & Ha1 & Hout1 & Hin1).
  set (pli' := if decide (P7_PIPELINE.domZ_setby pli = p7_ZSETBY_NTARGETS)
               then P7_PIPELINE.set_domZ (Double.of_int (P7_TOPHITS.nreported th1)) pli
               else pli).
  destruct (second_pass_defined DomainReportable pli' (P7_TOPHITS.hit th1)
              (seqZ 0 (P7_TOPHITS.N th1)) ps m1) as [m2 E2].
  { rewrite Hth1, Hv1. exact Hps. }
  { intros q Hq. destruct (Hdr q Hq) as (r & Hr & Hdoms).
    exists (first_pass_on TargetReportable pli r). rewrite (Hin1 q Hq), Hr.
    split; [done|]. rewrite Hd1. unfold first_pass_on.
    by destruct (TargetReportable _ _ _). }
  exists th1, pli', m2. unfold p7_tophits_Threshold.
  erewrite bind_eq; [|exact E1]. unfold for_loop. rewrite Z.sub_0_r.
  erewrite bind_eq; [|exact E2]. done.
Qed.
End ThresholdSpec.

(** ** Thresholding: what is reported, and a second call *)

Lemma count_true_cons b bs :
  count_true (b :: bs) = (if b then 1 else 0) + count_true bs.
Proof.
  unfold count_true. destruct b.
  - rewrite filter_cons_True by done. simpl length. lia.
  - rewrite filter_cons_False by done. lia.
Qed.

Lemma bump_count bs n :
  0 ≤ n → n + Z.of_nat (length bs) ≤ INT_MAX → bump bs n = n + count_true bs.
Proof.
  revert n. induction bs as [|b bs IH]; intros n Hn Hmax.
  - unfold count_true. simpl. lia.
  - rewrite bump_cons, count_true_cons. simpl length in Hmax.
    destruct b; unfold bump at 2; simpl foldl.
    + rewrite wrap_int_id by (unfold INT_MAX in *; lia).
      rewrite IH by lia. lia.
    + rewrite IH by lia. lia.
Qed.

Lemma count_true_bounds bs : 0 ≤ count_true bs ≤ Z.of_nat (length bs).
Proof.
  unfold count_true. pose proof (length_filter (λ b : bool, b = true) bs). lia.
Qed.

Lemma Forall2_functional {A B} (f : A → option B) l k k' :
  Forall2 (λ x y, f x = Some y) l k → Forall2 (λ x y, f x = Some y) l k' → k = k'.
Proof.
  intros H. revert k'. induction H as [|x y l k Hxy _ IH]; intros k' H'.
  - by inversion H'.
  - inversion H' as [|?? y' k'' Hxy' Hl']; subst. f_equal; [congruence|by apply IH].
Qed.

(** The test for [domains_readable] is sound. *)
Lemma domains_readableb_sound m ps :
  domains_readableb m ps = true → domains_readable m ps.
Proof.
  induction ps as [|q ps IH]; intros H p Hp; [by apply elem_of_nil in Hp|].
  simpl in H. apply andb_prop in H as [H1 H2].
  apply elem_of_cons in Hp as [->|Hp]; [|by apply IH].
  destruct (read_at (m_hits m) q 0) as [r|]; [|done].
  exists r. split; [done|]. intros d Hd.
  rewrite forallb_forall in H1. specialize (H1 d).
  eapply bool_decide_eq_true_1, H1. apply list_elem_of_In, elem_of_seqZ. lia.
Qed.

Lemma domains_readable_perm m ps ps' :
  ps ≡ₚ ps' → domains_readable m ps → domains_readable m ps'.
Proof. intros Hp H q Hq. apply H. by rewrite Hp. Qed.

Section ThresholdClaims.
Variable TargetReportable : P7_PIPELINE.t → spec_float → spec_float → bool.
Variable DomainReportable : P7_PIPELINE.t → spec_float → spec_float → bool.

(** After a call that ran, a reported record whose [best_domain] is one
    of its domains has that domain reported. *)
Lemma best_domain_reported_after th pli m st th' pli' m' :
  valid_tophits m th → P7_TOPHITS.is_sorted th = true →
  p7_tophits_Threshold TargetReportable DomainReportable th pli m
    = Some (st, th', pli', m') →
  ∃ ps, view_ptrs m' th' = Some ps ∧ ps ≡ₚ record_ptrs th' ∧
    ∀ p r, p ∈ ps → read_at (m_hits m') p 0 = Some r →
      P7_HIT.is_reported r = true →
      0 ≤ P7_HIT.best_domain r < P7_HIT.ndom r →
      ∃ dm, read_dom (m_dom m') (P7_HIT.dcl r) (P7_HIT.best_domain r) = Some dm ∧
            P7_DOMAIN.is_reported dm = true.
Proof.
  intros Hv Hs H.
  destruct (ranked_NoDup _ _ (vt_sorted _ _ Hv Hs)) as (ps & Hps & Hnd & Hperm).
  destruct (Threshold_spec _ _ _ _ _ _ _ _ _ ps Hps Hnd H)
    as (rs & m1 & Hrs & -> & -> & -> & Hview & _ & _ & _ & _ & _ & Hin).
  exists ps. split_and!.
  - unfold view_ptrs in *. simpl. by rewrite Hview.
  - done.
  - intros p r Hp Hr Hrep Hbest.
    destruct (Hin p Hp) as (r0 & Hr0 & Hr1 & Hat).
    set (r1 := first_pass_on TargetReportable pli r0) in *.
    unfold second_pass_at in Hat. destruct (P7_HIT.is_reported r1) eqn:Hrep1.
    + destruct Hat as (bs & Hbs & Hr' & Hflag).
      rewrite Hr in Hr'. injection Hr' as ->. simpl in Hbest |- *.
      set (i := Z.to_nat (P7_HIT.best_domain r1)).
      assert (seqZ 0 (P7_HIT.ndom r1) !! i = Some (P7_HIT.best_domain r1)) as Hd.
      { apply lookup_seqZ. unfold i. lia. }
      destruct (Forall2_lookup_l _ _ _ _ _ Hbs Hd) as (b & Hb & Hcount).
      unfold domain_counts in Hcount. rewrite decide_True in Hcount by done.
      injection Hcount as <-. by apply (Hflag i).
    + rewrite Hr in Hat. injection Hat as ->. congruence.
Qed.

Lemma second_pass_fields pli m m' q r r' :
  second_pass_at DomainReportable pli m m' q r →
  read_at (m_hits m') q 0 = Some r' →
  P7_HIT.set_nreported 0 r' = P7_HIT.set_nreported 0 r.
Proof.
  unfold second_pass_at. destruct (P7_HIT.is_reported r).
  - intros (bs & _ & Hr & _) Hr'. rewrite Hr in Hr'. by injection Hr' as <-.
  - intros Hr Hr'. congruence.
Qed.

Lemma fmap_Forall2_eq {A B C D} (R1 : A → B → Prop) (R2 : A → C → Prop)
    (f : B → D) (g : C → D) ps rs rs' :
  Forall2 R1 ps rs → Forall2 R2 ps rs' →
  (∀ p r r', p ∈ ps → R1 p r → R2 p r' → f r = g r') →
  f <$> rs = g <$> rs'.
Proof.
  intros H. revert rs'. induction H as [|p r ps rs Hp _ IH]; intros rs' H' Hfg.
  - by inversion H'.
  - inversion H' as [|?? r' rs'' Hp' Hps']; subst. simpl. f_equal.
    + apply (Hfg p); [left|done..].
    + apply IH; [done|]. intros q ????. apply (Hfg q); [by right|done..].
Qed.

(** Two calls in a row that ran, the target predicate answering the
    second time as the first *)
Lemma second_call_doubles th pli m st1 th1 pli1 m1 st2 th2 pli2 m2 :
  valid_tophits m th → P7_TOPHITS.is_sorted th = true →
  (∀ s p, TargetReportable pli1 s p = TargetReportable pli s p) →
  p7_tophits_Threshold TargetReportable DomainReportable th pli m
    = Some (st1, th1, pli1, m1) →
  p7_tophits_Threshold TargetReportable DomainReportable th1 pli1 m1
    = Some (st2, th2, pli2, m2) →
  ∃ ps, view_ptrs m th = Some ps ∧
    P7_TOPHITS.nreported th2 = P7_TOPHITS.nreported th1 ∧ th2 = th1 ∧ pli2 = pli1 ∧
    ∀ p r, p ∈ ps → read_at (m_hits m) p 0 = Some r →
      ∃ r1 r2, read_at (m_hits m1) p 0 = Some r1 ∧
        read_at (m_hits m2) p 0 = Some r2 ∧
        P7_HIT.is_reported r2 = P7_HIT.is_reported r1 ∧
        (P7_HIT.is_reported r1 = false → r2 = r1) ∧
        (P7_HIT.is_reported r1 = true →
         P7_HIT.nreported r = 0 → 2 * P7_HIT.ndom r ≤ INT_MAX →
         ∃ bs, Forall2 (λ d b, domain_counts DomainReportable pli1 m r d = Some b)
                       (seqZ 0 (P7_HIT.ndom r)) bs ∧
           P7_HIT.nreported r1 = count_true bs ∧
           P7_HIT.nreported r2 = 2 * count_true bs ∧
           ∀ i d, seqZ 0 (P7_HIT.ndom r) !! i = Some d → bs !! i = Some true →
             ∃ dm, read_dom (m_dom m2) (P7_HIT.dcl r) d = Some dm ∧
                   P7_DOMAIN.is_reported dm = true).
Proof.
  intros Hv Hs Hsame H1 H2.
  destruct (ranked_NoDup _ _ (vt_sorted _ _ Hv Hs)) as (ps & Hps & Hnd & _).
  destruct (Threshold_spec _ _ _ _ _ _ _ _ _ ps Hps Hnd H1)
    as (rs & ma & Hrs & -> & Eth1 & Epli1 & Hview1 & _ & _ & Hdoma & Hext1 & _ & Hin1).
  assert (view_ptrs m1 th1 = Some ps) as Hps1.
  { unfold view_ptrs in *. rewrite Eth1. simpl. by rewrite Hview1. }
  destruct (Threshold_spec _ _ _ _ _ _ _ _ _ ps Hps1 Hnd H2)
    as (rs' & mb & Hrs' & -> & Eth2 & Epli2 & Hview2 & _ & _ & Hdomb & Hext2 & _ & Hin2).
  assert ((λ r, TargetReportable pli (P7_HIT.score r) (P7_HIT.pvalue r)) <$> rs
          = (λ r, TargetReportable pli1 (P7_HIT.score r) (P7_HIT.pvalue r)) <$> rs')
    as Hcount.
  { eapply fmap_Forall2_eq; [exact Hrs|exact Hrs'|].
    intros p r r' Hp Hr Hr'. cbv beta in Hr, Hr'.
    destruct (Hin1 p Hp) as (r0 & Hr0 & _ & Hat).
    pose proof (second_pass_fields _ _ _ _ _ _ Hat Hr') as E.
    rewrite Hr in Hr0. injection Hr0 as <-. rewrite Hsame.
    assert (P7_HIT.score r' = P7_HIT.score r ∧ P7_HIT.pvalue r' = P7_HIT.pvalue r)
      as [-> ->]; [|done].
    unfold first_pass_on in E. destruct r, r'.
    destruct (TargetReportable _ _ _); simpl in E; by simplify_eq. }
  assert (th2 = th1) as Eth.
  { rewrite Eth2, Eth1, <- Hcount. destruct th. done. }
  assert (pli2 = pli1) as Epli.
  { rewrite Epli2, Eth. clear Epli2. revert Epli1.
    destruct (decide (P7_PIPELINE.domZ_setby pli = _)) as [E|E]; intros Epli1.
    - rewrite Epli1. simpl. by rewrite decide_True.
    - rewrite Epli1. by rewrite decide_False. }
  exists ps. split_and!; [done|by rewrite Eth|done..|].
  intros p r Hp Hr.
  destruct (Hin1 p Hp) as (r0 & Hr0 & Hra & Hat1).
  rewrite Hr in Hr0. injection Hr0 as <-.
  destruct (Hin2 p Hp) as (r1 & Hr1 & Hrb & Hat2).
  set (ra := first_pass_on TargetReportable pli r) in *.
  assert (P7_HIT.set_nreported 0 r1 = P7_HIT.set_nreported 0 ra) as Efields
    by (by eapply second_pass_fields).
  assert (first_pass_on TargetReportable pli1 r1 = r1) as Efirst.
  { unfold first_pass_on. rewrite Hsame.
    destruct (TargetReportable pli _ _) eqn:Et; [|done].
    assert (P7_HIT.score r1 = P7_HIT.score r ∧ P7_HIT.pvalue r1 = P7_HIT.pvalue r ∧
            P7_HIT.is_reported r1 = P7_HIT.is_reported ra) as (Es & Ep & Er).
    { unfold ra, first_pass_on in *. destruct r, r1.
      destruct (TargetReportable _ _ _); simpl in Efields; by simplify_eq. }
    rewrite Es, Ep in Et.
    assert (P7_HIT.is_reported r1 = true) as Hrep.
    { rewrite Er. unfold ra, first_pass_on. by rewrite Et. }
    destruct r1. simpl in *. by rewrite Hrep. }
  rewrite Efirst in Hrb, Hat2. rewrite Epli in Hat2.
  exists r1. unfold second_pass_at in Hat1, Hat2.
  destruct (P7_HIT.is_reported ra) eqn:Hrepa.
  - destruct Hat1 as (bs & Hbs & Hr1' & Hflag1).
    rewrite Hr1 in Hr1'. injection Hr1' as ->.
    simpl in Hat2. rewrite Hrepa in Hat2.
    destruct Hat2 as (bs' & Hbs' & Hr2 & Hflag2).
    assert (P7_HIT.ndom ra = P7_HIT.ndom r ∧ P7_HIT.dcl ra = P7_HIT.dcl r ∧
            P7_HIT.best_domain ra = P7_HIT.best_domain r ∧
            P7_HIT.nreported ra = P7_HIT.nreported r) as (End & Edcl & Ebest & Enr).
    { unfold ra, first_pass_on. by destruct (TargetReportable _ _ _). }
    rewrite End in *. rewrite Edcl in *.
    assert (Forall2 (λ d b, domain_counts DomainReportable pli1 m r d = Some b)
              (seqZ 0 (P7_HIT.ndom r)) bs) as Hbs0.
    { eapply Forall2_impl; [exact Hbs|]. intros d b <-. symmetry.
      apply domain_counts_ext; [by apply dom_ext_same|done..]. }
    assert (bs' = bs) as ->.
    { eapply (Forall2_functional (domain_counts DomainReportable pli1 m r));
        [|exact Hbs0].
      eapply Forall2_impl; [exact Hbs'|]. intros d b <-. symmetry.
      apply domain_counts_ext; [|done..].
      eapply dom_ext_trans; [apply dom_ext_same, Hdoma|].
      eapply dom_ext_trans; [exact Hext1|by apply dom_ext_same]. }
    eexists. split_and!; [done|exact Hr2|done|simpl; congruence|].
    intros _ Hzero Hmax. exists bs. simpl.
    pose proof (count_true_bounds bs) as Hb.
    assert (length bs = Z.to_nat (P7_HIT.ndom r)) as Hlen.
    { rewrite <- (Forall2_length _ _ _ Hbs0). apply length_seqZ. }
    rewrite Enr, Hzero.
    assert (0 ≤ INT_MAX) by done.
    rewrite (bump_count bs 0) by lia. rewrite Z.add_0_l.
    rewrite bump_count by lia.
    split_and!; [done|lia|lia|done].
  - rewrite Hr1 in Hat1. injection Hat1 as ->. rewrite Hrepa in Hat2.
    exists ra. split_and!; try done. congruence.
Qed.
(** The list can be thresholded again after a call. *)
Lemma Threshold_keeps_readable th pli m st th' pli' m' ps :
  view_ptrs m th = Some ps → NoDup ps → domains_readable m ps →
  p7_tophits_Threshold TargetReportable DomainReportable th pli m
    = Some (st, th', pli', m') →
  view_ptrs m' th' = Some ps ∧ domains_readable m' ps.
Proof.
  intros Hps Hnd Hdr H.
  destruct (Threshold_spec _ _ _ _ _ _ _ _ _ ps Hps Hnd H)
    as (rs & ma & Hrs & -> & -> & -> & Hview & _ & _ & Hdoma & Hext & _ & Hin).
  split.
  - unfold view_ptrs in *. simpl. by rewrite Hview.
  - intros q Hq. destruct (Hdr q Hq) as (r & Hr & Hdoms).
    destruct (Hin q Hq) as (r0 & Hr0 & _ & Hat).
    rewrite Hr in Hr0. injection Hr0 as <-.
    assert (∃ r', read_at (m_hits m') q 0 = Some r' ∧
              P7_HIT.ndom r' = P7_HIT.ndom r ∧ P7_HIT.dcl r' = P7_HIT.dcl r)
      as (r' & Hr' & End & Edcl).
    { unfold second_pass_at, first_pass_on in Hat.
      destruct (TargetReportable pli _ _); simpl in Hat.
      - destruct Hat as (bs & _ & Hr' & _). by eexists.
      - destruct (P7_HIT.is_reported r).
        + destruct Hat as (bs & _ & Hr' & _). by eexists.
        + by eexists. }
    exists r'. split; [done|]. rewrite End, Edcl. intros d Hd.
    apply (dom_ext_is_Some ma); [done|]. rewrite Hdoma. by apply Hdoms.
Qed.

(** C4, as the code has it. On a valid, sorted list whose records have
    their domains, [p7_tophits_Threshold] returns [eslOK], and every
    record of the ranking that is then reported and whose [best_domain]
    is the index of one of its domains ([0 <= best_domain < ndom]) has
    that domain reported, whatever the two predicates say. *)
Theorem Threshold_reports_best_domain th pli m :
  valid_tophits m th → P7_TOPHITS.is_sorted th = true →
  domains_readable m (record_ptrs th) →
  ∃ th' pli' m' ps,
    p7_tophits_Threshold TargetReportable DomainReportable th pli m
      = Some (eslOK, th', pli', m') ∧
    view_ptrs m' th' = Some ps ∧ ps ≡ₚ record_ptrs th' ∧
    ∀ p r, p ∈ ps → read_at (m_hits m') p 0 = Some r →
      P7_HIT.is_reported r = true →
      0 ≤ P7_HIT.best_domain r < P7_HIT.ndom r →
      ∃ dm, read_dom (m_dom m') (P7_HIT.dcl r) (P7_HIT.best_domain r) = Some dm ∧
            P7_DOMAIN.is_reported dm = true.
Proof.
  intros Hv Hs Hdr.
  destruct (ranked_NoDup _ _ (vt_sorted _ _ Hv Hs)) as (ps & Hps & Hnd & Hperm).
  destruct (Threshold_defined TargetReportable DomainReportable th pli m ps Hps Hnd)
    as (th' & pli' & m' & H).
  { eapply domains_readable_perm; [symmetry; exact Hperm|done]. }
  destruct (best_domain_reported_after _ _ _ _ _ _ _ Hv Hs H) as (ps' & Hps' & Hperm' & Hbest).
  by exists th', pli', m', ps'.
Qed.

(** C10. Two calls of [p7_tophits_Threshold] in a row on a valid, sorted
    list whose records have their domains, with a target predicate that
    does not look at [domZ]: both return [eslOK]; the list's [nreported]
    and the pipeline are the same after the second call as after the
    first, and so are the [is_reported] flags of the records; but a
    reported record that came with [nreported = 0] (and whose [2 * ndom]
    is an [int]) has [nreported] equal to the number of its domains that
    the second pass reports after the first call, and to twice that
    number after the second. *)
Theorem Threshold_twice_doubles_nreported th pli m :
  valid_tophits m th → P7_TOPHITS.is_sorted th = true →
  domains_readable m (record_ptrs th) →
  (∀ z s p, TargetReportable (P7_PIPELINE.set_domZ z pli) s p
            = TargetReportable pli s p) →
  ∃ th1 pli1 m1 th2 pli2 m2 ps,
    p7_tophits_Threshold TargetReportable DomainReportable th pli m
      = Some (eslOK, th1, pli1, m1) ∧
    p7_tophits_Threshold TargetReportable DomainReportable th1 pli1 m1
      = Some (eslOK, th2, pli2, m2) ∧
    view_ptrs m th = Some ps ∧
    P7_TOPHITS.nreported th2 = P7_TOPHITS.nreported th1 ∧ th2 = th1 ∧ pli2 = pli1 ∧
    ∀ p r, p ∈ ps → read_at (m_hits m) p 0 = Some r →
      ∃ r1 r2, read_at (m_hits m1) p 0 = Some r1 ∧
        read_at (m_hits m2) p 0 = Some r2 ∧
        P7_HIT.is_reported r2 = P7_HIT.is_reported r1 ∧
        (P7_HIT.is_reported r1 = false → r2 = r1) ∧
        (P7_HIT.is_reported r1 = true →
         P7_HIT.nreported r = 0 → 2 * P7_HIT.ndom r ≤ INT_MAX →
         ∃ bs, Forall2 (λ d b, domain_counts DomainReportable pli1 m r d = Some b)
                       (seqZ 0 (P7_HIT.ndom r)) bs ∧
           P7_HIT.nreported r1 = count_true bs ∧
           P7_HIT.nreported r2 = 2 * count_true bs ∧
           ∀ i d, seqZ 0 (P7_HIT.ndom r) !! i = Some d → bs !! i = Some true →
             ∃ dm, read_dom (m_dom m2) (P7_HIT.dcl r) d = Some dm ∧
                   P7_DOMAIN.is_reported dm = true).
Proof.
  intros Hv Hs Hdr Hsame.
  destruct (ranked_NoDup _ _ (vt_sorted _ _ Hv Hs)) as (ps & Hps & Hnd & Hperm).
  assert (domains_readable m ps) as Hdr'
    by (eapply domains_readable_perm; [symmetry; exact Hperm|done]).
  destruct (Threshold_defined TargetReportable DomainReportable th pli m ps Hps Hnd Hdr')
    as (th1 & pli1 & m1 & H1).
  destruct (Threshold_keeps_readable _ _ _ _ _ _ _ _ Hps Hnd Hdr' H1) as [Hps1 Hdr1].
  destruct (Threshold_defined TargetReportable DomainReportable th1 pli1 m1 ps
              Hps1 Hnd Hdr1) as (th2 & pli2 & m2 & H2).
  assert (∀ s p, TargetReportable pli1 s p = TargetReportable pli s p) as Hsame1.
  { destruct (Threshold_spec _ _ _ _ _ _ _ _ _ ps Hps Hnd H1)
      as (_ & _ & _ & _ & _ & -> & _).
    intros s p. by destruct (decide _). }
  destruct (second_call_doubles _ _ _ _ _ _ _ _ _ _ _ Hv Hs Hsame1 H1 H2)
    as (ps' & Hps' & Hrest).
  assert (ps' = ps) as -> by congruence.
  by exists th1, pli1, m1, th2, pli2, m2, ps.
Qed.
End ThresholdClaims.

(** * The model run on small lists *)

(** A fact about closed terms, by evaluation *)
Ltac by_eval := vm_compute; first [reflexivity | discriminate | congruence].
(** The conditions of the theorems, for closed lists and [insertion_sort] *)
Ltac closed_list :=
  first [ apply insertion_sort_contract
        | apply valid_tophitsb_sound; by_eval
        | apply domains_readableb_sound; by_eval
        | split; by_eval
        | by_eval ].

(** In C1's own case, two one-record lists with the same key, the
    recipient's record (the one with 1 in [nregions]) is ranked first and
    the donor's second. *)
Lemma Merge_tie_donor_is_second :
  records tie_mem (single 1) = Some [tagged one 1] ∧
  records tie_mem (single 2) = Some [tagged one 2] ∧
  Double.eq (P7_HIT.sortkey (tagged one 1)) (P7_HIT.sortkey (tagged one 2)) = true ∧
  ∃ h1' h2' m',
    p7_tophits_Merge insertion_sort AllocMoved AllocMoved (single 1) (single 2) tie_mem
      = Some (eslOK, h1', h2', m') ∧
    view_records m' h1' = Some [tagged one 1; tagged one 2].
Proof.
  split_and!; [by_eval..|]. eexists _, _, _. split; by_eval.
Qed.

Lemma Merge_ties_recipient_first_witness :
  ∃ h1' h2' m' l b,
    p7_tophits_Merge insertion_sort AllocMoved AllocMoved (single 1) (single 2) tie_mem
      = Some (eslOK, h1', h2', m') ∧
    view_ptrs m' h1' = Some l ∧ P7_TOPHITS.unsrt h1' = Ptr b 0 ∧
    ∀ (i j : nat) (r d : Z),
      l !! i = Some (Ptr b r) → 0 ≤ r < P7_TOPHITS.N (single 1) →
      l !! j = Some (Ptr b d) → P7_TOPHITS.N (single 1) ≤ d →
      Double.eq (key_of m' (Ptr b r)) (key_of m' (Ptr b d)) = true →
      (i < j)%nat.
Proof.
  apply Merge_ties_recipient_first; closed_list.
Defined.

Lemma Merge_donor_keeps_dcl_witness :
  ∃ h1' h2' m' rs1 rs2,
    p7_tophits_Merge insertion_sort AllocMoved AllocMoved (single 1) (single 2) owner_mem
      = Some (eslOK, h1', h2', m') ∧
    records owner_mem (single 1) = Some rs1 ∧ records owner_mem (single 2) = Some rs2 ∧
    records m' h1' = Some (rs1 ++ rs2) ∧
    records m' h2' = Some (null_strings <$> rs2) ∧
    Forall2 (λ r r', P7_HIT.name r' = NULL ∧ P7_HIT.acc r' = NULL ∧
                     P7_HIT.desc r' = NULL ∧ P7_HIT.dcl r' = P7_HIT.dcl r)
            rs2 (null_strings <$> rs2).
Proof.
  apply Merge_donor_keeps_dcl; closed_list.
Defined.

(** The donor of [owner_mem] after a merge: its record has lost its name
    but not its domain array, which the recipient's copy of the record
    holds as well. Destroying the donor releases that array (and leaves the
    name alone); destroying the recipient after that releases the array a
    second time, which is undefined. *)
Lemma Destroy_after_Merge_frees_dcl_twice :
  ∃ h1' h2' m' m'',
    p7_tophits_Merge insertion_sort AllocMoved AllocMoved (single 1) (single 2) owner_mem
      = Some (eslOK, h1', h2', m') ∧
    records m' h2' = Some [null_strings donor_hit] ∧
    P7_HIT.dcl (null_strings donor_hit) = Ptr 1 0 ∧
    records m' h1' = Some [tagged two 1; donor_hit] ∧
    is_Some (m_dom m' !! 1%positive) ∧
    p7_tophits_Destroy (Some h2') m' = Some (tt, m'') ∧
    m_dom m'' !! 1%positive = None ∧
    m_str m'' !! 1%positive = Some "seq1"%string ∧
    p7_tophits_Destroy (Some h1') m'' = None.
Proof.
  eexists _, _, _, _. split_and!; try by_eval. by eexists.
Qed.

(** A recipient that was not sorted, and a first reallocation that
    fails: the merge answers [eslEMEM], and the recipient is now marked
    sorted and has its ranking written. *)
Lemma Merge_failure_has_sorted_recipient :
  P7_TOPHITS.is_sorted (pair_unsorted 1) = false ∧
  view_ptrs unsorted_mem (pair_unsorted 1) = None ∧
  ∃ h1' h2' m',
    p7_tophits_Merge insertion_sort AllocFail AllocMoved (pair_unsorted 1) (single 2)
      unsorted_mem = Some (eslEMEM, h1', h2', m') ∧
    P7_TOPHITS.is_sorted h1' = true ∧
    view_ptrs m' h1' = Some [Ptr 1 1; Ptr 1 0] ∧
    h1' ≠ pair_unsorted 1 ∧ m' ≠ unsorted_mem.
Proof.
  split_and!; [by_eval..|]. eexists _, _, _. split_and!; [by_eval..| |].
  - intros [=].
  - intros E. apply (f_equal (λ m, view_ptrs m (pair_unsorted 1))) in E.
    vm_compute in E. discriminate.
Qed.

(** The same lists when it is the second allocation that fails: the
    records are kept. *)
Lemma Merge_failure_keeps_records_example :
  ∃ h1' m1 m2 m',
    p7_tophits_Sort insertion_sort (pair_unsorted 1) unsorted_mem
      = Some (eslOK, P7_TOPHITS.set_is_sorted true (pair_unsorted 1), m1) ∧
    p7_tophits_Sort insertion_sort (single 2) m1
      = Some (eslOK, P7_TOPHITS.set_is_sorted true (single 2), m2) ∧
    p7_tophits_Merge insertion_sort AllocMoved AllocFail (pair_unsorted 1) (single 2)
      unsorted_mem = Some (eslEMEM, h1', P7_TOPHITS.set_is_sorted true (single 2), m') ∧
    records m' h1' = records unsorted_mem (pair_unsorted 1) ∧
    records m' (P7_TOPHITS.set_is_sorted true (single 2))
      = records unsorted_mem (single 2).
Proof.
  destruct (Merge_failure_keeps_records insertion_sort AllocMoved AllocFail unsorted_mem
              (pair_unsorted 1) (single 2))
    as (h1' & m1 & m2 & m' & H1 & H2 & H3 & _ & _ & H4 & H5 & _);
    [closed_list..|by right|].
  by exists h1', m1, m2, m'.
Qed.

(** That run again: the record array has moved to block 3, the ranking
    still points into block 1, which is gone. *)
Lemma Merge_failure_leaves_ranking_dangling_witness :
  ∃ h1' m' l,
    p7_tophits_Merge insertion_sort AllocMoved AllocFail (pair_unsorted 1) (single 2)
      unsorted_mem = Some (eslEMEM, h1', P7_TOPHITS.set_is_sorted true (single 2), m') ∧
    P7_TOPHITS.is_sorted h1' = true ∧
    P7_TOPHITS.unsrt h1' ≠ P7_TOPHITS.unsrt (pair_unsorted 1) ∧
    view_ptrs m' h1' = Some l ∧ l ≡ₚ [Ptr 1 0; Ptr 1 1] ∧
    m_hits m' !! 1%positive = None ∧
    view_records m' h1' = None ∧
    ¬ valid_tophits m' h1'.
Proof.
  destruct (Merge_failure_leaves_ranking_dangling insertion_sort unsorted_mem
              (pair_unsorted 1) (single 2))
    as (h1' & m' & b1 & b' & l & H & Hu & -> & Hne & Hgone & Hl & Hp & _ & Hvr & Hnv);
    [closed_list..|].
  injection Hu as <-.
  eexists _, m', l. split; [exact H|]. split; [reflexivity|].
  split; [simpl; congruence|]. split; [exact Hl|]. split; [exact Hp|].
  split; [exact Hgone|]. split; [exact Hvr|exact Hnv].
Defined.

(** C4's case of a record as [p7_tophits_CreateNextHit] leaves it, with
    no domain: the record is reported, and no domain of it is. *)
Lemma Threshold_reports_hit_without_domain :
  ∃ th' pli' m' r,
    p7_tophits_Threshold any_target no_domain (single 1) pli0 tie_mem
      = Some (eslOK, th', pli', m') ∧
    view_records m' th' = Some [r] ∧
    P7_HIT.is_reported r = true ∧ P7_HIT.ndom r = 0 ∧
    ∀ d, read_dom (m_dom m') (P7_HIT.dcl r) d = None.
Proof.
  eexists _, _, _, _. split_and!; [by_eval..|]. intros d. reflexivity.
Qed.

Lemma Threshold_reports_best_domain_witness :
  ∃ th' pli' m' ps,
    p7_tophits_Threshold any_target no_domain (single 1) pli0 domain_mem
      = Some (eslOK, th', pli', m') ∧
    view_ptrs m' th' = Some ps ∧ ps ≡ₚ record_ptrs th' ∧
    ∀ p r, p ∈ ps → read_at (m_hits m') p 0 = Some r →
      P7_HIT.is_reported r = true →
      0 ≤ P7_HIT.best_domain r < P7_HIT.ndom r →
      ∃ dm, read_dom (m_dom m') (P7_HIT.dcl r) (P7_HIT.best_domain r) = Some dm ∧
            P7_DOMAIN.is_reported dm = true.
Proof.
  apply Threshold_reports_best_domain; closed_list.
Defined.

(** C5's case of a NaN: the merged ranking has the NaN before 1, and
    [NaN >= 1] is false. *)
Lemma Merge_with_nan_is_not_descending :
  ∃ h1' h2' m',
    p7_tophits_Merge insertion_sort AllocMoved AllocMoved (single 1) (single 2) nan_mem
      = Some (eslOK, h1', h2', m') ∧
    view_keys m' h1' = Some [S754_nan; one] ∧
    descending [S754_nan; one] = false.
Proof. eexists _, _, _. split_and!; by_eval. Qed.

Lemma Merge_is_sorted_union_witness :
  ∃ h1' h2' m' rs1 rs2 l rsv,
    p7_tophits_Merge insertion_sort AllocMoved AllocMoved (pair_unsorted 1) (single 2)
      unsorted_mem = Some (eslOK, h1', h2', m') ∧
    records unsorted_mem (pair_unsorted 1) = Some rs1 ∧
    records unsorted_mem (single 2) = Some rs2 ∧
    P7_TOPHITS.N h1' = P7_TOPHITS.N (pair_unsorted 1) + P7_TOPHITS.N (single 2) ∧
    P7_TOPHITS.is_sorted h1' = true ∧
    records m' h1' = Some (rs1 ++ rs2) ∧
    view_ptrs m' h1' = Some l ∧ l ≡ₚ record_ptrs h1' ∧
    view_records m' h1' = Some rsv ∧ rsv ≡ₚ rs1 ++ rs2 ∧
    descending (P7_HIT.sortkey <$> rsv) = true.
Proof.
  apply Merge_is_sorted_union; closed_list.
Defined.

(** C6's case of a second reallocation that fails: the list comes back
    with [eslEMEM] and with its ranking in the new, larger block; the old
    block is gone. *)
Lemma Grow_failure_moves_ranking :
  ∃ h' m',
    p7_tophits_Grow AllocMoved AllocFail (single 1) tie_mem = Some (eslEMEM, h', m') ∧
    P7_TOPHITS.hit (single 1) = Ptr 1 0 ∧ P7_TOPHITS.hit h' = Ptr 3 0 ∧
    m_view m' !! 1%positive = None ∧
    m_view m' !! 3%positive = Some [Some (Ptr 1 0); None] ∧
    h' ≠ single 1.
Proof. eexists _, _. split_and!; [by_eval..|]. intros [=]. Qed.

Lemma Grow_failure_keeps_contents_witness :
  ∃ h' m',
    p7_tophits_Grow AllocMoved AllocFail (single 1) tie_mem = Some (eslEMEM, h', m') ∧
    P7_TOPHITS.set_hit (P7_TOPHITS.hit (single 1)) h' = single 1 ∧
    m_hits m' = m_hits tie_mem ∧
    (∀ i, 0 ≤ i < P7_TOPHITS.Nalloc (single 1) →
       cell_at (m_view m') (P7_TOPHITS.hit h') i
       = cell_at (m_view tie_mem) (P7_TOPHITS.hit (single 1)) i) ∧
    valid_tophits m' h'.
Proof.
  destruct (Grow_failure_keeps_contents AllocMoved AllocFail (single 1) tie_mem)
    as (h' & m' & H1 & _ & H2 & H3 & _ & _ & _ & H4 & H5);
    [closed_list|by_eval|by right|].
  by exists h', m'.
Defined.

(** C7's case of a NaN: the sorted ranking has the NaN before 1. Neither
    order of the two keys is non-increasing. *)
Lemma Sort_with_nan_is_not_descending :
  ∃ h' m',
    p7_tophits_Sort insertion_sort (pair_unsorted 1) nan_unsorted_mem
      = Some (eslOK, h', m') ∧
    view_keys m' h' = Some [S754_nan; one] ∧
    descending [S754_nan; one] = false ∧ descending [one; S754_nan] = false.
Proof. eexists _, _. split_and!; by_eval. Qed.

Lemma Sort_orders_comparable_keys_witness :
  ∃ h' m' l ks,
    p7_tophits_Sort insertion_sort (pair_unsorted 1) unsorted_mem = Some (eslOK, h', m') ∧
    view_ptrs m' h' = Some l ∧ l ≡ₚ record_ptrs (pair_unsorted 1) ∧
    view_keys m' h' = Some ks ∧ descending ks = true.
Proof.
  apply Sort_orders_comparable_keys; closed_list.
Defined.

Lemma Sort_idempotent_witness :
  ∃ h' m',
    p7_tophits_Sort insertion_sort (pair_unsorted 1) unsorted_mem = Some (eslOK, h', m') ∧
    view_ptrs m' h' = Some [Ptr 1 1; Ptr 1 0] ∧
    p7_tophits_Sort insertion_sort h' m' = Some (eslOK, h', m').
Proof.
  eexists _, _. split; [by_eval|]. split; [by_eval|].
  apply (Sort_idempotent insertion_sort (pair_unsorted 1) unsorted_mem eslOK). by_eval.
Defined.

(** A new list and two appends to it, each from the memory the call
    before it left *)
Lemma sorted_flag_tracks_appends_witness :
  ∃ h, history insertion_sort 2 false h ∧
    P7_TOPHITS.N h = 2 ∧ P7_TOPHITS.is_sorted h = false.
Proof.
  let r0 := eval vm_compute in
    (p7_tophits_Create AllocMoved AllocMoved AllocMoved empty_mem) in
  match r0 with
  | Some (Some ?h0, ?m0) =>
      let r1 := eval vm_compute in (p7_tophits_CreateNextHit AllocMoved AllocMoved h0 m0) in
      match r1 with
      | Some (_, ?p1, ?h1, ?m1) =>
          let r2 := eval vm_compute in
            (p7_tophits_CreateNextHit AllocMoved AllocMoved h1 m1) in
          match r2 with
          | Some (_, ?p2, ?h2, ?m2) =>
              assert (history insertion_sort 2 false h2) as Hh;
              [ apply (history_append _ 1 false h1 AllocMoved AllocMoved m1 p2 h2 m2);
                [ apply (history_append _ 0 false h0 AllocMoved AllocMoved m0 p1 h1 m1);
                  [ apply (history_create _ AllocMoved AllocMoved AllocMoved
                             empty_mem h0 m0); by_eval
                  | by_eval ]
                | by_eval ]
              | exists h2; split; [exact Hh|];
                exact (sorted_flag_tracks_appends insertion_sort 2 false h2 Hh) ]
          end
      end
  end.
Defined.

Lemma Threshold_twice_doubles_nreported_witness :
  ∃ th1 pli1 m1 th2 pli2 m2 ps,
    p7_tophits_Threshold any_target domain_above_two (single 1) pli0 domain_mem
      = Some (eslOK, th1, pli1, m1) ∧
    p7_tophits_Threshold any_target domain_above_two th1 pli1 m1
      = Some (eslOK, th2, pli2, m2) ∧
    view_ptrs domain_mem (single 1) = Some ps ∧
    P7_TOPHITS.nreported th2 = P7_TOPHITS.nreported th1 ∧ th2 = th1 ∧ pli2 = pli1 ∧
    ∀ p r, p ∈ ps → read_at (m_hits domain_mem) p 0 = Some r →
      ∃ r1 r2, read_at (m_hits m1) p 0 = Some r1 ∧
        read_at (m_hits m2) p 0 = Some r2 ∧
        P7_HIT.is_reported r2 = P7_HIT.is_reported r1 ∧
        (P7_HIT.is_reported r1 = false → r2 = r1) ∧
        (P7_HIT.is_reported r1 = true →
         P7_HIT.nreported r = 0 → 2 * P7_HIT.ndom r ≤ INT_MAX →
         ∃ bs, Forall2 (λ d b, domain_counts domain_above_two pli1 domain_mem r d = Some b)
                       (seqZ 0 (P7_HIT.ndom r)) bs ∧
           P7_HIT.nreported r1 = count_true bs ∧
           P7_HIT.nreported r2 = 2 * count_true bs ∧
           ∀ i d, seqZ 0 (P7_HIT.ndom r) !! i = Some d → bs !! i = Some true →
             ∃ dm, read_dom (m_dom m2) (P7_HIT.dcl r) d = Some dm ∧
                   P7_DOMAIN.is_reported dm = true).
Proof.
  apply Threshold_twice_doubles_nreported; closed_list.
Defined.

(** The numbers of that run: the one record has two domains, both are
    reported, and its count is 2 after the first call and 4 after the
    second, while the list's count is 1 after each. *)
Lemma Threshold_twice_counts :
  ∃ th1 pli1 m1 th2 pli2 m2 r1 r2,
    p7_tophits_Threshold any_target domain_above_two (single 1) pli0 domain_mem
      = Some (eslOK, th1, pli1, m1) ∧
    p7_tophits_Threshold any_target domain_above_two th1 pli1 m1
      = Some (eslOK, th2, pli2, m2) ∧
    P7_TOPHITS.nreported th1 = 1 ∧ P7_TOPHITS.nreported th2 = 1 ∧
    view_records m1 th1 = Some [r1] ∧ view_records m2 th2 = Some [r2] ∧
    P7_HIT.nreported r1 = 2 ∧ P7_HIT.nreported r2 = 4.
Proof. eexists _, _, _, _, _, _, _, _. repeat (split; [by_eval|]). by_eval. Qed.

(** * Further properties of the object *)

(** ** Creating and destroying a list *)

Lemma mem_eq m m' :
  m_hits m' = m_hits m → m_view m' = m_view m → m_dom m' = m_dom m →
  m_str m' = m_str m → m_ali m' = m_ali m → m' = m.
Proof. destruct m, m'. simpl. by intros -> -> -> -> ->. Qed.

Lemma alloc_ok_true o : o ≠ AllocFail → alloc_ok o = true.
Proof. by destruct o. Qed.

(** A loop whose turns all leave the memory alone *)
Lemma for_each_skip l (body : Z → M unit) m :
  (∀ i, i ∈ l → body i m = Some (tt, m)) → for_each l body m = Some (tt, m).
Proof.
  induction l as [|i l IH]; intros H; [done|].
  cbn [for_each]. rewrite (bind_eq _ _ _ _ _ (H i ltac:(by left))).
  apply IH. intros j Hj. apply H. by right.
Qed.

(** What a successful [p7_tophits_Create] returns and leaves in memory *)
Lemma Create_ok_mem o0 o1 o2 m :
  o0 ≠ AllocFail → o1 ≠ AllocFail → o2 ≠ AllocFail →
  ∃ bv b,
    m_view m !! bv = None ∧ m_hits m !! b = None ∧
    p7_tophits_Create o0 o1 o2 m
    = Some (Some (P7_TOPHITS.mk (Ptr bv 0) (Ptr b 0) 256 0 0 true),
            set_view (<[bv := Some (Ptr b 0) :: replicate 255 None]> (m_view m))
              (set_hits (<[b := replicate 256 None]> (m_hits m)) m)).
Proof.
  intros H0 H1 H2.
  destruct (malloc_in_ok o1 default_nalloc (m_view m) H1 ltac:(done)) as (bv & Hbv & Hfv).
  destruct (malloc_in_ok o2 default_nalloc (m_hits m) H2 ltac:(done)) as (b & Hb & Hfb).
  exists bv, b. split_and!; [done..|].
  unfold p7_tophits_Create. rewrite (alloc_ok_true _ H0).
  set (m1 := set_view (<[bv := replicate (Z.to_nat default_nalloc) None]> (m_view m)) m).
  assert (ESL_ALLOC_view o1 default_nalloc m = Some (Ptr bv 0, m1)) as E1.
  { unfold ESL_ALLOC_view. by rewrite Hbv. }
  rewrite (bind_eq _ _ _ _ _ E1). cbn [is_null].
  set (m2 := set_hits (<[b := replicate (Z.to_nat default_nalloc) None]> (m_hits m)) m1).
  assert (ESL_ALLOC_hits o2 default_nalloc m1 = Some (Ptr b 0, m2)) as E2.
  { unfold ESL_ALLOC_hits. change (m_hits m1) with (m_hits m). by rewrite Hb. }
  rewrite (bind_eq _ _ _ _ _ E2). cbn [is_null].
  cbn [P7_TOPHITS.hit P7_TOPHITS.unsrt P7_TOPHITS.set_hit P7_TOPHITS.set_unsrt
       P7_TOPHITS.set_Nalloc P7_TOPHITS.set_N P7_TOPHITS.set_nreported
       P7_TOPHITS.set_is_sorted P7_TOPHITS.Nalloc P7_TOPHITS.N
       P7_TOPHITS.nreported P7_TOPHITS.is_sorted].
  erewrite bind_eq; cycle 1.
  { apply (store_view_block bv (replicate (Z.to_nat default_nalloc) None)); [|done|].
    - unfold m2, m1. by rewrite m_view_set_hits, m_view_set_view, lookup_insert_eq.
    - rewrite length_replicate. unfold default_nalloc. lia. }
  unfold ret, mret, M_ret. do 2 f_equal.
  unfold m2, m1. destruct m. unfold set_view, set_hits. simpl. f_equal.
  by rewrite insert_insert_eq.
Qed.

(** X1. When its three allocations succeed, [p7_tophits_Create] returns a
    list of no record with room for 256, marked sorted, with a count of 0,
    whose [hit[0]] holds the address of the record array; its two arrays
    are new blocks and nothing else in memory has changed. The list is
    valid. *)
Theorem Create_gives_empty_list o0 o1 o2 m :
  o0 ≠ AllocFail → o1 ≠ AllocFail → o2 ≠ AllocFail →
  ∃ bv b m',
    let h := P7_TOPHITS.mk (Ptr bv 0) (Ptr b 0) 256 0 0 true in
    p7_tophits_Create o0 o1 o2 m = Some (Some h, m') ∧
    m_view m !! bv = None ∧ m_hits m !! b = None ∧
    m_view m' = <[bv := Some (Ptr b 0) :: replicate 255 None]> (m_view m) ∧
    m_hits m' = <[b := replicate 256 None]> (m_hits m) ∧
    m_dom m' = m_dom m ∧ m_str m' = m_str m ∧ m_ali m' = m_ali m ∧
    records m' h = Some [] ∧ valid_tophits m' h ∧ first_slot m' h.
Proof.
  intros H0 H1 H2.
  destruct (Create_ok_mem o0 o1 o2 m H0 H1 H2) as (bv & b & Hfv & Hfb & E).
  eexists bv, b, _. cbv zeta. split; [exact E|].
  split_and!; try done.
  - constructor; simpl; try done.
    + exists b, (replicate 256 None). split_and!; [done|apply lookup_insert_eq|done|].
      intros i Hi. simpl in Hi. lia.
    + exists bv, (Some (Ptr b 0) :: replicate 255 None).
      split_and!; [done|apply lookup_insert_eq|done].
    + intros _. exists []. split_and!; [done|done|constructor].
  - intros _. simpl. eapply read_at_block; [apply lookup_insert_eq|done|done].
Qed.

Lemma alloc_cases o : o = AllocFail ∨ o ≠ AllocFail.
Proof. destruct o; [by left|by right..]. Qed.

(** [p7_tophits_Create] when an allocation fails *)
Lemma Create_fails o0 o1 o2 m :
  o0 = AllocFail ∨ o1 = AllocFail ∨ o2 = AllocFail →
  p7_tophits_Create o0 o1 o2 m = Some (None, m).
Proof.
  intros H. unfold p7_tophits_Create.
  destruct (alloc_cases o0) as [->|H0]; [done|].
  rewrite (alloc_ok_true _ H0).
  destruct (alloc_cases o1) as [->|H1].
  { rewrite (bind_eq _ _ _ _ _ (ESL_ALLOC_view_fail _ m)). done. }
  destruct H as [?|[?| ->]]; [done..|].
  destruct (malloc_in_ok o1 default_nalloc (m_view m) H1 ltac:(done)) as (bv & Hbv & Hfv).
  set (m1 := set_view (<[bv := replicate (Z.to_nat default_nalloc) None]> (m_view m)) m).
  assert (ESL_ALLOC_view o1 default_nalloc m = Some (Ptr bv 0, m1)) as E1.
  { unfold ESL_ALLOC_view. by rewrite Hbv. }
  rewrite (bind_eq _ _ _ _ _ E1). cbn [is_null].
  assert (ESL_ALLOC_hits AllocFail default_nalloc m1 = Some (NULL, m1)) as E2.
  { unfold ESL_ALLOC_hits, malloc_in. cbn [alloc_ok andb is_null]. by rewrite set_hits_same. }
  rewrite (bind_eq _ _ _ _ _ E2). cbn [is_null].
  assert (p7_tophits_Destroy
            (Some (P7_TOPHITS.set_hit (Ptr bv 0) (P7_TOPHITS.mk NULL NULL 0 0 0 false))) m1
          = Some (tt, m)) as E3.
  { unfold p7_tophits_Destroy. cbn [P7_TOPHITS.hit P7_TOPHITS.unsrt P7_TOPHITS.set_hit is_null].
    assert (free_view (Ptr bv 0) m1 = Some (tt, m)) as Ef.
    { unfold free_view, free_in. rewrite decide_True by done.
      unfold m1. rewrite m_view_set_view, lookup_insert_eq. simpl.
      rewrite delete_insert_id by done. by rewrite set_view_set_view, set_view_same. }
    by rewrite (bind_eq _ _ _ _ _ Ef). }
  by rewrite (bind_eq _ _ _ _ _ E3).
Qed.

(** X2. When one of its three allocations fails, [p7_tophits_Create]
    returns NULL and the memory is as it was: the array that it had
    already allocated is released again. *)
Theorem Create_failure_releases_all o0 o1 o2 m :
  o0 = AllocFail ∨ o1 = AllocFail ∨ o2 = AllocFail →
  p7_tophits_Create o0 o1 o2 m = Some (None, m).
Proof. apply Create_fails. Qed.

(** X3. Destroying a list that [p7_tophits_Create] has just returned
    gives the memory back as it was before the list was created. *)
Theorem Destroy_undoes_Create o0 o1 o2 m h m' :
  p7_tophits_Create o0 o1 o2 m = Some (Some h, m') →
  p7_tophits_Destroy (Some h) m' = Some (tt, m).
Proof.
  intros H.
  assert (o0 ≠ AllocFail ∧ o1 ≠ AllocFail ∧ o2 ≠ AllocFail) as (H0 & H1 & H2).
  { split_and!; intros ->.
    - rewrite Create_fails in H by auto. done.
    - rewrite Create_fails in H by auto. done.
    - rewrite Create_fails in H by auto. done. }
  destruct (Create_ok_mem o0 o1 o2 m H0 H1 H2) as (bv & b & Hfv & Hfb & E).
  rewrite E in H. injection H as <- <-.
  unfold p7_tophits_Destroy.
  cbn [P7_TOPHITS.hit P7_TOPHITS.unsrt P7_TOPHITS.N is_null].
  set (m2 := set_hits (<[b := replicate 256 None]> (m_hits m)) m).
  assert (free_view (Ptr bv 0)
            (set_view (<[bv := Some (Ptr b 0) :: replicate 255 None]> (m_view m)) m2)
          = Some (tt, m2)) as Ef.
  { unfold free_view, free_in. rewrite decide_True by done.
    rewrite m_view_set_view, lookup_insert_eq. simpl.
    rewrite delete_insert_id by done. rewrite set_view_set_view.
    change (m_view m) with (m_view m2). by rewrite set_view_same. }
  rewrite (bind_eq _ _ _ _ _ Ef).
  erewrite bind_eq; [|apply for_loop_0].
  unfold free_hits, free_in. rewrite decide_True by done.
  unfold m2. rewrite m_hits_set_hits, lookup_insert_eq. simpl.
  rewrite delete_insert_id by done. by rewrite set_hits_set_hits, set_hits_same.
Qed.

(** ** Growing and appending *)

(** Reading the fields of a list that was built by assignments *)
Ltac fields :=
  cbn [P7_TOPHITS.hit P7_TOPHITS.unsrt P7_TOPHITS.Nalloc P7_TOPHITS.N
       P7_TOPHITS.nreported P7_TOPHITS.is_sorted P7_TOPHITS.set_hit
       P7_TOPHITS.set_unsrt P7_TOPHITS.set_Nalloc P7_TOPHITS.set_N
       P7_TOPHITS.set_nreported P7_TOPHITS.set_is_sorted].

Lemma resize_prefix {A} (l : list A) rest n x :
  (length l ≤ n)%nat → ∃ rest', resize n x (l ++ rest) = l ++ rest'.
Proof.
  intros Hn. exists (drop (length l) (resize n x (l ++ rest))).
  rewrite <- (take_drop (length l) (resize n x (l ++ rest))) at 1. f_equal.
  rewrite take_resize_le, resize_le by (rewrite ?length_app; lia).
  by rewrite take_app_length.
Qed.

Lemma mapM_fmap_ext {A B C} (f : B → option C) (g : A → option C) (t : A → B) l :
  (∀ x, x ∈ l → f (t x) = g x) → mapM f (t <$> l) = mapM g l.
Proof.
  induction l as [|x l IH]; intros H; [done|].
  csimpl. rewrite (H x) by by left. destruct (g x); [|done]. csimpl.
  f_equal. apply IH. intros y Hy. apply H. by right.
Qed.

(** The records that a ranking names are the same after its record array
    was reallocated and the ranking translated. *)
Lemma read_translated (s s' : gmap block (list (option P7_HIT.t))) b b' a n p :
  s !! b = Some a → s' !! b' = Some (resize n None a) →
  (∃ i, p = Ptr b (0 + i) ∧ 0 ≤ i ∧ (Z.to_nat i < n)%nat) →
  read_at s' (translate (Ptr b' 0) (Ptr b 0) p) 0 = read_at s p 0.
Proof.
  intros Hb Hb' (i & -> & Hi & Hlt). rewrite translate_record, !read_at_shift.
  rewrite !read_at_cell, (cell_at_base _ _ _ _ Hb Hi), (cell_at_base _ _ _ _ Hb' Hi).
  destruct (decide (Z.to_nat i < length a)%nat).
  - by rewrite lookup_resize by done.
  - rewrite lookup_resize_new, lookup_ge_None_2 by lia. done.
Qed.

(** [p7_tophits_Grow] on a full list, when it succeeds *)
Lemma Grow_full_spec o1 o2 h m :
  valid_tophits m h → P7_TOPHITS.Nalloc h ≤ P7_TOPHITS.N h →
  2 * P7_TOPHITS.Nalloc h ≤ INT_MAX →
  o1 ≠ AllocFail → o2 ≠ AllocFail →
  ∃ h' m',
    p7_tophits_Grow o1 o2 h m = Some (eslOK, h', m') ∧
    P7_TOPHITS.Nalloc h' = 2 * P7_TOPHITS.Nalloc h ∧
    P7_TOPHITS.N h' = P7_TOPHITS.N h ∧
    P7_TOPHITS.nreported h' = P7_TOPHITS.nreported h ∧
    P7_TOPHITS.is_sorted h' = P7_TOPHITS.is_sorted h ∧
    records m' h' = records m h ∧
    (P7_TOPHITS.is_sorted h = true → view_records m' h' = view_records m h) ∧
    valid_tophits m' h' ∧
    m_dom m' = m_dom m ∧ m_str m' = m_str m ∧ m_ali m' = m_ali m.
Proof.
  intros [HN HNa (b & a & Hu & Hb & Hla & Hfill) (bv & w & Hh & Hbv & Hlw) Hs]
    Hfull Hmax Ho1 Ho2.
  set (Na := 2 * P7_TOPHITS.Nalloc h).
  assert (wrap_int (P7_TOPHITS.Nalloc h * 2) = Na) as HwNa.
  { rewrite wrap_int_id; unfold Na, INT_MAX in *; lia. }
  destruct (realloc_in_ok o1 bv Na (m_view m) w Ho1 ltac:(unfold Na; lia) Hbv)
    as (bv' & sv & Hrev & Hbv' & _ & _).
  destruct (realloc_in_ok o2 b Na (m_hits m) a Ho2 ltac:(unfold Na; lia) Hb)
    as (b' & sh & Hreh & Hb' & _ & _).
  set (m1 := set_view sv m). set (m2 := set_hits sh m1).
  assert (ESL_RALLOC_view o1 (Ptr bv 0) Na m = Some (Ptr bv' 0, m1)) as E1.
  { unfold ESL_RALLOC_view. cbn [is_null]. by rewrite Hrev. }
  assert (ESL_RALLOC_hits o2 (Ptr b 0) Na m1 = Some (Ptr b' 0, m2)) as E2.
  { unfold ESL_RALLOC_hits. cbn [is_null]. change (m_hits m1) with (m_hits m).
    by rewrite Hreh. }
  (* the records are where they were in the array *)
  assert (Hrec : ∀ i, 0 ≤ i < P7_TOPHITS.N h →
            read_at sh (Ptr b' 0) i = read_at (m_hits m) (Ptr b 0) i).
  { intros i Hi. rewrite !read_at_cell, (cell_at_base _ _ _ _ Hb), (cell_at_base _ _ _ _ Hb')
      by lia. rewrite lookup_resize by lia. done. }
  unfold p7_tophits_Grow.
  rewrite (proj2 (Z.ltb_ge _ _)) by lia. rewrite HwNa, Hh, Hu.
  rewrite (bind_eq _ _ _ _ _ E1). cbn [is_null P7_TOPHITS.unsrt P7_TOPHITS.set_hit].
  rewrite Hu. rewrite (bind_eq _ _ _ _ _ E2).
  cbn [is_null P7_TOPHITS.unsrt P7_TOPHITS.hit P7_TOPHITS.set_hit P7_TOPHITS.set_unsrt
       P7_TOPHITS.is_sorted P7_TOPHITS.N].
  destruct (P7_TOPHITS.is_sorted h) eqn:Hsorted.
  - (* a sorted list: the ranking is translated *)
    destruct (Hs eq_refl) as (l & Hl & Hperm & Hsort).
    unfold view_ptrs in Hl. rewrite Hh in Hl.
    destruct (read_content _ _ _ _ _ Hbv Hl) as [Hw Hlen].
    destruct (resize_prefix (Some <$> l) (drop (length l) w) (Z.to_nat Na) None)
      as [rest Hrest]; [rewrite length_fmap; unfold Na; lia|].
    rewrite <- Hw in Hrest.
    assert (Forall (λ p, block_of p = Some b) l) as Hin.
    { rewrite Hperm. by apply record_ptrs_block. }
    set (l' := translate (Ptr b' 0) (Ptr b 0) <$> l).
    set (m3 := set_view (<[bv' := (Some <$> l') ++ rest]> (m_view m2)) m2).
    assert (rebase_view (Ptr bv' 0) (Ptr b' 0) (Ptr b 0) (P7_TOPHITS.N h) m2
            = Some (tt, m3)) as E3.
    { replace (P7_TOPHITS.N h) with (Z.of_nat (length l)) by lia.
      apply rebase_view_spec; [|done].
      unfold m2, m1. by rewrite m_view_set_hits, m_view_set_view, Hbv', Hrest. }
    rewrite (bind_eq _ _ _ _ _ E3).
    set (h' := P7_TOPHITS.set_Nalloc Na
                 (P7_TOPHITS.set_unsrt (Ptr b' 0) (P7_TOPHITS.set_hit (Ptr bv' 0) h))).
    exists h', m3. split; [reflexivity|].
    assert (Hmem : ∀ p, p ∈ l → ∃ i, p = Ptr b (0 + i) ∧ 0 ≤ i ∧
              (Z.to_nat i < Z.to_nat Na)%nat).
    { intros p Hp. rewrite Hperm, (record_ptrs_base _ _ Hu) in Hp.
      apply list_elem_of_fmap in Hp as (i & -> & Hi%elem_of_seqZ_0).
      exists i. split_and!; [done|lia|unfold Na; lia]. }
    assert (Hread : ∀ p, p ∈ l →
              read_at sh (translate (Ptr b' 0) (Ptr b 0) p) 0 = read_at (m_hits m) p 0).
    { intros p Hp. eapply read_translated; [done|done|by apply Hmem]. }
    assert (view_ptrs m3 h' = Some l') as Hl'.
    { unfold view_ptrs, h'. fields.
      replace (P7_TOPHITS.N h) with (Z.of_nat (length l')).
      2:{ unfold l'. rewrite length_fmap. lia. }
      eapply read_prefix. unfold m3. rewrite m_view_set_view. apply lookup_insert_eq. }
    assert (records m3 h' = records m h) as Hrecs.
    { unfold records, h'. fields. rewrite Hu.
      apply mapM_ext_in. intros i Hi%elem_of_seqZ_0. by apply Hrec. }
    unfold h' at 1 2 3 4. fields.
    split_and!; try done.
    + intros _. unfold view_records. rewrite Hl'. unfold view_ptrs. rewrite Hh, Hl.
      cbn [mbind option_bind]. unfold l'. by apply mapM_fmap_ext.
    + constructor; unfold h'; fields.
      * unfold Na. lia.
      * unfold Na. lia.
      * exists b', (resize (Z.to_nat Na) None a). split_and!; [done|done| |].
        -- by rewrite length_resize.
        -- intros i Hi. rewrite lookup_resize by (unfold Na; lia). apply Hfill. lia.
      * exists bv', ((Some <$> l') ++ rest). split_and!; [done| |].
        -- unfold m3. rewrite m_view_set_view. apply lookup_insert_eq.
        -- assert (length ((Some <$> l') ++ rest) = Z.to_nat Na) as ->; [|done].
           unfold l'. rewrite length_app, !length_fmap.
           apply (f_equal length) in Hrest.
           rewrite length_resize, length_app, length_fmap in Hrest. lia.
      * intros _. exists l'. split_and!; [done| |].
        -- unfold l'. rewrite Hperm, (record_ptrs_base _ _ Hu).
           unfold record_ptrs. fields.
           rewrite <- list_fmap_compose. erewrite list_fmap_ext; [done|].
           intros i x _. simpl. apply translate_record.
        -- unfold l'. eapply Sorted_fmap_in; [|exact Hsort].
           intros p q Hp Hq Hle. unfold hit_sorter in *.
           change (m_hits m3) with sh. by rewrite !Hread.
  - (* a list that is not sorted: the ranking is not read *)
    set (h' := P7_TOPHITS.set_Nalloc Na
                 (P7_TOPHITS.set_unsrt (Ptr b' 0) (P7_TOPHITS.set_hit (Ptr bv' 0) h))).
    exists h', m2. split; [reflexivity|].
    unfold h' at 1 2 3 4. fields.
    split_and!; try done.
    + unfold records, h'. fields. rewrite Hu.
      apply mapM_ext_in. intros i Hi%elem_of_seqZ_0. by apply Hrec.
    + constructor; unfold h'; fields; try done.
      * unfold Na. lia.
      * unfold Na. lia.
      * exists b', (resize (Z.to_nat Na) None a). split_and!; [done|done| |].
        -- by rewrite length_resize.
        -- intros i Hi. rewrite lookup_resize by (unfold Na; lia). apply Hfill. lia.
      * exists bv', (resize (Z.to_nat Na) None w). split_and!; [done|done|].
        by rewrite length_resize.
      * intros Hso. congruence.
Qed.

(** X4. When a valid list is full, the doubled size is an [int] and both
    reallocations succeed, [p7_tophits_Grow] returns [eslOK] with room for
    twice as many records. The records, their number, the count and the
    flag are as before, a sorted list ranks the same records in the same
    order, and the list is valid. *)
Theorem Grow_doubles_room o1 o2 h m :
  valid_tophits m h → P7_TOPHITS.Nalloc h ≤ P7_TOPHITS.N h →
  2 * P7_TOPHITS.Nalloc h ≤ INT_MAX →
  o1 ≠ AllocFail → o2 ≠ AllocFail →
  ∃ h' m',
    p7_tophits_Grow o1 o2 h m = Some (eslOK, h', m') ∧
    P7_TOPHITS.Nalloc h' = 2 * P7_TOPHITS.Nalloc h ∧
    P7_TOPHITS.N h' = P7_TOPHITS.N h ∧
    P7_TOPHITS.nreported h' = P7_TOPHITS.nreported h ∧
    P7_TOPHITS.is_sorted h' = P7_TOPHITS.is_sorted h ∧
    records m' h' = records m h ∧
    (P7_TOPHITS.is_sorted h = true → view_records m' h' = view_records m h) ∧
    valid_tophits m' h' ∧
    m_dom m' = m_dom m ∧ m_str m' = m_str m ∧ m_ali m' = m_ali m.
Proof. apply Grow_full_spec. Qed.

(** The records of a valid list can be read. *)
Lemma records_defined m h :
  valid_tophits m h →
  ∃ b a rs, P7_TOPHITS.unsrt h = Ptr b 0 ∧ m_hits m !! b = Some a ∧
    records m h = Some rs ∧ length rs = Z.to_nat (P7_TOPHITS.N h) ∧
    a = (Some <$> rs) ++ drop (length rs) a.
Proof.
  intros [HN HNa (b & a & Hu & Hb & Hla & Hfill) _ _].
  assert (∃ rs, records m h = Some rs) as [rs Hrs].
  { unfold records. rewrite Hu.
    assert (∀ n, (n ≤ Z.to_nat (P7_TOPHITS.N h))%nat →
              ∃ rs, mapM (read_at (m_hits m) (Ptr b 0)) (seqZ 0 (Z.of_nat n)) = Some rs)
      as Hn.
    { induction n as [|n IH]; intros Hle; [by exists []|].
      destruct IH as [rs Hrs]; [lia|]. destruct (Hfill n) as [r Hr]; [lia|].
      exists (rs ++ [r]). rewrite seqZ_S. apply mapM_Some.
      apply Forall2_app; [by apply mapM_Some|]. constructor; [|constructor].
      rewrite Z.add_0_l. eapply read_at_block; [done|lia|by rewrite Nat2Z.id]. }
    destruct (Hn (Z.to_nat (P7_TOPHITS.N h))) as [rs Hrs]; [done|].
    exists rs. by rewrite Z2Nat.id in Hrs by lia. }
  exists b, a, rs. pose proof Hrs as Hrs'. unfold records in Hrs'. rewrite Hu in Hrs'.
  destruct (read_content _ _ _ _ _ Hb Hrs') as [Ha Hlen]. done.
Qed.

(** [p7_tophits_Grow] when there is room, or room can be made *)
Lemma Grow_makes_room o1 o2 h m :
  valid_tophits m h →
  P7_TOPHITS.N h < P7_TOPHITS.Nalloc h ∨
    (2 * P7_TOPHITS.Nalloc h ≤ INT_MAX ∧ o1 ≠ AllocFail ∧ o2 ≠ AllocFail) →
  ∃ g mg,
    p7_tophits_Grow o1 o2 h m = Some (eslOK, g, mg) ∧
    P7_TOPHITS.N g = P7_TOPHITS.N h ∧ P7_TOPHITS.N g < P7_TOPHITS.Nalloc g ∧
    P7_TOPHITS.nreported g = P7_TOPHITS.nreported h ∧
    P7_TOPHITS.is_sorted g = P7_TOPHITS.is_sorted h ∧
    records mg g = records m h ∧
    valid_tophits mg g ∧ (P7_TOPHITS.N h = 0 → g = h ∧ mg = m) ∧
    m_dom mg = m_dom m ∧ m_str mg = m_str m ∧ m_ali mg = m_ali m.
Proof.
  intros Hv Hroom.
  destruct (decide (P7_TOPHITS.N h < P7_TOPHITS.Nalloc h)) as [Hlt|Hge].
  - exists h, m. unfold p7_tophits_Grow. rewrite (proj2 (Z.ltb_lt _ _)) by done.
    split_and!; done.
  - destruct Hroom as [?|(Hmax & Ho1 & Ho2)]; [done|].
    destruct (Grow_full_spec o1 o2 h m Hv ltac:(lia) Hmax Ho1 Ho2)
      as (g & mg & E & HNa & HN & Hnr & Hso & Hrec & _ & Hvg & Hd & Hst & Ha).
    exists g, mg. split_and!; try done.
    + destruct Hv as [? ? _ _ _]. lia.
    + intros Hz. destruct Hv as [? ? _ _ _]. lia.
Qed.

Lemma store_hit_block b a i r m :
  m_hits m !! b = Some a → 0 ≤ i → (Z.to_nat i < length a)%nat →
  store_hit (Ptr b (0 + i)) 0 r m
  = Some (tt, set_hits (<[b := <[Z.to_nat i := Some r]> a]> (m_hits m)) m).
Proof.
  intros Hb Hi Hlt. unfold store_hit, write_at, write_cell.
  rewrite Z.add_0_l, Z.add_0_r. rewrite (proj2 (Z.leb_le 0 i)) by done.
  rewrite Hb. simpl. by rewrite decide_True.
Qed.

Lemma insert_behind {A} (l : list A) (a : list (option A)) x :
  a = (Some <$> l) ++ drop (length l) a → (length l < length a)%nat →
  <[length l := Some x]> a = (Some <$> (l ++ [x])) ++ drop (S (length l)) a.
Proof.
  intros Ha Hlt. remember (drop (length l) a) as rest eqn:E.
  assert (drop (S (length l)) a = drop 1 rest) as ->.
  { rewrite E, drop_drop. f_equal. lia. }
  destruct rest as [|y rest].
  { apply (f_equal length) in E. rewrite length_drop in E. simpl in E. lia. }
  rewrite Ha. rewrite insert_app_r_alt, length_fmap, Nat.sub_diag by (rewrite length_fmap; lia).
  simpl. rewrite fmap_app, <- app_assoc. simpl. by rewrite drop_0.
Qed.

(** X5. On a valid list with room, or whose room can be doubled,
    [p7_tophits_CreateNextHit] returns [eslOK] and the address of the slot
    behind the records the list had. That slot holds the empty record
    (null pointers, zeros, [best_domain] -1), the other records are as
    before and the list holds one record more; the flag stays set only if
    the list was empty. The list is valid afterwards exactly when it was
    not flagged sorted, or it was not empty, or its [hit[0]] held the
    address of the record array: an empty list that is flagged sorted
    keeps its flag, and its ranking is then [hit[0]] as it was found. *)
Theorem CreateNextHit_appends_empty_record o1 o2 h m :
  valid_tophits m h →
  P7_TOPHITS.N h < P7_TOPHITS.Nalloc h ∨
    (2 * P7_TOPHITS.Nalloc h ≤ INT_MAX ∧ o1 ≠ AllocFail ∧ o2 ≠ AllocFail) →
  ∃ p h' m' rs,
    p7_tophits_CreateNextHit o1 o2 h m = Some (eslOK, p, h', m') ∧
    records m h = Some rs ∧
    records m' h' = Some (rs ++ [P7_HIT.empty]) ∧
    ptr_add (P7_TOPHITS.unsrt h') (P7_TOPHITS.N h) = Some p ∧
    read_at (m_hits m') p 0 = Some P7_HIT.empty ∧
    P7_TOPHITS.N h' = P7_TOPHITS.N h + 1 ∧
    P7_TOPHITS.nreported h' = P7_TOPHITS.nreported h ∧
    P7_TOPHITS.is_sorted h'
      = P7_TOPHITS.is_sorted h && bool_decide (P7_TOPHITS.N h = 0) ∧
    (valid_tophits m' h' ↔ (P7_TOPHITS.is_sorted h = true → first_slot m h)) ∧
    m_dom m' = m_dom m ∧ m_str m' = m_str m ∧ m_ali m' = m_ali m.
Proof.
  intros Hv Hroom.
  destruct (Grow_makes_room o1 o2 h m Hv Hroom)
    as (g & mg & Eg & HN & Hlt & Hnr & Hso & Hrec & Hvg & Hfsg & Hd & Hst & Ha).
  destruct (records_defined mg g Hvg) as (b & a & rs & Hu & Hb & Hrs & Hlen & Hlay).
  pose proof Hvg as [HNg HNag (b0 & a0 & Hu0 & Hb0 & Hla & _) (bv & w & Hh & Hbv & Hlw) Hsg].
  rewrite Hu in Hu0. injection Hu0 as <-. rewrite Hb in Hb0. injection Hb0 as <-.
  set (n := P7_TOPHITS.N g) in *.
  assert (wrap_int (n + 1) = n + 1) as Hw.
  { apply wrap_int_id. unfold INT_MAX in *. lia. }
  set (g1 := P7_TOPHITS.set_N (n + 1) g).
  set (h' := if 2 <=? n + 1 then P7_TOPHITS.set_is_sorted false g1 else g1).
  set (a' := <[Z.to_nat n := Some P7_HIT.empty]> a).
  set (m' := set_hits (<[b := a']> (m_hits mg)) mg).
  assert (Hfields : P7_TOPHITS.hit h' = Ptr bv 0 ∧ P7_TOPHITS.unsrt h' = Ptr b 0 ∧
            P7_TOPHITS.N h' = n + 1 ∧ P7_TOPHITS.Nalloc h' = P7_TOPHITS.Nalloc g ∧
            P7_TOPHITS.nreported h' = P7_TOPHITS.nreported g ∧
            P7_TOPHITS.is_sorted h'
            = P7_TOPHITS.is_sorted g && bool_decide (n = 0)).
  { unfold h', g1. destruct (2 <=? n + 1) eqn:E; fields; split_and!; try done.
    - apply Z.leb_le in E. rewrite bool_decide_eq_false_2 by lia. by rewrite andb_false_r.
    - apply Z.leb_gt in E. rewrite bool_decide_eq_true_2 by lia. by rewrite andb_true_r. }
  destruct Hfields as (Hh' & Hu' & HN' & HNa' & Hnr' & Hso').
  assert (a' = (Some <$> (rs ++ [P7_HIT.empty])) ++ drop (S (length rs)) a) as Ha'.
  { unfold a'. rewrite <- Hlen. apply insert_behind; [done|lia]. }
  assert (p7_tophits_CreateNextHit o1 o2 h m = Some (eslOK, Ptr b (0 + n), h', m')) as E.
  { unfold p7_tophits_CreateNextHit. rewrite (bind_eq _ _ _ _ _ Eg). cbv beta iota.
    rewrite Hu. erewrite bind_eq; [|by apply lift_Some]. fold n. rewrite Hw.
    cbn [P7_TOPHITS.N P7_TOPHITS.set_N].
    erewrite bind_eq; [|apply (store_hit_block b a); [done|lia|lia]].
    done. }
  exists (Ptr b (0 + n)), h', m', rs. split; [exact E|].
  assert (records m' h' = Some (rs ++ [P7_HIT.empty])) as Hrs'.
  { unfold records. rewrite Hu', HN'.
    replace (n + 1) with (Z.of_nat (length (rs ++ [P7_HIT.empty])))
      by (rewrite length_app; simpl; lia).
    eapply read_prefix. unfold m'. rewrite m_hits_set_hits, lookup_insert_eq.
    by rewrite Ha'. }
  split_and!; try done; try congruence.
  - rewrite Hu'. simpl. by rewrite <- HN.
  - eapply read_at_written; [|lia|].
    + unfold m'. rewrite m_hits_set_hits, lookup_insert_eq. by rewrite Ha'.
    + rewrite lookup_app_r by lia. by replace (Z.to_nat n - length rs)%nat with 0%nat by lia.
  - rewrite Hso', Hso. by rewrite <- HN.
  - split.
    + intros Hv' Hsh Hz. destruct (Hfsg Hz) as [-> ->].
      assert (P7_TOPHITS.is_sorted h' = true) as Hs'.
      { rewrite Hso', Hsh. unfold n. by rewrite bool_decide_eq_true_2. }
      destruct (vt_sorted _ _ Hv' Hs') as (l & Hl & Hperm & _).
      unfold record_ptrs in Hperm. rewrite Hu', HN' in Hperm.
      unfold n in Hperm. rewrite Hz in Hperm.
      change ((λ i : Z, Ptr b (0 + i)) <$> seqZ 0 (0 + 1)) with [Ptr b 0] in Hperm.
      apply Permutation_singleton_r in Hperm as ->.
      unfold view_ptrs in Hl. rewrite Hh', HN' in Hl. unfold n in Hl. rewrite Hz in Hl.
      change (m_view m') with (m_view m) in Hl.
      change (seqZ 0 (0 + 1)) with [0] in Hl.
      apply mapM_Some in Hl. inversion Hl as [|???? Hr _]; subst.
      by rewrite Hh, Hu.
    + intros Hfs. constructor.
      * lia.
      * by rewrite HNa'.
      * exists b, a'. split_and!; [done| | |].
        -- unfold m'. by rewrite m_hits_set_hits, lookup_insert_eq.
        -- unfold a'. rewrite length_insert, HNa'. done.
        -- intros i Hi. rewrite Ha'.
           destruct (lookup_lt_is_Some_2 (rs ++ [P7_HIT.empty]) i) as [r Hr].
           { rewrite length_app. simpl. lia. }
           exists r. rewrite lookup_app_l by (rewrite length_fmap, length_app; simpl; lia).
           by rewrite list_lookup_fmap, Hr.
      * exists bv, w. split_and!; [done|done|by rewrite HNa'].
      * intros Hsorted. rewrite Hso' in Hsorted.
        apply andb_prop in Hsorted as [Hsg' Hz%bool_decide_eq_true_1].
        assert (P7_TOPHITS.N h = 0) as Hz' by (by rewrite <- HN).
        destruct (Hfsg Hz') as [Eg' Emg]. rewrite Hso in Hsg'.
        specialize (Hfs Hsg' Hz').
        exists [Ptr b 0]. split_and!.
        -- unfold view_ptrs. rewrite Hh', HN', Hz.
           rewrite <- Eg', <- Emg in Hfs. rewrite Hh, Hu in Hfs.
           change (m_view m') with (m_view mg). change (seqZ 0 (0 + 1)) with [0].
           apply mapM_Some. by repeat constructor.
        -- unfold record_ptrs. rewrite Hu', HN', Hz. done.
        -- repeat constructor.
Qed.

(** ** The comparison and the sort *)

Lemma Double_ge_refl a : Double.is_nan a = false → Double.ge a a = true.
Proof.
  unfold Double.ge, Double.is_nan, SFleb, SFcompare.
  destruct a as [[]|[]| |[] ? ?]; simpl; try done; intros _.
  - by rewrite Z.compare_refl, Pos.compare_cont_refl.
  - by rewrite Z.compare_refl, Pos.compare_cont_refl.
Qed.

Lemma Double_gt_not_lt a b : Double.gt a b = true → Double.lt a b = false.
Proof. rewrite Double_gt_lt. apply Double_lt_asym. Qed.

(** X6. [hit_sorter] ranks the record with the greater key first: it is
    negative exactly when the first key is greater, positive exactly when
    it is smaller, and 0 for equal keys and whenever a key is a NaN;
    swapping its arguments changes its sign. *)
Theorem hit_sorter_greater_key_first m p q rp rq :
  read_at (m_hits m) p 0 = Some rp → read_at (m_hits m) q 0 = Some rq →
  (hit_sorter m p q < 0 ↔ Double.gt (P7_HIT.sortkey rp) (P7_HIT.sortkey rq) = true) ∧
  (0 < hit_sorter m p q ↔ Double.lt (P7_HIT.sortkey rp) (P7_HIT.sortkey rq) = true) ∧
  (Double.eq (P7_HIT.sortkey rp) (P7_HIT.sortkey rq) = true → hit_sorter m p q = 0) ∧
  (Double.is_nan (P7_HIT.sortkey rp) = true ∨ Double.is_nan (P7_HIT.sortkey rq) = true →
   hit_sorter m p q = 0) ∧
  hit_sorter m q p = - hit_sorter m p q.
Proof.
  intros Hp Hq. unfold hit_sorter. rewrite Hp, Hq.
  set (a := P7_HIT.sortkey rp). set (b := P7_HIT.sortkey rq).
  rewrite !Double_gt_lt.
  destruct (Double.lt a b) eqn:Eab, (Double.lt b a) eqn:Eba.
  - by rewrite (Double_lt_asym _ _ Eab) in Eba.
  - split_and!; try done; try lia.
    + intros E. apply Double_eq_ge in E as [E _]. apply Double_ge_not_lt in E. congruence.
    + intros [E|E]; revert Eab; clear -E; float_cases2 a b.
  - split_and!; try done; try lia.
    + intros E. apply Double_eq_ge in E as [_ E]. apply Double_ge_not_lt in E. congruence.
    + intros [E|E]; revert Eba; clear -E; float_cases2 a b.
  - split_and!; try done; try lia.
Qed.

(** Keys that go down: the first is the greatest and the last the least. *)
Lemma descending_cons k ks :
  descending (k :: ks) = true →
  descending ks = true ∧ Forall (λ x, Double.ge k x = true) ks.
Proof.
  revert k. induction ks as [|x ks IH]; intros k H; [done|].
  cbn [descending] in H. apply andb_prop in H as [Hkx Hd].
  split; [done|]. constructor; [done|].
  destruct (IH x Hd) as [_ Hall]. eapply Forall_impl; [exact Hall|].
  intros y Hy. by eapply Double_ge_trans.
Qed.

Lemma descending_last ks z :
  descending ks = true → nan_free ks = true → last ks = Some z →
  Forall (λ x, Double.ge x z = true) ks.
Proof.
  induction ks as [|k ks IH]; intros Hd Hn Hl; [done|].
  destruct (descending_cons _ _ Hd) as [Hd' Hall].
  cbn [nan_free forallb] in Hn. apply andb_prop in Hn as [Hk Hn].
  destruct ks as [|x ks].
  - injection Hl as <-. constructor; [|done]. apply Double_ge_refl.
    by apply negb_true_iff.
  - assert (last (x :: ks) = Some z) as Hl' by done.
    pose proof (IH Hd' Hn Hl') as Hz. constructor; [|done].
    inversion Hall as [|?? Hkx _]; subst. inversion Hz as [|?? Hxz _]; subst.
    by eapply Double_ge_trans.
Qed.

Lemma nan_free_perm ks ks' : ks ≡ₚ ks' → nan_free ks = nan_free ks'.
Proof.
  intros Hp. unfold nan_free. apply eq_true_iff_eq.
  rewrite !forallb_forall. setoid_rewrite <- list_elem_of_In.
  split; intros H x Hx; apply H; [by rewrite Hp|by rewrite <- Hp].
Qed.

(** What [p7_tophits_Sort] leaves, on the records themselves *)
Lemma Sort_records qsort m h :
  qsort_contract qsort →
  valid_tophits m h → comparable_keys m h = true →
  ∃ m' rs rsv,
    p7_tophits_Sort qsort h m = Some (eslOK, P7_TOPHITS.set_is_sorted true h, m') ∧
    m_hits m' = m_hits m ∧ valid_tophits m' (P7_TOPHITS.set_is_sorted true h) ∧
    records m h = Some rs ∧
    view_records m' (P7_TOPHITS.set_is_sorted true h) = Some rsv ∧ rsv ≡ₚ rs ∧
    descending (P7_HIT.sortkey <$> rsv) = true ∧
    nan_free (P7_HIT.sortkey <$> rsv) = true.
Proof.
  intros Hq Hv Hc.
  destruct (Sort_spec qsort m h Hq Hv Hc) as (m' & HS & Hh & _ & _ & _ & _ & _ & Hv').
  set (h' := P7_TOPHITS.set_is_sorted true h) in *.
  assert (comparable_keys m' h' = true) as Hc'.
  { unfold comparable_keys, records in *. simpl. by rewrite Hh. }
  destruct (vt_sorted _ _ Hv' eq_refl) as (l & Hl & Hp & Hs).
  destruct (ranked_descending m' h') as (ks & Hks & Hd); [by exists l|done|].
  unfold comparable_keys in Hc. destruct (records m h) as [rs|] eqn:Hrs; [|done].
  assert (records m' h' = Some rs) as Hrs'.
  { unfold records in *. simpl. by rewrite Hh. }
  destruct (record_ptrs_read m' h') as [E|E].
  2:{ destruct Hv' as [_ _ (b & a & Hu & _) _ _]. congruence. }
  rewrite E in Hrs'.
  destruct (mapM_perm _ _ _ _ (symmetry Hp) Hrs') as (rsv & Hrsv & Hperm).
  assert (view_records m' h' = Some rsv) as Hvr.
  { unfold view_records. rewrite Hl. done. }
  assert (ks = P7_HIT.sortkey <$> rsv) as ->.
  { unfold view_keys in Hks. rewrite Hvr in Hks. simpl in Hks. congruence. }
  exists m', rs, rsv. split_and!; try done.
  rewrite (nan_free_perm _ (P7_HIT.sortkey <$> rs)); [done|]. by rewrite Hperm.
Qed.

(** X7. On a valid list with comparable keys, [p7_tophits_Sort] returns
    [eslOK], sets the flag and rewrites the ranking of this list, and
    nothing else: no record, no size, no count and no other array has
    changed, and the list is valid. A list that was marked sorted is left
    exactly as it was. *)
Theorem Sort_touches_only_the_ranking qsort m h :
  qsort_contract qsort →
  valid_tophits m h → comparable_keys m h = true →
  ∃ m', p7_tophits_Sort qsort h m = Some (eslOK, P7_TOPHITS.set_is_sorted true h, m') ∧
    m_hits m' = m_hits m ∧ m_dom m' = m_dom m ∧
    m_str m' = m_str m ∧ m_ali m' = m_ali m ∧
    (∀ c, Some c ≠ block_of (P7_TOPHITS.hit h) → m_view m' !! c = m_view m !! c) ∧
    (P7_TOPHITS.is_sorted h = true → m' = m) ∧
    records m' (P7_TOPHITS.set_is_sorted true h) = records m h ∧
    valid_tophits m' (P7_TOPHITS.set_is_sorted true h).
Proof.
  intros Hq Hv Hc.
  destruct (Sort_spec qsort m h Hq Hv Hc) as (m' & HS & Hh & Hd & Hst & Ha & Hf & Hid & Hv').
  exists m'. split_and!; try done. unfold records. simpl. by rewrite Hh.
Qed.

(** X8. After [p7_tophits_Sort] on a valid list with comparable keys, the
    ranking holds the records of the list, its first record has a key that
    is [>=] the key of every record, and its last record a key that every
    key is [>=]: what the test driver checks with its records "first" and
    "last". *)
Theorem Sort_ranks_best_first qsort m h :
  qsort_contract qsort →
  valid_tophits m h → comparable_keys m h = true →
  ∃ h' m' rs rsv,
    p7_tophits_Sort qsort h m = Some (eslOK, h', m') ∧
    records m h = Some rs ∧ view_records m' h' = Some rsv ∧ rsv ≡ₚ rs ∧
    ∀ top low r, head rsv = Some top → last rsv = Some low → r ∈ rs →
      Double.ge (P7_HIT.sortkey top) (P7_HIT.sortkey r) = true ∧
      Double.ge (P7_HIT.sortkey r) (P7_HIT.sortkey low) = true.
Proof.
  intros Hq Hv Hc.
  destruct (Sort_records qsort m h Hq Hv Hc)
    as (m' & rs & rsv & HS & _ & _ & Hrs & Hrsv & Hperm & Hd & Hn).
  exists (P7_TOPHITS.set_is_sorted true h), m', rs, rsv. split_and!; try done.
  intros top low r Htop Hlow Hr. rewrite <- Hperm in Hr.
  assert (P7_HIT.sortkey r ∈ P7_HIT.sortkey <$> rsv) as Hk
    by (apply list_elem_of_fmap; eauto).
  split.
  - destruct rsv as [|t rsv']; [done|]. injection Htop as ->.
    destruct (descending_cons _ _ Hd) as [_ Hall].
    apply elem_of_cons in Hk as [->|Hk].
    + apply Double_ge_refl. cbn [nan_free forallb fmap list_fmap] in Hn.
      apply andb_prop in Hn as [Hn _]. by apply negb_true_iff.
    + rewrite Forall_forall in Hall. by apply Hall.
  - assert (last (P7_HIT.sortkey <$> rsv) = Some (P7_HIT.sortkey low)) as Hl.
    { by rewrite fmap_last, Hlow. }
    pose proof (descending_last _ _ Hd Hn Hl) as Hall.
    rewrite Forall_forall in Hall. by apply Hall.
Qed.

(** ** The two lists after a merge *)

Lemma comparable_records m h rs :
  records m h = Some rs →
  comparable_keys m h = nan_free (P7_HIT.sortkey <$> rs).
Proof. unfold comparable_keys. by intros ->. Qed.

Lemma nan_free_app ks ks' : nan_free (ks ++ ks') = nan_free ks && nan_free ks'.
Proof. unfold nan_free. apply forallb_app. Qed.

Lemma records_filled m h b a rs :
  P7_TOPHITS.unsrt h = Ptr b 0 → m_hits m !! b = Some a → records m h = Some rs →
  ∀ i, (i < Z.to_nat (P7_TOPHITS.N h))%nat → ∃ r, a !! i = Some (Some r).
Proof.
  intros Hu Hb Hrs i Hi. unfold records in Hrs. rewrite Hu in Hrs.
  destruct (read_content _ _ _ _ _ Hb Hrs) as [Ha Hlen].
  destruct (lookup_lt_is_Some_2 rs i) as [r Hr]; [lia|].
  exists r. rewrite Ha, lookup_app_l by (rewrite length_fmap; lia).
  by rewrite list_lookup_fmap, Hr.
Qed.

(** X9. After a successful merge of two valid lists with comparable keys,
    the recipient is a valid, sorted list with the room of both and the
    records of both, and its count [nreported] is the one it had: the
    donor's count is not added. The donor is still a valid list of its own
    records, in its own two arrays. The recipient's former ranking array
    is released. *)
Theorem Merge_leaves_valid_lists qsort o1 o2 m h1 h2 :
  qsort_contract qsort →
  valid_tophits m h1 → valid_tophits m h2 → separate h1 h2 →
  comparable_keys m h1 = true → comparable_keys m h2 = true →
  o1 ≠ AllocFail → o2 ≠ AllocFail →
  P7_TOPHITS.Nalloc h1 + P7_TOPHITS.Nalloc h2 ≤ INT_MAX →
  ∃ h1' m',
    p7_tophits_Merge qsort o1 o2 h1 h2 m
      = Some (eslOK, h1', P7_TOPHITS.set_is_sorted true h2, m') ∧
    P7_TOPHITS.Nalloc h1' = P7_TOPHITS.Nalloc h1 + P7_TOPHITS.Nalloc h2 ∧
    P7_TOPHITS.N h1' = P7_TOPHITS.N h1 + P7_TOPHITS.N h2 ∧
    P7_TOPHITS.nreported h1' = P7_TOPHITS.nreported h1 ∧
    P7_TOPHITS.is_sorted h1' = true ∧
    valid_tophits m' h1' ∧ comparable_keys m' h1' = true ∧
    valid_tophits m' (P7_TOPHITS.set_is_sorted true h2) ∧
    comparable_keys m' (P7_TOPHITS.set_is_sorted true h2) = true ∧
    separate h1' (P7_TOPHITS.set_is_sorted true h2) ∧
    (∀ bv, P7_TOPHITS.hit h1 = Ptr bv 0 → m_view m' !! bv = None).
Proof.
  intros Hq Hv1 Hv2 Hsep Hc1 Hc2 Ho1 Ho2 Hsum.
  destruct (Merge_ok_full qsort o1 o2 m h1 h2 Hq Hv1 Hv2 Hsep Hc1 Hc2 Ho1 Ho2 Hsum)
    as (m' & bn & b' & rs1 & rs2 & l1 & l2 & HM & Hrs1 & Hrs2 & Hrec & Hrec2 & Hview
        & Hp1 & Hp2 & Hs1 & Hs2 & Hgood & _ & _ & _
        & m2 & l1o & l2o & a' & w' & bv1 & bv2 & b2 & a2' & _ & _ & _ & _ & _ & _ & _ & _
        & Hb' & Hla' & Hbn & Hlw' & Hh1 & Hfree & Hh2 & _ & Hu2 & _ & _ & Hb'2 & Hbn2 & Hv2').
  cbv zeta in *.
  set (h1' := P7_TOPHITS.mk (Ptr bn 0) (Ptr b' 0) _ _ _ true) in *.
  pose proof (vt_N _ _ Hv1) as HN1. pose proof (vt_N _ _ Hv2) as HN2.
  pose proof (vt_Nalloc _ _ Hv1) as HNa1. pose proof (vt_Nalloc _ _ Hv2) as HNa2.
  assert (nan_free (P7_HIT.sortkey <$> rs1) = true) as Hn1
    by by rewrite <- (comparable_records _ _ _ Hrs1).
  assert (nan_free (P7_HIT.sortkey <$> rs2) = true) as Hn2
    by by rewrite <- (comparable_records _ _ _ Hrs2).
  exists h1', m'. split; [exact HM|]. split_and!; try done.
  - constructor; simpl; try lia.
    + exists b', a'. split_and!; [done|done|lia|].
      by apply (records_filled m' h1' b' a' (rs1 ++ rs2)).
    + exists bn, w'. split_and!; [done|done|lia].
    + intros _. exists (merge_by (key_of m') l1 l2). split_and!; [done| |].
      * rewrite merge_by_perm, Hp1, Hp2. unfold record_ptrs, h1'. simpl.
        by rewrite record_ptrs_app by lia.
      * eapply Sorted_impl_in.
        2:{ apply merge_by_sorted; [|exact Hs1|exact Hs2].
            intros p Hp. by apply good_ptr_key, Hgood. }
        intros p q Hp Hpq Hge. cbv beta in Hge.
        destruct (Hgood p) as (rp & Hrp & Hnp); [by rewrite <- merge_by_perm|].
        destruct (Hgood q) as (rq & Hrq & Hnq); [by rewrite <- merge_by_perm|].
        rewrite (key_of_read _ _ _ Hrp), (key_of_read _ _ _ Hrq) in Hge.
        by apply (hit_sorter_ge m' p q rp rq).
  - rewrite (comparable_records _ _ _ Hrec), fmap_app, nan_free_app.
    by rewrite Hn1, Hn2.
  - rewrite (comparable_records _ _ _ Hrec2), <- list_fmap_compose.
    erewrite list_fmap_ext; [exact Hn2|]. by intros i [].
  - split; simpl; rewrite ?Hu2, ?Hh2; simpl; congruence.
  - intros bv Hbv. rewrite Hh1 in Hbv. by injection Hbv as <-.
Qed.

(** The records behind a merged ranking *)
Lemma merge_records_cons a l1 b l2 :
  merge_records (a :: l1) (b :: l2)
  = if Double.gt (P7_HIT.sortkey b) (P7_HIT.sortkey a)
    then b :: merge_records (a :: l1) l2
    else a :: merge_records l1 (b :: l2).
Proof. done. Qed.

Lemma merge_records_nil_r l1 : merge_records l1 [] = l1.
Proof. by destruct l1. Qed.

Lemma merge_by_records m l1 rv1 :
  Forall2 (λ p r, read_at (m_hits m) p 0 = Some r) l1 rv1 →
  ∀ l2 rv2, Forall2 (λ p r, read_at (m_hits m) p 0 = Some r) l2 rv2 →
  Forall2 (λ p r, read_at (m_hits m) p 0 = Some r)
    (merge_by (key_of m) l1 l2) (merge_records rv1 rv2).
Proof.
  induction 1 as [|p r l1 rv1 Hp H1 IH1]; intros l2 rv2 H2.
  - destruct H2; simpl; [constructor|by constructor].
  - induction H2 as [|q s l2 rv2 Hq H2 IH2].
    + rewrite merge_by_nil_r, merge_records_nil_r. by constructor.
    + rewrite merge_by_cons, merge_records_cons.
      rewrite (key_of_read _ _ _ Hp), (key_of_read _ _ _ Hq).
      destruct (Double.gt _ _); constructor; try done.
      apply IH1. by constructor.
Qed.

(** X10. When both lists are already sorted, the ranking that a successful
    merge leaves is the merge of the two rankings as they were: it takes
    the donor's next record when its key is greater and the recipient's
    otherwise, so each ranking keeps its own order inside the result. With
    an empty donor the result is the recipient's ranking, with an empty
    recipient the donor's. *)
Theorem Merge_is_the_stable_merge qsort o1 o2 m h1 h2 :
  qsort_contract qsort →
  valid_tophits m h1 → valid_tophits m h2 → separate h1 h2 →
  comparable_keys m h1 = true → comparable_keys m h2 = true →
  o1 ≠ AllocFail → o2 ≠ AllocFail →
  P7_TOPHITS.Nalloc h1 + P7_TOPHITS.Nalloc h2 ≤ INT_MAX →
  P7_TOPHITS.is_sorted h1 = true → P7_TOPHITS.is_sorted h2 = true →
  ∃ h1' h2' m' rv1 rv2,
    p7_tophits_Merge qsort o1 o2 h1 h2 m = Some (eslOK, h1', h2', m') ∧
    view_records m h1 = Some rv1 ∧ view_records m h2 = Some rv2 ∧
    view_records m' h1' = Some (merge_records rv1 rv2) ∧
    (P7_TOPHITS.N h2 = 0 → view_records m' h1' = Some rv1) ∧
    (P7_TOPHITS.N h1 = 0 → view_records m' h1' = Some rv2).
Proof.
  intros Hq Hv1 Hv2 Hsep Hc1 Hc2 Ho1 Ho2 Hsum Hso1 Hso2.
  destruct (Merge_ok_full qsort o1 o2 m h1 h2 Hq Hv1 Hv2 Hsep Hc1 Hc2 Ho1 Ho2 Hsum)
    as (m' & bn & b' & rs1 & rs2 & l1 & l2 & HM & _ & _ & _ & _ & Hview
        & _ & _ & _ & _ & _ & _ & _ & _
        & m2 & l1o & l2o & a' & w' & bv1 & bv2 & b2 & a2' & Hsame & _ & Hl1o & Hl2o
        & Hl1 & Hl2 & Hread1 & Hread2 & _).
  cbv zeta in *. rewrite (Hsame Hso1 Hso2) in *.
  set (h1' := P7_TOPHITS.mk (Ptr bn 0) (Ptr b' 0) _ _ _ true) in *.
  assert (Hdef : ∀ l, (∀ p, p ∈ l → is_Some (read_at (m_hits m) p 0)) →
            ∃ rv, mapM (λ p, read_at (m_hits m) p 0) l = Some rv).
  { induction l as [|p l IH]; intros Hl; [by exists []|].
    destruct (Hl p) as [r Hr]; [by left|].
    destruct IH as [rv Hrv]; [intros q Hin; apply Hl; by right|].
    exists (r :: rv). apply mapM_Some. constructor; [done|by apply mapM_Some]. }
  destruct (Hdef l1o) as [rv1 Hrv1]; [intros p Hp; by apply Hread1|].
  destruct (Hdef l2o) as [rv2 Hrv2]; [intros p Hp; by apply Hread2|].
  assert (Forall2 (λ p r, read_at (m_hits m') p 0 = Some r) l1 rv1) as H1.
  { rewrite Hl1. apply Forall2_fmap_l. apply mapM_Some in Hrv1.
    eapply Forall2_impl_in; [exact Hrv1|]. intros p r Hp Hr.
    exact (eq_trans (proj1 (Hread1 p Hp)) Hr). }
  assert (Forall2 (λ p r, read_at (m_hits m') p 0 = Some r) l2 rv2) as H2.
  { rewrite Hl2. apply Forall2_fmap_l. apply mapM_Some in Hrv2.
    eapply Forall2_impl_in; [exact Hrv2|]. intros p r Hp Hr.
    exact (eq_trans (proj1 (Hread2 p Hp)) Hr). }
  assert (view_records m' h1' = Some (merge_records rv1 rv2)) as Hmerged.
  { unfold view_records. rewrite Hview. simpl. apply mapM_Some.
    by apply merge_by_records. }
  exists h1', (P7_TOPHITS.set_is_sorted true h2), m', rv1, rv2.
  split_and!; try done.
  - unfold view_records. rewrite Hl1o. exact Hrv1.
  - unfold view_records. rewrite Hl2o. exact Hrv2.
  - intros Hz. rewrite Hmerged. f_equal.
    assert (rv2 = []) as ->; [|apply merge_records_nil_r].
    apply mapM_Some, Forall2_length in Hrv2.
    unfold view_ptrs in Hl2o. apply mapM_Some, Forall2_length in Hl2o.
    rewrite length_seqZ, Hz in Hl2o. destruct rv2; [done|simpl in *; lia].
  - intros Hz. rewrite Hmerged. f_equal.
    assert (rv1 = []) as ->; [|by destruct rv2].
    apply mapM_Some, Forall2_length in Hrv1.
    unfold view_ptrs in Hl1o. apply mapM_Some, Forall2_length in Hl1o.
    rewrite length_seqZ, Hz in Hl1o. destruct rv1; [done|simpl in *; lia].
Qed.

(** ** Thresholding keeps the arrays *)

Lemma same_shape_refl m : same_shape m m.
Proof. done. Qed.

Lemma same_shape_trans m1 m2 m3 :
  same_shape m1 m2 → same_shape m2 m3 → same_shape m1 m3.
Proof. intros H1 H2 b. by rewrite H1. Qed.

Lemma keeps_ret {A} (a : A) : keeps_shape (ret a).
Proof. intros m a' m' H. apply ret_Some in H. by simplify_eq. Qed.

Lemma keeps_bind {A B} (c : M A) (k : A → M B) :
  keeps_shape c → (∀ a, keeps_shape (k a)) → keeps_shape (c ≫= k).
Proof.
  intros Hc Hk m b m' H. bind_split H.
  eapply same_shape_trans; [by eapply Hc|by eapply Hk].
Qed.

Lemma keeps_for_each l body :
  (∀ i, keeps_shape (body i)) → keeps_shape (for_each l body).
Proof.
  intros Hb. induction l as [|i l IH]; [apply keeps_ret|].
  cbn [for_each]. apply keeps_bind; [apply Hb|by intros _].
Qed.

Lemma keeps_for_loop lo hi body :
  (∀ i, keeps_shape (body i)) → keeps_shape (for_loop lo hi body).
Proof. apply keeps_for_each. Qed.

Lemma keeps_for_fold {S} l (body : Z → S → M S) s :
  (∀ i s, keeps_shape (body i s)) → keeps_shape (for_fold l body s).
Proof.
  intros Hb. revert s. induction l as [|i l IH]; intros s; [apply keeps_ret|].
  cbn [for_fold]. apply keeps_bind; [apply Hb|done].
Qed.

Lemma keeps_load_view p i : keeps_shape (load_view p i).
Proof.
  intros m a m' H. unfold load_view in H.
  destruct (read_at _ _ _); [|done]. by simplify_eq/=.
Qed.

Lemma keeps_load_hit p i : keeps_shape (load_hit p i).
Proof.
  intros m a m' H. unfold load_hit in H.
  destruct (read_at _ _ _); [|done]. by simplify_eq/=.
Qed.

Lemma keeps_load_dom p i : keeps_shape (load_dom p i).
Proof.
  intros m a m' H. unfold load_dom in H.
  destruct (read_dom _ _ _); [|done]. by simplify_eq/=.
Qed.

Lemma keeps_store_hit p i r : keeps_shape (store_hit p i r).
Proof.
  intros m a m' H. unfold store_hit, write_at, write_cell in H.
  destruct p as [|b o]; [done|]. destruct (0 <=? o + i); [|done].
  destruct (m_hits m !! b) as [l|] eqn:Hb; [|done]. simpl in H.
  destruct (decide _); [|done]. simpl in H. injection H as _ <-.
  intros b'. rewrite m_hits_set_hits. destruct (decide (b' = b)) as [->|Hne].
  - rewrite lookup_insert_eq, Hb. simpl. by rewrite length_insert.
  - by rewrite lookup_insert_ne.
Qed.

Lemma keeps_modify_hit p i f : keeps_shape (modify_hit p i f).
Proof.
  apply keeps_bind; [apply keeps_load_hit|]. intros r. apply keeps_store_hit.
Qed.

Lemma keeps_modify_dom p i f : keeps_shape (modify_dom p i f).
Proof.
  intros m a m' H. unfold modify_dom in H. bind_split H.
  unfold load_dom in E. destruct (read_dom _ _ _); [|done]. simplify_eq/=.
  unfold store_dom in H. destruct (write_dom _ _ _ _); [|done]. by simplify_eq/=.
Qed.

Ltac shape := repeat first
  [ apply keeps_ret | apply keeps_load_view | apply keeps_load_hit
  | apply keeps_load_dom | apply keeps_modify_hit | apply keeps_modify_dom
  | apply keeps_for_fold; intros | apply keeps_for_loop; intros
  | apply keeps_bind; [|intros]
  | match goal with |- keeps_shape (if ?b then _ else _) => destruct b end ].

(** A block that answers every read of its first cells has them filled. *)
Lemma filled_of_read (s : gmap block (list (option P7_HIT.t))) b a (i : nat) r :
  s !! b = Some a → read_at s (Ptr b (0 + Z.of_nat i)) 0 = Some r →
  a !! i = Some (Some r).
Proof.
  intros Hb Hr. rewrite read_at_cell in Hr. unfold cell_at in Hr.
  rewrite Hb in Hr. destruct (0 <=? _); [|done]. simpl in Hr.
  replace (Z.to_nat (0 + Z.of_nat i + 0)) with i in Hr by lia.
  destruct (a !! i) as [[r'|]|]; simpl in Hr; by simplify_eq.
Qed.

Section ThresholdMore.
Variable TargetReportable : P7_PIPELINE.t → spec_float → spec_float → bool.
Variable DomainReportable : P7_PIPELINE.t → spec_float → spec_float → bool.

Lemma Threshold_keeps_shape th pli :
  keeps_shape (p7_tophits_Threshold TargetReportable DomainReportable th pli).
Proof. unfold p7_tophits_Threshold. cbv zeta. shape. Qed.

(** What a call that ran has done to a record of the ranking *)
Lemma Threshold_on_record th pli m st th' pli' m' ps q r :
  view_ptrs m th = Some ps → NoDup ps →
  p7_tophits_Threshold TargetReportable DomainReportable th pli m
    = Some (st, th', pli', m') →
  q ∈ ps → read_at (m_hits m) q 0 = Some r →
  ∃ r', read_at (m_hits m') q 0 = Some r' ∧ same_payload r r' ∧
    P7_HIT.is_reported r'
      = P7_HIT.is_reported r || TargetReportable pli (P7_HIT.score r) (P7_HIT.pvalue r) ∧
    (P7_HIT.is_reported r' = false → r' = r).
Proof.
  intros Hps Hnd H Hq Hr.
  destruct (Threshold_spec _ _ _ _ _ _ _ _ _ ps Hps Hnd H)
    as (rs & m1 & _ & _ & _ & _ & _ & _ & _ & _ & _ & _ & Hin).
  destruct (Hin q Hq) as (r0 & Hr0 & _ & Hat).
  rewrite Hr in Hr0. injection Hr0 as <-.
  unfold second_pass_at, first_pass_on in Hat.
  destruct (TargetReportable pli _ _) eqn:Et; simpl in Hat.
  - destruct Hat as (bs & _ & Hr' & _). eexists. split; [exact Hr'|].
    rewrite orb_true_r. by destruct r.
  - rewrite orb_false_r. destruct (P7_HIT.is_reported r) eqn:Hrep.
    + destruct Hat as (bs & _ & Hr' & _). eexists. split; [exact Hr'|].
      destruct r; simpl in *. by subst.
    + exists r. by rewrite Hrep.
Qed.

(** X11. On a valid, sorted list whose records have their domains,
    [p7_tophits_Threshold] returns [eslOK] and sets the list's
    [nreported] to the number of records of the ranking that the target
    predicate accepts, whatever the count was before; no other field of
    the list changes. The pipeline's [domZ] becomes that number when
    [domZ_setby] is [p7_ZSETBY_NTARGETS], and the pipeline is left as it
    was otherwise. *)
Theorem Threshold_counts_reportable_hits th pli m :
  valid_tophits m th → P7_TOPHITS.is_sorted th = true →
  domains_readable m (record_ptrs th) →
  ∃ th' pli' m' rs,
    p7_tophits_Threshold TargetReportable DomainReportable th pli m
      = Some (eslOK, th', pli', m') ∧
    view_records m th = Some rs ∧
    th' = P7_TOPHITS.set_nreported
            (count_true ((λ r, TargetReportable pli (P7_HIT.score r) (P7_HIT.pvalue r))
                           <$> rs)) th ∧
    pli' = (if decide (P7_PIPELINE.domZ_setby pli = p7_ZSETBY_NTARGETS)
            then P7_PIPELINE.set_domZ (Double.of_int (P7_TOPHITS.nreported th')) pli
            else pli).
Proof.
  intros Hv Hs Hdr.
  destruct (ranked_NoDup _ _ (vt_sorted _ _ Hv Hs)) as (ps & Hps & Hnd & Hperm).
  destruct (Threshold_defined TargetReportable DomainReportable th pli m ps Hps Hnd)
    as (th' & pli' & m' & H).
  { eapply domains_readable_perm; [symmetry; exact Hperm|done]. }
  destruct (Threshold_spec _ _ _ _ _ _ _ _ _ ps Hps Hnd H)
    as (rs & m1 & Hrs & _ & Eth & Epli & _).
  exists th', pli', m', rs. split; [done|].
  assert (length rs = Z.to_nat (P7_TOPHITS.N th)) as Hlen.
  { rewrite <- (Forall2_length _ _ _ Hrs).
    unfold view_ptrs in Hps. apply mapM_Some, Forall2_length in Hps.
    by rewrite <- Hps, length_seqZ. }
  pose proof (vt_N _ _ Hv). pose proof (vt_Nalloc _ _ Hv).
  rewrite bump_count in Eth by (rewrite ?length_fmap; lia). rewrite Z.add_0_l in Eth.
  split_and!; [|done|done].
  unfold view_records. rewrite Hps. simpl. by apply mapM_Some.
Qed.

(** X12. On a valid, sorted list whose records have their domains,
    [p7_tophits_Threshold] changes nothing but marks, and only raises them:
    the ranking array, the strings and the alignments are as before, a
    record outside the list is as before, a record of the list differs
    at most in [is_reported] and [nreported], its flag is set when the
    target predicate accepts it and is never cleared, and the domains
    differ at most in flags that were raised. The list is still valid. *)
Theorem Threshold_only_raises_marks th pli m :
  valid_tophits m th → P7_TOPHITS.is_sorted th = true →
  domains_readable m (record_ptrs th) →
  ∃ th' pli' m',
    p7_tophits_Threshold TargetReportable DomainReportable th pli m
      = Some (eslOK, th', pli', m') ∧
    m_view m' = m_view m ∧ m_str m' = m_str m ∧ m_ali m' = m_ali m ∧
    dom_ext m m' ∧
    (∀ q, q ∉ record_ptrs th → read_at (m_hits m') q 0 = read_at (m_hits m) q 0) ∧
    (∀ q r, q ∈ record_ptrs th → read_at (m_hits m) q 0 = Some r →
       ∃ r', read_at (m_hits m') q 0 = Some r' ∧ same_payload r r' ∧
         P7_HIT.is_reported r'
           = P7_HIT.is_reported r
             || TargetReportable pli (P7_HIT.score r) (P7_HIT.pvalue r) ∧
         (P7_HIT.is_reported r' = false → r' = r)) ∧
    valid_tophits m' th'.
Proof.
  intros Hv Hs Hdr.
  destruct (ranked_NoDup _ _ (vt_sorted _ _ Hv Hs)) as (ps & Hps & Hnd & Hperm).
  assert (domains_readable m ps) as Hdr'
    by (eapply domains_readable_perm; [symmetry; exact Hperm|done]).
  destruct (Threshold_defined TargetReportable DomainReportable th pli m ps Hps Hnd Hdr')
    as (th' & pli' & m' & H).
  pose proof (Threshold_keeps_shape _ _ _ _ _ H) as Hshape.
  pose proof (λ q r, Threshold_on_record _ _ _ _ _ _ _ ps q r Hps Hnd H) as Hrec.
  destruct (Threshold_spec _ _ _ _ _ _ _ _ _ ps Hps Hnd H)
    as (rs & m1 & Hrs & _ & Eth & _ & Hview & Hstr & Hali & Hdom1 & Hext & Hout & _).
  assert (∀ q, q ∈ ps → ∃ r r', read_at (m_hits m) q 0 = Some r ∧
            read_at (m_hits m') q 0 = Some r' ∧ P7_HIT.sortkey r' = P7_HIT.sortkey r)
    as Hkeys.
  { intros q Hq. destruct (Hdr' q Hq) as (r & Hr & _).
    destruct (Hrec q r Hq Hr) as (r' & Hr' & Hsame & _).
    exists r, r'. split_and!; [done..|].
    unfold same_payload in Hsame. destruct r, r'. simpl in *. by simplify_eq. }
  exists th', pli', m'. split_and!; try done.
  - eapply dom_ext_trans; [apply dom_ext_same; exact Hdom1|exact Hext].
  - intros q Hq. apply Hout. by rewrite Hperm.
  - intros q r Hq. apply Hrec. by rewrite Hperm.
  - destruct (vt_unsrt _ _ Hv) as (b & a & Hu & Hb & Hla & Hfill).
    destruct (vt_hit _ _ Hv) as (bv & w & Hh & Hbv & Hlw).
    pose proof (vt_N _ _ Hv). pose proof (vt_Nalloc _ _ Hv).
    pose proof (Hshape b) as Hsb. rewrite Hb in Hsb. simpl in Hsb.
    destruct (m_hits m' !! b) as [a'|] eqn:Hb'; [|done]. injection Hsb as Hsb.
    rewrite Eth. constructor; simpl; try done.
    + exists b, a'. split_and!; [done|done|lia|]. intros i Hi.
      destruct (Hfill i Hi) as [r Hr].
      assert (read_at (m_hits m) (Ptr b (0 + Z.of_nat i)) 0 = Some r) as Hread.
      { rewrite read_at_cell. unfold cell_at. rewrite Hb.
        destruct (0 <=? _) eqn:E; [|lia]. simpl.
        replace (Z.to_nat (0 + Z.of_nat i + 0)) with i by lia. by rewrite Hr. }
      destruct (decide (Ptr b (0 + Z.of_nat i) ∈ ps)) as [Hin|Hnin].
      * destruct (Hrec _ r Hin Hread) as (r' & Hr' & _). exists r'.
        by apply (filled_of_read (m_hits m') b).
      * exists r. apply (filled_of_read (m_hits m') b); [done|].
        by rewrite Hout.
    + exists bv, w. by rewrite Hview.
    + intros _. exists ps. split_and!.
      * unfold view_ptrs in *. simpl. by rewrite Hview.
      * done.
      * destruct (vt_sorted _ _ Hv Hs) as (ps0 & Hps0 & _ & Hsorted).
        assert (ps0 = ps) as -> by congruence.
        eapply Sorted_impl_in; [|exact Hsorted].
        intros p q Hp Hq Hle. cbv beta in *.
        destruct (Hkeys p Hp) as (rp & rp' & Hrp & Hrp' & Ep).
        destruct (Hkeys q Hq) as (rq & rq' & Hrq & Hrq' & Eq).
        apply (hit_sorter_le _ _ _ _ _ Hrp' Hrq'). rewrite Ep, Eq.
        by apply (hit_sorter_le _ _ _ _ _ Hrp Hrq).
Qed.
End ThresholdMore.

(** ** The longest name *)

Lemma strlen_name_length m r n :
  name_length m r = Some n → strlen (P7_HIT.name r) m = Some (n, m).
Proof.
  unfold name_length, strlen. destruct (P7_HIT.name r) as [|b o]; [done|].
  destruct (m_str m !! b) as [s|]; [|done]. simpl.
  destruct (decide _); [|done]. by intros [= <-].
Qed.

Lemma name_length_null m r : P7_HIT.name r = NULL → name_length m r = None.
Proof. unfold name_length. by intros ->. Qed.

Lemma name_length_nonneg m r n : name_length m r = Some n → 0 ≤ n.
Proof.
  unfold name_length. destruct (P7_HIT.name r) as [|b o]; [done|].
  destruct (m_str m !! b) as [s|]; [|done]. simpl.
  destruct (decide _); [|done]. intros [= <-]. lia.
Qed.

Lemma max_name_loop m p : ∀ ixs rs acc,
  Forall2 (λ i r, read_at (m_hits m) p i = Some r) ixs rs →
  (∀ r, r ∈ rs → P7_HIT.name r = NULL ∨
                 ∃ n, name_length m r = Some n ∧ n ≤ INT_MAX) →
  ∃ mx,
    for_fold ixs (λ i max,
      r ← load_hit p i;
      if is_null (P7_HIT.name r) then ret max
      else n ← strlen (P7_HIT.name r); let n := wrap_int n in ret (ESL_MAX n max))
      acc m = Some (mx, m) ∧
    acc ≤ mx ∧
    (∀ r n, r ∈ rs → name_length m r = Some n → n ≤ mx) ∧
    (mx = acc ∨ ∃ r, r ∈ rs ∧ name_length m r = Some mx).
Proof.
  intros ixs rs acc H. revert acc.
  induction H as [|i r ixs rs Hr _ IH]; intros acc Hnames.
  - exists acc. split_and!; [done|lia| |by left].
    intros r n Hin. by apply elem_of_nil in Hin.
  - cbn [for_fold].
    assert (∃ acc', (r0 ← load_hit p i;
               if is_null (P7_HIT.name r0) then ret acc
               else n ← strlen (P7_HIT.name r0);
                    let n := wrap_int n in ret (ESL_MAX n acc)) m = Some (acc', m) ∧
             acc ≤ acc' ∧ (∀ n, name_length m r = Some n → n ≤ acc') ∧
             (acc' = acc ∨ name_length m r = Some acc')) as (acc' & E & Hle & Hub & Hwit).
    { erewrite bind_eq; [|unfold load_hit; by rewrite Hr].
      destruct (Hnames r) as [Hnull|(n & Hn & Hmax)]; [by left| |].
      - rewrite Hnull. simpl. exists acc. split_and!; [done|lia| |by left].
        intros n. by rewrite (name_length_null _ _ Hnull).
      - assert (is_null (P7_HIT.name r) = false) as ->.
        { unfold name_length in Hn. by destruct (P7_HIT.name r). }
        erewrite bind_eq; [|by apply strlen_name_length].
        pose proof (name_length_nonneg _ _ _ Hn). cbv zeta.
        rewrite wrap_int_id by (unfold INT_MAX in *; lia).
        exists (ESL_MAX n acc). unfold ESL_MAX.
        destruct (acc <? n) eqn:E; [apply Z.ltb_lt in E|apply Z.ltb_ge in E].
        + split_and!; [done|lia| |by right]. intros n' Hn'. simplify_eq. lia.
        + split_and!; [done|lia| |by left]. intros n' Hn'. simplify_eq. lia. }
    erewrite bind_eq; [|exact E].
    destruct (IH acc') as (mx & Hrun & Hle' & Hub' & Hwit').
    { intros r' Hr'. apply Hnames. by right. }
    exists mx. split_and!; [done|lia| |].
    + intros r' n [->|Hin]%elem_of_cons Hn; [|by eapply Hub'].
      specialize (Hub n Hn). lia.
    + destruct Hwit' as [->|(r' & Hin & Hr')].
      * destruct Hwit as [->|Hw]; [by left|]. right. exists r. split; [by left|done].
      * right. exists r'. split; [by right|done].
Qed.

(** X13. On a list whose records can be read and whose names are null or
    strings of at most [INT_MAX] characters, [p7_tophits_GetMaxNameLength]
    changes nothing and returns the greatest length of a name among all
    the records of the array, ranked or not: no name is longer, and
    the result is the length of one of the names, or 0 when the list is
    empty or no record has a name. *)
Theorem GetMaxNameLength_is_the_maximum h m rs :
  records m h = Some rs →
  (∀ r, r ∈ rs → P7_HIT.name r = NULL ∨
                 ∃ n, name_length m r = Some n ∧ n ≤ INT_MAX) →
  ∃ mx,
    p7_tophits_GetMaxNameLength h m = Some (mx, m) ∧
    (∀ r n, r ∈ rs → name_length m r = Some n → n ≤ mx) ∧
    (mx = 0 ∨ ∃ r, r ∈ rs ∧ name_length m r = Some mx) ∧
    ((∀ r, r ∈ rs → P7_HIT.name r = NULL) → mx = 0).
Proof.
  intros Hrs Hnames. unfold records in Hrs. apply mapM_Some in Hrs.
  destruct (max_name_loop m (P7_TOPHITS.unsrt h) _ rs 0 Hrs Hnames)
    as (mx & Hrun & _ & Hub & Hwit).
  exists mx. split_and!; try done.
  intros Hnone. destruct Hwit as [->|(r & Hin & Hr)]; [done|].
  by rewrite (name_length_null _ _ (Hnone r Hin)) in Hr.
Qed.

(** ** Releasing what the records own *)

Lemma mapM_app_inv {A B} (f : A → option B) l1 l2 k :
  mapM f (l1 ++ l2) = Some k →
  ∃ k1 k2, mapM f l1 = Some k1 ∧ mapM f l2 = Some k2 ∧ k = k1 ++ k2.
Proof.
  intros H. apply mapM_Some, Forall2_app_inv_l in H as (k1 & k2 & H1 & H2 & ->).
  exists k1, k2. by rewrite !mapM_Some.
Qed.

Lemma lookup_deleted {V} (s : gmap block V) l b :
  b ∉ l → foldl (λ s b, delete b s) s l !! b = s !! b.
Proof.
  revert s. induction l as [|x l IH]; intros s Hb; [done|].
  apply not_elem_of_cons in Hb as [Hne Hb]. simpl.
  rewrite IH by done. by apply lookup_delete_ne.
Qed.

Lemma ali_none (X : gset block) : X ∖ list_to_set [] = X.
Proof. apply difference_empty_L. Qed.

Lemma ali_one (X : gset block) b : X ∖ list_to_set [b] = X ∖ {[b]}.
Proof. simpl. by rewrite (right_id_L ∅ (∪)). Qed.

Lemma release_nil m : release [] [] [] m = m.
Proof.
  unfold release. destruct m. simpl. f_equal. apply ali_none.
Qed.

Lemma release_app sb sb' db db' ab ab' m :
  release sb' db' ab' (release sb db ab m) = release (sb ++ sb') (db ++ db') (ab ++ ab') m.
Proof.
  unfold release. simpl. rewrite !foldl_app. f_equal.
  by rewrite list_to_set_app_L, difference_difference_l_L.
Qed.

Lemma non_null_cons p ps : non_null (p :: ps) = non_null [p] ++ non_null ps.
Proof. unfold non_null. by rewrite <- filter_app. Qed.

Lemma non_null_one p l :
  mapM block_start (non_null [p]) = Some l →
  (p = NULL ∧ l = []) ∨ ∃ b, p = Ptr b 0 ∧ l = [b].
Proof.
  destruct p as [|b o].
  - intros [= <-]. by left.
  - unfold non_null. rewrite filter_cons_True by done. simpl.
    destruct (decide (o = 0)) as [->|]; [|done]. intros [= <-]. right. by exists b.
Qed.

(** One [if (p != NULL) free(p)] on a string *)
Lemma free_one_string p l m :
  mapM block_start (non_null [p]) = Some l →
  (∀ b, b ∈ l → is_Some (m_str m !! b)) →
  (if is_null p then ret tt else free_str p) m = Some (tt, release l [] [] m).
Proof.
  intros Hl Hlive. apply non_null_one in Hl as [[-> ->]|(b & -> & ->)].
  - by rewrite release_nil.
  - cbn [is_null]. unfold free_str. rewrite decide_True by done.
    destruct (Hlive b) as [s Hs]; [by left|]. rewrite Hs. simpl.
    unfold release, set_str. simpl. f_equal. f_equal. f_equal. symmetry. apply ali_none.
Qed.

(** The loop over the domains of one array *)
Lemma display_loop dcl : ∀ js ds m ab,
  Forall2 (λ j d, read_dom (m_dom m) dcl j = Some d) js ds →
  mapM block_start (non_null (P7_DOMAIN.ad <$> ds)) = Some ab →
  NoDup ab → (∀ b, b ∈ ab → b ∈ m_ali m) →
  for_each js (λ j,
    d ← load_dom dcl j;
    if is_null (P7_DOMAIN.ad d) then ret tt
    else p7_alidisplay_Destroy (P7_DOMAIN.ad d)) m = Some (tt, release [] [] ab m).
Proof.
  induction js as [|j js IH]; intros ds m ab H Hab Hnd Hlive.
  - inversion H; subst. injection Hab as <-. by rewrite release_nil.
  - inversion H as [|? d ? ds' Hd Hds]; subst.
    rewrite fmap_cons, non_null_cons in Hab.
    apply mapM_app_inv in Hab as (l & ab' & Hl & Hab' & ->).
    apply NoDup_app in Hnd as (Hndl & Hdisj & Hnd').
    cbn [for_each]. erewrite bind_eq; cycle 1.
    { erewrite bind_eq; [|unfold load_dom; by rewrite Hd].
      instantiate (1 := release [] [] l m). instantiate (1 := tt).
      apply non_null_one in Hl as [[-> ->]|(b & -> & ->)].
      - by rewrite release_nil.
      - simpl. rewrite decide_True; [|split; [done|apply Hlive; by left]].
        unfold release, set_ali. cbn [m_ali m_hits m_view m_dom m_str foldl].
        do 3 f_equal. symmetry. apply ali_one. }
    rewrite (IH ds' (release [] [] l m) ab'); [by rewrite release_app|done..|].
    intros b Hb. simpl. apply elem_of_difference. split; [apply Hlive; set_solver|].
    rewrite elem_of_list_to_set. intros Hin. by apply (Hdisj b).
Qed.

Section Release.
(** The body of the loop over the records in [p7_tophits_Destroy] and
    [p7_tophits_Reuse], after [r] is read *)
Let release_record (r : P7_HIT.t) : M unit :=
  (if is_null (P7_HIT.name r) then ret tt else free_str (P7_HIT.name r));;
  (if is_null (P7_HIT.acc r) then ret tt else free_str (P7_HIT.acc r));;
  (if is_null (P7_HIT.desc r) then ret tt else free_str (P7_HIT.desc r));;
  (if is_null (P7_HIT.dcl r) then ret tt
   else
     for_loop 0 (P7_HIT.ndom r) (λ j,
       d ← load_dom (P7_HIT.dcl r) j;
       if is_null (P7_DOMAIN.ad d) then ret tt
       else p7_alidisplay_Destroy (P7_DOMAIN.ad d));;
     free_dom (P7_HIT.dcl r)).

Lemma release_record_spec r m sb db ads ab :
  mapM block_start (hit_strings r) = Some sb →
  NoDup sb → (∀ b, b ∈ sb → is_Some (m_str m !! b)) →
  mapM block_start (non_null [P7_HIT.dcl r]) = Some db →
  (∀ b, b ∈ db → is_Some (m_dom m !! b)) →
  hit_displays m r = Some ads → mapM block_start ads = Some ab →
  NoDup ab → (∀ b, b ∈ ab → b ∈ m_ali m) →
  release_record r m = Some (tt, release sb db ab m).
Proof.
  intros Hsb Hnd Hlive Hdb Hdlive Hads Hab Hnda Halive.
  unfold hit_strings in Hsb.
  rewrite non_null_cons, (non_null_cons (P7_HIT.acc r)) in Hsb.
  apply mapM_app_inv in Hsb as (l1 & l23 & H1 & H23 & ->).
  apply mapM_app_inv in H23 as (l2 & l3 & H2 & H3 & ->).
  apply NoDup_app in Hnd as (_ & Hd1 & Hnd).
  apply NoDup_app in Hnd as (_ & Hd2 & _).
  unfold release_record.
  erewrite bind_eq; [|apply (free_one_string _ l1); [done|]].
  2:{ intros b Hb. apply Hlive. set_solver. }
  erewrite bind_eq; [|apply (free_one_string _ l2); [done|]].
  2:{ intros b Hb. simpl. rewrite lookup_deleted; [apply Hlive; set_solver|].
      intros Hin. apply (Hd1 b Hin). set_solver. }
  erewrite bind_eq; [|apply (free_one_string _ l3); [done|]].
  2:{ intros b Hb. simpl. rewrite !lookup_deleted; [apply Hlive; set_solver| |].
      - intros Hin. apply (Hd1 b Hin). set_solver.
      - intros Hin. by apply (Hd2 b Hin). }
  rewrite !release_app. simpl app.
  set (m3 := release (l1 ++ l2 ++ l3) [] [] m).
  replace (release (l1 ++ l2 ++ l3) db ab m) with (release [] db ab m3)
    by (unfold m3; by rewrite release_app, app_nil_r).
  unfold hit_displays, hit_domains in Hads.
  apply non_null_one in Hdb as [[Hnull ->]|(bd & Hdcl & ->)].
  - rewrite Hnull in Hads |- *. simpl in Hads |- *. injection Hads as <-.
    injection Hab as <-. by rewrite release_nil.
  - rewrite Hdcl in Hads |- *. cbn [is_null] in Hads |- *.
    destruct (mapM (read_dom _ _) _) as [ds|] eqn:Hds; [|done].
    simpl in Hads. injection Hads as <-.
    unfold for_loop. rewrite Z.sub_0_r.
    erewrite bind_eq; [|apply (display_loop _ _ ds m3 ab); try done].
    2:{ by apply mapM_Some in Hds. }
    unfold free_dom. rewrite decide_True by done. simpl.
    destruct (Hdlive bd) as [a Ha]; [by left|]. rewrite Ha. simpl.
    unfold release, set_dom. simpl. do 3 f_equal. set_solver.
Qed.

Lemma owns_nil m sb db ab : owns m [] sb db ab → sb = [] ∧ db = [] ∧ ab = [].
Proof.
  intros [Hs Hd (ads & Hads & Ha) _ _ _]. simpl in *.
  injection Hs as <-. injection Hd as <-. injection Hads as <-. by injection Ha as <-.
Qed.

(** A record of [rs] with a domain array names one of the blocks. *)
Lemma owns_array m rs sb db ab r :
  owns m rs sb db ab → r ∈ rs → P7_HIT.dcl r ≠ NULL →
  ∃ b, P7_HIT.dcl r = Ptr b 0 ∧ b ∈ db.
Proof.
  intros [_ Hd _ _ _ _] Hr Hnn.
  assert (P7_HIT.dcl r ∈ non_null (P7_HIT.dcl <$> rs)) as Hin.
  { unfold non_null. apply list_elem_of_filter. split; [done|].
    apply list_elem_of_fmap. by exists r. }
  apply mapM_Some in Hd. apply list_elem_of_lookup in Hin as [i Hi].
  destruct (Forall2_lookup_l _ _ _ _ _ Hd Hi) as (b & Hb & Hstart).
  exists b. split; [|by eapply list_elem_of_lookup_2].
  unfold block_start in Hstart. destruct (P7_HIT.dcl r) as [|b' o]; [done|].
  destruct (decide (o = 0)) as [->|]; [|done]. by injection Hstart as ->.
Qed.

Lemma owns_cons m r rs sb db ab :
  owns m (r :: rs) sb db ab →
  ∃ sbr sb' dbr db' adr abr ab',
    sb = sbr ++ sb' ∧ db = dbr ++ db' ∧ ab = abr ++ ab' ∧
    mapM block_start (hit_strings r) = Some sbr ∧
    mapM block_start (non_null [P7_HIT.dcl r]) = Some dbr ∧
    hit_displays m r = Some adr ∧ mapM block_start adr = Some abr ∧
    owns (release sbr dbr abr m) rs sb' db' ab'.
Proof.
  intros [Hs Hd (ads & Hads & Ha) [Hnds Hls] [Hndd Hld] [Hnda Hla]].
  rewrite bind_cons in Hs. apply mapM_app_inv in Hs as (sbr & sb' & Hsr & Hs' & ->).
  rewrite fmap_cons, non_null_cons in Hd.
  apply mapM_app_inv in Hd as (dbr & db' & Hdr & Hd' & ->).
  apply mapM_Some in Hads. inversion Hads as [|? adr ? ads' Hadr Hads']; subst.
  simpl in Ha. apply mapM_app_inv in Ha as (abr & ab' & Har & Ha' & ->).
  apply NoDup_app in Hnds as (_ & Hds & Hnds).
  apply NoDup_app in Hndd as (_ & Hdd & Hndd).
  apply NoDup_app in Hnda as (_ & Hda & Hnda).
  exists sbr, sb', dbr, db', adr, abr, ab'. split_and!; try done.
  assert (owns m rs sb' db' ab') as Hrest.
  { constructor; try done.
    - exists ads'. by rewrite mapM_Some.
    - split; [done|]. intros b Hb. apply Hls. set_solver.
    - split; [done|]. intros b Hb. apply Hld. set_solver.
    - split; [done|]. intros b Hb. apply Hla. set_solver. }
  constructor; try done.
  - exists ads'. split; [|done]. apply mapM_Some.
    eapply Forall2_impl_in; [exact Hads'|]. intros r' ad' Hr' Had'. cbv beta in *.
    rewrite <- Had'. unfold hit_displays, hit_domains.
    destruct (is_null (P7_HIT.dcl r')) eqn:Hnull; [done|].
    destruct (owns_array _ _ _ _ _ r' Hrest Hr') as (b & Hb & Hin);
      [by destruct (P7_HIT.dcl r')|].
    rewrite Hb. f_equal. apply mapM_ext. intros j. unfold read_dom. simpl.
    rewrite lookup_deleted; [done|]. intros Hbr. by apply (Hdd b).
  - split; [done|]. intros b Hb. simpl. rewrite lookup_deleted.
    + apply Hls. set_solver.
    + intros Hin. by apply (Hds b).
  - split; [done|]. intros b Hb. simpl. rewrite lookup_deleted.
    + apply Hld. set_solver.
    + intros Hin. by apply (Hdd b).
  - split; [done|]. intros b Hb. simpl. apply elem_of_difference. split.
    + apply Hla. set_solver.
    + rewrite elem_of_list_to_set. intros Hin. by apply (Hda b).
Qed.

(** The loop over the records releases what they own and nothing else. *)
Lemma release_loop p : ∀ ixs rs m sb db ab,
  Forall2 (λ i r, read_at (m_hits m) p i = Some r) ixs rs →
  owns m rs sb db ab →
  for_each ixs (λ i, r ← load_hit p i; release_record r) m
    = Some (tt, release sb db ab m).
Proof.
  induction ixs as [|i ixs IH]; intros rs m sb db ab H Hown.
  - inversion H; subst. apply owns_nil in Hown as (-> & -> & ->).
    by rewrite release_nil.
  - inversion H as [|? r ? rs' Hr Hrs]; subst.
    pose proof Hown as [_ _ _ [Hnds Hls] [Hndd Hld] [Hnda Hla]].
    destruct (owns_cons _ _ _ _ _ _ Hown)
      as (sbr & sb' & dbr & db' & adr & abr & ab' & -> & -> & -> & Hsr & Hdr & Hadr
          & Har & Hrest).
    apply NoDup_app in Hnds as (Hn1 & _ & _).
    apply NoDup_app in Hnda as (Hn3 & _ & _).
    cbn [for_each]. erewrite bind_eq; cycle 1.
    { erewrite bind_eq; [|unfold load_hit; by rewrite Hr].
      apply (release_record_spec r m sbr dbr adr abr); try done.
      - intros b Hb. apply Hls. set_solver.
      - intros b Hb. apply Hld. set_solver.
      - intros b Hb. apply Hla. set_solver. }
    rewrite (IH rs' _ sb' db' ab'); [by rewrite release_app|done|done].
Qed.
End Release.

(** [p7_tophits_Destroy] and [p7_tophits_Reuse], step by step *)
Lemma Destroy_spec m h rs sb db ab b bv :
  P7_TOPHITS.hit h = Ptr bv 0 → is_Some (m_view m !! bv) →
  P7_TOPHITS.unsrt h = Ptr b 0 → is_Some (m_hits m !! b) →
  records m h = Some rs → owns m rs sb db ab →
  p7_tophits_Destroy (Some h) m
    = Some (tt, set_hits (delete b (m_hits m))
                  (set_view (delete bv (m_view m)) (release sb db ab m))).
Proof.
  intros Hh [w Hw] Hu [a Ha] Hrs Hown. unfold p7_tophits_Destroy.
  rewrite Hh. cbn [is_null].
  erewrite bind_eq; cycle 1.
  { unfold free_view, free_in. rewrite decide_True by done. rewrite Hw. reflexivity. }
  rewrite Hu. cbn [is_null]. unfold for_loop. rewrite Z.sub_0_r.
  unfold records in Hrs. rewrite Hu in Hrs. apply mapM_Some in Hrs.
  erewrite bind_eq; cycle 1.
  { apply (release_loop (Ptr b 0) _ rs _ sb db ab); [exact Hrs|].
    destruct Hown as [H1 H2 H3 H4 H5 H6]. by constructor. }
  unfold free_hits, free_in. rewrite decide_True by done. simpl. rewrite Ha. done.
Qed.

Lemma Reuse_spec m h rs sb db ab b bv w :
  P7_TOPHITS.hit h = Ptr bv 0 → m_view m !! bv = Some w → (0 < length w)%nat →
  P7_TOPHITS.unsrt h = Ptr b 0 →
  records m h = Some rs → owns m rs sb db ab →
  p7_tophits_Reuse (Some h) m
    = Some (eslOK, Some (P7_TOPHITS.set_is_sorted true (P7_TOPHITS.set_N 0 h)),
            set_view (<[bv := <[0%nat := Some (Ptr b 0)]> w]> (m_view m))
              (release sb db ab m)).
Proof.
  intros Hh Hw Hlw Hu Hrs Hown. unfold p7_tophits_Reuse.
  rewrite Hu. cbn [is_null]. unfold for_loop. rewrite Z.sub_0_r.
  unfold records in Hrs. rewrite Hu in Hrs. apply mapM_Some in Hrs.
  erewrite bind_eq; [|by apply (release_loop (Ptr b 0) _ rs _ sb db ab)].
  cbv zeta. cbn [P7_TOPHITS.hit P7_TOPHITS.unsrt P7_TOPHITS.set_is_sorted P7_TOPHITS.set_N].
  rewrite Hh. erewrite bind_eq; [|apply (store_view_block bv w 0); [exact Hw|lia|lia]].
  by rewrite Hu.
Qed.

Lemma owns_nothing m : owns m [] [] [] [].
Proof.
  constructor; try done; try (split; [constructor|by intros ? ?%elem_of_nil]).
  by exists [].
Qed.

(** X14. [p7_tophits_Destroy] on a valid list releases the two arrays of
    the list and what its records own, the strings, the domain arrays
    and the displays of the domains, and leaves every other block of the
    memory as it is. *)
Theorem Destroy_releases_what_the_list_owns m h rs sb db ab :
  valid_tophits m h → records m h = Some rs → owns m rs sb db ab →
  ∃ b bv, P7_TOPHITS.unsrt h = Ptr b 0 ∧ P7_TOPHITS.hit h = Ptr bv 0 ∧
    p7_tophits_Destroy (Some h) m
      = Some (tt, set_hits (delete b (m_hits m))
                    (set_view (delete bv (m_view m)) (release sb db ab m))).
Proof.
  intros Hv Hrs Hown.
  destruct (vt_unsrt _ _ Hv) as (b & a & Hu & Hb & _).
  destruct (vt_hit _ _ Hv) as (bv & w & Hh & Hbv & _).
  exists b, bv. split_and!; [done..|].
  by apply (Destroy_spec m h rs).
Qed.

(** X15. [p7_tophits_Reuse] on a valid list releases what the records own
    and returns [eslOK] with the same two arrays: the list is empty and
    sorted, its size [Nalloc] and its count [nreported] are as before
    (the count is not reset), [hit[0]] holds the address of the record
    array, and the list is valid, so that records can be appended again.
    The record array itself is not written. *)
Theorem Reuse_empties_the_list m h rs sb db ab :
  valid_tophits m h → records m h = Some rs → owns m rs sb db ab →
  ∃ h' m' bv w,
    p7_tophits_Reuse (Some h) m = Some (eslOK, Some h', m') ∧
    h' = P7_TOPHITS.set_is_sorted true (P7_TOPHITS.set_N 0 h) ∧
    P7_TOPHITS.nreported h' = P7_TOPHITS.nreported h ∧
    P7_TOPHITS.hit h = Ptr bv 0 ∧ m_view m !! bv = Some w ∧
    m' = set_view (<[bv := <[0%nat := Some (P7_TOPHITS.unsrt h)]> w]> (m_view m))
           (release sb db ab m) ∧
    records m' h' = Some [] ∧ valid_tophits m' h' ∧ first_slot m' h'.
Proof.
  intros Hv Hrs Hown.
  destruct (vt_unsrt _ _ Hv) as (b & a & Hu & Hb & Hla & _).
  destruct (vt_hit _ _ Hv) as (bv & w & Hh & Hbv & Hlw).
  pose proof (vt_N _ _ Hv) as HN. pose proof (vt_Nalloc _ _ Hv) as HNa.
  assert (0 < length w)%nat as Hpos by lia.
  eexists _, _, bv, w. split; [by apply (Reuse_spec m h rs sb db ab b bv w)|].
  rewrite Hu. split_and!; try done.
  - constructor; simpl; try lia.
    + exists b, a. split_and!; [done|done|lia|]. intros i Hi. lia.
    + exists bv, (<[0%nat := Some (Ptr b 0)]> w).
      rewrite lookup_insert_eq, length_insert. done.
    + intros _. exists []. split_and!; [done| |constructor].
      unfold record_ptrs. simpl. by rewrite Hu.
  - intros _. simpl. rewrite Hh.
    apply (read_at_block _ bv (<[0%nat := Some (Ptr b 0)]> w)); [|done|].
    + by rewrite lookup_insert_eq.
    + rewrite Hu. change (Z.to_nat 0) with 0%nat. by rewrite list_lookup_insert_eq.
Qed.

(** X16. After [p7_tophits_Reuse], a second [p7_tophits_Reuse] changes
    nothing, and [p7_tophits_Destroy] releases the two arrays only: the
    memory is then the one that [p7_tophits_Destroy] would have left if
    it had been called at once, although the records still hold the
    addresses that were released. *)
Theorem Reuse_then_Destroy m h rs sb db ab :
  valid_tophits m h → records m h = Some rs → owns m rs sb db ab →
  ∃ h' m' m'',
    p7_tophits_Reuse (Some h) m = Some (eslOK, Some h', m') ∧
    p7_tophits_Reuse (Some h') m' = Some (eslOK, Some h', m') ∧
    p7_tophits_Destroy (Some h') m' = Some (tt, m'') ∧
    p7_tophits_Destroy (Some h) m = Some (tt, m'').
Proof.
  intros Hv Hrs Hown.
  destruct (vt_unsrt _ _ Hv) as (b & a & Hu & Hb & Hla & _).
  destruct (vt_hit _ _ Hv) as (bv & w & Hh & Hbv & Hlw).
  pose proof (vt_N _ _ Hv) as HN. pose proof (vt_Nalloc _ _ Hv) as HNa.
  assert (0 < length w)%nat as Hpos by lia.
  set (h' := P7_TOPHITS.set_is_sorted true (P7_TOPHITS.set_N 0 h)).
  set (w' := <[0%nat := Some (Ptr b 0)]> w).
  set (m' := set_view (<[bv := w']> (m_view m)) (release sb db ab m)).
  exists h', m', (set_hits (delete b (m_hits m))
                   (set_view (delete bv (m_view m)) (release sb db ab m))).
  split_and!.
  - by apply (Reuse_spec m h rs sb db ab b bv w).
  - rewrite (Reuse_spec m' h' [] [] [] [] b bv w'); try done.
    + do 2 f_equal. unfold m', w'. apply mem_eq; simpl; try done; [|apply ali_none].
      by rewrite insert_insert_eq, list_insert_insert_eq.
    + unfold m'. simpl. by rewrite lookup_insert_eq.
    + unfold w'. by rewrite length_insert.
    + apply owns_nothing.
  - rewrite (Destroy_spec m' h' [] [] [] [] b bv); try done.
    + do 2 f_equal. unfold m'. apply mem_eq; simpl; try done; [|apply ali_none].
      by rewrite delete_insert_eq.
    + unfold m'. simpl. rewrite lookup_insert_eq. by eexists.
    + apply owns_nothing.
  - by apply (Destroy_spec m h rs).
Qed.

(** ** Appending to a full list when the allocator fails *)

(** X17. When the list is full and one of the two reallocations fails,
    [p7_tophits_CreateNextHit] returns [eslEMEM] and a null pointer and
    appends nothing: the number of records, the size, the flag and the
    records are as before, and the list is still valid. *)
Theorem CreateNextHit_failure_appends_nothing o1 o2 h m :
  valid_tophits m h →
  P7_TOPHITS.Nalloc h ≤ P7_TOPHITS.N h →
  o1 = AllocFail ∨ o2 = AllocFail →
  ∃ h' m',
    p7_tophits_CreateNextHit o1 o2 h m = Some (eslEMEM, NULL, h', m') ∧
    P7_TOPHITS.N h' = P7_TOPHITS.N h ∧
    P7_TOPHITS.Nalloc h' = P7_TOPHITS.Nalloc h ∧
    P7_TOPHITS.is_sorted h' = P7_TOPHITS.is_sorted h ∧
    P7_TOPHITS.nreported h' = P7_TOPHITS.nreported h ∧
    P7_TOPHITS.unsrt h' = P7_TOPHITS.unsrt h ∧
    records m' h' = records m h ∧
    valid_tophits m' h'.
Proof.
  intros Hv Hfull Hfail.
  destruct (Grow_fails_spec o1 o2 h m Hv Hfull Hfail)
    as (h' & m' & HG & _ & Eh & Hhits & _ & _ & _ & _ & Hv').
  exists h', m'. unfold p7_tophits_CreateNextHit.
  erewrite bind_eq; [|exact HG]. split; [done|].
  rewrite <- Eh. destruct h'. simpl. split_and!; try done.
  unfold records. simpl. by rewrite Hhits.
Qed.

(** ** The comparison that [qsort] is given *)

(** X18. On the records of a list with comparable keys, [hit_sorter] is a
    comparison as [qsort] needs one: it orders any two records one way
    or the other, and it is transitive. *)
Theorem hit_sorter_is_consistent m h :
  comparable_keys m h = true → consistent (hit_sorter m) (record_ptrs h).
Proof. intros Hc. apply hit_sorter_consistent. by apply record_ptrs_good. Qed.

(** ** Destroying both lists after a merge *)

Lemma records_block m m' h b :
  P7_TOPHITS.unsrt h = Ptr b 0 → m_hits m' !! b = m_hits m !! b →
  records m' h = records m h.
Proof.
  intros Hu Hb. unfold records. rewrite Hu. apply mapM_ext. intros i.
  unfold read_at, cell_at. by rewrite Hb.
Qed.

Lemma owns_ext m m' rs sb db ab :
  m_str m' = m_str m → m_dom m' = m_dom m → m_ali m' = m_ali m →
  owns m rs sb db ab → owns m' rs sb db ab.
Proof.
  intros Hs Hd Ha [H1 H2 (ads & H3 & H3') H4 H5 H6].
  constructor; rewrite ?Hs, ?Hd, ?Ha; try done.
  exists ads. split; [|done]. rewrite <- H3. apply mapM_ext. intros r.
  unfold hit_displays, hit_domains. by rewrite Hd.
Qed.

(** Records that own no domain array *)
Lemma owns_no_array m rs sb ab r :
  owns m rs sb [] ab → r ∈ rs → P7_HIT.dcl r = NULL.
Proof.
  intros Hown Hr. destruct (decide (P7_HIT.dcl r = NULL)) as [|Hnn]; [done|].
  destruct (owns_array _ _ _ _ _ r Hown Hr Hnn) as (b & _ & Hb).
  by apply elem_of_nil in Hb.
Qed.

Lemma owns_app_r m rs1 rs2 sb ab :
  owns m (rs1 ++ rs2) sb [] ab → ∀ r, r ∈ rs2 → P7_HIT.dcl r = NULL.
Proof.
  intros Hown r Hr. apply (owns_no_array m (rs1 ++ rs2) sb ab); [done|].
  apply elem_of_app. by right.
Qed.

(** The donor's records after the merge own nothing of their own, when
    they had no domain array. *)
Lemma owns_donor m rs :
  (∀ r, r ∈ rs → P7_HIT.dcl r = NULL) → owns m (null_strings <$> rs) [] [] [].
Proof.
  intros Hnull.
  assert ((null_strings <$> rs) ≫= hit_strings = [] ∧
          non_null (P7_HIT.dcl <$> (null_strings <$> rs)) = [] ∧
          ∃ ads, mapM (hit_displays m) (null_strings <$> rs) = Some ads ∧
                 concat ads = []) as (H1 & H2 & ads & H3 & H4).
  { induction rs as [|r rs IH]; [split_and!; [done..|by exists []]|].
    destruct IH as (H1 & H2 & ads & H3 & H4); [intros r' Hr'; apply Hnull; by right|].
    assert (P7_HIT.dcl r = NULL) as Hr by (apply Hnull; by left).
    split_and!.
    - rewrite fmap_cons, bind_cons, H1. done.
    - rewrite !fmap_cons, non_null_cons, H2. simpl. rewrite Hr. done.
    - exists ([] :: ads). split; [|done]. rewrite fmap_cons. apply mapM_Some.
      constructor; [|by apply mapM_Some].
      unfold hit_displays, hit_domains. simpl. by rewrite Hr. }
  constructor; rewrite ?H1, ?H2; try done; try (split; [constructor|by intros ? ?%elem_of_nil]).
  exists ads. by rewrite H4.
Qed.

(** X19. When no record of the two lists has a domain array and the
    records own their strings, a successful merge can be followed by
    [p7_tophits_Destroy] of the donor and then of the recipient: both
    calls are defined, the first frees no string, and together they free
    each string of the two lists once and leave the domains and the
    displays alone. *)
Theorem Merge_then_Destroy_both qsort o1 o2 m h1 h2 rs1 rs2 sb :
  qsort_contract qsort →
  valid_tophits m h1 → valid_tophits m h2 → separate h1 h2 →
  comparable_keys m h1 = true → comparable_keys m h2 = true →
  o1 ≠ AllocFail → o2 ≠ AllocFail →
  P7_TOPHITS.Nalloc h1 + P7_TOPHITS.Nalloc h2 ≤ INT_MAX →
  records m h1 = Some rs1 → records m h2 = Some rs2 →
  owns m (rs1 ++ rs2) sb [] [] →
  ∃ h1' h2' m1 m2 m3,
    p7_tophits_Merge qsort o1 o2 h1 h2 m = Some (eslOK, h1', h2', m1) ∧
    p7_tophits_Destroy (Some h2') m1 = Some (tt, m2) ∧
    m_str m2 = m_str m ∧
    p7_tophits_Destroy (Some h1') m2 = Some (tt, m3) ∧
    m_str m3 = foldl (λ s b, delete b s) (m_str m) sb ∧
    m_dom m3 = m_dom m ∧ m_ali m3 = m_ali m.
Proof.
  intros Hq Hv1 Hv2 Hsep Hc1 Hc2 Ho1 Ho2 Hsum Hr1 Hr2 Hown.
  destruct (Merge_ok_full qsort o1 o2 m h1 h2 Hq Hv1 Hv2 Hsep Hc1 Hc2 Ho1 Ho2 Hsum)
    as (m' & bn & b' & rs1' & rs2' & l1 & l2 & HM & Hrs1 & Hrs2 & Hrec & Hrec2 & _
        & _ & _ & _ & _ & _ & Hdom & Hstr & Hali
        & m0 & l1o & l2o & a' & w' & bv1 & bv2 & b2 & a2' & _ & _ & _ & _ & _ & _ & _ & _
        & Hb' & _ & Hbn & _ & _ & _ & Hh2 & _ & Hu2 & Hb2 & _ & Hb'2 & Hbn2 & Hv2').
  cbv zeta in *.
  assert (rs1' = rs1) as -> by congruence. assert (rs2' = rs2) as -> by congruence.
  set (h1' := P7_TOPHITS.mk (Ptr bn 0) (Ptr b' 0) _ _ _ true) in *.
  set (h2' := P7_TOPHITS.set_is_sorted true h2) in *.
  destruct (vt_hit _ _ Hv2') as (bv2' & w2 & Hh2' & Hbv2 & _).
  assert (bv2' = bv2) as -> by (unfold h2' in Hh2'; simpl in Hh2'; congruence).
  set (m2 := set_hits (delete b2 (m_hits m'))
               (set_view (delete bv2 (m_view m')) (release [] [] [] m'))).
  assert (p7_tophits_Destroy (Some h2') m' = Some (tt, m2)) as HD2.
  { apply (Destroy_spec m' h2' (null_strings <$> rs2)); try done.
    apply owns_donor. by apply (owns_app_r m rs1 rs2 sb []). }
  assert (m_str m2 = m_str m ∧ m_dom m2 = m_dom m ∧ m_ali m2 = m_ali m)
    as (Hstr2 & Hdom2 & Hali2).
  { unfold m2. simpl. split_and!; [done|done|]. rewrite Hali. apply ali_none. }
  eexists h1', h2', m', m2, _. split_and!; [exact HM|exact HD2|exact Hstr2| |..].
  - apply (Destroy_spec m2 h1' (rs1 ++ rs2) sb [] [] b' bn); try done.
    + unfold m2. simpl. rewrite lookup_delete_ne by done. by eexists.
    + unfold m2. simpl. rewrite lookup_delete_ne by done. by eexists.
    + rewrite <- Hrec. apply (records_block m' m2 h1' b'); [done|].
      unfold m2. simpl. by rewrite lookup_delete_ne.
    + by apply (owns_ext m).
  - simpl. by rewrite Hstr.
  - simpl. by rewrite Hdom.
  - simpl. rewrite Hali. rewrite ali_none. apply ali_none.
Qed.

(** * The further statements on small lists *)

Lemma Create_gives_empty_list_witness :
  ∃ h m',
    p7_tophits_Create AllocInPlace AllocInPlace AllocInPlace empty_mem = Some (Some h, m') ∧
    records m' h = Some [] ∧ valid_tophits m' h ∧ first_slot m' h.
Proof.
  destruct (Create_gives_empty_list AllocInPlace AllocInPlace AllocInPlace empty_mem)
    as (bv & b & m' & H & _ & _ & _ & _ & _ & _ & _ & Hr & Hv & Hf); [by_eval..|].
  by eexists _, m'.
Defined.

Lemma Create_failure_releases_all_witness :
  p7_tophits_Create AllocInPlace AllocFail AllocInPlace tie_mem = Some (None, tie_mem).
Proof. apply Create_failure_releases_all. right. left. reflexivity. Defined.

Lemma Destroy_undoes_Create_witness :
  ∃ h m',
    p7_tophits_Create AllocInPlace AllocInPlace AllocInPlace tie_mem = Some (Some h, m') ∧
    p7_tophits_Destroy (Some h) m' = Some (tt, tie_mem).
Proof.
  eexists _, _. split; [by_eval|].
  apply (Destroy_undoes_Create AllocInPlace AllocInPlace AllocInPlace). by_eval.
Defined.

Lemma Grow_doubles_room_witness :
  ∃ h' m',
    p7_tophits_Grow AllocMoved AllocMoved (single 1) tie_mem = Some (eslOK, h', m') ∧
    P7_TOPHITS.Nalloc h' = 2 * P7_TOPHITS.Nalloc (single 1) ∧
    records m' h' = records tie_mem (single 1) ∧
    valid_tophits m' h'.
Proof.
  destruct (Grow_doubles_room AllocMoved AllocMoved (single 1) tie_mem)
    as (h' & m' & H & Ha & _ & _ & _ & Hr & _ & Hv & _); [closed_list..|].
  by exists h', m'.
Defined.

Lemma CreateNextHit_appends_empty_record_witness :
  ∃ p h' m',
    p7_tophits_CreateNextHit AllocMoved AllocMoved new_list new_mem
      = Some (eslOK, p, h', m') ∧
    records m' h' = Some [P7_HIT.empty] ∧
    P7_TOPHITS.is_sorted h' = true ∧
    valid_tophits m' h'.
Proof.
  destruct (CreateNextHit_appends_empty_record AllocMoved AllocMoved new_list new_mem)
    as (p & h' & m' & rs & H & Hrs & Hrs' & _ & _ & _ & _ & Hs & Hv & _).
  - closed_list.
  - left. by_eval.
  - exists p, h', m'. split_and!; [done| |done|].
    + rewrite Hrs'. f_equal. by injection Hrs as <-.
    + apply Hv. intros _ _. by_eval.
Defined.

(** An empty list whose [hit[0]] was never written: the merge of two
    new lists is one, its ranking being a new array. It is valid, but the
    record appended to it is not in its ranking, and the list is still
    flagged sorted. *)
Lemma CreateNextHit_after_Merge_of_new_lists :
  ∃ ha ma hb mb h1 h2 m1 p h' m2,
    p7_tophits_Create AllocInPlace AllocInPlace AllocInPlace empty_mem
      = Some (Some ha, ma) ∧
    p7_tophits_Create AllocInPlace AllocInPlace AllocInPlace ma = Some (Some hb, mb) ∧
    p7_tophits_Merge insertion_sort AllocInPlace AllocInPlace ha hb mb
      = Some (eslOK, h1, h2, m1) ∧
    valid_tophitsb m1 h1 = true ∧
    P7_TOPHITS.N h1 = 0 ∧ P7_TOPHITS.is_sorted h1 = true ∧
    read_at (m_view m1) (P7_TOPHITS.hit h1) 0 = None ∧
    p7_tophits_CreateNextHit AllocInPlace AllocInPlace h1 m1 = Some (eslOK, p, h', m2) ∧
    P7_TOPHITS.N h' = 1 ∧ P7_TOPHITS.is_sorted h' = true ∧
    view_ptrs m2 h' = None ∧ valid_tophitsb m2 h' = false.
Proof.
  eexists _, _, _, _, _, _, _, _, _, _.
  repeat (split; [by_eval|]). by_eval.
Qed.

Lemma hit_sorter_greater_key_first_witness :
  hit_sorter unsorted_mem (Ptr 1 1) (Ptr 1 0)
  = - hit_sorter unsorted_mem (Ptr 1 0) (Ptr 1 1).
Proof.
  destruct (hit_sorter_greater_key_first unsorted_mem (Ptr 1 0) (Ptr 1 1)
              (tagged one 1) (tagged two 2)) as (_ & _ & _ & _ & H); [by_eval..|].
  exact H.
Defined.

Lemma Sort_touches_only_the_ranking_witness :
  ∃ m',
    p7_tophits_Sort insertion_sort (pair_unsorted 1) unsorted_mem
      = Some (eslOK, P7_TOPHITS.set_is_sorted true (pair_unsorted 1), m') ∧
    m_hits m' = m_hits unsorted_mem ∧
    valid_tophits m' (P7_TOPHITS.set_is_sorted true (pair_unsorted 1)).
Proof.
  destruct (Sort_touches_only_the_ranking insertion_sort unsorted_mem (pair_unsorted 1))
    as (m' & H & Hh & _ & _ & _ & _ & _ & _ & Hv); [closed_list..|].
  by exists m'.
Defined.

Lemma Sort_ranks_best_first_witness :
  ∃ h' m' rs rsv,
    p7_tophits_Sort insertion_sort (pair_unsorted 1) unsorted_mem = Some (eslOK, h', m') ∧
    records unsorted_mem (pair_unsorted 1) = Some rs ∧
    view_records m' h' = Some rsv ∧ rsv ≡ₚ rs ∧
    ∀ top low r, head rsv = Some top → last rsv = Some low → r ∈ rs →
      Double.ge (P7_HIT.sortkey top) (P7_HIT.sortkey r) = true ∧
      Double.ge (P7_HIT.sortkey r) (P7_HIT.sortkey low) = true.
Proof.
  apply Sort_ranks_best_first; closed_list.
Defined.

Lemma Merge_leaves_valid_lists_witness :
  ∃ h1' m',
    p7_tophits_Merge insertion_sort AllocMoved AllocMoved (pair_unsorted 1) (single 2)
      unsorted_mem = Some (eslOK, h1', P7_TOPHITS.set_is_sorted true (single 2), m') ∧
    P7_TOPHITS.N h1' = 3 ∧
    valid_tophits m' h1' ∧
    valid_tophits m' (P7_TOPHITS.set_is_sorted true (single 2)) ∧
    separate h1' (P7_TOPHITS.set_is_sorted true (single 2)).
Proof.
  destruct (Merge_leaves_valid_lists insertion_sort AllocMoved AllocMoved unsorted_mem
              (pair_unsorted 1) (single 2))
    as (h1' & m' & H & _ & HN & _ & _ & Hv1 & _ & Hv2 & _ & Hsep & _); [closed_list..|].
  exists h1', m'. split; [exact H|]. split; [exact HN|]. split; [exact Hv1|].
  split; [exact Hv2|exact Hsep].
Defined.

Lemma Merge_is_the_stable_merge_witness :
  ∃ h1' h2' m' rv1 rv2,
    p7_tophits_Merge insertion_sort AllocMoved AllocMoved (single 1) (single 2) tie_mem
      = Some (eslOK, h1', h2', m') ∧
    view_records tie_mem (single 1) = Some rv1 ∧
    view_records tie_mem (single 2) = Some rv2 ∧
    view_records m' h1' = Some (merge_records rv1 rv2).
Proof.
  destruct (Merge_is_the_stable_merge insertion_sort AllocMoved AllocMoved tie_mem
              (single 1) (single 2))
    as (h1' & h2' & m' & rv1 & rv2 & H & H1 & H2 & Hm & _); [closed_list..|].
  exists h1', h2', m', rv1, rv2. split; [exact H|]. split; [exact H1|].
  split; [exact H2|exact Hm].
Defined.

Lemma Threshold_counts_reportable_hits_witness :
  ∃ th' pli' m' rs,
    p7_tophits_Threshold any_target domain_above_two (single 1) pli0 domain_mem
      = Some (eslOK, th', pli', m') ∧
    view_records domain_mem (single 1) = Some rs ∧
    P7_TOPHITS.nreported th' = 1 ∧
    P7_PIPELINE.domZ pli' = Double.of_int 1.
Proof.
  destruct (Threshold_counts_reportable_hits any_target domain_above_two (single 1) pli0
              domain_mem) as (th' & pli' & m' & rs & H & Hrs & -> & ->); [closed_list..|].
  assert (rs = [with_domains one 2 0 (Ptr 1 0)]) as -> by (revert Hrs; by_eval).
  eexists _, _, m', _. split_and!; [exact H|exact Hrs|by_eval..].
Defined.

Lemma Threshold_only_raises_marks_witness :
  ∃ th' pli' m',
    p7_tophits_Threshold any_target domain_above_two (single 1) pli0 domain_mem
      = Some (eslOK, th', pli', m') ∧
    m_view m' = m_view domain_mem ∧ dom_ext domain_mem m' ∧ valid_tophits m' th'.
Proof.
  destruct (Threshold_only_raises_marks any_target domain_above_two (single 1) pli0
              domain_mem) as (th' & pli' & m' & H & Hv & _ & _ & He & _ & _ & Hvalid);
    [closed_list..|].
  by exists th', pli', m'.
Defined.

Lemma GetMaxNameLength_is_the_maximum_witness :
  ∃ mx,
    p7_tophits_GetMaxNameLength (single 1) display_mem = Some (mx, display_mem) ∧
    (mx = 0 ∨ ∃ r, r ∈ [owner_hit] ∧ name_length display_mem r = Some mx).
Proof.
  destruct (GetMaxNameLength_is_the_maximum (single 1) display_mem [owner_hit])
    as (mx & H & _ & Hw & _).
  - by_eval.
  - intros r ->%list_elem_of_singleton. right. exists 4. split; by_eval.
  - by exists mx.
Defined.

(** A decidable fact about closed terms *)
Ltac decided :=
  match goal with |- ?P => apply (bool_decide_eq_true_1 P); by_eval end.

(** The one record of [display_mem] owns two strings, one array of
    domains and one display. *)
Lemma display_mem_owns :
  owns display_mem [owner_hit] [1%positive; 2%positive] [1%positive] [5%positive].
Proof.
  constructor.
  - by_eval.
  - by_eval.
  - exists [[Ptr 5 0]]. split; by_eval.
  - split; [decided|]. apply Forall_forall. decided.
  - split; [decided|]. apply Forall_forall. decided.
  - split; [decided|]. apply Forall_forall. decided.
Qed.

Lemma Destroy_releases_what_the_list_owns_witness :
  p7_tophits_Destroy (Some (single 1)) display_mem = Some (tt, empty_mem).
Proof.
  destruct (Destroy_releases_what_the_list_owns display_mem (single 1) [owner_hit]
              [1%positive; 2%positive] [1%positive] [5%positive])
    as (b & bv & Hu & Hh & H); [closed_list|by_eval|apply display_mem_owns|].
  rewrite H. injection Hu as <-. injection Hh as <-. by_eval.
Defined.

Lemma Reuse_empties_the_list_witness :
  ∃ h' m',
    p7_tophits_Reuse (Some (single 1)) display_mem = Some (eslOK, Some h', m') ∧
    P7_TOPHITS.N h' = 0 ∧ m_hits m' = m_hits display_mem ∧
    m_str m' = ∅ ∧ m_dom m' = ∅ ∧ m_ali m' = ∅ ∧
    valid_tophits m' h' ∧ first_slot m' h'.
Proof.
  destruct (Reuse_empties_the_list display_mem (single 1) [owner_hit]
              [1%positive; 2%positive] [1%positive] [5%positive])
    as (h' & m' & bv & w & H & -> & _ & Hh & Hw & -> & _ & Hv & Hf);
    [closed_list|by_eval|apply display_mem_owns|].
  eexists _, _. split; [exact H|]. split_and!; [by_eval..|exact Hv|exact Hf].
Defined.

Lemma Reuse_then_Destroy_witness :
  ∃ h' m',
    p7_tophits_Reuse (Some (single 1)) display_mem = Some (eslOK, Some h', m') ∧
    p7_tophits_Destroy (Some h') m' = Some (tt, empty_mem) ∧
    p7_tophits_Destroy (Some (single 1)) display_mem = Some (tt, empty_mem).
Proof.
  destruct (Reuse_then_Destroy display_mem (single 1) [owner_hit]
              [1%positive; 2%positive] [1%positive] [5%positive])
    as (h' & m' & m'' & H1 & _ & H2 & H3);
    [closed_list|by_eval|apply display_mem_owns|].
  exists h', m'. split; [exact H1|].
  assert (m'' = empty_mem) as <-; [|by split].
  revert H3. by_eval.
Defined.

Lemma CreateNextHit_failure_appends_nothing_witness :
  ∃ h' m',
    p7_tophits_CreateNextHit AllocMoved AllocFail (single 1) tie_mem
      = Some (eslEMEM, NULL, h', m') ∧
    P7_TOPHITS.N h' = 1 ∧ records m' h' = records tie_mem (single 1) ∧
    valid_tophits m' h'.
Proof.
  destruct (CreateNextHit_failure_appends_nothing AllocMoved AllocFail (single 1) tie_mem)
    as (h' & m' & H & HN & _ & _ & _ & _ & Hr & Hv); [closed_list|by_eval|by right|].
  by exists h', m'.
Defined.

Lemma hit_sorter_is_consistent_witness :
  consistent (hit_sorter unsorted_mem) (record_ptrs (pair_unsorted 1)).
Proof. apply hit_sorter_is_consistent. by_eval. Defined.

(** The two records of [names_mem] own their names. *)
Lemma names_mem_owns :
  owns names_mem ([named two 1 (Ptr 1 0)] ++ [named one 2 (Ptr 2 0)])
    [1%positive; 2%positive] [] [].
Proof.
  constructor.
  - by_eval.
  - by_eval.
  - exists [[]; []]. split; by_eval.
  - split; [decided|]. apply Forall_forall. decided.
  - split; [constructor|]. by intros ? ?%elem_of_nil.
  - split; [constructor|]. by intros ? ?%elem_of_nil.
Qed.

Lemma Merge_then_Destroy_both_witness :
  ∃ h1' h2' m1 m2 m3,
    p7_tophits_Merge insertion_sort AllocMoved AllocMoved (single 1) (single 2) names_mem
      = Some (eslOK, h1', h2', m1) ∧
    p7_tophits_Destroy (Some h2') m1 = Some (tt, m2) ∧
    p7_tophits_Destroy (Some h1') m2 = Some (tt, m3) ∧
    m_str m3 = ∅.
Proof.
  destruct (Merge_then_Destroy_both insertion_sort AllocMoved AllocMoved names_mem
              (single 1) (single 2) [named two 1 (Ptr 1 0)] [named one 2 (Ptr 2 0)]
              [1%positive; 2%positive])
    as (h1' & h2' & m1 & m2 & m3 & H1 & H2 & _ & H3 & Hs & _).
  1-11: closed_list.
  - apply names_mem_owns.
  - exists h1', h2', m1, m2, m3. split; [exact H1|]. split; [exact H2|].
    split; [exact H3|]. rewrite Hs. by_eval.
Defined.
